(** * LGraphCanvas: selection model, pointer gestures and link routing

    A shallow embedding of the parts of [src/LGraphCanvas.ts] that decide what
    a pointer gesture means, how the selection set evolves and how a link
    between two anchors is routed, together with the keyboard handler, the
    hit tests of slots, widgets and link centres, and [getFileExtension].

    Conventions of the embedding.
    - A JavaScript [number] is an IEEE-754 binary64 value: [float].
    - Objects that the canvas only holds references to (nodes, groups,
      reroutes) are references [Ref] into a [heap]; the mutable [selected]
      property of those objects is the field store [item_selected].
    - A JavaScript [Set] is an insertion-ordered list without repetition.
    - An object used as a dictionary is a [gmap] over its property keys.
    - The arrow functions assigned to the hook slots of the pointer session
      are defunctionalised: one constructor per arrow function of the source,
      carrying the variables the closure captures.
    - Calls that leave the canvas (graph model, user callbacks, DOM events)
      are recorded, in program order, in the [trace] of the canvas. *)

From Stdlib Require Import Floats ZArith Ascii.
From stdpp Require Import gmap list strings.

Local Open Scope Z_scope.

(** ** Numbers, points, rectangles *)

Abbreviation number := float (only parsing).

(** A [Point] is a two element array, a [Rect] a four element array
    [x, y, width, height]. *)
Record Point := mkPoint { px : float; py : float }.
Record Rect := mkRect { rx : float; ry : float; rw : float; rh : float }.

(** ** References and identifiers *)

Definition Ref := positive.
Definition NodeId := Z.
Definition LinkId := Z.
Definition RerouteId := Z.

(** [highlighted_links[input.link]] is indexed by the property key of the
    value: the link id, or the key ["null"] when the slot has no link. *)
Definition LinkKey := option LinkId.

Definition ISlotType := string.

Record INodeInputSlot := {
  in_link : option LinkId;
  in_type : ISlotType;
  in_name : option string;
  in_label : option string }.

Record INodeOutputSlot := {
  out_links : option (list LinkId);
  out_type : ISlotType }.

Record LGraphNode := {
  node_id : NodeId;
  inputs : option (list INodeInputSlot);
  outputs : option (list INodeOutputSlot);
  boundingRect : Rect;
  node_pos : Point;
  node_horizontal : bool;
  flags_pinned : bool;
  flags_collapsed : bool;
  flags_allow_interaction : bool;
  (** [node.resizable !== false] *)
  node_resizable : bool }.

Record LGraphGroup := {
  group_id : Z;
  _bounding : Rect;
  group_pos : Point;
  group_size : Point;
  font_size : option float }.

Record Reroute := {
  reroute_id : RerouteId;
  reroute_pos : Point }.

(** The classes implementing [Positionable]. *)
Inductive Obj :=
| ONode (n : LGraphNode)
| OGroup (g : LGraphGroup)
| OReroute (r : Reroute).

Definition obj_id (o : Obj) : Z :=
  match o with
  | ONode n => node_id n
  | OGroup g => group_id g
  | OReroute r => reroute_id r
  end.

(** The part of [LGraph] the canvas iterates over. *)
Record LGraph := {
  _nodes : list Ref;
  groups : list Ref;
  reroutes : list Ref }.

(** ** Events *)

Record CanvasPointerEvent := {
  canvasX : float;
  canvasY : float;
  clientX : float;
  clientY : float;
  button : Z;
  shiftKey : bool;
  altKey : bool;
  ctrlKey : bool;
  metaKey : bool;
  isPrimary : bool }.

(** ** Link segments and paths *)

Inductive PathCmd :=
| MoveTo (x y : float)
| LineTo (x y : float)
| BezierCurveTo (c1x c1y c2x c2y x y : float).

(** A [Path2D] is the sequence of commands issued on it. *)
Definition Path2D := list PathCmd.

(** [LinkSegment]: the render cache shared by [LLink] and [Reroute]. *)
Record LinkSegment := {
  seg_id : Z;
  seg_parentId : option RerouteId;
  seg_path : option Path2D;
  _pos : option Point;
  _centreAngle : option float;
  origin_id : NodeId;
  origin_slot : Z }.

(** ** Widgets

    The callbacks of a widget are user code; the record keeps what the canvas
    observes of them. *)
Record IWidget := {
  widget_name : string;
  widget_type : string;
  (** [None]: [onPointerDown] is not a function; [Some h]: it returns [h]. *)
  widget_onPointerDown : option bool;
  (** [None]: no legacy [mouse] callback; [Some r]: it returns [r]. *)
  widget_mouse : option (option bool);
  widget_options_read_only : bool;
  (** whether the callbacks run during the press changed [widget.value] *)
  widget_value_changed : bool;
  (** whether the click handler of the widget reaches [dirty_canvas = true] *)
  widget_click_dirty : bool }.

(** ** In-progress connections *)

(** The direction hints of a link end.  A missing or falsy hint is [None] of
    [option LinkDirection]. *)
Inductive LinkDirection := UP | DOWN | LEFT | RIGHT | CENTER.

Record ConnectingLink := {
  cl_node : Ref;
  cl_slot : Z;
  cl_input : option INodeInputSlot;
  cl_output : option INodeOutputSlot;
  cl_pos : Point;
  cl_afterRerouteId : option RerouteId;
  cl_direction : option LinkDirection }.

(** ** Calls that leave the canvas *)

Inductive CanvasEventDetail :=
| Ev_before_change
| Ev_after_change
| Ev_group_double_click (group : Ref)
| Ev_empty_double_click
| Ev_connectingWidgetLink (link : ConnectingLink) (node : Ref) (widget : IWidget)
| Ev_empty_release (links : list ConnectingLink).

Inductive Effect :=
| E_emitEvent (detail : CanvasEventDetail)
| E_graph_beforeChange
| E_graph_afterChange
| E_graph_change
| E_connect (from : Ref) (from_slot : Z) (to : Ref) (to_slot : Z)
    (afterRerouteId : option RerouteId)
| E_connectByType (from : Ref) (from_slot : Z) (to : Ref) (type : ISlotType)
    (afterRerouteId : option RerouteId)
| E_connectByTypeOutput (from : Ref) (from_slot : Z) (to : Ref)
    (type : ISlotType) (afterRerouteId : option RerouteId)
| E_disconnectInput (node : Ref) (slot : Z)
| E_disconnectOutput (node : Ref) (slot : Z)
| E_onSelected (item : Ref)
| E_onDeselected (item : Ref)
| E_onNodeSelected (item : Ref)
| E_onNodeDeselected (item : Ref)
| E_onSelectionChange
| E_showLinkMenu (segment : LinkSegment)
| E_showSearchBox
| E_showConnectionMenu
(** any other method of a collaborator, by name; for an optional callback
    of the canvas ([this.onMouse?.(e)]) the entry stands for the call that
    is made when the callback is set *)
| E_call (name : string)
(** any other method or optional callback of an object, by name *)
| E_method (target : Ref) (name : string).

(** ** Hooks of the pointer session

    One constructor per arrow function that the canvas assigns to a hook
    slot; the arguments are the captured variables. *)

Inductive ClickHook :=
| Click_multiSelect (node : option Ref)
| Click_processSelect (item : option Ref) (e : CanvasPointerEvent)
| Click_showLinkMenu (segment : LinkSegment)
| Click_collapse (node : Ref)
| Click_onOutputClick (node : Ref) (i : nat)
| Click_onInputClick (node : Ref) (i : nat)
| Click_widget (node : Ref) (widget : IWidget)
(** the captured node, [mClikSlot_index], [mClikSlot_isOut] and the
    [position], [posAdd] and [posSizeFix] computed by the press *)
| Click_createDefaultNodeForSlot (node : Ref) (mClikSlot_index : nat)
    (mClikSlot_isOut : bool) (position posAdd posSizeFix : Point).

Inductive DoubleClickHook :=
| Dbl_group (group : Ref)
| Dbl_empty
| Dbl_onOutputDblClick (node : Ref) (i : nat)
| Dbl_onInputDblClick (node : Ref) (i : nat)
| Dbl_node (node : Ref) (inTitle : bool).

Inductive DragStartHook :=
| DS_dragging_rectangle
| DS_cloned (cloned : Ref)
| DS_connecting_output (outputNode : Ref) (slot : Z)
| DS_startDraggingItems (item : Ref) (sticky : bool)
| DS_group (group : Ref)
| DS_dragging_canvas
| DS_resizingGroup (group : Ref)
| DS_resizing_node (node : Ref)
| DS_reconnect (node : Ref) (i : nat) (linked_node : Ref) (slot : Z)
| DS_connecting_input (input : INodeInputSlot).

Inductive DragHook :=
| Drag_resizeGroup (group : Ref)
| Drag_resizeNode (node : Ref)
| Drag_widget (node : Ref) (widget : IWidget).

Inductive DragEndHook :=
| DE_handleMultiSelect
| DE_processDraggedItems
| DE_resizeNode.

Inductive FinallyHook :=
| Fin_dragging_rectangle
| Fin_dragging_canvas
| Fin_resizingGroup
| Fin_resizing_node
| Fin_widget (node : Ref) (widget : IWidget)
| Fin_isDragging.

(** ** The canvas

    Fields that no modelled handler reads back ([mouse], [graph_mouse],
    [last_mouse], [last_mouseclick], the viewport transform) and effects on the
    DOM event itself ([preventDefault], [stopPropagation], focus, cursor
    style) are left out. *)

Record SelectionState := {
  (** the [selected] property of every Positionable *)
  item_selected : gmap Ref bool;
  (** [selectedItems: Set<Positionable>], in insertion order *)
  selectedItems : list Ref;
  (** [selected_nodes: Dictionary<LGraphNode>] *)
  selected_nodes : gmap NodeId Ref;
  (** [highlighted_links: Dictionary<boolean>] *)
  highlighted_links : gmap LinkKey bool;
  current_node : option Ref }.

Record ModeState := {
  (** [state.draggingItems], through the accessor [isDragging] *)
  isDragging : bool;
  (** [state.draggingCanvas], through the accessor [dragging_canvas] *)
  dragging_canvas : bool;
  resizingGroup : option Ref;
  resizing_node : option Ref;
  (** the [Float32Array] allocated by the press that started a multi-select *)
  dragRect : Rect;
  (** whether [dragging_rectangle] references [dragRect] (otherwise it is null) *)
  dragging_rectangle : bool;
  connecting_links : option (list ConnectingLink);
  link_over_widget : option IWidget;
  node_widget : option (Ref * IWidget);
  selected_group : option Ref;
  over_link_center : option LinkSegment }.

Record CanvasPointer := {
  isDown : bool;
  isDouble : bool;
  dragStarted : bool;
  eDown : option CanvasPointerEvent;
  eUp : option CanvasPointerEvent;
  onClick : option ClickHook;
  onDoubleClick : option DoubleClickHook;
  onDragStart : option DragStartHook;
  onDrag : option DragHook;
  onDragEnd : option DragEndHook;
  finally : option FinallyHook }.

Record LGraphCanvas := {
  (** the objects the canvas holds references to *)
  heap : gmap Ref Obj;
  graph : option LGraph;
  sel : SelectionState;
  modes : ModeState;
  pointer : CanvasPointer;
  renderedPaths : list LinkSegment;
  dirty_canvas : bool;
  dirty_bgcanvas : bool;
  block_click : bool;
  last_mouse_dragging : bool;
  last_click_position : option Point;
  (** [ctx.lineWidth] *)
  ctx_lineWidth : float;
  (** calls that left the canvas, oldest first *)
  trace : list Effect }.

Definition set_item_selected (v : gmap Ref bool) (s : SelectionState) : SelectionState :=
  {| item_selected := v; selectedItems := selectedItems s; selected_nodes :=
  selected_nodes s; highlighted_links := highlighted_links s; current_node :=
  current_node s |}.
Definition set_selectedItems (v : list Ref) (s : SelectionState) : SelectionState :=
  {| item_selected := item_selected s; selectedItems := v; selected_nodes :=
  selected_nodes s; highlighted_links := highlighted_links s; current_node :=
  current_node s |}.
Definition set_selected_nodes (v : gmap NodeId Ref) (s : SelectionState) : SelectionState :=
  {| item_selected := item_selected s; selectedItems := selectedItems s;
  selected_nodes := v; highlighted_links := highlighted_links s; current_node
  := current_node s |}.
Definition set_highlighted_links (v : gmap LinkKey bool) (s : SelectionState) : SelectionState :=
  {| item_selected := item_selected s; selectedItems := selectedItems s;
  selected_nodes := selected_nodes s; highlighted_links := v; current_node :=
  current_node s |}.
Definition set_current_node (v : option Ref) (s : SelectionState) : SelectionState :=
  {| item_selected := item_selected s; selectedItems := selectedItems s;
  selected_nodes := selected_nodes s; highlighted_links := highlighted_links
  s; current_node := v |}.

Definition set_isDragging (v : bool) (m : ModeState) : ModeState :=
  {| isDragging := v; dragging_canvas := dragging_canvas m; resizingGroup :=
  resizingGroup m; resizing_node := resizing_node m; dragRect := dragRect m;
  dragging_rectangle := dragging_rectangle m; connecting_links :=
  connecting_links m; link_over_widget := link_over_widget m; node_widget :=
  node_widget m; selected_group := selected_group m; over_link_center :=
  over_link_center m |}.
Definition set_dragging_canvas (v : bool) (m : ModeState) : ModeState :=
  {| isDragging := isDragging m; dragging_canvas := v; resizingGroup :=
  resizingGroup m; resizing_node := resizing_node m; dragRect := dragRect m;
  dragging_rectangle := dragging_rectangle m; connecting_links :=
  connecting_links m; link_over_widget := link_over_widget m; node_widget :=
  node_widget m; selected_group := selected_group m; over_link_center :=
  over_link_center m |}.
Definition set_resizingGroup (v : option Ref) (m : ModeState) : ModeState :=
  {| isDragging := isDragging m; dragging_canvas := dragging_canvas m;
  resizingGroup := v; resizing_node := resizing_node m; dragRect := dragRect
  m; dragging_rectangle := dragging_rectangle m; connecting_links :=
  connecting_links m; link_over_widget := link_over_widget m; node_widget :=
  node_widget m; selected_group := selected_group m; over_link_center :=
  over_link_center m |}.
Definition set_resizing_node (v : option Ref) (m : ModeState) : ModeState :=
  {| isDragging := isDragging m; dragging_canvas := dragging_canvas m;
  resizingGroup := resizingGroup m; resizing_node := v; dragRect := dragRect
  m; dragging_rectangle := dragging_rectangle m; connecting_links :=
  connecting_links m; link_over_widget := link_over_widget m; node_widget :=
  node_widget m; selected_group := selected_group m; over_link_center :=
  over_link_center m |}.
Definition set_dragRect (v : Rect) (m : ModeState) : ModeState :=
  {| isDragging := isDragging m; dragging_canvas := dragging_canvas m;
  resizingGroup := resizingGroup m; resizing_node := resizing_node m; dragRect
  := v; dragging_rectangle := dragging_rectangle m; connecting_links :=
  connecting_links m; link_over_widget := link_over_widget m; node_widget :=
  node_widget m; selected_group := selected_group m; over_link_center :=
  over_link_center m |}.
Definition set_dragging_rectangle (v : bool) (m : ModeState) : ModeState :=
  {| isDragging := isDragging m; dragging_canvas := dragging_canvas m;
  resizingGroup := resizingGroup m; resizing_node := resizing_node m; dragRect
  := dragRect m; dragging_rectangle := v; connecting_links := connecting_links
  m; link_over_widget := link_over_widget m; node_widget := node_widget m;
  selected_group := selected_group m; over_link_center := over_link_center m
  |}.
Definition set_connecting_links (v : option (list ConnectingLink)) (m : ModeState) : ModeState :=
  {| isDragging := isDragging m; dragging_canvas := dragging_canvas m;
  resizingGroup := resizingGroup m; resizing_node := resizing_node m; dragRect
  := dragRect m; dragging_rectangle := dragging_rectangle m; connecting_links
  := v; link_over_widget := link_over_widget m; node_widget := node_widget m;
  selected_group := selected_group m; over_link_center := over_link_center m
  |}.
Definition set_link_over_widget (v : option IWidget) (m : ModeState) : ModeState :=
  {| isDragging := isDragging m; dragging_canvas := dragging_canvas m;
  resizingGroup := resizingGroup m; resizing_node := resizing_node m; dragRect
  := dragRect m; dragging_rectangle := dragging_rectangle m; connecting_links
  := connecting_links m; link_over_widget := v; node_widget := node_widget m;
  selected_group := selected_group m; over_link_center := over_link_center m
  |}.
Definition set_node_widget (v : option (Ref * IWidget)) (m : ModeState) : ModeState :=
  {| isDragging := isDragging m; dragging_canvas := dragging_canvas m;
  resizingGroup := resizingGroup m; resizing_node := resizing_node m; dragRect
  := dragRect m; dragging_rectangle := dragging_rectangle m; connecting_links
  := connecting_links m; link_over_widget := link_over_widget m; node_widget
  := v; selected_group := selected_group m; over_link_center :=
  over_link_center m |}.
Definition set_selected_group (v : option Ref) (m : ModeState) : ModeState :=
  {| isDragging := isDragging m; dragging_canvas := dragging_canvas m;
  resizingGroup := resizingGroup m; resizing_node := resizing_node m; dragRect
  := dragRect m; dragging_rectangle := dragging_rectangle m; connecting_links
  := connecting_links m; link_over_widget := link_over_widget m; node_widget
  := node_widget m; selected_group := v; over_link_center := over_link_center
  m |}.
Definition set_over_link_center (v : option LinkSegment) (m : ModeState) : ModeState :=
  {| isDragging := isDragging m; dragging_canvas := dragging_canvas m;
  resizingGroup := resizingGroup m; resizing_node := resizing_node m; dragRect
  := dragRect m; dragging_rectangle := dragging_rectangle m; connecting_links
  := connecting_links m; link_over_widget := link_over_widget m; node_widget
  := node_widget m; selected_group := selected_group m; over_link_center := v
  |}.

Definition set_isDown (v : bool) (p : CanvasPointer) : CanvasPointer :=
  {| isDown := v; isDouble := isDouble p; dragStarted := dragStarted p; eDown
  := eDown p; eUp := eUp p; onClick := onClick p; onDoubleClick :=
  onDoubleClick p; onDragStart := onDragStart p; onDrag := onDrag p; onDragEnd
  := onDragEnd p; finally := finally p |}.
Definition set_isDouble (v : bool) (p : CanvasPointer) : CanvasPointer :=
  {| isDown := isDown p; isDouble := v; dragStarted := dragStarted p; eDown :=
  eDown p; eUp := eUp p; onClick := onClick p; onDoubleClick := onDoubleClick
  p; onDragStart := onDragStart p; onDrag := onDrag p; onDragEnd := onDragEnd
  p; finally := finally p |}.
Definition set_dragStarted (v : bool) (p : CanvasPointer) : CanvasPointer :=
  {| isDown := isDown p; isDouble := isDouble p; dragStarted := v; eDown :=
  eDown p; eUp := eUp p; onClick := onClick p; onDoubleClick := onDoubleClick
  p; onDragStart := onDragStart p; onDrag := onDrag p; onDragEnd := onDragEnd
  p; finally := finally p |}.
Definition set_eDown (v : option CanvasPointerEvent) (p : CanvasPointer) : CanvasPointer :=
  {| isDown := isDown p; isDouble := isDouble p; dragStarted := dragStarted p;
  eDown := v; eUp := eUp p; onClick := onClick p; onDoubleClick :=
  onDoubleClick p; onDragStart := onDragStart p; onDrag := onDrag p; onDragEnd
  := onDragEnd p; finally := finally p |}.
Definition set_eUp (v : option CanvasPointerEvent) (p : CanvasPointer) : CanvasPointer :=
  {| isDown := isDown p; isDouble := isDouble p; dragStarted := dragStarted p;
  eDown := eDown p; eUp := v; onClick := onClick p; onDoubleClick :=
  onDoubleClick p; onDragStart := onDragStart p; onDrag := onDrag p; onDragEnd
  := onDragEnd p; finally := finally p |}.
Definition set_onClick (v : option ClickHook) (p : CanvasPointer) : CanvasPointer :=
  {| isDown := isDown p; isDouble := isDouble p; dragStarted := dragStarted p;
  eDown := eDown p; eUp := eUp p; onClick := v; onDoubleClick := onDoubleClick
  p; onDragStart := onDragStart p; onDrag := onDrag p; onDragEnd := onDragEnd
  p; finally := finally p |}.
Definition set_onDoubleClick (v : option DoubleClickHook) (p : CanvasPointer) : CanvasPointer :=
  {| isDown := isDown p; isDouble := isDouble p; dragStarted := dragStarted p;
  eDown := eDown p; eUp := eUp p; onClick := onClick p; onDoubleClick := v;
  onDragStart := onDragStart p; onDrag := onDrag p; onDragEnd := onDragEnd p;
  finally := finally p |}.
Definition set_onDragStart (v : option DragStartHook) (p : CanvasPointer) : CanvasPointer :=
  {| isDown := isDown p; isDouble := isDouble p; dragStarted := dragStarted p;
  eDown := eDown p; eUp := eUp p; onClick := onClick p; onDoubleClick :=
  onDoubleClick p; onDragStart := v; onDrag := onDrag p; onDragEnd :=
  onDragEnd p; finally := finally p |}.
Definition set_onDrag (v : option DragHook) (p : CanvasPointer) : CanvasPointer :=
  {| isDown := isDown p; isDouble := isDouble p; dragStarted := dragStarted p;
  eDown := eDown p; eUp := eUp p; onClick := onClick p; onDoubleClick :=
  onDoubleClick p; onDragStart := onDragStart p; onDrag := v; onDragEnd :=
  onDragEnd p; finally := finally p |}.
Definition set_onDragEnd (v : option DragEndHook) (p : CanvasPointer) : CanvasPointer :=
  {| isDown := isDown p; isDouble := isDouble p; dragStarted := dragStarted p;
  eDown := eDown p; eUp := eUp p; onClick := onClick p; onDoubleClick :=
  onDoubleClick p; onDragStart := onDragStart p; onDrag := onDrag p; onDragEnd
  := v; finally := finally p |}.
Definition set_finally (v : option FinallyHook) (p : CanvasPointer) : CanvasPointer :=
  {| isDown := isDown p; isDouble := isDouble p; dragStarted := dragStarted p;
  eDown := eDown p; eUp := eUp p; onClick := onClick p; onDoubleClick :=
  onDoubleClick p; onDragStart := onDragStart p; onDrag := onDrag p; onDragEnd
  := onDragEnd p; finally := v |}.

Definition set_graph (v : option LGraph) (c : LGraphCanvas) : LGraphCanvas :=
  {| heap := heap c; graph := v; sel := sel c; modes := modes c; pointer :=
  pointer c; renderedPaths := renderedPaths c; dirty_canvas := dirty_canvas c;
  dirty_bgcanvas := dirty_bgcanvas c; block_click := block_click c;
  last_mouse_dragging := last_mouse_dragging c; last_click_position :=
  last_click_position c; ctx_lineWidth := ctx_lineWidth c; trace := trace c
  |}.
Definition set_sel (v : SelectionState) (c : LGraphCanvas) : LGraphCanvas :=
  {| heap := heap c; graph := graph c; sel := v; modes := modes c; pointer :=
  pointer c; renderedPaths := renderedPaths c; dirty_canvas := dirty_canvas c;
  dirty_bgcanvas := dirty_bgcanvas c; block_click := block_click c;
  last_mouse_dragging := last_mouse_dragging c; last_click_position :=
  last_click_position c; ctx_lineWidth := ctx_lineWidth c; trace := trace c
  |}.
Definition set_modes (v : ModeState) (c : LGraphCanvas) : LGraphCanvas :=
  {| heap := heap c; graph := graph c; sel := sel c; modes := v; pointer :=
  pointer c; renderedPaths := renderedPaths c; dirty_canvas := dirty_canvas c;
  dirty_bgcanvas := dirty_bgcanvas c; block_click := block_click c;
  last_mouse_dragging := last_mouse_dragging c; last_click_position :=
  last_click_position c; ctx_lineWidth := ctx_lineWidth c; trace := trace c
  |}.
Definition set_pointer (v : CanvasPointer) (c : LGraphCanvas) : LGraphCanvas :=
  {| heap := heap c; graph := graph c; sel := sel c; modes := modes c; pointer
  := v; renderedPaths := renderedPaths c; dirty_canvas := dirty_canvas c;
  dirty_bgcanvas := dirty_bgcanvas c; block_click := block_click c;
  last_mouse_dragging := last_mouse_dragging c; last_click_position :=
  last_click_position c; ctx_lineWidth := ctx_lineWidth c; trace := trace c
  |}.
Definition set_dirty_canvas (v : bool) (c : LGraphCanvas) : LGraphCanvas :=
  {| heap := heap c; graph := graph c; sel := sel c; modes := modes c; pointer
  := pointer c; renderedPaths := renderedPaths c; dirty_canvas := v;
  dirty_bgcanvas := dirty_bgcanvas c; block_click := block_click c;
  last_mouse_dragging := last_mouse_dragging c; last_click_position :=
  last_click_position c; ctx_lineWidth := ctx_lineWidth c; trace := trace c
  |}.
Definition set_dirty_bgcanvas (v : bool) (c : LGraphCanvas) : LGraphCanvas :=
  {| heap := heap c; graph := graph c; sel := sel c; modes := modes c; pointer
  := pointer c; renderedPaths := renderedPaths c; dirty_canvas := dirty_canvas
  c; dirty_bgcanvas := v; block_click := block_click c; last_mouse_dragging :=
  last_mouse_dragging c; last_click_position := last_click_position c;
  ctx_lineWidth := ctx_lineWidth c; trace := trace c |}.
Definition set_block_click (v : bool) (c : LGraphCanvas) : LGraphCanvas :=
  {| heap := heap c; graph := graph c; sel := sel c; modes := modes c; pointer
  := pointer c; renderedPaths := renderedPaths c; dirty_canvas := dirty_canvas
  c; dirty_bgcanvas := dirty_bgcanvas c; block_click := v; last_mouse_dragging
  := last_mouse_dragging c; last_click_position := last_click_position c;
  ctx_lineWidth := ctx_lineWidth c; trace := trace c |}.
Definition set_last_mouse_dragging (v : bool) (c : LGraphCanvas) : LGraphCanvas :=
  {| heap := heap c; graph := graph c; sel := sel c; modes := modes c; pointer
  := pointer c; renderedPaths := renderedPaths c; dirty_canvas := dirty_canvas
  c; dirty_bgcanvas := dirty_bgcanvas c; block_click := block_click c;
  last_mouse_dragging := v; last_click_position := last_click_position c;
  ctx_lineWidth := ctx_lineWidth c; trace := trace c |}.
Definition set_last_click_position (v : option Point) (c : LGraphCanvas) : LGraphCanvas :=
  {| heap := heap c; graph := graph c; sel := sel c; modes := modes c; pointer
  := pointer c; renderedPaths := renderedPaths c; dirty_canvas := dirty_canvas
  c; dirty_bgcanvas := dirty_bgcanvas c; block_click := block_click c;
  last_mouse_dragging := last_mouse_dragging c; last_click_position := v;
  ctx_lineWidth := ctx_lineWidth c; trace := trace c |}.
Definition set_ctx_lineWidth (v : float) (c : LGraphCanvas) : LGraphCanvas :=
  {| heap := heap c; graph := graph c; sel := sel c; modes := modes c; pointer
  := pointer c; renderedPaths := renderedPaths c; dirty_canvas := dirty_canvas
  c; dirty_bgcanvas := dirty_bgcanvas c; block_click := block_click c;
  last_mouse_dragging := last_mouse_dragging c; last_click_position :=
  last_click_position c; ctx_lineWidth := v; trace := trace c |}.
Definition set_trace (v : list Effect) (c : LGraphCanvas) : LGraphCanvas :=
  {| heap := heap c; graph := graph c; sel := sel c; modes := modes c; pointer
  := pointer c; renderedPaths := renderedPaths c; dirty_canvas := dirty_canvas
  c; dirty_bgcanvas := dirty_bgcanvas c; block_click := block_click c;
  last_mouse_dragging := last_mouse_dragging c; last_click_position :=
  last_click_position c; ctx_lineWidth := ctx_lineWidth c; trace := v |}.

Definition set_heap (v : gmap Ref Obj) (c : LGraphCanvas) : LGraphCanvas :=
  {| heap := v; graph := graph c; sel := sel c; modes := modes c;
     pointer := pointer c; renderedPaths := renderedPaths c;
     dirty_canvas := dirty_canvas c; dirty_bgcanvas := dirty_bgcanvas c;
     block_click := block_click c; last_mouse_dragging := last_mouse_dragging c;
     last_click_position := last_click_position c;
     ctx_lineWidth := ctx_lineWidth c; trace := trace c |}.

Definition upd_sel (f : SelectionState -> SelectionState) (c : LGraphCanvas)
  : LGraphCanvas := set_sel (f (sel c)) c.
Definition upd_modes (f : ModeState -> ModeState) (c : LGraphCanvas)
  : LGraphCanvas := set_modes (f (modes c)) c.
Definition upd_pointer (f : CanvasPointer -> CanvasPointer) (c : LGraphCanvas)
  : LGraphCanvas := set_pointer (f (pointer c)) c.

(** A call that leaves the canvas is appended to the trace. *)
Definition emit (e : Effect) (c : LGraphCanvas) : LGraphCanvas :=
  set_trace (trace c ++ [e]) c.

(** [emitEvent], [emitBeforeChange], [emitAfterChange] *)
Definition emitEvent (d : CanvasEventDetail) (c : LGraphCanvas) : LGraphCanvas :=
  emit (E_emitEvent d) c.
Definition emitBeforeChange : LGraphCanvas -> LGraphCanvas :=
  emitEvent Ev_before_change.
Definition emitAfterChange : LGraphCanvas -> LGraphCanvas :=
  emitEvent Ev_after_change.

(** [setDirty(fgcanvas, bgcanvas)] and [#dirty()] *)
Definition setDirty (fgcanvas bgcanvas : bool) (c : LGraphCanvas) : LGraphCanvas :=
  let c := if fgcanvas then set_dirty_canvas true c else c in
  if bgcanvas then set_dirty_bgcanvas true c else c.

Definition dirty (c : LGraphCanvas) : LGraphCanvas :=
  set_dirty_bgcanvas true (set_dirty_canvas true c).

(** ** JavaScript [Set] of references *)

Definition set_has (s : list Ref) (r : Ref) : bool := bool_decide (r ∈ s).
Definition set_add (r : Ref) (s : list Ref) : list Ref :=
  if set_has s r then s else s ++ [r].
Definition set_delete (r : Ref) (s : list Ref) : list Ref :=
  filter (λ x, x ≠ r) s.

(** ** Selection model *)

(** [item.selected], falsy when the property was never written *)
Definition item_is_selected (c : LGraphCanvas) (item : Ref) : bool :=
  default false (item_selected (sel c) !! item).

(** [this.selectedItems.has(item)] *)
Definition has_item (c : LGraphCanvas) (item : Ref) : bool :=
  set_has (selectedItems (sel c)) item.

(** [item.selected = v] *)
Definition write_selected (item : Ref) (v : bool) (c : LGraphCanvas)
  : LGraphCanvas :=
  upd_sel (λ s, set_item_selected (<[item:=v]> (item_selected s)) s) c.

(** The keys visited by [item.inputs?.forEach(input => ... input.link ...)] *)
Definition input_keys (n : LGraphNode) : list LinkKey :=
  match inputs n with
  | Some ins => map in_link ins
  | None => []
  end.

(** The keys visited by [item.outputs?.flatMap(x => x.links).forEach(...)]:
    [flatMap] spreads an array of ids and keeps a [null] as one element. *)
Definition output_keys (n : LGraphNode) : list LinkKey :=
  match outputs n with
  | Some outs =>
      flat_map (λ x, match out_links x with
                     | Some ids => map Some ids
                     | None => [None]
                     end) outs
  | None => []
  end.

(** [keys.forEach(k => this.highlighted_links[k] = true)] *)
Definition highlight (keys : list LinkKey) (c : LGraphCanvas) : LGraphCanvas :=
  upd_sel (λ s, set_highlighted_links
                  (foldl (λ h k, <[k:=true]> h) (highlighted_links s) keys) s) c.

(** [keys.forEach(k => delete this.highlighted_links[k])] *)
Definition unhighlight (keys : list LinkKey) (c : LGraphCanvas) : LGraphCanvas :=
  upd_sel (λ s, set_highlighted_links
                  (foldl (λ h k, delete k h) (highlighted_links s) keys) s) c.

Definition select (item : Ref) (c : LGraphCanvas) : LGraphCanvas :=
  if item_is_selected c item && has_item c item then c
  else
    let c := write_selected item true c in
    let c := upd_sel (λ s, set_selectedItems (set_add item (selectedItems s)) s) c in
    match heap c !! item with
    | Some (ONode n) =>
        (* Node-specific handling *)
        let c := emit (E_onSelected item) c in
        let c := upd_sel (λ s, set_selected_nodes
                                 (<[node_id n:=item]> (selected_nodes s)) s) c in
        let c := emit (E_onNodeSelected item) c in
        (* Highlight links *)
        let c := highlight (input_keys n) c in
        highlight (output_keys n) c
    | _ => c
    end.

Definition deselect (item : Ref) (c : LGraphCanvas) : LGraphCanvas :=
  if negb (item_is_selected c item) && negb (has_item c item) then c
  else
    let c := write_selected item false c in
    let c := upd_sel (λ s, set_selectedItems
                             (set_delete item (selectedItems s)) s) c in
    match heap c !! item with
    | Some (ONode n) =>
        (* Node-specific handling *)
        let c := emit (E_onDeselected item) c in
        let c := upd_sel (λ s, set_selected_nodes
                                 (delete (node_id n) (selected_nodes s)) s) c in
        let c := emit (E_onNodeDeselected item) c in
        (* Clear link highlight *)
        let c := unhighlight (input_keys n) c in
        unhighlight (output_keys n) c
    | _ => c
    end.

(** The loop of [deselectAll] over the selection set: every member but
    [keepSelected] gets [onDeselected] and [selected = false]; the result
    carries [wasSelected]. *)
Definition deselectAll_loop (keepSelected : option Ref) (selected : list Ref)
    (c : LGraphCanvas) : LGraphCanvas * option Ref :=
  foldl (λ '(c, wasSelected) s,
           if decide (Some s = keepSelected) then (c, Some s)
           else (write_selected s false (emit (E_onDeselected s) c), wasSelected))
        (c, None) selected.

Definition deselectAll (keepSelected : option Ref) (c : LGraphCanvas)
  : LGraphCanvas :=
  match graph c with
  | None => c
  | Some _ =>
      let '(c, wasSelected) :=
        deselectAll_loop keepSelected (selectedItems (sel c)) c in
      (* selected.clear(); if (wasSelected) selected.add(wasSelected) *)
      let c := upd_sel (set_selectedItems
                          (match wasSelected with
                           | Some w => set_add w []
                           | None => []
                           end)) c in
      let c := setDirty true false c in
      (* Legacy code *)
      let oldNode :=
        k ← keepSelected; o ← heap c !! k; selected_nodes (sel c) !! obj_id o in
      let c := upd_sel (set_selected_nodes ∅) c in
      let c := upd_sel (set_current_node None) c in
      let c := upd_sel (set_highlighted_links ∅) c in
      let c :=
        match k ← keepSelected; heap c !! k with
        | Some (ONode n) =>
            (* Handle old object lookup *)
            let c :=
              match o ← oldNode; oo ← heap c !! o; Some (o, obj_id oo) with
              | Some (o, oid) =>
                  upd_sel (λ s, set_selected_nodes
                                  (<[oid:=o]> (selected_nodes s)) s) c
              | None => c
              end in
            (* Highlight links *)
            let c := highlight (input_keys n) c in
            highlight (output_keys n) c
        | _ => c
        end in
      emit E_onSelectionChange c
  end.

(** [processSelect(item, e, sticky)]; [multi_select] is the canvas option of
    that name. *)
Definition processSelect (multi_select : bool) (item : option Ref)
    (e : option CanvasPointerEvent) (sticky : bool) (c : LGraphCanvas)
  : LGraphCanvas :=
  let addModifier := from_option shiftKey false e in
  let subtractModifier := from_option (λ e, metaKey e || ctrlKey e) false e in
  let eitherModifier := addModifier || subtractModifier in
  let modifySelection := eitherModifier || multi_select in
  let finish c := setDirty true false (emit E_onSelectionChange c) in
  match item with
  | None =>
      finish (if negb eitherModifier || multi_select then deselectAll None c
              else c)
  | Some item =>
      if negb (item_is_selected c item) || negb (has_item c item) then
        let c := if negb modifySelection then deselectAll (Some item) c else c in
        finish (select item c)
      else if modifySelection && negb sticky then finish (deselect item c)
      else if negb sticky then finish (deselectAll (Some item) c)
      else c
  end.

(** [selectItems(items, add_to_current_selection)]; without [items] every
    positionable item of the graph is selected. *)
Definition positionableItems (c : LGraphCanvas) : list Ref :=
  match graph c with
  | Some g => _nodes g ++ groups g ++ reroutes g
  | None => []
  end.

Definition selectItems (items : option (list Ref))
    (add_to_current_selection : bool) (c : LGraphCanvas) : LGraphCanvas :=
  let itemsToSelect := from_option id (positionableItems c) items in
  let c := if add_to_current_selection then c else deselectAll None c in
  let c := foldl (λ c item, select item c) c itemsToSelect in
  setDirty true false (emit E_onSelectionChange c).

(** ** Typed arrays

    A store into a [Float32Array] rounds the value to binary32, to nearest
    with ties to even; what is read back is that value as a binary64. *)
Definition fround (x : float) : float :=
  match Prim2SF x with
  | S754_finite s m e => SF2Prim (binary_round 24 128 s m e)
  | _ => x
  end.

Inductive ArrayKind := Float32Array | PlainArray.

Definition store (k : ArrayKind) (v : float) : float :=
  match k with
  | Float32Array => fround v
  | PlainArray => v
  end.

(** ** Geometry helpers

    The functions the canvas imports from [./measure]; their code is not part
    of the canvas, which only calls them. *)
Record Measure := {
  distance : Point -> Point -> float;
  (** [findPointOnCurve(out, a, b, controlA, controlB, t)], as the point
      written to [out] *)
  findPointOnCurve : Point -> Point -> Point -> Point -> float -> Point;
  (** [isInRectangle(x, y, left, top, width, height)] *)
  isInRectangle : float -> float -> float -> float -> float -> float -> bool;
  isPointInRect : Point -> Rect -> bool;
  overlapBounding : Rect -> Rect -> bool;
  containsRect : Rect -> Rect -> bool }.

(** Modelled from the spec: [distance] of [./measure] is missing from the
    source; section 2 lists it among the geometry utilities, the distance
    between two points. *)
Definition measure_distance (a b : Point) : float :=
  PrimFloat.sqrt ((px b - px a) * (px b - px a)
                  + (py b - py a) * (py b - py a))%float.

(** Modelled from the spec: [findPointOnCurve] of [./measure] is missing from
    the source; section 4.2 has the bezier sampled at a parametric value by
    direct weighted-sum evaluation, which [computeConnectionPoint] below
    spells out for the same curve. *)
Definition measure_findPointOnCurve (a b controlA controlB : Point) (t : float)
  : Point :=
  let iT := (1 - t)%float in
  let c1 := (iT * iT * iT)%float in
  let c2 := (3 * (iT * iT) * t)%float in
  let c3 := (3 * iT * (t * t))%float in
  let c4 := (t * t * t)%float in
  mkPoint (c1 * px a + c2 * px controlA + c3 * px controlB + c4 * px b)%float
          (c1 * py a + c2 * py controlA + c3 * py controlB + c4 * py b)%float.

(** Modelled from the spec: [isInRectangle] of [./measure] is missing from the
    source; section 2 lists point/rect containment: the point lies within
    [width] right of [left] and [height] below [top]. *)
Definition measure_isInRectangle (x y left top width height : float) : bool :=
  (left <=? x)%float && (x <? left + width)%float
  && (top <=? y)%float && (y <? top + height)%float.

(** Modelled from the spec: [isPointInRect] of [./measure] is missing from the
    source; point/rect containment for a point and a rectangle array. *)
Definition measure_isPointInRect (p : Point) (r : Rect) : bool :=
  measure_isInRectangle (px p) (py p) (rx r) (ry r) (rw r) (rh r).

(** Modelled from the spec: [overlapBounding] of [./measure] is missing from
    the source; section 2 lists bounding-box overlap: neither rectangle lies
    wholly to one side of the other. *)
Definition measure_overlapBounding (a b : Rect) : bool :=
  negb ((rx b + rw b <? rx a)%float || (ry b + rh b <? ry a)%float
        || (rx a + rw a <? rx b)%float || (ry a + rh a <? ry b)%float).

(** Modelled from the spec: [containsRect] of [./measure] is missing from the
    source; rectangle [b] lies fully inside rectangle [a]. *)
Definition measure_containsRect (a b : Rect) : bool :=
  (rx a <=? rx b)%float && (ry a <=? ry b)%float
  && (rx b + rw b <=? rx a + rw a)%float
  && (ry b + rh b <=? ry a + rh a)%float.

(** Modelled from the spec: the module [./measure] as a whole. *)
Definition measure : Measure := {|
  distance := measure_distance;
  findPointOnCurve := measure_findPointOnCurve;
  isInRectangle := measure_isInRectangle;
  isPointInRect := measure_isPointInRect;
  overlapBounding := measure_overlapBounding;
  containsRect := measure_containsRect |}.

(** ** Multi-select rectangle *)

(** The first statements of [#handleMultiSelect]: the pair (position, offset)
    held by the [Float32Array] becomes a rectangle of positive size. *)
Definition normaliseDragRect (r : Rect) : Rect :=
  let w := PrimFloat.abs (rw r) in
  let h := PrimFloat.abs (rh r) in
  let x := if PrimFloat.ltb (rw r) 0 then fround (PrimFloat.sub (rx r) w) else rx r in
  let y := if PrimFloat.ltb (rh r) 0 then fround (PrimFloat.sub (ry r) h) else ry r in
  mkRect x y (fround w) (fround h).

(** The two arrays [isSelected] and [notSelected] built by the loops. *)
Record Classified := {
  isSelected : list Ref;
  notSelected : list Ref }.

(** [if (!item.selected || !selectedItems.has(item)) notSelected.push(item)
     else isSelected.push(item)] *)
Definition classify (item : Ref) (c : LGraphCanvas) (k : Classified) : Classified :=
  if negb (item_is_selected c item) || negb (has_item c item)
  then {| isSelected := isSelected k; notSelected := notSelected k ++ [item] |}
  else {| isSelected := isSelected k ++ [item]; notSelected := notSelected k |}.

Section MultiSelect.
Context (M : Measure).

(** Select nodes - any part of the node is in the select area *)
Definition classifyNodes (dragRect : Rect) (nodes : list Ref)
    (ck : LGraphCanvas * Classified) : LGraphCanvas * Classified :=
  foldl (λ '(c, k) nodeX,
           match heap c !! nodeX with
           | Some (ONode n) =>
               if overlapBounding M dragRect (boundingRect n)
               then (c, classify nodeX c k)
               else (c, k)
           | _ => (c, k)
           end) ck nodes.

(** Select groups - the group is wholly inside the select area *)
Definition classifyGroups (dragRect : Rect) (gs : list Ref)
    (ck : LGraphCanvas * Classified) : LGraphCanvas * Classified :=
  foldl (λ '(c, k) group,
           match heap c !! group with
           | Some (OGroup g) =>
               if containsRect M dragRect (_bounding g)
               then let c := emit (E_method group "recomputeInsideNodes") c in
                    (c, classify group c k)
               else (c, k)
           | _ => (c, k)
           end) ck gs.

(** Select reroutes - the centre point is inside the select area.  The
    reroute is added to the selection before it is classified. *)
Definition classifyReroutes (dragRect : Rect) (rs : list Ref)
    (ck : LGraphCanvas * Classified) : LGraphCanvas * Classified :=
  foldl (λ '(c, k) reroute,
           match heap c !! reroute with
           | Some (OReroute r) =>
               if isPointInRect M (reroute_pos r) dragRect
               then
                 let c := upd_sel (λ s, set_selectedItems
                                          (set_add reroute (selectedItems s)) s) c in
                 let c := write_selected reroute true c in
                 (c, classify reroute c k)
               else (c, k)
           | _ => (c, k)
           end) ck rs.

(** [#handleMultiSelect(e, dragRect)]; [dragRect] is the array of the
    gesture, [dragRect (modes c)].  The handler runs from [onDragEnd], which
    the canvas only dispatches while a graph is attached. *)
Definition handleMultiSelect (e : CanvasPointerEvent) (c : LGraphCanvas)
  : LGraphCanvas :=
  match graph c with
  | None => c
  | Some g =>
      let rect := normaliseDragRect (dragRect (modes c)) in
      let c := upd_modes (set_dragRect rect) c in
      let ck := (c, {| isSelected := []; notSelected := [] |}) in
      let ck := classifyNodes rect (_nodes g) ck in
      let ck := classifyGroups rect (groups g) ck in
      let '(c, k) := classifyReroutes rect (reroutes g) ck in
      if shiftKey e then
        (* Add to selection *)
        foldl (λ c item, select item c) c (notSelected k)
      else if altKey e then
        (* Remove from selection *)
        foldl (λ c item, deselect item c) c (isSelected k)
      else
        (* Replace selection *)
        let c :=
          foldl (λ c item,
                   if bool_decide (item ∈ isSelected k) then c
                   else deselect item c)
                c (selectedItems (sel c)) in
        foldl (λ c item, select item c) c (notSelected k)
  end.
End MultiSelect.

(** The pointer session between gestures: nothing recorded, no hook set. *)
Definition idle_pointer : CanvasPointer := {|
  isDown := false; isDouble := false; dragStarted := false;
  eDown := None; eUp := None;
  onClick := None; onDoubleClick := None; onDragStart := None;
  onDrag := None; onDragEnd := None; finally := None |}.

(** ** Options and collaborators *)

(** Options of the canvas and of the [LiteGraph] global that the pointer
    handlers read. *)
Record Config := {
  read_only : bool;
  allow_interaction : bool;
  allow_dragcanvas : bool;
  allow_dragnodes : bool;
  allow_searchbox : bool;
  allow_reconnect_links : bool;
  reroutesEnabled : bool;
  multi_select : bool;
  connections_width : float;
  set_canvas_dirty_on_mouse_event : bool;
  viewport : option Rect;
  alt_drag_do_clone_nodes : bool;
  shift_click_do_break_link_from : bool;
  ctrl_alt_click_do_break_link : bool;
  click_do_break_link_to : bool;
  middle_click_slot_add_default_node : bool;
  release_link_on_empty_shows_menu : bool;
  alwaysSnapToGrid : bool;
  DEFAULT_GROUP_FONT_SIZE : float }.

(** [graph._links.get(id)] *)
Record LLink := {
  link_origin_id : NodeId;
  link_origin_slot : Z;
  link_target_id : NodeId;
  link_target_slot : Z }.

(** What the graph model, the nodes, the drawing context and the user
    callbacks answer when the canvas asks.  The graph is taken to be
    consistent: the ids held by links and reroutes resolve. *)
Record Collaborators := {
  getNodeOnPos : float -> float -> option Ref;
  getRerouteOnPos : float -> float -> option Ref;
  getGroupOnPos : float -> float -> option Ref;
  getGroupTitlebarOnPos : float -> float -> option Ref;
  (** [graph._links.get(reroute.linkIds.values().next().value)] *)
  reroute_first_link : Ref -> LLink;
  links_get : LinkId -> LLink;
  (** [graph.getNodeById(id)], [graph._nodes_by_id[id]] *)
  nodes_by_id : NodeId -> Ref;
  (** [node.getConnectionPos(is_input, slot)] *)
  getConnectionPos : Ref -> bool -> Z -> Point;
  (** [graph.createReroute(pos, segment)]: the new object *)
  createReroute : Point -> LinkSegment -> Ref * Reroute;
  (** [LiteGraph.createNode(node.clone()?.serialize().type)], configured *)
  cloneNode : Ref -> option (Ref * LGraphNode);
  isPointInCollapse : Ref -> float -> float -> bool;
  inResizeCorner : Ref -> float -> float -> bool;
  getWidgetOnPos : Ref -> float -> float -> option IWidget;
  (** whether [node.onMouseDown?.(e, pos, this)] is truthy *)
  node_onMouseDown : Ref -> CanvasPointerEvent -> bool;
  group_isInResize : Ref -> float -> float -> bool;
  (** whether [group.resize(x, y)] reports a change *)
  group_resize : Ref -> CanvasPointerEvent -> bool;
  (** [ctx.isPointInStroke(path, x, y)] under the given [ctx.lineWidth] *)
  isPointInStroke : float -> Path2D -> float -> float -> bool;
  (** [window?.devicePixelRatio] *)
  devicePixelRatio : option float;
  (** whether [this.onMouse?.(e) == true] *)
  canvas_onMouse : CanvasPointerEvent -> bool;
  (** [isInRect(x, y, rect)] of [./measure] *)
  isInRect : float -> float -> Rect -> bool;
  (** [node.getBounding()] *)
  getBounding : Ref -> Rect;
  (** whether [type == LiteGraph.EVENT] *)
  type_is_EVENT : ISlotType -> bool;
  (** What [createDefaultNodeForSlot] gets from the tables of [LiteGraph]
      and from [LiteGraph.createNode]: for a slot of an output ([true]) the
      first entry of [slot_types_default_out], and otherwise of
      [slot_types_default_in], under the slot type that matches the node type
      asked for; the node created for it, given the options of the entry,
      and its [size].  [None] when there is no such entry or no node is
      created. *)
  createDefaultNode :
    bool -> ISlotType -> string -> option (Ref * LGraphNode * Point) }.

(** [node.outputs[slot]] and [node.inputs[slot]] of the node a reference
    denotes; [undefined] when there is none. *)
Definition node_output (c : LGraphCanvas) (node : Ref) (slot : Z)
  : option INodeOutputSlot :=
  match heap c !! node with
  | Some (ONode n) =>
      if (slot <? 0)%Z then None else outs ← outputs n; outs !! Z.to_nat slot
  | _ => None
  end.

Definition node_input (c : LGraphCanvas) (node : Ref) (slot : Z)
  : option INodeInputSlot :=
  match heap c !! node with
  | Some (ONode n) =>
      if (slot <? 0)%Z then None else ins ← inputs n; ins !! Z.to_nat slot
  | _ => None
  end.

(** [ICreateNodeOptions], the argument of [createDefaultNodeForSlot], for
    slots that are given by their index. *)
Record ICreateNodeOptions := {
  nodeFrom : option Ref;
  slotFrom : option Z;
  nodeTo : option Ref;
  slotTo : option Z;
  position : Point;
  nodeType : option string;
  posAdd : Point;
  posSizeFix : Point;
  opt_afterRerouteId : option RerouteId }.

(** [node.pos = pos] *)
Definition with_node_pos (pos : Point) (n : LGraphNode) : LGraphNode := {|
  node_id := node_id n; inputs := inputs n; outputs := outputs n;
  boundingRect := boundingRect n; node_pos := pos;
  node_horizontal := node_horizontal n; flags_pinned := flags_pinned n;
  flags_collapsed := flags_collapsed n;
  flags_allow_interaction := flags_allow_interaction n;
  node_resizable := node_resizable n |}.

(** JavaScript truthiness of a number: neither zero nor NaN. *)
Definition truthy_number (v : float) : bool :=
  negb (PrimFloat.eqb v 0) && PrimFloat.eqb v v.

(** ** Dragging items *)

Section Gestures.
Context (cfg : Config) (W : Collaborators) (M : Measure).

(** [#startDraggingItems(item, pointer, sticky)] *)
Definition startDraggingItems (item : Ref) (sticky : bool) (c : LGraphCanvas)
  : LGraphCanvas :=
  let c := emitBeforeChange c in
  let c := emit E_graph_beforeChange c in
  (* Ensure that dragging is properly cleaned up, on success or failure. *)
  let c := upd_pointer (set_finally (Some Fin_isDragging)) c in
  let c := processSelect (multi_select cfg) (Some item) (eDown (pointer c))
             sticky c in
  upd_modes (set_isDragging true) c.

(** [#processDraggedItems(e)] *)
Definition processDraggedItems (e : CanvasPointerEvent) (c : LGraphCanvas)
  : LGraphCanvas :=
  let c := if shiftKey e || alwaysSnapToGrid cfg
           then emit (E_call "graph.snapToGrid") c else c in
  let c := set_dirty_canvas true c in
  let c := set_dirty_bgcanvas true c in
  emit (E_call "onNodeMoved") c.

(** ** Running a hook *)

(** [connecting.output = output], on the object held by [connecting_links] *)
Definition set_connecting_output (output : option INodeOutputSlot)
    (c : LGraphCanvas) : LGraphCanvas :=
  upd_modes (λ m, set_connecting_links
    (match connecting_links m with
     | Some (l :: ls) =>
         Some ({| cl_node := cl_node l; cl_slot := cl_slot l;
                  cl_input := cl_input l; cl_output := output;
                  cl_pos := cl_pos l;
                  cl_afterRerouteId := cl_afterRerouteId l;
                  cl_direction := cl_direction l |} :: ls)
     | other => other
     end) m) c.

(** [connecting.input = input] *)
Definition set_connecting_input (input : option INodeInputSlot)
    (c : LGraphCanvas) : LGraphCanvas :=
  upd_modes (λ m, set_connecting_links
    (match connecting_links m with
     | Some (l :: ls) =>
         Some ({| cl_node := cl_node l; cl_slot := cl_slot l;
                  cl_input := input; cl_output := cl_output l;
                  cl_pos := cl_pos l;
                  cl_afterRerouteId := cl_afterRerouteId l;
                  cl_direction := cl_direction l |} :: ls)
     | other => other
     end) m) c.

(** [createDefaultNodeForSlot(optPass)], behind the tests of [isFrom] and
    [isTo]: [nodeX] and [slotX] are the node and the slot index of the end
    that is given.  [None] is the [TypeError] of reading [type] of a slot
    that the node does not have, or of [this.graph.add] on a canvas without
    a graph. *)
Definition createDefaultNodeFor (opts : ICreateNodeOptions) (isFrom : bool)
    (nodeX : Ref) (slotX : Z) (c : LGraphCanvas)
  : option (bool * LGraphCanvas) :=
  match nodeType opts with
  | None => Some (false, c)
  | Some nodeType =>
      if String.eqb nodeType "" then Some (false, c)
      else
        (* case "number" *)
        let iSlotConn := slotX in
        type ← (if isFrom then out_type <$> node_output c nodeX slotX
                else in_type <$> node_input c nodeX slotX);
        (* check for defaults nodes for this slottype *)
        let fromSlotType :=
          if type_is_EVENT W type then "_event_"%string else type in
        match createDefaultNode W isFrom fromSlotType nodeType with
        | Some (newNode, nn, size) =>
            (* add the node *)
            g ← graph c;
            let c := emit (E_call "graph.add") c in
            let c := set_graph
                       (Some {| _nodes := _nodes g ++ [newNode];
                                groups := groups g;
                                reroutes := reroutes g |}) c in
            let pos :=
              mkPoint
                (px (position opts) + px (posAdd opts)
                 + (if truthy_number (px (posSizeFix opts))
                    then px (posSizeFix opts) * px size else 0))%float
                (py (position opts) + py (posAdd opts)
                 + (if truthy_number (py (posSizeFix opts))
                    then py (posSizeFix opts) * py size else 0))%float in
            let c := set_heap
                       (<[newNode:=ONode (with_node_pos pos nn)]> (heap c))
                       c in
            (* connect the two! *)
            let c :=
              if isFrom
              then emit (E_connectByType nodeX iSlotConn newNode
                           fromSlotType (opt_afterRerouteId opts)) c
              else emit (E_connectByTypeOutput nodeX iSlotConn newNode
                           fromSlotType (opt_afterRerouteId opts)) c in
            Some (true, c)
        | None => Some (false, c)
        end
  end.

(** [createDefaultNodeForSlot(optPass)], with the result of the function:
    [isFrom] is [opts.nodeFrom && opts.slotFrom !== null], [isTo] is
    [!isFrom && opts.nodeTo && opts.slotTo !== null]. *)
Definition createDefaultNodeForSlot (opts : ICreateNodeOptions)
    (c : LGraphCanvas) : option (bool * LGraphCanvas) :=
  match nodeFrom opts, slotFrom opts with
  | Some nodeX, Some slotX => createDefaultNodeFor opts true nodeX slotX c
  | _, _ =>
      match nodeTo opts, slotTo opts with
      | Some nodeX, Some slotX => createDefaultNodeFor opts false nodeX slotX c
      | _, _ => Some (false, c)
      end
  end.

(** The hooks return [None] when they throw. *)
Definition run_click (h : ClickHook) (eUp : CanvasPointerEvent)
    (c : LGraphCanvas) : option LGraphCanvas :=
  match h with
  | Click_multiSelect node =>
      (* Click, not drag *)
      let clickedItem :=
        match node with
        | Some n => Some n
        | None =>
            match (if reroutesEnabled cfg
                   then getRerouteOnPos W (canvasX eUp) (canvasY eUp)
                   else None) with
            | Some r => Some r
            | None => getGroupTitlebarOnPos W (canvasX eUp) (canvasY eUp)
            end
        end in
      Some (processSelect (multi_select cfg) clickedItem (Some eUp) false c)
  | Click_processSelect item e =>
      Some (processSelect (multi_select cfg) item (Some e) false c)
  | Click_showLinkMenu segment => Some (emit (E_showLinkMenu segment) c)
  | Click_collapse node =>
      Some (setDirty true true (emit (E_method node "collapse") c))
  | Click_onOutputClick node i =>
      Some (emit (E_method node "onOutputClick") c)
  | Click_onInputClick node i => Some (emit (E_method node "onInputClick") c)
  | Click_widget node widget =>
      let c := emit (E_method node "widget.onClick") c in
      Some (if String.eqb (widget_type widget) "button"
               || widget_click_dirty widget
            then set_dirty_canvas true c
            else c)
  | Click_createDefaultNodeForSlot node mClikSlot_index mClikSlot_isOut
      position posAdd posSizeFix =>
      snd <$> createDefaultNodeForSlot
                {| nodeFrom := if mClikSlot_isOut then Some node else None;
                   slotFrom := if mClikSlot_isOut
                               then Some (Z.of_nat mClikSlot_index) else None;
                   nodeTo := if mClikSlot_isOut then None else Some node;
                   slotTo := if mClikSlot_isOut then None
                             else Some (Z.of_nat mClikSlot_index);
                   position := position;
                   nodeType := Some "AUTO"%string;
                   posAdd := posAdd;
                   posSizeFix := posSizeFix;
                   opt_afterRerouteId := None |} c
  end.

Definition run_doubleClick (h : DoubleClickHook) (c : LGraphCanvas)
  : LGraphCanvas :=
  match h with
  | Dbl_group group => emitEvent (Ev_group_double_click group) c
  | Dbl_empty =>
      (* Double click within group should not trigger the searchbox. *)
      let c := if allow_searchbox cfg then emit E_showSearchBox c else c in
      emitEvent Ev_empty_double_click c
  | Dbl_onOutputDblClick node i => emit (E_method node "onOutputDblClick") c
  | Dbl_onInputDblClick node i => emit (E_method node "onInputDblClick") c
  | Dbl_node node inTitle =>
      let c := if inTitle then emit (E_method node "onNodeTitleDblClick") c
               else c in
      let c := emit (E_method node "onDblClick") c in
      (* processNodeDblClicked *)
      let c := emit (E_call "onShowNodePanel") c in
      let c := emit (E_call "onNodeDblClicked") c in
      setDirty true false c
  end.

Definition run_dragStart (h : DragStartHook) (c : LGraphCanvas) : LGraphCanvas :=
  match h with
  | DS_dragging_rectangle => upd_modes (set_dragging_rectangle true) c
  | DS_cloned cloned =>
      let c := emit (E_call "graph.add") c in
      let c := set_graph
                 (g ← graph c;
                  Some {| _nodes := _nodes g ++ [cloned]; groups := groups g;
                          reroutes := reroutes g |}) c in
      startDraggingItems cloned false c
  | DS_connecting_output outputNode slot =>
      set_connecting_output (node_output c outputNode slot) c
  | DS_startDraggingItems item sticky => startDraggingItems item sticky c
  | DS_group group =>
      let c := emit (E_method group "recomputeInsideNodes") c in
      startDraggingItems group true c
  | DS_dragging_canvas => upd_modes (set_dragging_canvas true) c
  | DS_resizingGroup group => upd_modes (set_resizingGroup (Some group)) c
  | DS_resizing_node node =>
      let c := emit E_graph_beforeChange c in
      upd_modes (set_resizing_node (Some node)) c
  | DS_reconnect node i linked_node slot =>
      let c := if allow_reconnect_links cfg && negb (click_do_break_link_to cfg)
               then emit (E_disconnectInput node (Z.of_nat i)) c else c in
      set_connecting_output (node_output c linked_node slot) c
  | DS_connecting_input input => set_connecting_input (Some input) c
  end.

Definition run_drag (h : DragHook) (eMove : CanvasPointerEvent)
    (c : LGraphCanvas) : LGraphCanvas :=
  match h with
  | Drag_resizeGroup group =>
      if read_only cfg then c
      else
        let c := emit (E_method group "resize") c in
        if group_resize W group eMove then set_dirty_bgcanvas true c else c
  | Drag_resizeNode node =>
      if read_only cfg then c
      else dirty (emit (E_method node "setSize") c)
  | Drag_widget node widget =>
      let c := emit (E_method node "widget.onDrag") c in
      if String.eqb (widget_type widget) "slider" then set_dirty_canvas true c
      else c
  end.

Definition run_dragEnd (h : DragEndHook) (e : CanvasPointerEvent)
    (c : LGraphCanvas) : LGraphCanvas :=
  match h with
  | DE_handleMultiSelect => handleMultiSelect M e c
  | DE_processDraggedItems => processDraggedItems e c
  | DE_resizeNode => emit E_graph_afterChange (dirty c)
  end.

Definition run_finally (h : FinallyHook) (c : LGraphCanvas)
  : option LGraphCanvas :=
  match h with
  | Fin_dragging_rectangle => Some (upd_modes (set_dragging_rectangle false) c)
  | Fin_dragging_canvas => Some (upd_modes (set_dragging_canvas false) c)
  | Fin_resizingGroup => Some (upd_modes (set_resizingGroup None) c)
  | Fin_resizing_node => Some (upd_modes (set_resizing_node None) c)
  | Fin_widget node widget =>
      (* Legacy custom widget callback *)
      c ← (if widget_mouse widget is Some _
           then
             (* [const { canvasX, canvasY } = eUp] throws when [pointer.eUp]
                is null *)
             _ ← eUp (pointer c);
             Some (emit (E_method node "widget.mouse") c)
           else Some c);
      Some (upd_modes (set_node_widget None) c)
  | Fin_isDragging =>
      let c := upd_modes (set_isDragging false) c in
      let c := emit E_graph_afterChange c in
      Some (emitAfterChange c)
  end.

(** ** The pointer session *)

(** Modelled from the spec: [CanvasPointer.reset] is missing from the source.
    Sections 4.1 and 5: it unconditionally clears all session state and the
    hooks; a gesture that is cancelled still has its [finally] hook invoked,
    and never twice, so the hook is taken out of its slot before it runs.
    What a hook throws is thrown by [reset]. *)
Definition pointer_reset (c : LGraphCanvas) : option LGraphCanvas :=
  let pending := finally (pointer c) in
  let c := upd_pointer (set_finally None) c in
  c ← match pending with
      | Some h => run_finally h c
      | None => Some c
      end;
  Some (set_pointer idle_pointer c).

(** Modelled from the spec: [CanvasPointer.down] is missing from the source.
    Section 4.1: it records the press and resets the hooks; a second press
    within the time and distance window of a completed click sets [isDouble]
    (the window is not specified: [within_window] says whether the press
    falls in it). *)
Definition pointer_down (within_window : bool) (e : CanvasPointerEvent)
    (c : LGraphCanvas) : LGraphCanvas :=
  upd_pointer (λ p,
    {| isDown := isDown p; isDouble := within_window; dragStarted := false;
       eDown := Some e; eUp := None;
       onClick := None; onDoubleClick := None; onDragStart := None;
       onDrag := None; onDragEnd := None; finally := None |}) c.

(** Modelled from the spec: [CanvasPointer.move] is missing from the source.
    Section 4.1: when the drag has not started and the movement exceeds the
    threshold ([exceeds], the threshold itself is not specified) it invokes
    [onDragStart] once and flips to drag-started; while drag-started it
    forwards every call to [onDrag]. *)
Definition pointer_move (exceeds : bool) (e : CanvasPointerEvent)
    (c : LGraphCanvas) : LGraphCanvas :=
  let c :=
    if negb (dragStarted (pointer c)) && exceeds then
      let c := match onDragStart (pointer c) with
               | Some h => run_dragStart h c
               | None => c
               end in
      upd_pointer (set_dragStarted true) c
    else c in
  if dragStarted (pointer c) then
    match onDrag (pointer c) with
    | Some h => run_drag h e c
    | None => c
    end
  else c.

(** Modelled from the spec: [CanvasPointer.up] is missing from the source.
    Section 4.1: it returns true when the session never exceeded the
    threshold and then dispatches [onClick] ([onDoubleClick], if set, for a
    double click, which suppresses the single-click branch), otherwise it
    dispatches [onDragEnd]; in both outcomes [finally] is invoked exactly
    once and the session is reset.  What a hook throws is thrown by [up]. *)
Definition pointer_up (e : CanvasPointerEvent) (c : LGraphCanvas)
  : option (bool * LGraphCanvas) :=
  let isClick := negb (dragStarted (pointer c)) in
  let c := upd_pointer (set_eUp (Some e)) c in
  c ← (if isClick then
         if isDouble (pointer c) then
           match onDoubleClick (pointer c) with
           | Some h => Some (run_doubleClick h c)
           | None => Some c
           end
         else
           match onClick (pointer c) with
           | Some h => run_click h e c
           | None => Some c
           end
       else
         match onDragEnd (pointer c) with
         | Some h => Some (run_dragEnd h e c)
         | None => Some c
         end);
  c ← pointer_reset c;
  Some (isClick, c).

(** ** Slots under the pointer *)

Definition float_of_nat (n : nat) : float :=
  PrimFloat.of_uint63 (Uint63.of_Z (Z.of_nat n)).

(** [20 + ((input.label?.length ?? input.name?.length) || 3) * 7] *)
Definition input_hit_width (input : INodeInputSlot) : float :=
  let len := match in_label input with
             | Some l => String.length l
             | None => match in_name input with
                       | Some s => String.length s
                       | None => 0%nat
                       end
             end in
  (20 + float_of_nat (if decide (len = 0%nat) then 3%nat else len) * 7)%float.

(** The loop of [isOverNodeInput], from slot [i] on. *)
Fixpoint isOverNodeInput_from (node : Ref) (horizontal : bool) (x y : float)
    (i : nat) (ins : list INodeInputSlot) : Z :=
  match ins with
  | [] => -1
  | input :: rest =>
      let link_pos := getConnectionPos W node true (Z.of_nat i) in
      let is_inside :=
        if horizontal then
          isInRectangle M x y (px link_pos - 5)%float (py link_pos - 10)%float
            10%float 20%float
        else
          (* Input icon width + text approximation *)
          isInRectangle M x y (px link_pos - 10)%float (py link_pos - 10)%float
            (input_hit_width input) 20%float in
      if is_inside then Z.of_nat i
      else isOverNodeInput_from node horizontal x y (S i) rest
  end.

(** [isOverNodeInput(node, canvasx, canvasy)]: the index of the input slot
    under the position, or -1. *)
Definition isOverNodeInput (node : Ref) (n : LGraphNode) (canvasx canvasy : float)
  : Z :=
  match inputs n with
  | Some ins =>
      isOverNodeInput_from node (node_horizontal n) canvasx canvasy 0 ins
  | None => -1
  end.

Fixpoint isOverNodeOutput_from (node : Ref) (horizontal : bool) (x y : float)
    (i : nat) (outs : list INodeOutputSlot) : Z :=
  match outs with
  | [] => -1
  | _ :: rest =>
      let link_pos := getConnectionPos W node false (Z.of_nat i) in
      let is_inside :=
        if horizontal then
          isInRectangle M x y (px link_pos - 5)%float (py link_pos - 10)%float
            10%float 20%float
        else
          isInRectangle M x y (px link_pos - 10)%float (py link_pos - 10)%float
            40%float 20%float in
      if is_inside then Z.of_nat i
      else isOverNodeOutput_from node horizontal x y (S i) rest
  end.

(** [isOverNodeOutput(node, canvasx, canvasy)] *)
Definition isOverNodeOutput (node : Ref) (n : LGraphNode)
    (canvasx canvasy : float) : Z :=
  match outputs n with
  | Some outs =>
      isOverNodeOutput_from node (node_horizontal n) canvasx canvasy 0 outs
  | None => -1
  end.

(** The first slot, from slot [i] on, whose connection position has the
    pointer in the 30 by 20 box round it: the test of the slot loops of
    [#processNodeClick] and [#processMiddleButton]. *)
Fixpoint slot_under_pointer {A} (node : Ref) (is_input : bool) (x y : float)
    (i : nat) (slots : list A) : option (nat * A * Point) :=
  match slots with
  | [] => None
  | s :: rest =>
      let link_pos := getConnectionPos W node is_input (Z.of_nat i) in
      if isInRectangle M x y (px link_pos - 15)%float (py link_pos - 10)%float
           30%float 20%float
      then Some (i, s, link_pos)
      else slot_under_pointer node is_input x y (S i) rest
  end.

(** ** Pointer down *)

(** [bringToFront(node)] *)
Fixpoint remove_first (r : Ref) (l : list Ref) : list Ref :=
  match l with
  | [] => []
  | x :: rest => if decide (x = r) then rest else x :: remove_first r rest
  end.

Definition bringToFront (node : Ref) (c : LGraphCanvas) : LGraphCanvas :=
  set_graph
    (g ← graph c;
     Some (if bool_decide (node ∈ _nodes g)
           then {| _nodes := remove_first node (_nodes g) ++ [node];
                   groups := groups g; reroutes := reroutes g |}
           else g)) c.

(** [#processWidgetClick(e, node, widget)] *)
Definition processWidgetClick (e : CanvasPointerEvent) (node : Ref)
    (widget : IWidget) (c : LGraphCanvas) : LGraphCanvas :=
  (* Custom widget - CanvasPointer *)
  let c := if widget_onPointerDown widget is Some _
           then emit (E_method node "widget.onPointerDown") c else c in
  if widget_onPointerDown widget is Some true then c
  else
    let ty := widget_type widget in
    let click := upd_pointer (set_onClick (Some (Click_widget node widget))) in
    let drag := upd_pointer (set_onDrag (Some (Drag_widget node widget))) in
    let c :=
      if String.eqb ty "button" then click c
      else if String.eqb ty "slider" then
        if widget_options_read_only widget then c else drag c
      else if String.eqb ty "number" then drag (click c)
      else if String.eqb ty "combo" then click c
      else if String.eqb ty "toggle" then click c
      else if String.eqb ty "string" || String.eqb ty "text" then click c
      else
        (* Legacy custom widget callback *)
        match widget_mouse widget with
        | Some result =>
            let c := emit (E_method node "widget.mouse") c in
            match result with
            | Some r => set_dirty_canvas r c
            | None => c
            end
        | None => c
        end in
    (* value changed *)
    let c := if widget_value_changed widget
             then emit (E_method node "onWidgetChanged") c else c in
    (* Clean up state var *)
    upd_pointer (set_finally (Some (Fin_widget node widget))) c.

(** The entry pushed for one link of an output that is dragged with shift
    held. *)
Definition connecting_from_target (c : LGraphCanvas) (horizontal : bool)
    (linkId : LinkId) : ConnectingLink :=
  let link := links_get W linkId in
  let slot := link_target_slot link in
  let linked_node := nodes_by_id W (link_target_id link) in
  {| cl_node := linked_node; cl_slot := slot;
     cl_input := node_input c linked_node slot; cl_output := None;
     cl_pos := getConnectionPos W linked_node true slot;
     cl_afterRerouteId := None;
     cl_direction := Some (if horizontal then CENTER else RIGHT) |}.

(** The blocks of [#processNodeClick], in the order of the source. *)

(** Click was inside the node, but not on input/output, or the resize
    corner. *)
Definition nodeInsideClick (e : CanvasPointerEvent) (node : Ref)
    (n : LGraphNode) (inCollapse : bool) (c : LGraphCanvas) : LGraphCanvas :=
  let x := canvasX e in
  let y := canvasY e in
  match getWidgetOnPos W node x y with
  | Some widget =>
      let c := processWidgetClick e node widget c in
      let c := upd_modes (set_node_widget (Some (node, widget))) c in
      set_dirty_canvas true c
  | None =>
      let inTitle := PrimFloat.ltb (y - py (node_pos n))%float 0
                     && negb inCollapse in
      let c := upd_pointer (set_onDoubleClick (Some (Dbl_node node inTitle))) c in
      (* Mousedown callback - can block drag *)
      let c := emit (E_method node "onMouseDown") c in
      if node_onMouseDown W node e || negb (allow_dragnodes cfg) then c
      else
        (* Drag node *)
        let c := upd_pointer
                   (set_onDragStart (Some (DS_startDraggingItems node true))) c in
        let c := upd_pointer (set_onDragEnd (Some DE_processDraggedItems)) c in
        set_dirty_canvas true c
  end.

(** Resize node *)
Definition nodeResizeClick (node : Ref) (c : LGraphCanvas) : LGraphCanvas :=
  let c := upd_pointer (set_onDragStart (Some (DS_resizing_node node))) c in
  let c := upd_pointer (set_onDrag (Some (Drag_resizeNode node))) c in
  let c := upd_pointer (set_onDragEnd (Some DE_resizeNode)) c in
  upd_pointer (set_finally (Some Fin_resizing_node)) c.

(** Outputs: the press is on output slot [i]. *)
Definition nodeOutputClick (e : CanvasPointerEvent) (ctrlOrMeta : bool)
    (node : Ref) (n : LGraphNode) (i : nat) (output : INodeOutputSlot)
    (link_pos : Point) (c : LGraphCanvas) : LGraphCanvas :=
  if shiftKey e
     && match out_links output with
        | Some (_ :: _) => true
        | _ => false
        end
  then
    (* Drag multiple output links *)
    upd_modes (set_connecting_links
                 (Some (map (connecting_from_target c (node_horizontal n))
                            (default [] (out_links output))))) c
  else
    let c := upd_modes (set_connecting_links
               (Some [{| cl_node := node; cl_slot := Z.of_nat i;
                         cl_input := None; cl_output := Some output;
                         cl_pos := link_pos; cl_afterRerouteId := None;
                         cl_direction := None |}])) c in
    let c :=
      if shift_click_do_break_link_from cfg then
        if shiftKey e then emit (E_disconnectOutput node (Z.of_nat i)) c
        else c
      else if ctrl_alt_click_do_break_link cfg then
        if ctrlOrMeta && altKey e && negb (shiftKey e)
        then emit (E_disconnectOutput node (Z.of_nat i)) c
        else c
      else c in
    let c := upd_pointer
               (set_onDoubleClick (Some (Dbl_onOutputDblClick node i))) c in
    upd_pointer (set_onClick (Some (Click_onOutputClick node i))) c.

(** Inputs: the press is on input slot [i]. *)
Definition nodeInputClick (e : CanvasPointerEvent) (ctrlOrMeta : bool)
    (node : Ref) (i : nat) (input : INodeInputSlot) (link_pos : Point)
    (c : LGraphCanvas) : LGraphCanvas :=
  let c := upd_pointer
             (set_onDoubleClick (Some (Dbl_onInputDblClick node i))) c in
  let c := upd_pointer (set_onClick (Some (Click_onInputClick node i))) c in
  let c :=
    match in_link input with
    | Some linkId =>
        (* before disconnecting *)
        let link_info := links_get W linkId in
        let slot := link_origin_slot link_info in
        let linked_node := nodes_by_id W (link_origin_id link_info) in
        if click_do_break_link_to cfg
           || (ctrl_alt_click_do_break_link cfg && ctrlOrMeta
               && altKey e && negb (shiftKey e))
        then emit (E_disconnectInput node (Z.of_nat i)) c
        else if shiftKey e || allow_reconnect_links cfg then
          let c := upd_modes (set_connecting_links
                     (Some [{| cl_node := linked_node; cl_slot := slot;
                               cl_input := None;
                               cl_output := node_output c linked_node slot;
                               cl_pos := getConnectionPos W linked_node
                                           false slot;
                               cl_afterRerouteId := None;
                               cl_direction := None |}])) c in
          let c := upd_pointer
                     (set_onDragStart
                        (Some (DS_reconnect node i linked_node slot))) c in
          set_dirty_bgcanvas true c
        else c
    | None => c
    end in
  if onDragStart (pointer c) is Some _ then c
  else
    (* Connect from input to output *)
    let c := upd_modes (set_connecting_links
               (Some [{| cl_node := node; cl_slot := Z.of_nat i;
                         cl_input := None; cl_output := None;
                         cl_pos := link_pos;
                         cl_afterRerouteId := None;
                         cl_direction := None |}])) c in
    let c := upd_pointer
               (set_onDragStart (Some (DS_connecting_input input))) c in
    set_dirty_bgcanvas true c.

(** [#processNodeClick(e, ctrlOrMeta, node)] *)
Definition processNodeClick (e : CanvasPointerEvent) (ctrlOrMeta : bool)
    (node : Ref) (n : LGraphNode) (c : LGraphCanvas) : LGraphCanvas :=
  let x := canvasX e in
  let y := canvasY e in
  let c := upd_pointer (set_onClick (Some (Click_processSelect (Some node) e))) c in
  (* Immediately bring to front *)
  let c := if negb (flags_pinned n) then bringToFront node c else c in
  (* Collapse toggle *)
  let inCollapse := isPointInCollapse W node x y in
  if inCollapse then
    nodeInsideClick e node n inCollapse
      (upd_pointer (set_onClick (Some (Click_collapse node))) c)
  else if negb (flags_collapsed n) then
    if node_resizable n && inResizeCorner W node x y then nodeResizeClick node c
    else
      match outs ← outputs n; slot_under_pointer node false x y 0 outs with
      | Some (i, output, link_pos) =>
          nodeOutputClick e ctrlOrMeta node n i output link_pos c
      | None =>
          match ins ← inputs n; slot_under_pointer node true x y 0 ins with
          | Some (i, input, link_pos) =>
              nodeInputClick e ctrlOrMeta node i input link_pos c
          | None => nodeInsideClick e node n inCollapse c
          end
      end
  else nodeInsideClick e node n inCollapse c.

(** The object a reference denotes, when it is of the expected class. *)
Definition as_node (c : LGraphCanvas) (r : Ref) : option (Ref * LGraphNode) :=
  match heap c !! r with
  | Some (ONode n) => Some (r, n)
  | _ => None
  end.

Definition as_group (c : LGraphCanvas) (r : Ref) : option (Ref * LGraphGroup) :=
  match heap c !! r with
  | Some (OGroup g) => Some (r, g)
  | _ => None
  end.

Definition as_reroute (c : LGraphCanvas) (r : Ref) : option (Ref * Reroute) :=
  match heap c !! r with
  | Some (OReroute rr) => Some (r, rr)
  | _ => None
  end.

(** How the loop over [renderedPaths] of [#processPrimaryButton] ends: with a
    [return] out of the handler, or by running out of segments. *)
Inductive LoopExit :=
| Returned (c : LGraphCanvas)
| Completed (c : LGraphCanvas).

(** Links - paths of links & reroutes.  [lineWidth] is [ctx.lineWidth] as set
    for the [isPointInStroke] checks. *)
Fixpoint processLinkSegments (e : CanvasPointerEvent) (dpi : float)
    (segments : list LinkSegment) (c : LGraphCanvas) : LoopExit :=
  let x := canvasX e in
  let y := canvasY e in
  match segments with
  | [] => Completed c
  | linkSegment :: rest =>
      match _pos linkSegment with
      | None => processLinkSegments e dpi rest c
      | Some centre =>
          (* If we shift click on a link then start a link from that input *)
          if (shiftKey e || altKey e)
             && match seg_path linkSegment with
                | Some path =>
                    isPointInStroke W (ctx_lineWidth c) path
                      (x * dpi)%float (y * dpi)%float
                | None => false
                end
          then
            if shiftKey e && negb (altKey e) then
              let slot := origin_slot linkSegment in
              let originNode := nodes_by_id W (origin_id linkSegment) in
              let c := upd_modes (set_connecting_links
                         (Some [{| cl_node := originNode; cl_slot := slot;
                                   cl_input := None; cl_output := None;
                                   cl_pos := getConnectionPos W originNode false slot;
                                   cl_afterRerouteId :=
                                     match seg_parentId linkSegment with
                                     | Some id => if decide (id = 0) then None
                                                  else Some id
                                     | None => None
                                     end;
                                   cl_direction := None |}])) c in
              Returned
                (upd_pointer
                   (set_onDragStart
                      (Some (DS_connecting_output originNode slot))) c)
            else if reroutesEnabled cfg && altKey e && negb (shiftKey e) then
              let '(newReroute, rr) := createReroute W (mkPoint x y) linkSegment in
              let c := emit (E_call "graph.createReroute") c in
              let c := set_heap (<[newReroute:=OReroute rr]> (heap c)) c in
              let c := set_graph
                         (g ← graph c;
                          Some {| _nodes := _nodes g; groups := groups g;
                                  reroutes := reroutes g ++ [newReroute] |}) c in
              let c := upd_pointer
                         (set_onDragStart
                            (Some (DS_startDraggingItems newReroute false))) c in
              Returned
                (upd_pointer (set_onDragEnd (Some DE_processDraggedItems)) c)
            else processLinkSegments e dpi rest c
          else if isInRectangle M x y (px centre - 4)%float (py centre - 4)%float
                    8%float 8%float
          then
            let c := upd_pointer
                       (set_onClick (Some (Click_showLinkMenu linkSegment))) c in
            let c := upd_pointer (set_onDragStart (Some DS_dragging_canvas)) c in
            let c := upd_pointer (set_finally (Some Fin_dragging_canvas)) c in
            (* clear tooltip *)
            Returned (upd_modes (set_over_link_center None) c)
          else processLinkSegments e dpi rest c
      end
  end.

(** The last statement of [#processPrimaryButton]: with no click or drag hook
    set, the press pans the canvas. *)
Definition panFallback (e : CanvasPointerEvent) (c : LGraphCanvas)
  : LGraphCanvas :=
  if negb (bool_decide (is_Some (onDragStart (pointer c))))
     && negb (bool_decide (is_Some (onClick (pointer c))))
     && negb (bool_decide (is_Some (onDrag (pointer c))))
     && allow_dragcanvas cfg
  then
    let c := upd_pointer (set_onClick (Some (Click_processSelect None e))) c in
    let c := upd_pointer (set_finally (Some Fin_dragging_canvas)) c in
    upd_modes (set_dragging_canvas true) c
  else c.

(** The blocks of [#processPrimaryButton], in the order of the source. *)

(** Multi-select drag rectangle *)
Definition multiSelectPress (e : CanvasPointerEvent) (node : option Ref)
    (c : LGraphCanvas) : LGraphCanvas :=
  let c := upd_modes (set_dragRect
             (mkRect (fround (canvasX e)) (fround (canvasY e)) 1%float 1%float))
             c in
  let c := upd_pointer (set_onClick (Some (Click_multiSelect node))) c in
  let c := upd_pointer (set_onDragStart (Some DS_dragging_rectangle)) c in
  let c := upd_pointer (set_onDragEnd (Some DE_handleMultiSelect)) c in
  upd_pointer (set_finally (Some Fin_dragging_rectangle)) c.

(** clone node ALT dragging: [cloned] is the configured clone. *)
Definition clonePress (cloned : Ref) (cn : LGraphNode) (c : LGraphCanvas)
  : LGraphCanvas :=
  let c := set_heap (<[cloned:=ONode cn]> (heap c)) c in
  if allow_dragnodes cfg then
    let c := upd_pointer (set_onDragStart (Some (DS_cloned cloned))) c in
    upd_pointer (set_onDragEnd (Some DE_processDraggedItems)) c
  else
    let c := emit E_graph_beforeChange c in
    let c := emit (E_call "graph.add") c in
    let c := set_graph
               (g ← graph c;
                Some {| _nodes := _nodes g ++ [cloned]; groups := groups g;
                        reroutes := reroutes g |}) c in
    emit E_graph_afterChange c.

(** Reroutes: the press is on [reroute]. *)
Definition reroutePress (e : CanvasPointerEvent) (reroute : Ref) (rr : Reroute)
    (c : LGraphCanvas) : LGraphCanvas :=
  let c :=
    if shiftKey e then
      (* Connect new link from reroute *)
      let link := reroute_first_link W reroute in
      let outputNode := nodes_by_id W (link_origin_id link) in
      let slot := link_origin_slot link in
      let c := upd_modes (set_connecting_links
                 (Some [{| cl_node := outputNode; cl_slot := slot;
                           cl_input := None; cl_output := None;
                           cl_pos := getConnectionPos W outputNode false slot;
                           cl_afterRerouteId := Some (reroute_id rr);
                           cl_direction := None |}])) c in
      let c := upd_pointer
                 (set_onDragStart
                    (Some (DS_connecting_output outputNode slot))) c in
      set_dirty_bgcanvas true c
    else c in
  let c := upd_pointer
             (set_onClick (Some (Click_processSelect (Some reroute) e))) c in
  if onDragStart (pointer c) is Some _ then c
  else
    let c := upd_pointer
               (set_onDragStart (Some (DS_startDraggingItems reroute true))) c in
    upd_pointer (set_onDragEnd (Some DE_processDraggedItems)) c.

(** Groups: [group] is the group under the pointer, if any. *)
Definition groupPress (e : CanvasPointerEvent)
    (group : option (Ref * LGraphGroup)) (c : LGraphCanvas) : LGraphCanvas :=
  let x := canvasX e in
  let y := canvasY e in
  let c := upd_modes (set_selected_group (fst <$> group)) c in
  match group with
  | Some (group, g) =>
      let c :=
        if group_isInResize W group x y then
          (* Resize group *)
          let c := upd_pointer
                     (set_onDragStart (Some (DS_resizingGroup group))) c in
          let c := upd_pointer (set_onDrag (Some (Drag_resizeGroup group))) c in
          upd_pointer (set_finally (Some Fin_resizingGroup)) c
        else
          let f := match font_size g with
                   | Some f => if truthy_number f then f
                               else DEFAULT_GROUP_FONT_SIZE cfg
                   | None => DEFAULT_GROUP_FONT_SIZE cfg
                   end in
          let headerHeight := (f * 0x1.6666666666666p+0)%float in (* f * 1.4 *)
          if isInRectangle M x y (px (group_pos g)) (py (group_pos g))
               (px (group_size g)) headerHeight
          then
            (* In title bar *)
            let c := upd_pointer
                       (set_onClick
                          (Some (Click_processSelect (Some group) e))) c in
            let c := upd_pointer (set_onDragStart (Some (DS_group group))) c in
            upd_pointer (set_onDragEnd (Some DE_processDraggedItems)) c
          else c in
      upd_pointer (set_onDoubleClick (Some (Dbl_group group))) c
  | None => upd_pointer (set_onDoubleClick (Some Dbl_empty)) c
  end.

(** The press is not on a node that takes it: reroutes, links, groups. *)
Definition canvasPress (e : CanvasPointerEvent) (c : LGraphCanvas)
  : LGraphCanvas :=
  let x := canvasX e in
  let y := canvasY e in
  (* Reroutes *)
  match (if reroutesEnabled cfg
         then r ← getRerouteOnPos W x y; as_reroute c r else None) with
  | Some (reroute, rr) => reroutePress e reroute rr c
  | None =>
      (* Links - paths of links & reroutes *)
      (* Set the width of the line for isPointInStroke checks *)
      let lineWidth := ctx_lineWidth c in
      let c := set_ctx_lineWidth (connections_width cfg + 7)%float c in
      let dpi := match devicePixelRatio W with
                 | Some r => if truthy_number r then r else 1%float
                 | None => 1%float
                 end in
      match processLinkSegments e dpi (renderedPaths c) c with
      | Returned c => c
      | Completed c =>
          (* Restore line width *)
          let c := set_ctx_lineWidth lineWidth c in
          (* Groups *)
          let group := r ← getGroupOnPos W x y; as_group c r in
          panFallback e (groupPress e group c)
      end
  end.

(** [#processPrimaryButton(e, node)] *)
Definition processPrimaryButton (e : CanvasPointerEvent)
    (node : option (Ref * LGraphNode)) (c : LGraphCanvas) : LGraphCanvas :=
  (* Modifiers *)
  let ctrlOrMeta := ctrlKey e || metaKey e in
  (* Multi-select drag rectangle *)
  if ctrlOrMeta && negb (altKey e) then multiSelectPress e (fst <$> node) c
  else if read_only cfg then
    let c := upd_pointer (set_finally (Some Fin_dragging_canvas)) c in
    upd_modes (set_dragging_canvas true) c
  else
    (* clone node ALT dragging *)
    match (if alt_drag_do_clone_nodes cfg && altKey e && negb (ctrlKey e)
              && allow_interaction cfg
           then '(node, _) ← node; cloneNode W node else None) with
    | Some (cloned, cn) => clonePress cloned cn c
    | None =>
        match node with
        | Some (node, n) =>
            if allow_interaction cfg || flags_allow_interaction n
            then (* Node clicked *)
              panFallback e (processNodeClick e ctrlOrMeta node n c)
            else canvasPress e c
        | None => canvasPress e c
        end
    end.

(** [#processMiddleButton(e, node)] *)
Definition processMiddleButton (e : CanvasPointerEvent)
    (node : option (Ref * LGraphNode)) (c : LGraphCanvas) : LGraphCanvas :=
  let c :=
    match node with
    | Some (node, n) =>
        if middle_click_slot_add_default_node cfg && allow_interaction cfg
           && negb (read_only cfg)
           && negb (bool_decide (is_Some (connecting_links (modes c))))
           && negb (flags_collapsed n)
        then
          (* not dragging mouse to connect two slots *)
          (* search for outputs *)
          let overOutput :=
            outs ← outputs n;
            slot_under_pointer node false (canvasX e) (canvasY e) 0 outs in
          (* search for inputs: what it finds replaces the output found *)
          let overInput :=
            ins ← inputs n;
            slot_under_pointer node true (canvasX e) (canvasY e) 0 ins in
          let mClikSlot :=
            match overInput, overOutput with
            | Some (i, _, _), _ =>
                Some (i, false, length (default [] (inputs n)))
            | None, Some (i, _, _) =>
                Some (i, true, length (default [] (outputs n)))
            | None, None => None
            end in
          (* Middle clicked a slot *)
          match mClikSlot with
          | Some (mClikSlot_index, mClikSlot_isOut, slots) =>
              let alphaPosY :=
                (0.5 - (float_of_nat mClikSlot_index + 1)
                       / float_of_nat slots)%float in
              let node_bounding := getBounding W node in
              let posRef :=
                mkPoint (if negb mClikSlot_isOut then rx node_bounding
                         else rx node_bounding + rw node_bounding)%float
                        (canvasY e - 80)%float in
              upd_pointer
                (set_onClick
                   (Some (Click_createDefaultNodeForSlot node mClikSlot_index
                            mClikSlot_isOut posRef
                            (mkPoint (if negb mClikSlot_isOut then -30 else 30)
                                     (- alphaPosY * 130))%float
                            (mkPoint (if negb mClikSlot_isOut then -1 else 0)
                                     0)%float))) c
          | None => c
          end
        else c
    | None => c
    end in
  (* Drag canvas using middle mouse button *)
  if allow_dragcanvas cfg then
    let c := upd_pointer (set_onDragStart (Some DS_dragging_canvas)) c in
    upd_pointer (set_finally (Some Fin_dragging_canvas)) c
  else c.

(** [processMouseDown(e)].  [within_window] is what the pointer session
    finds about a double click. *)
Definition processMouseDown (within_window : bool) (e : CanvasPointerEvent)
    (c : LGraphCanvas) : LGraphCanvas :=
  let c := if isPrimary e then pointer_down within_window e c else c in
  let c := if set_canvas_dirty_on_mouse_event cfg then set_dirty_canvas true c
           else c in
  match graph c with
  | None => c
  | Some _ =>
      let is_inside := match viewport cfg with
                       | None => true
                       | Some v => isInRect W (clientX e) (clientY e) v
                       end in
      if negb is_inside then c
      else
        let node := r ← getNodeOnPos W (canvasX e) (canvasY e); as_node c r in
        let c := set_last_click_position
                   (Some (mkPoint (clientX e) (clientY e))) c in
        let c := upd_pointer (λ p, set_isDouble (isDown p && isPrimary e) p) c in
        let c := upd_pointer (set_isDown true) c in
        let c := emit (E_call "LiteGraph.closeAllContextMenus") c in
        let c := emit (E_call "onMouse") c in
        if canvas_onMouse W e then c
        else
          let c :=
            (* left button mouse / single finger *)
            if bool_decide (button e = 0) && negb (isDouble (pointer c))
            then processPrimaryButton e node c
            else if bool_decide (button e = 1)
            then processMiddleButton e node c
            else if (bool_decide (button e = 2) || isDouble (pointer c))
                    && allow_interaction cfg && negb (read_only cfg)
            then
              (* Right / aux button *)
              (* Sticky select - won't remove single nodes *)
              let c := match node with
                       | Some (node, _) =>
                           processSelect (multi_select cfg) (Some node) (Some e)
                             true c
                       | None => c
                       end in
              (* Show context menu for the node or group under the pointer *)
              emit (E_call "processContextMenu") c
            else c in
          let c := set_last_mouse_dragging true c in
          let c := emit E_graph_change c in
          emit (E_call "onMouseDown") c
  end.

(** ** Pointer up and pointer cancel *)

(** The body of the loop of [processMouseUp] over [connecting_links], for one
    link released over [node]. *)
Definition releaseLinkOverNode (x y : float) (node : Ref) (n : LGraphNode)
    (c : LGraphCanvas) (link : ConnectingLink) : LGraphCanvas :=
  (* dragging a connection *)
  let c := dirty c in
  (* slot below mouse? connect *)
  match cl_output link, cl_input link with
  | Some output, _ =>
      let slot := isOverNodeInput node n x y in
      if negb (bool_decide (slot = -1)) then
        emit (E_connect (cl_node link) (cl_slot link) node slot
                (cl_afterRerouteId link)) c
      else
        match link_over_widget (modes c) with
        | Some widget =>
            let c := emitEvent (Ev_connectingWidgetLink link node widget) c in
            upd_modes (set_link_over_widget None) c
        | None =>
            (* not on top of an input *)
            (* look for a good slot *)
            emit (E_connectByType (cl_node link) (cl_slot link) node
                    (out_type output) (cl_afterRerouteId link)) c
        end
  | None, Some input =>
      let slot := isOverNodeOutput node n x y in
      if negb (bool_decide (slot = -1)) then
        (* this is inverted has output-input nature like *)
        emit (E_connect node slot (cl_node link) (cl_slot link)
                (cl_afterRerouteId link)) c
      else
        (* not on top of an input *)
        (* look for a good slot *)
        emit (E_connectByTypeOutput (cl_node link) (cl_slot link) node
                (in_type input) (cl_afterRerouteId link)) c
  | None, None => c
  end.

(** The block [if (this.connecting_links?.length) { ... } else { ... }] of
    [processMouseUp], entered on a primary-button release that was not a
    click; [node] is the node below the pointer. *)
Definition releaseConnectingLinks (e : CanvasPointerEvent)
    (node : option (Ref * LGraphNode)) (c : LGraphCanvas) : LGraphCanvas :=
  let x := canvasX e in
  let y := canvasY e in
  match connecting_links (modes c) with
  | Some (firstLink :: others) =>
      let links := firstLink :: others in
      (* node below mouse *)
      match node with
      | Some (node, n) => foldl (releaseLinkOverNode x y node n) c links
      | None =>
          if bool_decide (is_Some (cl_input firstLink))
             || bool_decide (is_Some (cl_output firstLink))
          then
            (* For external event only. *)
            let c := emitEvent (Ev_empty_release links) c in
            (* No longer in use *)
            (* add menu when releasing link in empty space *)
            if release_link_on_empty_shows_menu cfg then
              if shiftKey e then
                if allow_searchbox cfg then emit E_showSearchBox c else c
              else emit E_showConnectionMenu c
            else c
          else c
      end
  | _ =>
      let c := set_dirty_canvas true c in
      let c := emit (E_call "node_over.onMouseUp") c in
      emit (E_call "node_capturing_input.onMouseUp") c
  end.

(** [processMouseUp(e)] *)
Definition processMouseUp (e : CanvasPointerEvent) (c : LGraphCanvas)
  : option LGraphCanvas :=
  (* early exit for extra pointer *)
  if negb (isPrimary e) then Some c
  else
    match graph c with
    | None => Some c
    | Some _ =>
        (* Normal-looking click event - mouseUp occurred near mouseDown,
           without dragging. *)
        up ← pointer_up e c;
        let '(isClick, c) := up : bool * LGraphCanvas in
        Some
        (if isClick then
          let c := upd_pointer (set_isDown false) c in
          let c := upd_pointer (set_isDouble false) c in
          (* Required until all link behaviour is added to Pointer API *)
          let c := upd_modes (set_connecting_links None) c in
          let c := upd_modes (set_dragging_canvas false) c in
          emit E_graph_change c
        else
          let c := set_last_mouse_dragging false c in
          let c := set_last_click_position None c in
          (* used to avoid sending twice a click in an immediate button *)
          let c := set_block_click false c in
          let c :=
            if bool_decide (button e = 0) then
              (* left button *)
              let c := upd_modes (set_selected_group None) c in
              let c := upd_modes (set_isDragging false) c in
              let node :=
                r ← getNodeOnPos W (canvasX e) (canvasY e); as_node c r in
              let c := releaseConnectingLinks e node c in
              upd_modes (set_connecting_links None) c
            else if bool_decide (button e = 1) then
              (* middle button *)
              let c := set_dirty_canvas true c in
              upd_modes (set_dragging_canvas false) c
            else if bool_decide (button e = 2) then
              (* right button *)
              set_dirty_canvas true c
            else c in
          let c := upd_pointer (set_isDown false) c in
          let c := upd_pointer (set_isDouble false) c in
          emit E_graph_change c)
    end.

(** [processMouseCancel(e)] *)
Definition processMouseCancel (c : LGraphCanvas) : option LGraphCanvas :=
  pointer_reset c.

End Gestures.

(** ** Link rendering

    [renderLink] draws on the 2D context and writes the render cache of the
    link or reroute: the path, the centre point [_pos] and the angle
    [_centreAngle]. *)

(** [LinkMarkerShape]; [null] and [undefined] are [None] in
    [option LinkMarkerShape]. *)
Inductive LinkMarkerShape := Marker_None | Marker_Circle | Marker_Arrow.

(** What modules outside the canvas declare: the numbers of the enumeration
    [LinkRenderType], and the class of the array that [LLink] and [Reroute]
    keep in [_pos]. *)
Record Declarations := {
  STRAIGHT_LINK : Z;
  LINEAR_LINK : Z;
  SPLINE_LINK : Z;
  posKind : ArrayKind }.

(** [Math.atan2], [Math.PI], the remainder operator [%] on numbers, and the
    successive readings of [LiteGraph.getTime()] during a call. *)
Record MathEnv := {
  atan2 : float -> float -> float;
  PI : float;
  rem : float -> float -> float;
  getTime : nat -> float }.

(** The calls received by the drawing context, oldest first. *)
Inductive DrawOp :=
| Op_stroke (path : Path2D)
| Op_fill
| Op_beginPath
| Op_moveTo (x y : float)
| Op_lineTo (x y : float)
| Op_arc (x y radius startAngle endAngle : float)
| Op_translate (x y : float)
| Op_rotate (angle : option float)
| Op_getTransform
| Op_setTransform.

(** [CanvasRenderingContext2D]: the properties [renderLink] assigns, and the
    calls made. *)
Record Context2D := {
  lineWidth : float;
  lineJoin : string;
  strokeStyle : string;
  fillStyle : string;
  drawn : list DrawOp }.

(** The fields of the canvas that [renderLink] reads. *)
Record RenderOptions := {
  links_render_mode : Z;
  linkMarkerShape : option LinkMarkerShape;
  render_connections_border : bool;
  ds_scale : float;
  highquality_render : bool;
  render_connection_arrows : bool;
  render_curved_connections : bool;
  default_link_color : string;
  (** [LGraphCanvas.link_type_colors] *)
  link_type_colors : string -> option string }.

(** The link given to [renderLink]: its place in the store of segments, and
    the fields read besides the render cache. *)
Record RenderedLink := {
  rl_ref : Ref;
  rl_id : LinkId;
  rl_color : option string;
  rl_type : string }.

(** What [renderLink] reads and writes: the context, [visible_links], the
    links and reroutes (by reference), [highlighted_links], and the static
    scratch arrays [#lTempA], [#lTempB], [#lTempC], each a [Float32Array]. *)
Record RenderState := {
  ctx : Context2D;
  visible_links : list Ref;
  segments : gmap Ref LinkSegment;
  render_highlighted : gmap LinkKey bool;
  lTempA : Point;
  lTempB : Point;
  lTempC : Point }.

Definition upd_ctx (f : Context2D -> Context2D) (st : RenderState)
  : RenderState :=
  {| ctx := f (ctx st); visible_links := visible_links st;
     segments := segments st; render_highlighted := render_highlighted st;
     lTempA := lTempA st; lTempB := lTempB st; lTempC := lTempC st |}.

Definition set_lineWidth (v : float) (x : Context2D) : Context2D :=
  {| lineWidth := v; lineJoin := lineJoin x; strokeStyle := strokeStyle x;
     fillStyle := fillStyle x; drawn := drawn x |}.

Definition set_lineJoin (v : string) (x : Context2D) : Context2D :=
  {| lineWidth := lineWidth x; lineJoin := v; strokeStyle := strokeStyle x;
     fillStyle := fillStyle x; drawn := drawn x |}.

Definition set_strokeStyle (v : string) (x : Context2D) : Context2D :=
  {| lineWidth := lineWidth x; lineJoin := lineJoin x; strokeStyle := v;
     fillStyle := fillStyle x; drawn := drawn x |}.

Definition set_fillStyle (v : string) (x : Context2D) : Context2D :=
  {| lineWidth := lineWidth x; lineJoin := lineJoin x;
     strokeStyle := strokeStyle x; fillStyle := v; drawn := drawn x |}.

(** A call on the context. *)
Definition draw (ops : list DrawOp) (st : RenderState) : RenderState :=
  upd_ctx (λ x, {| lineWidth := lineWidth x; lineJoin := lineJoin x;
                   strokeStyle := strokeStyle x; fillStyle := fillStyle x;
                   drawn := drawn x ++ ops |}) st.

Definition set_visible_links (v : list Ref) (st : RenderState) : RenderState :=
  {| ctx := ctx st; visible_links := v; segments := segments st;
     render_highlighted := render_highlighted st;
     lTempA := lTempA st; lTempB := lTempB st; lTempC := lTempC st |}.

Definition set_lTempA (v : Point) (st : RenderState) : RenderState :=
  {| ctx := ctx st; visible_links := visible_links st; segments := segments st;
     render_highlighted := render_highlighted st;
     lTempA := v; lTempB := lTempB st; lTempC := lTempC st |}.

Definition set_lTempB (v : Point) (st : RenderState) : RenderState :=
  {| ctx := ctx st; visible_links := visible_links st; segments := segments st;
     render_highlighted := render_highlighted st;
     lTempA := lTempA st; lTempB := v; lTempC := lTempC st |}.

Definition set_lTempC (v : Point) (st : RenderState) : RenderState :=
  {| ctx := ctx st; visible_links := visible_links st; segments := segments st;
     render_highlighted := render_highlighted st;
     lTempA := lTempA st; lTempB := lTempB st; lTempC := v |}.

Definition set_seg_path (v : option Path2D) (s : LinkSegment) : LinkSegment :=
  {| seg_id := seg_id s; seg_parentId := seg_parentId s; seg_path := v;
     _pos := _pos s; _centreAngle := _centreAngle s;
     origin_id := origin_id s; origin_slot := origin_slot s |}.

Definition set__pos (v : option Point) (s : LinkSegment) : LinkSegment :=
  {| seg_id := seg_id s; seg_parentId := seg_parentId s;
     seg_path := seg_path s; _pos := v; _centreAngle := _centreAngle s;
     origin_id := origin_id s; origin_slot := origin_slot s |}.

Definition set__centreAngle (v : option float) (s : LinkSegment)
  : LinkSegment :=
  {| seg_id := seg_id s; seg_parentId := seg_parentId s;
     seg_path := seg_path s; _pos := _pos s; _centreAngle := v;
     origin_id := origin_id s; origin_slot := origin_slot s |}.

(** An assignment to a field of [linkSegment], when there is one. *)
Definition upd_segment (linkSegment : option Ref)
    (f : LinkSegment -> LinkSegment) (st : RenderState) : RenderState :=
  match linkSegment with
  | Some r =>
      {| ctx := ctx st; visible_links := visible_links st;
         segments := alter f r (segments st);
         render_highlighted := render_highlighted st;
         lTempA := lTempA st; lTempB := lTempB st; lTempC := lTempC st |}
  | None => st
  end.

(** A colour that is not falsy. *)
Definition truthy_colour (colour : option string) : option string :=
  match colour with
  | Some s => if String.eqb s "" then None else Some s
  | None => None
  end.

(** A point as it reads after being stored in an array of class [k]. *)
Definition store_point (k : ArrayKind) (p : Point) : Point :=
  mkPoint (store k (px p)) (store k (py p)).

(** [#addSplineOffset(point, direction, dist, factor)]; [point] is an array
    of class [k], and a [null] distance counts as 0 in the product. *)
Definition addSplineOffset (k : ArrayKind) (point : Point)
    (direction : LinkDirection) (dist : option float) (factor : float)
  : Point :=
  let dist := from_option id 0%float dist in
  match direction with
  | LEFT => mkPoint (store k (px point + dist * - factor)%float) (py point)
  | RIGHT => mkPoint (store k (px point + dist * factor)%float) (py point)
  | UP => mkPoint (px point) (store k (py point + dist * - factor)%float)
  | DOWN => mkPoint (px point) (store k (py point + dist * factor)%float)
  | CENTER => point
  end.

(** The [switch] of the linear mode: [inner[0] += -l] and the like. *)
Definition addStub (point : Point) (direction : LinkDirection) (l : float)
  : Point :=
  match direction with
  | LEFT => mkPoint (fround (px point + - l)%float) (py point)
  | RIGHT => mkPoint (fround (px point + l)%float) (py point)
  | UP => mkPoint (px point) (fround (py point + - l)%float)
  | DOWN => mkPoint (px point) (fround (py point + l)%float)
  | CENTER => point
  end.

Definition float_of_Z (z : Z) : float :=
  PrimFloat.of_uint63 (Uint63.of_Z z).

(** [linkMarkerShape === LinkMarkerShape.Arrow] *)
Definition is_arrow (shape : option LinkMarkerShape) : bool :=
  match shape with
  | Some Marker_Arrow => true
  | _ => false
  end.

Definition is_direction (d d' : LinkDirection) : bool :=
  match d, d' with
  | UP, UP | DOWN, DOWN | LEFT, LEFT | RIGHT, RIGHT | CENTER, CENTER => true
  | _, _ => false
  end.

(** How an iteration of the loop over the sublines ends: with the [return]
    of the unknown mode, or with the next value of the locals [path] and
    [pos]. *)
Inductive SublineExit :=
| Subline_returned (st : RenderState)
| Subline_done (path : Path2D) (pos : Point) (st : RenderState).

Section Rendering.
Context (cfg : Config) (R : RenderOptions) (M : Measure) (D : Declarations)
  (J : MathEnv).

(** [computeConnectionPoint(a, b, t, start_dir, end_dir)] *)
Definition computeConnectionPoint (a b : Point) (t : float)
    (start_dir end_dir : option LinkDirection) : Point :=
  let start_dir := default RIGHT start_dir in
  let end_dir := default LEFT end_dir in
  let dist := distance M a b in
  let pa := mkPoint (px a) (py a) in
  let pb := mkPoint (px b) (py b) in
  let pa := addSplineOffset PlainArray pa start_dir (Some dist) 0.25 in
  let pb := addSplineOffset PlainArray pb end_dir (Some dist) 0.25 in
  let c1 := ((1 - t) * (1 - t) * (1 - t))%float in
  let c2 := (3 * ((1 - t) * (1 - t)) * t)%float in
  let c3 := (3 * (1 - t) * (t * t))%float in
  let c4 := (t * t * t)%float in
  let x := (c1 * px a + c2 * px pa + c3 * px pb + c4 * px b)%float in
  let y := (c1 * py a + c2 * py pa + c3 * py pb + c4 * py b)%float in
  mkPoint x y.

(** Calls on [path], which is also [linkSegment.path]. *)
Definition path_add (linkSegment : option Ref) (cmds : list PathCmd)
    (path : Path2D) (st : RenderState) : Path2D * RenderState :=
  (path ++ cmds, upd_segment linkSegment (set_seg_path (Some (path ++ cmds))) st).

(** Writes to [pos], which is [linkSegment._pos] when that exists ([cached])
    and a fresh array otherwise. *)
Definition pos_write (linkSegment : option Ref) (cached : bool) (p : Point)
    (st : RenderState) : Point * RenderState :=
  if cached then
    let p := store_point (posKind D) p in
    (p, upd_segment linkSegment (set__pos (Some p)) st)
  else (p, st).

(** One iteration of the loop of [renderLink], for subline [i]. *)
Definition renderSubline (a b : Point) (startDir endDir : LinkDirection)
    (startControl endControl : option Point) (dist : option float)
    (linkSegment : option Ref) (cached : bool) (num_sublines : Z) (i : nat)
    (path : Path2D) (pos : Point) (st : RenderState) : SublineExit :=
  let offsety := ((float_of_nat i - float_of_Z (num_sublines - 1) * 0.5) * 5)%float in
  let innerA := mkPoint (fround (px a)) (fround (py a)) in
  let innerB := mkPoint (fround (px b)) (fround (py b)) in
  let arrow := bool_decide (is_Some linkSegment)
               && is_arrow (linkMarkerShape R) in
  if Z.eqb (links_render_mode R) (SPLINE_LINK D) then
    let innerB :=
      match endControl with
      | Some endControl =>
          mkPoint (fround (px b + px endControl)%float)
                  (fround (py b + py endControl)%float)
      | None => addSplineOffset Float32Array innerB endDir dist 0.25
      end in
    let innerA :=
      match startControl with
      | Some startControl =>
          mkPoint (fround (px a + px startControl)%float)
                  (fround (py a + py startControl)%float)
      | None => addSplineOffset Float32Array innerA startDir dist 0.25
      end in
    let st := set_lTempB innerB (set_lTempA innerA st) in
    let '(path, st) :=
      path_add linkSegment
        [MoveTo (px a) (py a + offsety)%float;
         BezierCurveTo (px innerA) (py innerA + offsety)%float
                       (px innerB) (py innerB + offsety)%float
                       (px b) (py b + offsety)%float] path st in
    (* Calculate centre point *)
    let '(pos, st) :=
      pos_write linkSegment cached (findPointOnCurve M a b innerA innerB 0.5)
        st in
    let st :=
      if arrow then
        let justPastCentre :=
          store_point Float32Array
            (findPointOnCurve M a b innerA innerB 0x1.051eb851eb852p-1) in
        let st := set_lTempC justPastCentre st in
        upd_segment linkSegment
          (set__centreAngle
             (Some (atan2 J (py justPastCentre - py pos)%float
                            (px justPastCentre - px pos)%float))) st
      else st in
    Subline_done path pos st
  else if Z.eqb (links_render_mode R) (LINEAR_LINK D) then
    let l := 15%float in
    let innerA := addStub innerA startDir l in
    let innerB := addStub innerB endDir l in
    let st := set_lTempB innerB (set_lTempA innerA st) in
    let '(path, st) :=
      path_add linkSegment
        [MoveTo (px a) (py a + offsety)%float;
         LineTo (px innerA) (py innerA + offsety)%float;
         LineTo (px innerB) (py innerB + offsety)%float;
         LineTo (px b) (py b + offsety)%float] path st in
    (* Calculate centre point *)
    let '(pos, st) :=
      pos_write linkSegment cached
        (mkPoint ((px innerA + px innerB) * 0.5)%float
                 ((py innerA + py innerB) * 0.5)%float) st in
    let st :=
      if arrow then
        upd_segment linkSegment
          (set__centreAngle
             (Some (atan2 J (py innerB - py innerA)%float
                            (px innerB - px innerA)%float))) st
      else st in
    Subline_done path pos st
  else if Z.eqb (links_render_mode R) (STRAIGHT_LINK D) then
    let innerA :=
      if is_direction startDir RIGHT
      then mkPoint (fround (px innerA + 10)%float) (py innerA)
      else mkPoint (px innerA) (fround (py innerA + 10)%float) in
    let innerB :=
      if is_direction endDir LEFT
      then mkPoint (fround (px innerB - 10)%float) (py innerB)
      else mkPoint (px innerB) (fround (py innerB - 10)%float) in
    let st := set_lTempB innerB (set_lTempA innerA st) in
    let midX := ((px innerA + px innerB) * 0.5)%float in
    let '(path, st) :=
      path_add linkSegment
        [MoveTo (px a) (py a);
         LineTo (px innerA) (py innerA);
         LineTo midX (py innerA);
         LineTo midX (py innerB);
         LineTo (px innerB) (py innerB);
         LineTo (px b) (py b)] path st in
    (* Calculate centre point *)
    let '(pos, st) :=
      pos_write linkSegment cached
        (mkPoint midX ((py innerA + py innerB) * 0.5)%float) st in
    let st :=
      if arrow then
        let diff := (py innerB - py innerA)%float in
        let angle :=
          if (PrimFloat.abs diff <? 4)%float then 0%float
          else if (0 <? diff)%float then (PI J * 0.5)%float
          else (- (PI J * 0.5))%float in
        upd_segment linkSegment (set__centreAngle (Some angle)) st
      else st in
    Subline_done path pos st
  else
    (* unknown *)
    Subline_returned (set_lTempB innerB (set_lTempA innerA st)).

(** The loop [for (let i = 0; i < num_sublines; i += 1)], over the values of
    [i] still to come. *)
Fixpoint renderSublines (a b : Point) (startDir endDir : LinkDirection)
    (startControl endControl : option Point) (dist : option float)
    (linkSegment : option Ref) (cached : bool) (num_sublines : Z)
    (indices : list nat) (path : Path2D) (pos : Point) (st : RenderState)
  : SublineExit :=
  match indices with
  | [] => Subline_done path pos st
  | i :: indices =>
      match renderSubline a b startDir endDir startControl endControl dist
              linkSegment cached num_sublines i path pos st with
      | Subline_returned st => Subline_returned st
      | Subline_done path pos st =>
          renderSublines a b startDir endDir startControl endControl dist
            linkSegment cached num_sublines indices path pos st
      end
  end.

(** The arrow drawn at [p], turned by [angle]; the transform saved before
    the first arrow is set again after each. *)
Definition drawArrow (p : Point) (angle : float) (st : RenderState)
  : RenderState :=
  draw [Op_translate (px p) (py p); Op_rotate (Some angle);
        Op_beginPath; Op_moveTo (-5) (-3); Op_lineTo 0 7; Op_lineTo 5 (-3);
        Op_fill; Op_setTransform] st.

(** The loop of the flowing points, from reading [i] of the clock on. *)
Definition flowPoint (a b : Point) (startDir endDir : LinkDirection)
    (st : RenderState) (i : nat) : RenderState :=
  let f := rem J (getTime J i * 0x1.0624dd2f1a9fcp-10
                  + float_of_nat i * 0x1.999999999999ap-3)%float 1 in
  let flowPos := computeConnectionPoint a b f (Some startDir) (Some endDir) in
  draw [Op_beginPath;
        Op_arc (px flowPos) (py flowPos) 5 0 (2 * PI J)%float;
        Op_fill] st.

(** [const linkColour = ...]; [None] when reading [link.type] throws, the
    link being missing. *)
Definition linkColourOf (link : option RenderedLink) (color : option string)
    (st : RenderState) : option string :=
  let highlighted :=
    match link with
    | Some l =>
        bool_decide (render_highlighted st !! Some (rl_id l) = Some true)
    | None => false
    end in
  if highlighted then Some "#FFF"
  else match truthy_colour color with
       | Some colour => Some colour
       | None =>
           l ← link;
           match truthy_colour (rl_color l) with
           | Some colour => Some colour
           | None =>
               match truthy_colour (link_type_colors R (rl_type l)) with
               | Some colour => Some colour
               | None => Some (default_link_color R)
               end
           end
       end.

(** [render_connections_border && ds.scale > 0.6] *)
Definition withBorder : bool :=
  render_connections_border R && (0x1.3333333333333p-1 <? ds_scale R)%float.

(** The statements of [renderLink] after the loop over the sublines. *)
Definition renderStrokes (a b : Point) (startDir endDir : LinkDirection)
    (linkSegment : option Ref) (skip_border : bool) (flow : float)
    (linkColour : string) (path : Path2D) (pos : Point) (st : RenderState)
  : RenderState :=
  (* rendering the outline of the connection can be a little bit slow *)
  let st := if withBorder && negb skip_border
            then draw [Op_stroke path]
                   (upd_ctx (set_strokeStyle "rgba(0,0,0,0.5)") st)
            else st in
  let st := upd_ctx (set_lineWidth (connections_width cfg)) st in
  let st := upd_ctx (set_strokeStyle linkColour) st in
  let st := upd_ctx (set_fillStyle linkColour) st in
  let st := draw [Op_stroke path] st in
  (* render arrow in the middle *)
  let st :=
    match linkSegment with
    | Some r =>
        if (0x1.3333333333333p-1 <=? ds_scale R)%float
           && highquality_render R
           && negb (is_direction endDir CENTER)
        then
          let st :=
            if render_connection_arrows R then
              (* compute two points in the connection *)
              let posA := computeConnectionPoint a b 0.25 (Some startDir)
                            (Some endDir) in
              let posB := computeConnectionPoint a b 0x1.0a3d70a3d70a4p-2
                            (Some startDir) (Some endDir) in
              let posC := computeConnectionPoint a b 0.75 (Some startDir)
                            (Some endDir) in
              let posD := computeConnectionPoint a b 0x1.851eb851eb852p-1
                            (Some startDir) (Some endDir) in
              let '(angleA, angleB) :=
                if render_curved_connections R then
                  ((- atan2 J (px posB - px posA) (py posB - py posA))%float,
                   (- atan2 J (px posD - px posC) (py posD - py posC))%float)
                else
                  let angle := if (py a <? py b)%float then 0%float
                               else PI J in
                  (angle, angle) in
              (* render arrow *)
              let st := draw [Op_getTransform] st in
              drawArrow posC angleB (drawArrow posA angleA st)
            else st in
          (* Draw link centre marker *)
          let st := draw [Op_beginPath] st in
          let st :=
            match linkMarkerShape R with
            | Some Marker_Arrow =>
                draw [Op_getTransform; Op_translate (px pos) (py pos);
                      Op_rotate (s ← segments st !! r; _centreAngle s);
                      Op_moveTo (- 0x1.999999999999ap+1) (-5);
                      Op_lineTo 7 0;
                      Op_lineTo (- 0x1.999999999999ap+1) 5;
                      Op_fill; Op_setTransform] st
            | None | Some Marker_Circle =>
                draw [Op_arc (px pos) (py pos) 5 0 (PI J * 2)%float] st
            | Some Marker_None => st
            end in
          draw [Op_fill] st
        else st
    | None => st
    end in
  (* render flowing points *)
  if truthy_number flow then
    foldl (flowPoint a b startDir endDir)
      (upd_ctx (set_fillStyle linkColour) st) (seq 0 5)
  else st.

(** [renderLink(ctx, a, b, link, skip_border, flow, color, start_dir, end_dir,
    { startControl, endControl, reroute, num_sublines })].  The result is
    [None] when the call throws; [num_sublines] is a count, [None] when it is
    not given. *)
Definition renderLink (a b : Point) (link : option RenderedLink)
    (skip_border : bool) (flow : float) (color : option string)
    (start_dir end_dir : option LinkDirection)
    (startControl endControl : option Point) (reroute : option Ref)
    (num_sublines : option Z) (st : RenderState) : option RenderState :=
  let st := match link with
            | Some l => set_visible_links (visible_links st ++ [rl_ref l]) st
            | None => st
            end in
  linkColour ← linkColourOf link color st;
  let startDir := default RIGHT start_dir in
  let endDir := default LEFT end_dir in
  let dist :=
    if Z.eqb (links_render_mode R) (SPLINE_LINK D)
       && (negb (bool_decide (is_Some endControl))
           || negb (bool_decide (is_Some startControl)))
    then Some (distance M a b) else None in
  let st := if withBorder
            then upd_ctx (set_lineWidth (connections_width cfg + 4)%float) st
            else st in
  let st := upd_ctx (set_lineJoin "round") st in
  let num_sublines := default 1%Z num_sublines in
  let num_sublines := if Z.eqb num_sublines 0 then 1%Z else num_sublines in
  let st := if Z.ltb 1 num_sublines then upd_ctx (set_lineWidth 0.5) st
            else st in
  (* begin line shape *)
  let path : Path2D := [] in
  let linkSegment := match reroute with
                     | Some r => Some r
                     | None => rl_ref <$> link
                     end in
  let st := upd_segment linkSegment (set_seg_path (Some path)) st in
  let cachedPos := r ← linkSegment; s ← segments st !! r; _pos s in
  let pos := default (mkPoint 0 0) cachedPos in
  match renderSublines a b startDir endDir startControl endControl dist
          linkSegment (bool_decide (is_Some cachedPos)) num_sublines
          (seq 0 (Z.to_nat num_sublines)) path pos st with
  | Subline_returned st => Some st
  | Subline_done path pos st =>
      Some (renderStrokes a b startDir endDir linkSegment skip_border flow
              linkColour path pos st)
  end.
End Rendering.

(** ** Predicates used to state the properties *)

(** All link keys of a node: those of its inputs, then those of its outputs. *)
Definition node_keys (n : LGraphNode) : list LinkKey :=
  input_keys n ++ output_keys n.

(** [item.selected] is true exactly for the members of [selectedItems]. *)
Definition selection_consistent (c : LGraphCanvas) : Prop :=
  ∀ r, item_is_selected c r = true ↔ r ∈ selectedItems (sel c).

(** [item.selected && selectedItems.has(item)], the test of the classifier *)
Definition fully_sel (s : SelectionState) (r : Ref) : bool :=
  default false (item_selected s !! r) && set_has (selectedItems s) r.

Definition fully_selected (c : LGraphCanvas) (r : Ref) : bool :=
  fully_sel (sel c) r.

(** The calls by which the canvas commits a connection to the graph. *)
Definition commits_connection (ef : Effect) : bool :=
  match ef with
  | E_connect _ _ _ _ _ => true
  | E_connectByType _ _ _ _ _ => true
  | E_connectByTypeOutput _ _ _ _ _ => true
  | _ => false
  end.

(** From [c] to [c'] the canvas made calls, none of which commits a
    connection. *)
Definition no_connection_since (c c' : LGraphCanvas) : Prop :=
  ∃ d, trace c' = trace c ++ d
       ∧ Forall (λ ef, commits_connection ef = false) d.



(** The test that, without shift or alt, lets a press act on a rendered
    link: the pointer is in the 8 by 8 box round the cached centre point. *)
Definition centre_hit (M : Measure) (e : CanvasPointerEvent)
    (segment : LinkSegment) : bool :=
  match _pos segment with
  | Some centre =>
      isInRectangle M (canvasX e) (canvasY e)
        (px centre - 4)%float (py centre - 4)%float 8%float 8%float
  | None => false
  end.

(** The same collaborators, with another answer to [isPointInStroke]. *)
Definition with_isPointInStroke
    (f : float -> Path2D -> float -> float -> bool) (W : Collaborators)
  : Collaborators := {|
  getNodeOnPos := getNodeOnPos W; getRerouteOnPos := getRerouteOnPos W;
  getGroupOnPos := getGroupOnPos W;
  getGroupTitlebarOnPos := getGroupTitlebarOnPos W;
  reroute_first_link := reroute_first_link W; links_get := links_get W;
  nodes_by_id := nodes_by_id W; getConnectionPos := getConnectionPos W;
  createReroute := createReroute W; cloneNode := cloneNode W;
  isPointInCollapse := isPointInCollapse W; inResizeCorner := inResizeCorner W;
  getWidgetOnPos := getWidgetOnPos W; node_onMouseDown := node_onMouseDown W;
  group_isInResize := group_isInResize W; group_resize := group_resize W;
  isPointInStroke := f; devicePixelRatio := devicePixelRatio W;
  canvas_onMouse := canvas_onMouse W; isInRect := isInRect W;
  getBounding := getBounding W; type_is_EVENT := type_is_EVENT W;
  createDefaultNode := createDefaultNode W |}.

(** All hook slots of the pointer session are empty. *)
Definition no_hooks (p : CanvasPointer) : Prop :=
  onClick p = None ∧ onDoubleClick p = None ∧ onDragStart p = None
  ∧ onDrag p = None ∧ onDragEnd p = None ∧ finally p = None.

(** No mode flag that a [finally] hook clears is on: nothing is dragged,
    nothing is resized, no rectangle is drawn.  The sixth mode flag,
    [connecting_links], has no clean-up hook and is not part of this. *)
Definition modes_idle (m : ModeState) : Prop :=
  isDragging m = false ∧ dragging_canvas m = false
  ∧ resizingGroup m = None ∧ resizing_node m = None
  ∧ dragging_rectangle m = false.

(** A mode flag that is on has its clean-up in the [finally] slot: the other
    flags are off. *)
Definition guarded (c : LGraphCanvas) : Prop :=
  let m := modes c in
  match finally (pointer c) with
  | Some Fin_isDragging =>
      dragging_canvas m = false ∧ resizingGroup m = None
      ∧ resizing_node m = None ∧ dragging_rectangle m = false
  | Some Fin_dragging_canvas =>
      isDragging m = false ∧ resizingGroup m = None ∧ resizing_node m = None
      ∧ dragging_rectangle m = false
  | Some Fin_resizingGroup =>
      isDragging m = false ∧ dragging_canvas m = false
      ∧ resizing_node m = None ∧ dragging_rectangle m = false
  | Some Fin_resizing_node =>
      isDragging m = false ∧ dragging_canvas m = false
      ∧ resizingGroup m = None ∧ dragging_rectangle m = false
  | Some Fin_dragging_rectangle =>
      isDragging m = false ∧ dragging_canvas m = false
      ∧ resizingGroup m = None ∧ resizing_node m = None
  | _ => modes_idle m
  end.

(** The drag-start hook that is still to run agrees with the [finally] slot:
    a hook that turns a flag on finds the clean-up of that flag installed, or
    installs it itself while no flag is on. *)
Definition drag_start_ready (c : LGraphCanvas) : Prop :=
  dragStarted (pointer c) = false →
  match onDragStart (pointer c) with
  | Some DS_dragging_rectangle =>
      finally (pointer c) = Some Fin_dragging_rectangle
  | Some DS_dragging_canvas => finally (pointer c) = Some Fin_dragging_canvas
  | Some (DS_resizingGroup _) => finally (pointer c) = Some Fin_resizingGroup
  | Some (DS_resizing_node _) => finally (pointer c) = Some Fin_resizing_node
  | Some (DS_startDraggingItems _ _) | Some (DS_cloned _) | Some (DS_group _) =>
      modes_idle (modes c)
  | _ => True
  end.

(** The state in which the handlers of a press find the canvas after
    [pointer.down]: no flag is on, no clean-up and no drag start are
    installed. *)
Definition press_start (c : LGraphCanvas) : Prop :=
  modes_idle (modes c) ∧ finally (pointer c) = None
  ∧ onDragStart (pointer c) = None.

(** What every block of a press handler leaves, short of the pan of the
    canvas. *)
Definition press_done (c : LGraphCanvas) : Prop :=
  modes_idle (modes c) ∧ drag_start_ready c.

(** The invariant of a gesture in progress. *)
Definition gesture_ok (c : LGraphCanvas) : Prop :=
  guarded c ∧ drag_start_ready c.

Section Coverage.
Context (M : Measure).

(** The tests of the three loops, on the object a reference denotes. *)
Definition node_hit (h : gmap Ref Obj) (rect : Rect) (r : Ref) : bool :=
  match h !! r with
  | Some (ONode n) => overlapBounding M rect (boundingRect n)
  | _ => false
  end.

Definition group_hit (h : gmap Ref Obj) (rect : Rect) (r : Ref) : bool :=
  match h !! r with
  | Some (OGroup g) => containsRect M rect (_bounding g)
  | _ => false
  end.

Definition reroute_hit (h : gmap Ref Obj) (rect : Rect) (r : Ref) : bool :=
  match h !! r with
  | Some (OReroute rr) => isPointInRect M (reroute_pos rr) rect
  | _ => false
  end.

(** What the source tests to classify an item: a node whose bounding
    rectangle overlaps the rectangle, a group whose bounding rectangle is
    wholly inside it, a reroute whose centre point is inside it. *)
Definition covered (g : LGraph) (h : gmap Ref Obj) (rect : Rect) (x : Ref)
  : Prop :=
  (x ∈ _nodes g ∧ node_hit h rect x = true)
  ∨ (x ∈ groups g ∧ group_hit h rect x = true)
  ∨ (x ∈ reroutes g ∧ reroute_hit h rect x = true).
End Coverage.

(** ** Example states

    A graph of two nodes joined by link 5, one group and one reroute. *)

Definition example_node_a : LGraphNode := {|
  node_id := 1; inputs := None;
  outputs := Some [{| out_links := Some [5]; out_type := "number" |}];
  boundingRect := mkRect 10 10 50 30; node_pos := mkPoint 10 10;
  node_horizontal := false; flags_pinned := false; flags_collapsed := false;
  flags_allow_interaction := false; node_resizable := true |}.

Definition example_node_b : LGraphNode := {|
  node_id := 2;
  inputs := Some [{| in_link := Some 5; in_type := "number";
                     in_name := Some "in"; in_label := None |}];
  outputs := None;
  boundingRect := mkRect 200 10 50 30; node_pos := mkPoint 200 10;
  node_horizontal := false; flags_pinned := false; flags_collapsed := false;
  flags_allow_interaction := false; node_resizable := true |}.

Definition example_group : LGraphGroup := {|
  group_id := 3; _bounding := mkRect 50 50 200 200;
  group_pos := mkPoint 50 50; group_size := mkPoint 200 200;
  font_size := None |}.

Definition example_reroute : Reroute := {|
  reroute_id := 4; reroute_pos := mkPoint 20 20 |}.

Definition example_heap : gmap Ref Obj :=
  <[1%positive := ONode example_node_a]>
    (<[2%positive := ONode example_node_b]>
       (<[3%positive := OGroup example_group]>
          (<[4%positive := OReroute example_reroute]> ∅))).

Definition example_graph : LGraph := {|
  _nodes := [1%positive; 2%positive];
  groups := [3%positive];
  reroutes := [4%positive] |}.

(** Nothing selected, no gesture in progress; the array of the multi-select
    rectangle holds the square of side 100 at the origin. *)
Definition example_canvas : LGraphCanvas := {|
  heap := example_heap;
  graph := Some example_graph;
  sel := {| item_selected := ∅; selectedItems := []; selected_nodes := ∅;
            highlighted_links := ∅; current_node := None |};
  modes := {| isDragging := false; dragging_canvas := false;
              resizingGroup := None; resizing_node := None;
              dragRect := mkRect 0 0 100 100; dragging_rectangle := false;
              connecting_links := None; link_over_widget := None;
              node_widget := None; selected_group := None;
              over_link_center := None |};
  pointer := idle_pointer;
  renderedPaths := [];
  dirty_canvas := false; dirty_bgcanvas := false; block_click := false;
  last_mouse_dragging := false; last_click_position := None;
  ctx_lineWidth := 1;
  trace := [] |}.

(** A pointer event at the origin with the given button and modifier keys. *)
Definition example_event (b : Z) (shift alt ctrl : bool) : CanvasPointerEvent := {|
  canvasX := 0; canvasY := 0; clientX := 0; clientY := 0; button := b;
  shiftKey := shift; altKey := alt; ctrlKey := ctrl; metaKey := false;
  isPrimary := true |}.

(** The options of a canvas as it is created, interactive and with reroutes
    enabled. *)
Definition example_config : Config := {|
  read_only := false; allow_interaction := true; allow_dragcanvas := true;
  allow_dragnodes := true; allow_searchbox := true;
  allow_reconnect_links := true; reroutesEnabled := true;
  multi_select := false; connections_width := 3;
  set_canvas_dirty_on_mouse_event := true; viewport := None;
  alt_drag_do_clone_nodes := false; shift_click_do_break_link_from := false;
  ctrl_alt_click_do_break_link := true; click_do_break_link_to := false;
  middle_click_slot_add_default_node := false;
  release_link_on_empty_shows_menu := false; alwaysSnapToGrid := false;
  DEFAULT_GROUP_FONT_SIZE := 24 |}.

(** A drawing context that strokes horizontal segments: the point is within
    half the line width of the segment. *)
Definition example_isPointInStroke (lineWidth : float) (path : Path2D)
    (x y : float) : bool :=
  match path with
  | [MoveTo x0 y0; LineTo x1 y1] =>
      (x0 <=? x)%float && (x <=? x1)%float
      && (PrimFloat.abs (y - y0) <=? lineWidth / 2)%float
  | _ => false
  end.

(** The collaborators of the example graph: the nodes answer on their
    bounding rectangles, the group on its own; the output of node 1 is at
    (60, 25), the input of node 2 at (200, 25); link 5 joins them. *)
Definition example_collaborators : Collaborators := {|
  getNodeOnPos x y :=
    if measure_isInRectangle x y 10 10 50 30 then Some 1%positive
    else if measure_isInRectangle x y 200 10 50 30 then Some 2%positive
    else None;
  getRerouteOnPos x y :=
    if measure_isInRectangle x y 16 16 8 8 then Some 4%positive else None;
  getGroupOnPos x y :=
    if measure_isInRectangle x y 50 50 200 200 then Some 3%positive else None;
  getGroupTitlebarOnPos x y :=
    if measure_isInRectangle x y 50 50 200 30 then Some 3%positive else None;
  reroute_first_link _ :=
    {| link_origin_id := 1; link_origin_slot := 0;
       link_target_id := 2; link_target_slot := 0 |};
  links_get _ :=
    {| link_origin_id := 1; link_origin_slot := 0;
       link_target_id := 2; link_target_slot := 0 |};
  nodes_by_id id := if decide (id = 1) then 1%positive else 2%positive;
  getConnectionPos node is_input slot :=
    if is_input then mkPoint 200 25 else mkPoint 60 25;
  createReroute p _ := (9%positive, {| reroute_id := 9; reroute_pos := p |});
  cloneNode _ := None;
  isPointInCollapse _ _ _ := false;
  inResizeCorner _ _ _ := false;
  getWidgetOnPos _ _ _ := None;
  node_onMouseDown _ _ := false;
  group_isInResize _ _ _ := false;
  group_resize _ _ := false;
  isPointInStroke := example_isPointInStroke;
  devicePixelRatio := Some 1%float;
  canvas_onMouse _ := false;
  isInRect x y r := measure_isInRectangle x y (rx r) (ry r) (rw r) (rh r);
  getBounding node :=
    if decide (node = 1%positive) then mkRect 10 10 50 30
    else mkRect 200 10 50 30;
  type_is_EVENT _ := false;
  createDefaultNode _ _ _ := None |}.

(** A pointer event of the primary pointer at a position, with the given
    button and modifier keys. *)
Definition example_event_at (x y : float) (b : Z) (shift alt ctrl : bool)
  : CanvasPointerEvent := {|
  canvasX := x; canvasY := y; clientX := x; clientY := y; button := b;
  shiftKey := shift; altKey := alt; ctrlKey := ctrl; metaKey := false;
  isPrimary := true |}.

(** A widget that advertises link compatibility. *)
Definition example_widget : IWidget := {|
  widget_name := "value"; widget_type := "number";
  widget_onPointerDown := None; widget_mouse := None;
  widget_options_read_only := false; widget_value_changed := false;
  widget_click_dirty := false |}.

(** A connection drag in progress, from the input of node 2, with a widget
    recorded under the link. *)
Definition example_dragging_from_input : LGraphCanvas :=
  upd_pointer (set_dragStarted true)
    (upd_modes (set_link_over_widget (Some example_widget))
       (upd_modes (set_connecting_links
          (Some [{| cl_node := 2%positive; cl_slot := 0;
                    cl_input := Some {| in_link := Some 5; in_type := "number";
                                        in_name := Some "in";
                                        in_label := None |};
                    cl_output := None; cl_pos := mkPoint 200 25;
                    cl_afterRerouteId := None; cl_direction := None |}]))
          example_canvas)).

(** A rendered link: a straight path from (0, 300) to (400, 300), cached
    centre (200, 300). *)
Definition example_segment : LinkSegment := {|
  seg_id := 5; seg_parentId := None;
  seg_path := Some [MoveTo 0 300; LineTo 400 300];
  _pos := Some (mkPoint 200 300); _centreAngle := None;
  origin_id := 1; origin_slot := 0 |}.

Definition example_canvas_with_link : LGraphCanvas := {|
  heap := heap example_canvas; graph := graph example_canvas;
  sel := sel example_canvas; modes := modes example_canvas;
  pointer := pointer example_canvas; renderedPaths := [example_segment];
  dirty_canvas := false; dirty_bgcanvas := false; block_click := false;
  last_mouse_dragging := false; last_click_position := None;
  ctx_lineWidth := 1; trace := [] |}.

(** The numbers of [LinkRenderType] as LiteGraph declares them; [_pos] in a
    [Float32Array]. *)
Definition example_declarations : Declarations := {|
  STRAIGHT_LINK := 0; LINEAR_LINK := 1; SPLINE_LINK := 2;
  posKind := Float32Array |}.

(** A stand-in for [Math]: the angle of the nearest axis for [atan2], the
    remainder of a number that is already below the divisor; the clock
    stands at 0. *)
Definition example_math : MathEnv := {|
  atan2 y x :=
    (if y =? 0 then (if x <? 0 then 0x1.921fb54442d18p+1 else 0)
     else if 0 <? y then 0x1.921fb54442d18p+0
     else - 0x1.921fb54442d18p+0)%float;
  PI := 0x1.921fb54442d18p+1;
  rem x y := x;
  getTime _ := 0%float |}.

(** The canvas as it is created: splines, circles as markers. *)
Definition example_render_options (mode : Z) : RenderOptions := {|
  links_render_mode := mode;
  linkMarkerShape := Some Marker_Circle;
  render_connections_border := true;
  ds_scale := 1;
  highquality_render := true;
  render_connection_arrows := false;
  render_curved_connections := false;
  default_link_color := "#9A9";
  link_type_colors _ := None |}.

(** Link 5 of the example graph, and a frame in which it was rendered
    before: its cache is that of [example_segment]. *)
Definition example_rendered_link : RenderedLink := {|
  rl_ref := 5%positive; rl_id := 5; rl_color := None; rl_type := "number" |}.

Definition example_render_state : RenderState := {|
  ctx := {| lineWidth := 1; lineJoin := "miter"; strokeStyle := "#000";
            fillStyle := "#000"; drawn := [] |};
  visible_links := [];
  segments := {[ 5%positive := example_segment ]};
  render_highlighted := ∅;
  lTempA := mkPoint 0 0; lTempB := mkPoint 0 0; lTempC := mkPoint 0 0 |}.

(** * Further functions of the canvas *)

(** [sendToBack(node)] *)
Definition sendToBack (node : Ref) (c : LGraphCanvas) : LGraphCanvas :=
  set_graph
    (g ← graph c;
     Some (if bool_decide (node ∈ _nodes g)
           then {| _nodes := node :: remove_first node (_nodes g);
                   groups := groups g; reroutes := reroutes g |}
           else g)) c.

(** [#getLinkCentreOnPos(e)], over the rendered paths still to visit: the
    link segment whose centre marker is under the pointer. *)
Fixpoint getLinkCentreOnPos_from (M : Measure) (e : CanvasPointerEvent)
    (rendered : list LinkSegment) : option LinkSegment :=
  match rendered with
  | [] => None
  | linkSegment :: rest =>
      match _pos linkSegment with
      | None => getLinkCentreOnPos_from M e rest
      | Some centre =>
          if isInRectangle M (canvasX e) (canvasY e)
               (px centre - 4)%float (py centre - 4)%float 8%float 8%float
          then Some linkSegment
          else getLinkCentreOnPos_from M e rest
      end
  end.

Definition getLinkCentreOnPos (M : Measure) (e : CanvasPointerEvent)
    (c : LGraphCanvas) : option LinkSegment :=
  getLinkCentreOnPos_from M e (renderedPaths c).

(** The test [is_inside] of [isOverNodeInput] for input [i] of a node. *)
Definition input_slot_hit (W : Collaborators) (M : Measure) (node : Ref)
    (n : LGraphNode) (x y : float) (i : nat) (input : INodeInputSlot)
  : bool :=
  let link_pos := getConnectionPos W node true (Z.of_nat i) in
  if node_horizontal n then
    isInRectangle M x y (px link_pos - 5)%float (py link_pos - 10)%float
      10%float 20%float
  else
    isInRectangle M x y (px link_pos - 10)%float (py link_pos - 10)%float
      (input_hit_width input) 20%float.

(** The test [is_inside] of [isOverNodeOutput] for output [i] of a node. *)
Definition output_slot_hit (W : Collaborators) (M : Measure) (node : Ref)
    (n : LGraphNode) (x y : float) (i : nat) : bool :=
  let link_pos := getConnectionPos W node false (Z.of_nat i) in
  if node_horizontal n then
    isInRectangle M x y (px link_pos - 5)%float (py link_pos - 10)%float
      10%float 20%float
  else
    isInRectangle M x y (px link_pos - 10)%float (py link_pos - 10)%float
      40%float 20%float.







(** Segment [s'] is segment [s] with its render cache rewritten: the
    identity and the origin are those of [s], and so is [_pos] when there is
    no array to write to ([cached] is false). *)
Definition same_segment (cached : bool) (s s' : LinkSegment) : Prop :=
  seg_id s' = seg_id s ∧ seg_parentId s' = seg_parentId s
  ∧ origin_id s' = origin_id s ∧ origin_slot s' = origin_slot s
  ∧ (cached = false → _pos s' = _pos s).

(** From [st] to [st'] no segment was added or removed, the segments other
    than [linkSegment] are untouched, and so are [visible_links] and
    [highlighted_links]. *)
Definition render_frame (linkSegment : option Ref) (cached : bool)
    (st st' : RenderState) : Prop :=
  visible_links st' = visible_links st
  ∧ render_highlighted st' = render_highlighted st
  ∧ ∀ r, match segments st !! r, segments st' !! r with
         | Some s, Some s' =>
             same_segment cached s s' ∧ (linkSegment ≠ Some r → s' = s)
         | None, None => True
         | _, _ => False
         end.

(** * File names

    [getFileExtension] is embedded over the strings whose code units are
    below 256, the Latin-1 range: a character is an [ascii]. *)

(** [s.indexOf(ch)] and [s.lastIndexOf(ch)] for a pattern of one character;
    -1 when the character does not occur. *)
Fixpoint indexOf_from (ch : ascii) (s : string) (i : Z) : Z :=
  match s with
  | EmptyString => -1
  | String c s' => if Ascii.eqb c ch then i else indexOf_from ch s' (i + 1)
  end.

Definition indexOf (s : string) (ch : ascii) : Z := indexOf_from ch s 0.

Fixpoint lastIndexOf_from (ch : ascii) (s : string) (i found : Z) : Z :=
  match s with
  | EmptyString => found
  | String c s' =>
      lastIndexOf_from ch s' (i + 1) (if Ascii.eqb c ch then i else found)
  end.

Definition lastIndexOf (s : string) (ch : ascii) : Z :=
  lastIndexOf_from ch s 0 (-1).

(** [s.substring(indexStart, indexEnd)]: both indices are clamped to the
    length of the string, and swapped when the first is the greater; without
    [indexEnd] the substring runs to the end. *)
Definition substring (s : string) (indexStart : Z) (indexEnd : option Z)
  : string :=
  let len := Z.of_nat (String.length s) in
  let clamp i := Z.min (Z.max i 0) len in
  let start := clamp indexStart in
  let end_ := clamp (default len indexEnd) in
  let from := Z.min start end_ in
  let to := Z.max start end_ in
  String.substring (Z.to_nat from) (Z.to_nat (to - from)) s.

(** [s.toLowerCase()]: in the Latin-1 range the letters with a lower case
    are A to Z and À to Þ without the multiplication sign, each 32 below its
    lower case. *)
Definition toLowerCase_char (c : ascii) : ascii :=
  let n := N_of_ascii c in
  if ((65 <=? n) && (n <=? 90)
      || (192 <=? n) && (n <=? 222) && negb (n =? 215))%N
  then ascii_of_N (n + 32)
  else c.

Fixpoint toLowerCase (s : string) : string :=
  match s with
  | EmptyString => EmptyString
  | String c s' => String (toLowerCase_char c) (toLowerCase s')
  end.

(** [LGraphCanvas.getFileExtension(url)] *)
Definition getFileExtension (url : string) : string :=
  let question := indexOf url "?" in
  let url := if negb (question =? -1) then substring url 0 (Some question)
             else url in
  let point := lastIndexOf url "." in
  if point =? -1 then ""%string
  else toLowerCase (substring url (point + 1) None).

(** * Keyboard *)

Record KeyboardEvent := {
  (** [e.type] *)
  key_type : string;
  keyCode : Z;
  key_shiftKey : bool;
  key_ctrlKey : bool;
  key_metaKey : bool;
  (** [e.target.localName]; [undefined] for a target that is no element *)
  target_localName : option string }.

(** The canvas together with the fields that only the keyboard handler
    writes. *)
Record KeyCanvas := {
  canvas_of : LGraphCanvas;
  (** [state.readOnly], through the accessor [read_only] *)
  readOnly : bool;
  shiftDown : bool;
  (** [null] while the space key is not pressed *)
  _previously_dragging_canvas : option bool }.

Definition on_canvas (f : LGraphCanvas -> LGraphCanvas) (k : KeyCanvas)
  : KeyCanvas :=
  {| canvas_of := f (canvas_of k); readOnly := readOnly k;
     shiftDown := shiftDown k;
     _previously_dragging_canvas := _previously_dragging_canvas k |}.
Definition set_readOnly (v : bool) (k : KeyCanvas) : KeyCanvas :=
  {| canvas_of := canvas_of k; readOnly := v; shiftDown := shiftDown k;
     _previously_dragging_canvas := _previously_dragging_canvas k |}.
Definition set_shiftDown (v : bool) (k : KeyCanvas) : KeyCanvas :=
  {| canvas_of := canvas_of k; readOnly := readOnly k; shiftDown := v;
     _previously_dragging_canvas := _previously_dragging_canvas k |}.
Definition set__previously_dragging_canvas (v : option bool) (k : KeyCanvas)
  : KeyCanvas :=
  {| canvas_of := canvas_of k; readOnly := readOnly k;
     shiftDown := shiftDown k; _previously_dragging_canvas := v |}.

Section Keyboard.
(** The clipboard and the deletion are left open; [for_in] gives the nodes
    of [selected_nodes] in the order in which [for ... in] visits its keys. *)
Context (copyToClipboard : KeyCanvas -> KeyCanvas)
  (pasteFromClipboard : bool -> KeyCanvas -> KeyCanvas)
  (deleteSelected : KeyCanvas -> KeyCanvas)
  (for_in : gmap NodeId Ref -> list Ref).

(** [for (const i in this.selected_nodes) this.selected_nodes[i].onKeyDown?.(e)] *)
Definition keyHooks (name : string) (k : KeyCanvas) : KeyCanvas :=
  on_canvas
    (λ c, foldl (λ c node, emit (E_method node name) c) c
            (for_in (selected_nodes (sel c)))) k.

(** The chain of the key codes of a [keydown]; the result carries
    [block_default]. *)
Definition processKeyDown (e : KeyboardEvent) (k : KeyCanvas)
  : KeyCanvas * bool :=
  if keyCode e =? 32 then
    (* space *)
    let k := set_readOnly true k in
    let k :=
      match _previously_dragging_canvas k with
      | None =>
          set__previously_dragging_canvas
            (Some (dragging_canvas (modes (canvas_of k)))) k
      | Some _ => k
      end in
    let k :=
      on_canvas (λ c, upd_modes (set_dragging_canvas (isDown (pointer c))) c)
        k in
    (k, true)
  else if keyCode e =? 27 then
    (* esc *)
    let k := on_canvas (emit (E_call "node_panel?.close")) k in
    let k := on_canvas (emit (E_call "options_panel?.close")) k in
    (k, true)
  else if (keyCode e =? 65) && key_ctrlKey e then
    (* select all Control A *)
    (on_canvas (selectItems None false) k, true)
  else if (keyCode e =? 67) && (key_metaKey e || key_ctrlKey e)
          && negb (key_shiftKey e) then
    (* copy *)
    (copyToClipboard k, true)
  else if (keyCode e =? 86) && (key_metaKey e || key_ctrlKey e) then
    (* paste *)
    (pasteFromClipboard (key_shiftKey e) k, false)
  else if (keyCode e =? 46) || (keyCode e =? 8) then
    (* delete or backspace *)
    if bool_decide (target_localName e ≠ Some "input"%string)
       && bool_decide (target_localName e ≠ Some "textarea"%string)
    then (deleteSelected k, true)
    else (k, false)
  else (k, false).

(** [processKey(e)]; the result is [Some false] for [return false] and
    [None] for [undefined]. *)
Definition processKey (e : KeyboardEvent) (k : KeyCanvas)
  : KeyCanvas * option bool :=
  let k := set_shiftDown (key_shiftKey e) k in
  match graph (canvas_of k) with
  | None => (k, None)
  | Some _ =>
      if bool_decide (target_localName e = Some "input"%string) then (k, None)
      else
        let '(k, block_default) :=
          if String.eqb (key_type e) "keydown" then
            let '(k, block_default) := processKeyDown e k in
            (keyHooks "onKeyDown" k, block_default)
          else if String.eqb (key_type e) "keyup" then
            let k :=
              if keyCode e =? 32 then
                (* space *)
                let k := set_readOnly false k in
                let k :=
                  on_canvas
                    (upd_modes
                       (set_dragging_canvas
                          (default false (_previously_dragging_canvas k)))) k in
                set__previously_dragging_canvas None k
              else k in
            (keyHooks "onKeyUp" k, false)
          else (k, false) in
        let k := on_canvas (emit E_graph_change) k in
        if block_default then
          let k := on_canvas (emit (E_call "e.preventDefault")) k in
          let k := on_canvas (emit (E_call "e.stopImmediatePropagation")) k in
          (k, Some false)
        else (k, None)
  end.
End Keyboard.

(** A press and a release of the space key. *)
Definition space_key (type : string) (e : KeyboardEvent) : Prop :=
  key_type e = type ∧ keyCode e = 32
  ∧ target_localName e ≠ Some "input"%string.

Definition example_key_canvas : KeyCanvas := {|
  canvas_of := example_canvas; readOnly := false; shiftDown := false;
  _previously_dragging_canvas := None |}.

Definition example_key (type : string) : KeyboardEvent := {|
  key_type := type; keyCode := 32; key_shiftKey := false;
  key_ctrlKey := false; key_metaKey := false;
  target_localName := Some "canvas"%string |}.

(** * The widget under the cursor *)

(** The fields of a widget that place it in its node. *)
Record WidgetLayout := {
  hidden : bool;
  advanced : bool;
  (** [computeSize(width)], when the widget has the method *)
  computeSize : option (float -> float * float);
  width : option float;
  (** set when the widget is drawn *)
  last_y : option float }.

Record WidgetNode := {
  widget_node_pos : Point;
  widget_node_size : Point;
  showAdvanced : bool;
  widgets : option (list WidgetLayout) }.

(** [widget.hidden || (widget.advanced && !node.showAdvanced)] *)
Definition widget_skipped (node : WidgetNode) (widget : WidgetLayout) : bool :=
  hidden widget || advanced widget && negb (showAdvanced node).

(** The size of the box and the test of the position against it. *)
Definition widget_box (NODE_WIDGET_HEIGHT : float) (node : WidgetNode)
    (widget : WidgetLayout) : float * float :=
  match computeSize widget with
  | Some f => f (px (widget_node_size node))
  | None =>
      (match width widget with
       | Some w => if truthy_number w then w else px (widget_node_size node)
       | None => px (widget_node_size node)
       end, NODE_WIDGET_HEIGHT)
  end.

Definition widget_hit (NODE_WIDGET_HEIGHT : float) (node : WidgetNode)
    (x y : float) (widget : WidgetLayout) : bool :=
  let '(widgetWidth, widgetHeight) :=
    widget_box NODE_WIDGET_HEIGHT node widget in
  match last_y widget with
  | Some last_y =>
      (6 <=? x)%float && (x <=? widgetWidth - 12)%float
      && (last_y <=? y)%float && (y <=? last_y + widgetHeight)%float
  | None => false
  end.

(** The loop over [node.widgets] *)
Fixpoint getWidgetAtCursor_from (NODE_WIDGET_HEIGHT : float)
    (node : WidgetNode) (x y : float) (ws : list WidgetLayout)
  : option WidgetLayout :=
  match ws with
  | [] => None
  | widget :: ws =>
      if widget_skipped node widget
      then getWidgetAtCursor_from NODE_WIDGET_HEIGHT node x y ws
      else if widget_hit NODE_WIDGET_HEIGHT node x y widget then Some widget
      else getWidgetAtCursor_from NODE_WIDGET_HEIGHT node x y ws
  end.

(** [getWidgetAtCursor(node)]: [None] is the [TypeError] of reading
    [widgets] of a missing node, [Some None] the result [null]. *)
Definition getWidgetAtCursor (NODE_WIDGET_HEIGHT : float)
    (node_over : option WidgetNode) (graph_mouse : Point)
    (node : option WidgetNode) : option (option WidgetLayout) :=
  node ← match node with Some n => Some n | None => node_over end;
  Some
    match widgets node with
    | None => None
    | Some ws =>
        let x := (px graph_mouse - px (widget_node_pos node))%float in
        let y := (py graph_mouse - py (widget_node_pos node))%float in
        getWidgetAtCursor_from NODE_WIDGET_HEIGHT node x y ws
    end.

Definition example_widget_node : WidgetNode := {|
  widget_node_pos := mkPoint 100 100;
  widget_node_size := mkPoint 200 100;
  showAdvanced := false;
  widgets := Some [
    {| hidden := true; advanced := false; computeSize := None;
       width := None; last_y := Some 30%float |};
    {| hidden := false; advanced := false; computeSize := None;
       width := Some 0%float; last_y := Some 30%float |} ] |}.

(** [processNodeSelected(item, e)]: [sticky] is
    [e && (e.shiftKey || e.metaKey || e.ctrlKey || this.multi_select)]. *)
Definition processNodeSelected (multi_select : bool) (item : option Ref)
    (e : option CanvasPointerEvent) (c : LGraphCanvas) : LGraphCanvas :=
  processSelect multi_select item e
    (from_option (λ e, shiftKey e || metaKey e || ctrlKey e || multi_select)
       false e) c.

(** * Theorems *)

(** ** Sets and dictionaries *)

Lemma set_has_true (s : list Ref) (r : Ref) : set_has s r = true ↔ r ∈ s.
Proof. unfold set_has. apply bool_decide_eq_true. Qed.

Lemma set_has_false (s : list Ref) (r : Ref) : set_has s r = false ↔ r ∉ s.
Proof. unfold set_has. apply bool_decide_eq_false. Qed.

Lemma elem_of_set_add (r x : Ref) (s : list Ref) :
  x ∈ set_add r s ↔ x = r ∨ x ∈ s.
Proof.
  unfold set_add. destruct (set_has s r) eqn:E.
  - apply set_has_true in E. split; [intros; by right | by intros [->|]].
  - rewrite elem_of_app, list_elem_of_singleton. clear E. tauto.
Qed.

Lemma elem_of_set_delete (r x : Ref) (s : list Ref) :
  x ∈ set_delete r s ↔ x ≠ r ∧ x ∈ s.
Proof. unfold set_delete. by rewrite list_elem_of_filter. Qed.

Lemma set_delete_notin (r : Ref) (s : list Ref) : r ∉ s → set_delete r s = s.
Proof.
  unfold set_delete. induction s as [|x s IH]; [done|].
  intros [Hx Hs]%not_elem_of_cons.
  rewrite filter_cons_True by done. by rewrite IH.
Qed.

Lemma set_delete_add (r : Ref) (s : list Ref) :
  r ∉ s → set_delete r (set_add r s) = s.
Proof.
  intros Hr. unfold set_add. rewrite (proj2 (set_has_false s r) Hr).
  unfold set_delete. rewrite filter_app. fold (set_delete r s).
  rewrite (set_delete_notin _ _ Hr).
  rewrite filter_cons_False by (intros H; by apply H).
  by rewrite filter_nil, app_nil_r.
Qed.

Lemma lookup_foldl_insert (keys : list LinkKey) (h : gmap LinkKey bool) k :
  foldl (λ h k, <[k:=true]> h) h keys !! k
  = if bool_decide (k ∈ keys) then Some true else h !! k.
Proof.
  revert h. induction keys as [|x keys IH]; intros h; simpl; [done|].
  rewrite IH. destruct (decide (k ∈ keys)) as [Hin|Hin].
  - rewrite !bool_decide_eq_true_2; [done| by right | done].
  - rewrite (bool_decide_eq_false_2 _ Hin).
    destruct (decide (k = x)) as [->|Hne].
    + rewrite lookup_insert_eq. by rewrite bool_decide_eq_true_2 by left.
    + rewrite lookup_insert_ne by done.
      rewrite bool_decide_eq_false_2; [done|].
      by intros [?|?]%elem_of_cons.
Qed.

Lemma lookup_foldl_delete (keys : list LinkKey) (h : gmap LinkKey bool) k :
  foldl (λ h k, delete k h) h keys !! k
  = if bool_decide (k ∈ keys) then None else h !! k.
Proof.
  revert h. induction keys as [|x keys IH]; intros h; simpl; [done|].
  rewrite IH. destruct (decide (k ∈ keys)) as [Hin|Hin].
  - rewrite !bool_decide_eq_true_2; [done| by right | done].
  - rewrite (bool_decide_eq_false_2 _ Hin).
    destruct (decide (k = x)) as [->|Hne].
    + rewrite lookup_delete_eq. by rewrite bool_decide_eq_true_2 by left.
    + rewrite lookup_delete_ne by done.
      rewrite bool_decide_eq_false_2; [done|].
      by intros [?|?]%elem_of_cons.
Qed.

(** ** select and deselect, field by field *)

Lemma select_heap item c : heap (select item c) = heap c.
Proof.
  unfold select. destruct (_ && _); [done|]. simpl.
  by destruct (heap c !! item) as [[]|].
Qed.

Lemma deselect_heap item c : heap (deselect item c) = heap c.
Proof.
  unfold deselect. destruct (_ && _); [done|]. simpl.
  by destruct (heap c !! item) as [[]|].
Qed.

Lemma select_graph item c : graph (select item c) = graph c.
Proof.
  unfold select. destruct (_ && _); [done|]. simpl.
  by destruct (heap c !! item) as [[]|].
Qed.

Lemma deselect_graph item c : graph (deselect item c) = graph c.
Proof.
  unfold deselect. destruct (_ && _); [done|]. simpl.
  by destruct (heap c !! item) as [[]|].
Qed.

Lemma select_item_is_selected item c r :
  item_is_selected (select item c) r
  = if decide (r = item) then true else item_is_selected c r.
Proof.
  unfold select. destruct (item_is_selected c item && has_item c item) eqn:G.
  - apply andb_true_iff in G as [G _]. by destruct (decide _) as [->|].
  - assert (item_is_selected (write_selected item true c) r
            = if decide (r = item) then true else item_is_selected c r) as H.
    { unfold item_is_selected, write_selected. simpl.
      destruct (decide (r = item)) as [->|Hne].
      - by rewrite lookup_insert_eq.
      - by rewrite lookup_insert_ne. }
    simpl. destruct (heap c !! item) as [[]|]; exact H.
Qed.

Lemma deselect_item_is_selected item c r :
  item_is_selected (deselect item c) r
  = if decide (r = item) then false else item_is_selected c r.
Proof.
  unfold deselect.
  destruct (negb (item_is_selected c item) && negb (has_item c item)) eqn:G.
  - apply andb_true_iff in G as [G _]. apply negb_true_iff in G.
    by destruct (decide _) as [->|].
  - assert (item_is_selected (write_selected item false c) r
            = if decide (r = item) then false else item_is_selected c r) as H.
    { unfold item_is_selected, write_selected. simpl.
      destruct (decide (r = item)) as [->|Hne].
      - by rewrite lookup_insert_eq.
      - by rewrite lookup_insert_ne. }
    simpl. destruct (heap c !! item) as [[]|]; exact H.
Qed.

Lemma select_selectedItems item c :
  selectedItems (sel (select item c))
  = if item_is_selected c item && has_item c item then selectedItems (sel c)
    else set_add item (selectedItems (sel c)).
Proof.
  unfold select. destruct (_ && _); [done|]. simpl.
  by destruct (heap c !! item) as [[]|].
Qed.

Lemma deselect_selectedItems item c :
  selectedItems (sel (deselect item c))
  = if negb (item_is_selected c item) && negb (has_item c item)
    then selectedItems (sel c)
    else set_delete item (selectedItems (sel c)).
Proof.
  unfold deselect. destruct (_ && _); [done|]. simpl.
  by destruct (heap c !! item) as [[]|].
Qed.

Lemma elem_of_select item c r :
  r ∈ selectedItems (sel (select item c)) ↔ r = item ∨ r ∈ selectedItems (sel c).
Proof.
  rewrite select_selectedItems.
  destruct (item_is_selected c item && has_item c item) eqn:G.
  - apply andb_true_iff in G as [_ G]. apply set_has_true in G.
    split; [intros; by right | by intros [->|]].
  - apply elem_of_set_add.
Qed.

Lemma elem_of_deselect item c r :
  r ∈ selectedItems (sel (deselect item c)) ↔ r ≠ item ∧ r ∈ selectedItems (sel c).
Proof.
  rewrite deselect_selectedItems.
  destruct (negb (item_is_selected c item) && negb (has_item c item)) eqn:G.
  - apply andb_true_iff in G as [_ G]. apply negb_true_iff, set_has_false in G.
    split; [|by intros [_ ?]]. intros H. split; [|done]. by intros ->.
  - apply elem_of_set_delete.
Qed.

Lemma select_is_selected_self item c : item_is_selected (select item c) item = true.
Proof. rewrite select_item_is_selected. by rewrite decide_True. Qed.

Lemma select_has_self item c : has_item (select item c) item = true.
Proof. apply set_has_true, elem_of_select. by left. Qed.

Lemma deselect_is_selected_self item c :
  item_is_selected (deselect item c) item = false.
Proof. rewrite deselect_item_is_selected. by rewrite decide_True. Qed.

Lemma deselect_has_self item c : has_item (deselect item c) item = false.
Proof. apply set_has_false. rewrite elem_of_deselect. by intros [? _]. Qed.

(** ** C8: idempotence and round trip *)

(** C8.  [select] on an item that is already selected and in the selection
    set, and [deselect] on an item that is neither, return the canvas
    unchanged; hence both are idempotent.  [select] followed by [deselect]
    leaves the item with [selected = false] and outside the selection set,
    and for an item that was in neither state before the selection set is
    the one before the two calls. *)
Theorem select_deselect_idempotent_roundtrip (c : LGraphCanvas) (item : Ref) :
  (item_is_selected c item = true → item ∈ selectedItems (sel c) →
   select item c = c)
  ∧ (item_is_selected c item = false → item ∉ selectedItems (sel c) →
     deselect item c = c)
  ∧ select item (select item c) = select item c
  ∧ deselect item (deselect item c) = deselect item c
  ∧ (let c' := deselect item (select item c) in
     item_is_selected c' item = false
     ∧ (item ∉ selectedItems (sel c'))
     ∧ (item_is_selected c item = false → item ∉ selectedItems (sel c) →
        selectedItems (sel c') = selectedItems (sel c))).
Proof.
  repeat split.
  - intros Hs Hin. unfold select, has_item.
    by rewrite Hs, (proj2 (set_has_true _ _) Hin).
  - intros Hs Hin. unfold deselect, has_item.
    by rewrite Hs, (proj2 (set_has_false _ _) Hin).
  - unfold select at 1.
    by rewrite select_is_selected_self, select_has_self.
  - unfold deselect at 1.
    by rewrite deselect_is_selected_self, deselect_has_self.
  - apply deselect_is_selected_self.
  - apply set_has_false, deselect_has_self.
  - intros Hs Hin.
    rewrite deselect_selectedItems, select_is_selected_self, select_has_self.
    simpl. rewrite select_selectedItems, Hs. simpl.
    by apply set_delete_add.
Qed.

(** ** C7: highlighted links are not reference counted *)

Lemma select_highlighted item c k :
  highlighted_links (sel (select item c)) !! k
  = if item_is_selected c item && has_item c item
    then highlighted_links (sel c) !! k
    else match heap c !! item with
         | Some (ONode n) =>
             if bool_decide (k ∈ node_keys n) then Some true
             else highlighted_links (sel c) !! k
         | _ => highlighted_links (sel c) !! k
         end.
Proof.
  unfold select. destruct (_ && _); [done|]. simpl.
  destruct (heap c !! item) as [[n| |]|]; try done.
  unfold highlight, node_keys. simpl. rewrite !lookup_foldl_insert.
  destruct (decide (k ∈ input_keys n)) as [Hi|Hi],
           (decide (k ∈ output_keys n)) as [Ho|Ho];
    rewrite ?(bool_decide_eq_true_2 _ Hi), ?(bool_decide_eq_false_2 _ Hi),
            ?(bool_decide_eq_true_2 _ Ho), ?(bool_decide_eq_false_2 _ Ho).
  - rewrite bool_decide_eq_true_2; [done|]. apply elem_of_app; tauto.
  - rewrite bool_decide_eq_true_2; [done|]. apply elem_of_app; tauto.
  - rewrite bool_decide_eq_true_2; [done|]. apply elem_of_app; tauto.
  - rewrite bool_decide_eq_false_2; [done|]. rewrite elem_of_app; tauto.
Qed.

Lemma deselect_highlighted item c k :
  highlighted_links (sel (deselect item c)) !! k
  = if negb (item_is_selected c item) && negb (has_item c item)
    then highlighted_links (sel c) !! k
    else match heap c !! item with
         | Some (ONode n) =>
             if bool_decide (k ∈ node_keys n) then None
             else highlighted_links (sel c) !! k
         | _ => highlighted_links (sel c) !! k
         end.
Proof.
  unfold deselect. destruct (_ && _); [done|]. simpl.
  destruct (heap c !! item) as [[n| |]|]; try done.
  unfold unhighlight, node_keys. simpl. rewrite !lookup_foldl_delete.
  destruct (decide (k ∈ input_keys n)) as [Hi|Hi],
           (decide (k ∈ output_keys n)) as [Ho|Ho];
    rewrite ?(bool_decide_eq_true_2 _ Hi), ?(bool_decide_eq_false_2 _ Hi),
            ?(bool_decide_eq_true_2 _ Ho), ?(bool_decide_eq_false_2 _ Ho).
  - rewrite bool_decide_eq_true_2; [done|]. apply elem_of_app; tauto.
  - rewrite bool_decide_eq_true_2; [done|]. apply elem_of_app; tauto.
  - rewrite bool_decide_eq_true_2; [done|]. apply elem_of_app; tauto.
  - rewrite bool_decide_eq_false_2; [done|]. rewrite elem_of_app; tauto.
Qed.

(** C7.  Deselecting a selected node deletes exactly the keys of that node's
    connected links from [highlighted_links]: every other key keeps its
    entry.  No count is kept: after two distinct nodes [a] and [b] that share
    the link [l] are selected ([b] was not selected before) and [a] is
    deselected, [l], highlighted until then, is no longer highlighted
    although [b] is still selected. *)
Theorem deselect_unhighlights_without_refcount
    (c : LGraphCanvas) (a b : Ref) (na nb : LGraphNode) (l : LinkKey)
    (Ha : heap c !! a = Some (ONode na))
    (Hb : heap c !! b = Some (ONode nb))
    (Hab : a ≠ b)
    (Hla : l ∈ node_keys na)
    (Hlb : l ∈ node_keys nb)
    (Hbsel : item_is_selected c b = false) :
  let c2 := select b (select a c) in
  let c3 := deselect a c2 in
  (∀ k, highlighted_links (sel c3) !! k
        = if bool_decide (k ∈ node_keys na) then None
          else highlighted_links (sel c2) !! k)
  ∧ highlighted_links (sel c2) !! l = Some true
  ∧ highlighted_links (sel c3) !! l = None
  ∧ item_is_selected c3 b = true
  ∧ b ∈ selectedItems (sel c3).
Proof.
  intros c2 c3.
  assert (item_is_selected c2 a = true) as Hsa.
  { unfold c2. rewrite select_item_is_selected, decide_False by done.
    apply select_is_selected_self. }
  assert (heap c2 !! a = Some (ONode na)) as Ha2.
  { unfold c2. by rewrite !select_heap. }
  assert (∀ k, highlighted_links (sel c3) !! k
               = if bool_decide (k ∈ node_keys na) then None
                 else highlighted_links (sel c2) !! k) as Hexact.
  { intros k. unfold c3. rewrite deselect_highlighted, Hsa, Ha2. done. }
  split; [exact Hexact|]. split; [|split; [|split]].
  - unfold c2. rewrite select_highlighted, select_heap, Hb.
    rewrite select_item_is_selected, decide_False, Hbsel by done. simpl.
    by rewrite bool_decide_eq_true_2.
  - rewrite Hexact. by rewrite bool_decide_eq_true_2.
  - unfold c3. rewrite deselect_item_is_selected, decide_False by done.
    apply select_is_selected_self.
  - unfold c3. apply elem_of_deselect. split; [done|].
    apply elem_of_select. by left.
Qed.

(** ** C9: the selection invariant *)

Lemma select_consistent item c :
  selection_consistent c → selection_consistent (select item c).
Proof.
  intros H r. rewrite select_item_is_selected, elem_of_select.
  destruct (decide (r = item)) as [->|Hne]; [split; [by left | done]|].
  rewrite (H r). tauto.
Qed.

Lemma deselect_consistent item c :
  selection_consistent c → selection_consistent (deselect item c).
Proof.
  intros H r. rewrite deselect_item_is_selected, elem_of_deselect.
  destruct (decide (r = item)) as [->|Hne]; [split; [done | by intros [? _]]|].
  rewrite (H r). tauto.
Qed.

Lemma foldl_preserves {A} (P : LGraphCanvas → Prop)
    (f : LGraphCanvas → A → LGraphCanvas) (l : list A) (c : LGraphCanvas) :
  (∀ c x, P c → P (f c x)) → P c → P (foldl f c l).
Proof.
  intros Hf. revert c. induction l as [|x l IH]; intros c Hc; simpl; [done|].
  apply IH, Hf, Hc.
Qed.

(** What the loop of [deselectAll] leaves behind. *)
Lemma deselectAll_loop_spec keep (l : list Ref) c was :
  let r := foldl (λ '(c, wasSelected) s,
                    if decide (Some s = keep) then (c, Some s)
                    else (write_selected s false (emit (E_onDeselected s) c),
                          wasSelected)) (c, was) l in
  (∀ x, item_is_selected r.1 x
        = if bool_decide (x ∈ l ∧ Some x ≠ keep) then false
          else item_is_selected c x)
  ∧ r.2 = (if bool_decide (keep ∈ Some <$> l) then keep else was)
  ∧ heap r.1 = heap c ∧ graph r.1 = graph c
  ∧ selectedItems (sel r.1) = selectedItems (sel c)
  ∧ selected_nodes (sel r.1) = selected_nodes (sel c).
Proof.
  revert c was. induction l as [|s l IH]; intros c was; cbn [foldl].
  - repeat split; done.
  - destruct (decide (Some s = keep)) as [Hk|Hk].
    + specialize (IH c (Some s)). simpl in IH.
      destruct IH as (Hf & Hw & Hh & Hg & Hs & Hn).
      repeat split; try done.
      * intros x. rewrite Hf.
        destruct (decide (x ∈ l ∧ Some x ≠ keep)) as [Hx|Hx].
        -- rewrite !bool_decide_eq_true_2; [done| |done].
           destruct Hx. split; [by right|done].
        -- rewrite !bool_decide_eq_false_2; [done| |done].
           intros [[->|Hin]%elem_of_cons Hne]; [done|]. by apply Hx.
      * rewrite Hw. rewrite (bool_decide_eq_true_2 (keep ∈ Some <$> s :: l)).
        2:{ rewrite fmap_cons, Hk. by left. }
        by destruct (bool_decide _).
    + specialize (IH (write_selected s false (emit (E_onDeselected s) c)) was).
      simpl in IH. destruct IH as (Hf & Hw & Hh & Hg & Hs & Hn).
      repeat split; try done.
      * intros x. rewrite Hf.
        assert (item_is_selected
                  (write_selected s false (emit (E_onDeselected s) c)) x
                = if decide (x = s) then false else item_is_selected c x) as ->.
        { unfold item_is_selected, write_selected. simpl.
          destruct (decide (x = s)) as [->|Hne].
          - by rewrite lookup_insert_eq.
          - by rewrite lookup_insert_ne. }
        destruct (decide (x ∈ l ∧ Some x ≠ keep)) as [Hx|Hx].
        -- rewrite !bool_decide_eq_true_2; [done| |done].
           destruct Hx. split; [by right|done].
        -- rewrite (bool_decide_eq_false_2 _ Hx).
           destruct (decide (x = s)) as [->|Hne].
           ++ rewrite bool_decide_eq_true_2; [done|]. split; [by left|done].
           ++ rewrite bool_decide_eq_false_2; [done|].
              intros [[->|Hin]%elem_of_cons Hne']; [done|]. by apply Hx.
      * rewrite Hw. rewrite fmap_cons.
        destruct (decide (keep ∈ Some <$> l)) as [Hin|Hin].
        -- rewrite !bool_decide_eq_true_2; [done|by right|done].
        -- rewrite !bool_decide_eq_false_2; [done| |done].
           intros [?|?]%elem_of_cons; [by apply Hk|done].
Qed.

Lemma highlight_selection keys c :
  item_selected (sel (highlight keys c)) = item_selected (sel c)
  ∧ selectedItems (sel (highlight keys c)) = selectedItems (sel c).
Proof. done. Qed.

Lemma deselectAll_selection keep c :
  graph c ≠ None →
  (∀ x, item_is_selected (deselectAll keep c) x
        = if bool_decide (x ∈ selectedItems (sel c) ∧ Some x ≠ keep) then false
          else item_is_selected c x)
  ∧ (∀ x, x ∈ selectedItems (sel (deselectAll keep c))
          ↔ x ∈ selectedItems (sel c) ∧ Some x = keep).
Proof.
  intros Hg. unfold deselectAll. destruct (graph c) as [g|]; [clear Hg|done].
  unfold deselectAll_loop.
  pose proof (deselectAll_loop_spec keep (selectedItems (sel c)) c None) as H.
  simpl in H. destruct (foldl _ _ _) as [c1 was]. simpl in H.
  destruct H as (Hf & Hw & Hh & Hgr & Hs & Hn).
  set (c2 := upd_sel (set_highlighted_links ∅) _).
  assert (∀ x, item_is_selected c2 x = item_is_selected c1 x) as Hf2 by done.
  assert (selectedItems (sel c2)
          = match was with Some w => set_add w [] | None => [] end) as Hs2 by done.
  assert (∀ c3, item_selected (sel c3) = item_selected (sel c2) →
                selectedItems (sel c3) = selectedItems (sel c2) →
    (∀ x, item_is_selected c3 x
          = if bool_decide (x ∈ selectedItems (sel c) ∧ Some x ≠ keep) then false
            else item_is_selected c x)
    ∧ (∀ x, x ∈ selectedItems (sel c3)
            ↔ x ∈ selectedItems (sel c) ∧ Some x = keep)) as Hfin.
  { intros c3 E1 E2. split.
    - intros x. unfold item_is_selected. rewrite E1.
      fold (item_is_selected c2 x). by rewrite Hf2, Hf.
    - intros x. rewrite E2, Hs2, Hw.
      destruct (decide (keep ∈ Some <$> selectedItems (sel c))) as [Hin|Hin].
      + rewrite bool_decide_eq_true_2 by done.
        apply list_elem_of_fmap in Hin as (k & -> & Hk).
        unfold set_add. simpl. rewrite list_elem_of_singleton.
        split; [by intros ->|]. by intros [_ [= ->]].
      + rewrite bool_decide_eq_false_2 by done.
        split; [by intros ?%elem_of_nil|].
        intros [Hx <-]. exfalso. apply Hin. apply list_elem_of_fmap. eauto. }
  destruct (keep ≫= _) as [[n| |]|]; try (apply Hfin; done).
  destruct (_ ≫= _) as [[o oid]|]; apply Hfin; done.
Qed.

Lemma deselectAll_consistent keep c :
  selection_consistent c → selection_consistent (deselectAll keep c).
Proof.
  intros H. destruct (graph c) as [g|] eqn:Hg.
  2:{ unfold deselectAll. by rewrite Hg. }
  destruct (deselectAll_selection keep c) as [Hf Hs]; [by rewrite Hg|].
  intros x. rewrite Hf, Hs.
  destruct (decide (x ∈ selectedItems (sel c) ∧ Some x ≠ keep)) as [Hx|Hx].
  - rewrite bool_decide_eq_true_2 by done. split; [done|].
    intros [_ ?]. by destruct Hx.
  - rewrite bool_decide_eq_false_2 by done. rewrite (H x).
    split; [|tauto]. intros Hin. split; [done|].
    destruct (decide (Some x = keep)); [done|]. exfalso. by apply Hx.
Qed.

(** ** The multi-select rectangle *)

Lemma classify_isSelected item c k :
  isSelected (classify item c k)
  = isSelected k ++ (if fully_selected c item then [item] else []).
Proof.
  unfold classify, fully_selected, fully_sel, item_is_selected, has_item.
  destruct (default false _), (set_has _ _); simpl;
    by rewrite ?app_nil_r.
Qed.

Lemma classify_notSelected item c k :
  notSelected (classify item c k)
  = notSelected k ++ (if fully_selected c item then [] else [item]).
Proof.
  unfold classify, fully_selected, fully_sel, item_is_selected, has_item.
  destruct (default false _), (set_has _ _); simpl;
    by rewrite ?app_nil_r.
Qed.

Section MultiSelectFacts.
Context (M : Measure).

(** The loop over the nodes leaves the canvas as it is and appends the
    nodes that overlap the rectangle to one of the two arrays. *)
Lemma classifyNodes_spec rect nodes c k :
  classifyNodes M rect nodes (c, k)
  = (c, {| isSelected :=
             isSelected k
             ++ List.filter (λ x, node_hit M (heap c) rect x
                                  && fully_selected c x) nodes;
           notSelected :=
             notSelected k
             ++ List.filter (λ x, node_hit M (heap c) rect x
                                  && negb (fully_selected c x)) nodes |}).
Proof.
  unfold classifyNodes. revert k.
  induction nodes as [|r nodes IH]; intros k; cbn [foldl List.filter].
  - rewrite !app_nil_r. by destruct k.
  - assert ((match heap c !! r with
             | Some (ONode n) =>
                 if overlapBounding M rect (boundingRect n)
                 then (c, classify r c k) else (c, k)
             | _ => (c, k)
             end)
            = (c, if node_hit M (heap c) rect r then classify r c k else k))
      as ->.
    { unfold node_hit. destruct (heap c !! r) as [[n| |]|]; try done.
      by destruct (overlapBounding _ _ _). }
    rewrite IH. destruct (node_hit M (heap c) rect r); cbn [andb]; [|done].
    rewrite classify_isSelected, classify_notSelected.
    destruct (fully_selected c r); cbn [negb];
      by rewrite app_nil_r, <- app_assoc.
Qed.

(** The loop over the groups only calls [recomputeInsideNodes]. *)
Lemma classifyGroups_spec rect gs c k :
  ∃ c', classifyGroups M rect gs (c, k)
        = (c', {| isSelected :=
                    isSelected k
                    ++ List.filter (λ x, group_hit M (heap c) rect x
                                         && fully_sel (sel c) x) gs;
                  notSelected :=
                    notSelected k
                    ++ List.filter (λ x, group_hit M (heap c) rect x
                                         && negb (fully_sel (sel c) x)) gs |})
    ∧ sel c' = sel c ∧ heap c' = heap c ∧ graph c' = graph c.
Proof.
  unfold classifyGroups. revert c k.
  induction gs as [|r gs IH]; intros c k; cbn [foldl List.filter].
  - exists c. rewrite !app_nil_r. by destruct k.
  - set (c1 := if group_hit M (heap c) rect r
               then emit (E_method r "recomputeInsideNodes") c else c).
    assert (sel c1 = sel c ∧ heap c1 = heap c ∧ graph c1 = graph c)
      as (Hs & Hh & Hg).
    { unfold c1. by destruct (group_hit _ _ _). }
    assert ((match heap c !! r with
             | Some (OGroup g) =>
                 if containsRect M rect (_bounding g)
                 then (emit (E_method r "recomputeInsideNodes") c,
                       classify r
                         (emit (E_method r "recomputeInsideNodes") c) k)
                 else (c, k)
             | _ => (c, k)
             end)
            = (c1, if group_hit M (heap c) rect r then classify r c k else k))
      as ->.
    { unfold c1, group_hit. destruct (heap c !! r) as [[|g|]|]; try done.
      by destruct (containsRect _ _ _). }
    destruct (IH c1 (if group_hit M (heap c) rect r then classify r c k else k))
      as (c' & -> & Hs' & Hh' & Hg').
    exists c'. rewrite Hs, Hh in *. split; [|by rewrite Hs', Hh', Hg', Hg].
    f_equal. destruct (group_hit M (heap c) rect r); cbn [andb]; [|done].
    rewrite classify_isSelected, classify_notSelected.
    unfold fully_selected.
    destruct (fully_sel (sel c) r); cbn [negb];
      by rewrite app_nil_r, <- app_assoc.
Qed.

(** The loop over the reroutes selects every reroute whose centre is in
    the rectangle, and therefore classifies it as selected. *)
Lemma classifyReroutes_spec rect rs c k :
  ∃ c', classifyReroutes M rect rs (c, k)
        = (c', {| isSelected :=
                    isSelected k
                    ++ List.filter (reroute_hit M (heap c) rect) rs;
                  notSelected := notSelected k |})
    ∧ heap c' = heap c ∧ graph c' = graph c
    ∧ (∀ x, item_is_selected c' x
            = item_is_selected c x
              || (bool_decide (x ∈ rs) && reroute_hit M (heap c) rect x))
    ∧ (∀ x, x ∈ selectedItems (sel c')
            ↔ x ∈ selectedItems (sel c)
              ∨ (x ∈ rs ∧ reroute_hit M (heap c) rect x = true)).
Proof.
  unfold classifyReroutes. revert c k.
  induction rs as [|r rs IH]; intros c k; cbn [foldl List.filter].
  - exists c. rewrite !app_nil_r. split; [by destruct k|].
    repeat split; try done.
    + intros x. by rewrite orb_false_r.
    + by left.
    + intros [?|[?%elem_of_nil _]]; done.
  - set (c1 := if reroute_hit M (heap c) rect r
               then write_selected r true
                      (upd_sel (λ s, set_selectedItems
                                       (set_add r (selectedItems s)) s) c)
               else c).
    assert (heap c1 = heap c ∧ graph c1 = graph c) as (Hh & Hg).
    { unfold c1. by destruct (reroute_hit _ _ _). }
    assert ((match heap c !! r with
             | Some (OReroute rr) =>
                 if isPointInRect M (reroute_pos rr) rect
                 then
                   (write_selected r true
                      (upd_sel (λ s, set_selectedItems
                                       (set_add r (selectedItems s)) s) c),
                    classify r
                      (write_selected r true
                         (upd_sel (λ s, set_selectedItems
                                          (set_add r (selectedItems s)) s) c))
                      k)
                 else (c, k)
             | _ => (c, k)
             end)
            = (c1, {| isSelected :=
                        isSelected k
                        ++ (if reroute_hit M (heap c) rect r then [r] else []);
                      notSelected := notSelected k |})) as ->.
    { unfold c1, reroute_hit. rewrite !app_nil_r || idtac.
      destruct (heap c !! r) as [[| |rr]|];
        try (rewrite app_nil_r; by destruct k).
      destruct (isPointInRect _ _ _); [|rewrite app_nil_r; by destruct k].
      f_equal. unfold classify.
      assert (item_is_selected
                (write_selected r true
                   (upd_sel (λ s, set_selectedItems
                                    (set_add r (selectedItems s)) s) c)) r
              = true) as ->.
      { unfold item_is_selected, write_selected. simpl.
        by rewrite lookup_insert_eq. }
      assert (has_item
                (write_selected r true
                   (upd_sel (λ s, set_selectedItems
                                    (set_add r (selectedItems s)) s) c)) r
              = true) as ->.
      { unfold has_item. simpl. apply set_has_true, elem_of_set_add.
        by left. }
      done. }
    destruct (IH c1 {| isSelected :=
                         isSelected k
                         ++ (if reroute_hit M (heap c) rect r then [r] else []);
                       notSelected := notSelected k |})
      as (c' & -> & Hh' & Hg' & Hf' & Hs').
    exists c'. rewrite Hh in *. cbn [isSelected notSelected].
    split; [|split; [by rewrite Hh'|split; [by rewrite Hg'|split]]].
    + f_equal. f_equal. rewrite <- app_assoc. f_equal.
      by destruct (reroute_hit M (heap c) rect r).
    + intros x. rewrite Hf'.
      assert (item_is_selected c1 x
              = item_is_selected c x
                || (bool_decide (x = r) && reroute_hit M (heap c) rect x)) as ->.
      { unfold c1. destruct (decide (x = r)) as [->|Hne].
        - rewrite bool_decide_eq_true_2 by done. cbn [andb].
          destruct (reroute_hit M (heap c) rect r).
          + unfold item_is_selected, write_selected. simpl.
            by rewrite lookup_insert_eq, orb_true_r.
          + by rewrite orb_false_r.
        - rewrite bool_decide_eq_false_2 by done. cbn [andb].
          rewrite orb_false_r.
          destruct (reroute_hit M (heap c) rect r); [|done].
          unfold item_is_selected, write_selected. simpl.
          by rewrite lookup_insert_ne. }
      rewrite <- orb_assoc. f_equal. rewrite <- andb_orb_distrib_l. f_equal.
      apply eq_true_iff_eq.
      rewrite orb_true_iff, !bool_decide_eq_true, elem_of_cons. tauto.
    + intros x. rewrite Hs'.
      assert (x ∈ selectedItems (sel c1)
              ↔ x ∈ selectedItems (sel c)
                ∨ (x = r ∧ reroute_hit M (heap c) rect x = true)) as ->.
      { unfold c1. destruct (reroute_hit M (heap c) rect r) eqn:Hr.
        - simpl. rewrite elem_of_set_add.
          split; [intros [->|?]; [by right|by left]|].
          intros [?|[-> _]]; [by right|by left].
        - split; [by left|]. intros [?|[-> ?]]; [done|congruence]. }
      rewrite elem_of_cons. tauto.
Qed.
End MultiSelectFacts.

(** ** Loops of [select] and [deselect] *)

Lemma foldl_select_spec (l : list Ref) c :
  let c' := foldl (λ c item, select item c) c l in
  heap c' = heap c ∧ graph c' = graph c
  ∧ (∀ x, x ∈ selectedItems (sel c') ↔ x ∈ l ∨ x ∈ selectedItems (sel c))
  ∧ (selection_consistent c → selection_consistent c').
Proof.
  revert c. induction l as [|i l IH]; intros c; cbn [foldl].
  - split; [done|]. split; [done|]. split; [|done].
    intros x. rewrite elem_of_nil. tauto.
  - destruct (IH (select i c)) as (Hh & Hg & Hs & Hc).
    rewrite select_heap in Hh. rewrite select_graph in Hg.
    split; [done|]. split; [done|]. split.
    + intros x. rewrite Hs, elem_of_select, elem_of_cons. tauto.
    + intros H. by apply Hc, select_consistent.
Qed.

Lemma foldl_deselect_spec (l : list Ref) c :
  let c' := foldl (λ c item, deselect item c) c l in
  heap c' = heap c ∧ graph c' = graph c
  ∧ (∀ x, x ∈ selectedItems (sel c') ↔ (x ∉ l) ∧ x ∈ selectedItems (sel c))
  ∧ (selection_consistent c → selection_consistent c').
Proof.
  revert c. induction l as [|i l IH]; intros c; cbn [foldl].
  - split; [done|]. split; [done|]. split; [|done].
    intros x. rewrite elem_of_nil. tauto.
  - destruct (IH (deselect i c)) as (Hh & Hg & Hs & Hc).
    rewrite deselect_heap in Hh. rewrite deselect_graph in Hg.
    split; [done|]. split; [done|]. split.
    + intros x. rewrite Hs, elem_of_deselect, not_elem_of_cons. tauto.
    + intros H. by apply Hc, deselect_consistent.
Qed.

(** The first loop of a replacing selection: members that were not
    classified as selected are deselected. *)
Lemma foldl_replace_spec (keep l : list Ref) c :
  let c' := foldl (λ c item, if bool_decide (item ∈ keep) then c
                             else deselect item c) c l in
  heap c' = heap c ∧ graph c' = graph c
  ∧ (∀ x, x ∈ selectedItems (sel c')
          ↔ x ∈ selectedItems (sel c) ∧ (x ∈ l → x ∈ keep))
  ∧ (selection_consistent c → selection_consistent c').
Proof.
  revert c. induction l as [|i l IH]; intros c; cbn [foldl].
  - split; [done|]. split; [done|]. split; [|done].
    intros x. rewrite elem_of_nil. tauto.
  - destruct (decide (i ∈ keep)) as [Hi|Hi].
    + rewrite bool_decide_eq_true_2 by done.
      destruct (IH c) as (Hh & Hg & Hs & Hc).
      split; [done|]. split; [done|]. split; [|done].
      intros x. rewrite Hs, elem_of_cons. intuition (subst; auto).
    + rewrite bool_decide_eq_false_2 by done.
      destruct (IH (deselect i c)) as (Hh & Hg & Hs & Hc).
      rewrite deselect_heap in Hh. rewrite deselect_graph in Hg.
      split; [done|]. split; [done|]. split.
      * intros x. rewrite Hs, elem_of_deselect, elem_of_cons.
        destruct (decide (x = i)) as [->|Hne]; intuition auto.
      * intros H. by apply Hc, deselect_consistent.
Qed.

Section MultiSelectTheorems.
Context (M : Measure).

Lemma elem_of_List_filter (f : Ref → bool) (l : list Ref) x :
  x ∈ List.filter f l ↔ x ∈ l ∧ f x = true.
Proof. rewrite !list_elem_of_In. apply filter_In. Qed.

(** The three loops together. *)
Lemma classification_spec g c :
  let rect := normaliseDragRect (dragRect (modes c)) in
  let c0 := upd_modes (set_dragRect rect) c in
  ∃ c' k,
    classifyReroutes M rect (reroutes g)
      (classifyGroups M rect (groups g)
         (classifyNodes M rect (_nodes g)
            (c0, {| isSelected := []; notSelected := [] |}))) = (c', k)
    ∧ heap c' = heap c ∧ graph c' = graph c
    ∧ (∀ x, x ∈ selectedItems (sel c')
            ↔ x ∈ selectedItems (sel c)
              ∨ (x ∈ reroutes g ∧ reroute_hit M (heap c) rect x = true))
    ∧ (∀ x, x ∈ isSelected k
            ↔ (x ∈ _nodes g ∧ node_hit M (heap c) rect x = true
               ∧ fully_selected c x = true)
              ∨ (x ∈ groups g ∧ group_hit M (heap c) rect x = true
                 ∧ fully_selected c x = true)
              ∨ (x ∈ reroutes g ∧ reroute_hit M (heap c) rect x = true))
    ∧ (∀ x, x ∈ notSelected k
            ↔ (x ∈ _nodes g ∧ node_hit M (heap c) rect x = true
               ∧ fully_selected c x = false)
              ∨ (x ∈ groups g ∧ group_hit M (heap c) rect x = true
                 ∧ fully_selected c x = false))
    ∧ (selection_consistent c → selection_consistent c').
Proof.
  intros rect c0.
  rewrite classifyNodes_spec.
  match goal with
  | |- context [classifyGroups M rect (groups g) (c0, ?k)] =>
      destruct (classifyGroups_spec M rect (groups g) c0 k)
        as (c1 & -> & Hs1 & Hh1 & Hg1)
  end.
  match goal with
  | |- context [classifyReroutes M rect (reroutes g) (c1, ?k)] =>
      destruct (classifyReroutes_spec M rect (reroutes g) c1 k)
        as (c2 & -> & Hh2 & Hg2 & Hf2 & Hs2)
  end.
  eexists _, _. split; [done|].
  cbn [isSelected notSelected app].
  change (heap c0) with (heap c) in *. change (sel c0) with (sel c) in *.
  change (graph c0) with (graph c) in *.
  change (fully_selected c0) with (fully_selected c).
  rewrite Hh1 in *.
  split; [by rewrite Hh2|]. split; [by rewrite Hg2, Hg1|].
  split; [|split; [|split]].
  - intros x. rewrite Hs2, Hs1. done.
  - intros x. rewrite !elem_of_app, !elem_of_List_filter, !andb_true_iff.
    unfold fully_selected. tauto.
  - intros x. rewrite !elem_of_app, !elem_of_List_filter, !andb_true_iff,
      !negb_true_iff.
    unfold fully_selected. tauto.
  - intros Hc x. rewrite Hf2, Hs2.
    unfold item_is_selected at 1. rewrite Hs1. fold (item_is_selected c x).
    rewrite orb_true_iff, andb_true_iff, bool_decide_eq_true, (Hc x). done.
Qed.

(** The selection set after [#handleMultiSelect], and the invariant. *)
Lemma handleMultiSelect_spec e c g :
  graph c = Some g →
  let rect := normaliseDragRect (dragRect (modes c)) in
  let c' := handleMultiSelect M e c in
  (selection_consistent c → selection_consistent c')
  ∧ (shiftKey e = true →
     ∀ x, x ∈ selectedItems (sel c')
          ↔ x ∈ selectedItems (sel c) ∨ covered M g (heap c) rect x)
  ∧ (shiftKey e = false → altKey e = true → selection_consistent c →
     ∀ x, x ∈ selectedItems (sel c')
          ↔ x ∈ selectedItems (sel c) ∧ ¬ covered M g (heap c) rect x)
  ∧ (shiftKey e = false → altKey e = false →
     ∀ x, x ∈ selectedItems (sel c') ↔ covered M g (heap c) rect x).
Proof.
  intros Hg rect c'. unfold c', handleMultiSelect. rewrite Hg.
  destruct (classification_spec g c)
    as (c1 & k & -> & Hh & Hgr & Hs & HI & HN & Hc).
  fold rect in Hs, HI, HN.
  assert (∀ x, fully_selected c x = true → x ∈ selectedItems (sel c)) as Hfs.
  { intros x [_ H]%andb_true_iff. by apply set_has_true in H. }
  assert (∀ x, selection_consistent c → x ∈ selectedItems (sel c) →
               fully_selected c x = true) as Hsf.
  { intros x Hcons Hx. apply andb_true_iff. split.
    - by apply (Hcons x).
    - by apply set_has_true. }
  split; [|split; [|split]].
  - intros Hcons. specialize (Hc Hcons).
    destruct (shiftKey e); [by apply foldl_select_spec|].
    destruct (altKey e); [by apply foldl_deselect_spec|].
    apply foldl_select_spec. by apply foldl_replace_spec.
  - intros ->. intros x.
    destruct (foldl_select_spec (notSelected k) c1) as (_ & _ & H & _).
    rewrite H, HN, Hs. unfold covered.
    destruct (fully_selected c x) eqn:Hf; [|intuition congruence].
    specialize (Hfs x Hf). intuition congruence.
  - intros -> -> Hcons x.
    destruct (foldl_deselect_spec (isSelected k) c1) as (_ & _ & H & _).
    rewrite H, HI, Hs. unfold covered.
    destruct (decide (x ∈ selectedItems (sel c))) as [Hx|Hx].
    + specialize (Hsf x Hcons Hx). intuition congruence.
    + intuition congruence.
  - intros -> -> x.
    destruct (foldl_select_spec (notSelected k)
                (foldl (λ c item, if bool_decide (item ∈ isSelected k) then c
                                  else deselect item c)
                       c1 (selectedItems (sel c1)))) as (_ & _ & H & _).
    destruct (foldl_replace_spec (isSelected k) (selectedItems (sel c1)) c1)
      as (_ & _ & H' & _).
    rewrite H, H', HN, HI, Hs. unfold covered.
    destruct (fully_selected c x) eqn:Hf.
    + specialize (Hfs x Hf). intuition congruence.
    + intuition congruence.
Qed.
End MultiSelectTheorems.

(** ** Example states, evaluated *)

Lemma example_canvas_consistent : selection_consistent example_canvas.
Proof.
  intros r. unfold item_is_selected. cbn. rewrite lookup_empty. cbn.
  rewrite elem_of_nil. split; [done|tauto].
Defined.

Lemma example_multiselect_plain :
  selectedItems
    (sel (handleMultiSelect measure (example_event 0 false false false)
            example_canvas))
  = [4%positive; 1%positive].
Proof. vm_compute. reflexivity. Qed.

Lemma select_deselect_idempotent_roundtrip_witness :
  item_is_selected (select 1%positive example_canvas) 1%positive = true
  ∧ 1%positive ∈ selectedItems (sel (select 1%positive example_canvas))
  ∧ select 1%positive (select 1%positive example_canvas)
    = select 1%positive example_canvas
  ∧ item_is_selected example_canvas 3%positive = false
  ∧ (3%positive ∉ selectedItems (sel example_canvas))
  ∧ deselect 3%positive example_canvas = example_canvas
  ∧ selectedItems
      (sel (deselect 3%positive (select 3%positive example_canvas)))
    = selectedItems (sel example_canvas).
Proof.
  assert (item_is_selected (select 1%positive example_canvas) 1%positive = true)
    as H1 by (vm_compute; reflexivity).
  assert (1%positive ∈ selectedItems (sel (select 1%positive example_canvas)))
    as H2 by (vm_compute; left).
  assert (item_is_selected example_canvas 3%positive = false)
    as H3 by (vm_compute; reflexivity).
  assert (3%positive ∉ selectedItems (sel example_canvas))
    as H4 by (vm_compute; apply not_elem_of_nil).
  pose proof (select_deselect_idempotent_roundtrip example_canvas 3%positive)
    as (_ & Hdes & _ & _ & _ & _ & Hround).
  pose proof (select_deselect_idempotent_roundtrip
                (select 1%positive example_canvas) 1%positive)
    as (Hsel & _).
  exact (conj H1 (conj H2 (conj (Hsel H1 H2) (conj H3 (conj H4
           (conj (Hdes H3 H4) (Hround H3 H4))))))).
Defined.

Lemma deselect_unhighlights_without_refcount_witness :
  highlighted_links
    (sel (select 2%positive (select 1%positive example_canvas))) !! Some 5
  = Some true
  ∧ highlighted_links
      (sel (deselect 1%positive
              (select 2%positive (select 1%positive example_canvas))))
    !! Some 5 = None
  ∧ item_is_selected
      (deselect 1%positive
         (select 2%positive (select 1%positive example_canvas))) 2%positive
    = true.
Proof.
  assert (heap example_canvas !! 1%positive = Some (ONode example_node_a))
    as Ha by (vm_compute; reflexivity).
  assert (heap example_canvas !! 2%positive = Some (ONode example_node_b))
    as Hb by (vm_compute; reflexivity).
  assert (1%positive ≠ 2%positive) as Hab by (intros H; discriminate H).
  assert (Some 5 ∈ node_keys example_node_a) as Hla by (vm_compute; left).
  assert (Some 5 ∈ node_keys example_node_b) as Hlb by (vm_compute; left).
  assert (item_is_selected example_canvas 2%positive = false)
    as Hs by (vm_compute; reflexivity).
  pose proof (deselect_unhighlights_without_refcount example_canvas
                1%positive 2%positive example_node_a example_node_b (Some 5)
                Ha Hb Hab Hla Hlb Hs) as (_ & H2 & H3 & H4 & _).
  exact (conj H2 (conj H3 H4)).
Defined.

(** [#handleMultiSelect] keeps the flag of every item and the membership in
    the selection set in step. *)
Lemma handleMultiSelect_consistent (M : Measure) e c :
  selection_consistent c → selection_consistent (handleMultiSelect M e c).
Proof.
  intros H. destruct (graph c) as [g|] eqn:Hg.
  - by apply (handleMultiSelect_spec M e c g Hg).
  - unfold handleMultiSelect. by rewrite Hg.
Qed.

(** C9.  Starting from a canvas on which [item.selected] is true exactly for
    the members of [selectedItems], the same holds after [select], after
    [deselect], after [deselectAll] with or without a kept item, and after the
    classification and selection update of the multi-select rectangle. *)
Theorem selection_invariant_preserved (M : Measure) (c : LGraphCanvas)
    (H : selection_consistent c) :
  (∀ item, selection_consistent (select item c))
  ∧ (∀ item, selection_consistent (deselect item c))
  ∧ selection_consistent (deselectAll None c)
  ∧ (∀ keepSelected, selection_consistent (deselectAll (Some keepSelected) c))
  ∧ (∀ e, selection_consistent (handleMultiSelect M e c)).
Proof.
  split; [|split; [|split; [|split]]].
  - intros item. by apply select_consistent.
  - intros item. by apply deselect_consistent.
  - by apply deselectAll_consistent.
  - intros k. by apply deselectAll_consistent.
  - intros e. by apply handleMultiSelect_consistent.
Qed.

Lemma selection_invariant_preserved_witness :
  selection_consistent example_canvas
  ∧ selection_consistent (select 1%positive example_canvas)
  ∧ selection_consistent
      (handleMultiSelect measure (example_event 0 false false false)
         example_canvas).
Proof.
  pose proof (selection_invariant_preserved measure example_canvas
                example_canvas_consistent) as (Hs & _ & _ & _ & Hm).
  exact (conj example_canvas_consistent
           (conj (Hs 1%positive) (Hm (example_event 0 false false false)))).
Defined.

(** ** Calls made by the selection operations *)



Lemma ncs_same_trace c c' : trace c' = trace c → no_connection_since c c'.
Proof. intros H. exists []. by rewrite H, app_nil_r. Qed.


(** Closes [no_connection_since c c'] when [c'] is [c] under setters and
    quiet calls. *)
Ltac ncs_direct :=
  unfold no_connection_since; simpl;
  eexists; split;
  [ rewrite <- ?app_assoc; first [reflexivity | symmetry; apply app_nil_r]
  | repeat constructor ].

(** Splits the goal on every test the state under a projection depends on. *)
Ltac split_state :=
  repeat (simpl;
          match goal with
          | |- context [if ?b then _ else _] => destruct b eqn:?
          | |- context [match ?x with _ => _ end] => destruct x eqn:?
          end).


Lemma ncs_highlight keys c : no_connection_since c (highlight keys c).
Proof. by apply ncs_same_trace. Qed.







(** ** What the selection operations leave alone *)



Lemma processSelect_modes ms item e sticky c :
  modes (processSelect ms item e sticky c) = modes c
  ∧ pointer (processSelect ms item e sticky c) = pointer c.
Proof.
  assert (∀ item c, modes (select item c) = modes c
                    ∧ pointer (select item c) = pointer c) as Hsel.
  { intros i c0. unfold select. destruct (_ && _); [done|]. simpl.
    by destruct (heap c0 !! i) as [[]|]. }
  assert (∀ item c, modes (deselect item c) = modes c
                    ∧ pointer (deselect item c) = pointer c) as Hdes.
  { intros i c0. unfold deselect. destruct (_ && _); [done|]. simpl.
    by destruct (heap c0 !! i) as [[]|]. }
  assert (∀ keep c, modes (deselectAll keep c) = modes c
                    ∧ pointer (deselectAll keep c) = pointer c) as Hall.
  { intros keep c0. unfold deselectAll. destruct (graph c0) as [g|]; [|done].
    assert (∀ l was c1,
              modes (foldl (λ '(c, wasSelected) s,
                              if decide (Some s = keep) then (c, Some s)
                              else (write_selected s false
                                      (emit (E_onDeselected s) c),
                                    wasSelected)) (c1, was) l).1 = modes c1
              ∧ pointer (foldl (λ '(c, wasSelected) s,
                                  if decide (Some s = keep) then (c, Some s)
                                  else (write_selected s false
                                          (emit (E_onDeselected s) c),
                                        wasSelected)) (c1, was) l).1
                = pointer c1) as Hloop.
    { induction l as [|s l IH]; intros was c1; cbn [foldl]; [done|].
      destruct (decide (Some s = keep)); [apply IH|].
      destruct (IH was (write_selected s false (emit (E_onDeselected s) c1)))
        as [-> ->]. done. }
    unfold deselectAll_loop.
    specialize (Hloop (selectedItems (sel c0)) None c0).
    destruct (foldl _ _ _) as [c1 was]. simpl in Hloop.
    destruct Hloop as [Hm Hp].
    destruct (keep ≫= _) as [[n| |]|]; try (by rewrite <- Hm, <- Hp).
    destruct (_ ≫= _) as [[o oid]|]; by rewrite <- Hm, <- Hp. }
  unfold processSelect. destruct item as [item|].
  - destruct (_ || _).
    + destruct (negb _); simpl.
      * destruct (Hsel item (deselectAll (Some item) c)) as [-> ->].
        apply Hall.
      * apply Hsel.
    + destruct (_ && _); [simpl; apply Hdes|].
      destruct (negb sticky); [simpl; apply Hall | done].
  - destruct (_ || _); simpl; [apply Hall | done].
Qed.




Section GestureTraces.
Context (cfg : Config) (W : Collaborators) (M : Measure).













(** What [pointer.up] answers is whether the drag had not started. *)
Lemma pointer_up_isClick e c b c1 :
  pointer_up cfg W M e c = Some (b, c1) → b = negb (dragStarted (pointer c)).
Proof.
  unfold pointer_up. intros H.
  apply bind_Some in H as (c2 & _ & H).
  apply bind_Some in H as (c3 & _ & H). by injection H as <- _.
Qed.




End GestureTraces.

(** ** The click hook that a press installs *)


Section PressHooks.
Context (cfg : Config) (W : Collaborators) (M : Measure).










End PressHooks.

(** ** C10: a release classified as a click *)

Section ClickRelease.
Context (cfg : Config) (W : Collaborators) (M : Measure).


End ClickRelease.

Section PressOnSlot.
Context (cfg : Config) (W : Collaborators) (M : Measure).

End PressOnSlot.




(** ** C2: releasing a connection drag *)

Section ConnectionRelease.
Context (cfg : Config) (W : Collaborators) (M : Measure).

Lemma processMouseUp_drag_release e c c1 :
  isPrimary e = true → is_Some (graph c) →
  pointer_up cfg W M e c = Some (false, c1) → button e = 0 →
  processMouseUp cfg W M e c
  = let c2 := upd_modes (set_isDragging false)
                (upd_modes (set_selected_group None)
                   (set_block_click false
                      (set_last_click_position None
                         (set_last_mouse_dragging false c1)))) in
    Some
      (emit E_graph_change
         (upd_pointer (set_isDouble false)
            (upd_pointer (set_isDown false)
               (upd_modes (set_connecting_links None)
                  (releaseConnectingLinks cfg W M e
                     (r ← getNodeOnPos W (canvasX e) (canvasY e);
                      as_node c2 r)
                     c2))))).
Proof.
  intros Hp [g Hg] Hup Hb. unfold processMouseUp.
  rewrite Hp, Hg, Hup, Hb. cbn [negb mbind option_bind].
  by rewrite bool_decide_eq_true_2.
Qed.

Lemma releaseLinkOverNode_output x y node n c l out :
  cl_output l = Some out →
  let slot := isOverNodeInput W M node n x y in
  releaseLinkOverNode W M x y node n c l
  = if negb (bool_decide (slot = -1)) then
      emit (E_connect (cl_node l) (cl_slot l) node slot (cl_afterRerouteId l))
        (dirty c)
    else
      match link_over_widget (modes c) with
      | Some widget =>
          upd_modes (set_link_over_widget None)
            (emitEvent (Ev_connectingWidgetLink l node widget) (dirty c))
      | None =>
          emit (E_connectByType (cl_node l) (cl_slot l) node (out_type out)
                  (cl_afterRerouteId l)) (dirty c)
      end.
Proof. intros H slot. unfold releaseLinkOverNode. by rewrite H. Qed.

Lemma releaseLinkOverNode_input x y node n c l inp :
  cl_output l = None → cl_input l = Some inp →
  let slot := isOverNodeOutput W M node n x y in
  releaseLinkOverNode W M x y node n c l
  = if negb (bool_decide (slot = -1)) then
      emit (E_connect node slot (cl_node l) (cl_slot l) (cl_afterRerouteId l))
        (dirty c)
    else
      emit (E_connectByTypeOutput (cl_node l) (cl_slot l) node (in_type inp)
              (cl_afterRerouteId l)) (dirty c).
Proof. intros H1 H2 slot. unfold releaseLinkOverNode. by rewrite H1, H2. Qed.
End ConnectionRelease.

(** C2, as the code has it.  A primary-button release that ends a drag runs
    the release block on [connecting_links] and then sets it to null.  With a
    node under the pointer every link goes through the loop body: a link
    dragged from an output is connected to the input slot under the pointer;
    failing that, with [link_over_widget] set, a [connectingWidgetLink] event
    is emitted, [link_over_widget] is reset and nothing is connected; failing
    that, [connectByType] is called.  A link dragged from an input is
    connected from the output slot under the pointer, and otherwise goes to
    [connectByTypeOutput], whatever [link_over_widget] holds.  With no node
    under the pointer and an end on the first link, an [empty-release] event
    is emitted and no call commits a connection. *)
Theorem connection_release
    (cfg : Config) (W : Collaborators) (M : Measure) :
  (∀ e c c1,
     isPrimary e = true → is_Some (graph c) →
     pointer_up cfg W M e c = Some (false, c1) → button e = 0 →
     ∃ c2, trace c2 = trace c1 ∧ heap c2 = heap c1
           ∧ connecting_links (modes c2) = connecting_links (modes c1)
           ∧ link_over_widget (modes c2) = link_over_widget (modes c1)
           ∧ let node :=
               r ← getNodeOnPos W (canvasX e) (canvasY e); as_node c1 r in
             ∃ c', processMouseUp cfg W M e c = Some c'
                   ∧ trace c'
                     = trace (releaseConnectingLinks cfg W M e node c2)
                       ++ [E_graph_change]
                   ∧ connecting_links (modes c') = None)
  ∧ (∀ e node n c first others,
       connecting_links (modes c) = Some (first :: others) →
       releaseConnectingLinks cfg W M e (Some (node, n)) c
       = foldl (releaseLinkOverNode W M (canvasX e) (canvasY e) node n) c
           (first :: others))
  ∧ (∀ x y node n c l out,
       cl_output l = Some out →
       let slot := isOverNodeInput W M node n x y in
       let c' := releaseLinkOverNode W M x y node n c l in
       (slot ≠ -1 →
        trace c' = trace c ++ [E_connect (cl_node l) (cl_slot l) node slot
                                 (cl_afterRerouteId l)])
       ∧ (∀ widget, slot = -1 → link_over_widget (modes c) = Some widget →
          trace c' = trace c
                     ++ [E_emitEvent (Ev_connectingWidgetLink l node widget)]
          ∧ link_over_widget (modes c') = None)
       ∧ (slot = -1 → link_over_widget (modes c) = None →
          trace c' = trace c ++ [E_connectByType (cl_node l) (cl_slot l) node
                                   (out_type out) (cl_afterRerouteId l)]))
  ∧ (∀ x y node n c l inp,
       cl_output l = None → cl_input l = Some inp →
       let slot := isOverNodeOutput W M node n x y in
       let c' := releaseLinkOverNode W M x y node n c l in
       (slot ≠ -1 →
        trace c' = trace c ++ [E_connect node slot (cl_node l) (cl_slot l)
                                 (cl_afterRerouteId l)])
       ∧ (slot = -1 →
          trace c' = trace c
                     ++ [E_connectByTypeOutput (cl_node l) (cl_slot l) node
                           (in_type inp) (cl_afterRerouteId l)]))
  ∧ (∀ e c first others,
       connecting_links (modes c) = Some (first :: others) →
       is_Some (cl_input first) ∨ is_Some (cl_output first) →
       let c' := releaseConnectingLinks cfg W M e None c in
       ∃ menu, trace c'
               = trace c ++ E_emitEvent (Ev_empty_release (first :: others))
                            :: menu
               ∧ Forall (λ ef, commits_connection ef = false) menu).
Proof.
  split; [|split; [|split; [|split]]].
  - intros e c c1 Hp Hg Hup Hb.
    eexists (upd_modes (set_isDragging false)
               (upd_modes (set_selected_group None)
                  (set_block_click false
                     (set_last_click_position None
                        (set_last_mouse_dragging false c1))))).
    repeat (split; [done|]).
    rewrite (processMouseUp_drag_release cfg W M e c c1 Hp Hg Hup Hb).
    eexists. split; [reflexivity|]. split; done.
  - intros e node n c first others H. unfold releaseConnectingLinks.
    by rewrite H.
  - intros x y node n c l out Ho slot c'. unfold c'.
    rewrite (releaseLinkOverNode_output W M x y node n c l out Ho).
    fold slot. split; [|split].
    + intros Hs. by rewrite bool_decide_eq_false_2.
    + intros w Hs Hw. rewrite bool_decide_eq_true_2 by done. simpl.
      by rewrite Hw.
    + intros Hs Hw. rewrite bool_decide_eq_true_2 by done. simpl.
      by rewrite Hw.
  - intros x y node n c l inp Ho Hi slot c'. unfold c'.
    rewrite (releaseLinkOverNode_input W M x y node n c l inp Ho Hi).
    fold slot. split.
    + intros Hs. by rewrite bool_decide_eq_false_2.
    + intros Hs. by rewrite bool_decide_eq_true_2.
  - intros e c first others Hl Hends c'. unfold c', releaseConnectingLinks.
    rewrite Hl.
    assert (bool_decide (is_Some (cl_input first))
            || bool_decide (is_Some (cl_output first)) = true) as ->.
    { apply orb_true_iff. destruct Hends; [left|right];
        by apply bool_decide_eq_true. }
    destruct (release_link_on_empty_shows_menu cfg).
    + destruct (shiftKey e).
      * destruct (allow_searchbox cfg).
        -- exists [E_showSearchBox]. split; [|by repeat constructor].
           simpl. by rewrite <- app_assoc.
        -- exists []. split; [done|constructor].
      * exists [E_showConnectionMenu]. split; [|by repeat constructor].
        simpl. by rewrite <- app_assoc.
    + exists []. split; [done|constructor].
Qed.

Lemma connection_release_witness :
  let up := example_event_at 30 30 0 false false false in
  ∃ c', processMouseUp example_config example_collaborators measure up
          example_dragging_from_input = Some c'
        ∧ connecting_links (modes c') = None
        ∧ trace c' = [E_connectByTypeOutput 2%positive 0 1%positive "number"
                        None; E_graph_change].
Proof.
  intros up.
  assert (is_Some (graph example_dragging_from_input)) as Hg by (by eexists).
  destruct (pointer_up example_config example_collaborators measure up
              example_dragging_from_input) as [[[] c1]|] eqn:Eup;
    try (vm_compute in Eup; discriminate Eup).
  destruct (proj1 (connection_release example_config example_collaborators
                     measure)
              up example_dragging_from_input c1 eq_refl Hg Eup eq_refl)
    as (c2 & _ & _ & _ & _ & c' & Hup & _ & Hnull).
  exists c'. split; [exact Hup|]. split; [exact Hnull|].
  vm_compute in Hup. injection Hup as <-. vm_compute. reflexivity.
Defined.

(** The claim of C2 read on a link dragged from an input: with a node under
    the pointer, no slot under it and [link_over_widget] set, the release
    calls [connectByTypeOutput] and emits no event. *)
Lemma connection_release_widget_counterexample :
  let up := example_event_at 30 30 0 false false false in
  let c := example_dragging_from_input in
  (r ← getNodeOnPos example_collaborators (canvasX up) (canvasY up);
   as_node c r) = Some (1%positive, example_node_a)
  ∧ isOverNodeOutput example_collaborators measure 1%positive example_node_a
      (canvasX up) (canvasY up) = -1
  ∧ link_over_widget (modes c) = Some example_widget
  ∧ ∃ c', processMouseUp example_config example_collaborators measure up c
          = Some c'
          ∧ trace c' = [E_connectByTypeOutput 2%positive 0 1%positive
                          "number" None; E_graph_change]
          ∧ ¬ (∃ l n w,
                 E_emitEvent (Ev_connectingWidgetLink l n w) ∈ trace c').
Proof.
  intros up c.
  split; [vm_compute; reflexivity|]. split; [vm_compute; reflexivity|].
  split; [vm_compute; reflexivity|].
  destruct (processMouseUp example_config example_collaborators measure up c)
    as [c'|] eqn:E; [|vm_compute in E; discriminate E].
  exists c'. split; [reflexivity|].
  assert (trace c' = [E_connectByTypeOutput 2%positive 0 1%positive "number"
                        None; E_graph_change]) as Ht.
  { vm_compute in E. injection E as <-. vm_compute. reflexivity. }
  split; [exact Ht|].
  intros (l & n & w & Hin). rewrite Ht in Hin.
  apply elem_of_cons in Hin as [Hin|Hin]; [discriminate Hin|].
  apply elem_of_cons in Hin as [Hin|Hin]; [discriminate Hin|].
  by apply elem_of_nil in Hin.
Qed.

(** ** C6: a plain press on a rendered link *)


(** Without shift or alt the loop over the rendered paths never consults the
    stroke of a path: it stops at the first segment whose centre box holds
    the pointer. *)
Lemma processLinkSegments_plain cfg W M e dpi segments c :
  shiftKey e = false → altKey e = false →
  processLinkSegments cfg W M e dpi segments c
  = match List.find (centre_hit M e) segments with
    | Some segment =>
        Returned
          (upd_modes (set_over_link_center None)
             (upd_pointer (set_finally (Some Fin_dragging_canvas))
                (upd_pointer (set_onDragStart (Some DS_dragging_canvas))
                   (upd_pointer
                      (set_onClick (Some (Click_showLinkMenu segment))) c))))
    | None => Completed c
    end.
Proof.
  intros Hs Ha. induction segments as [|s segments IH]; [done|].
  cbn [processLinkSegments List.find]. unfold centre_hit at 1.
  destruct (_pos s) as [centre|]; [|exact IH].
  rewrite Hs, Ha. cbn [orb andb].
  destruct (isInRectangle M _ _ _ _ _ _); [done|exact IH].
Qed.

Section LinkPress.
Context (cfg : Config) (W : Collaborators) (M : Measure).

(** The answers of [isPointInStroke] do not matter to a press with no
    modifier key outside every node. *)
Lemma processPrimaryButton_plain_stroke f e c :
  shiftKey e = false → altKey e = false →
  processPrimaryButton cfg (with_isPointInStroke f W) M e None c
  = processPrimaryButton cfg W M e None c.
Proof.
  intros Hs Ha. unfold processPrimaryButton, canvasPress.
  rewrite !processLinkSegments_plain by done. reflexivity.
Qed.

(** Such a press, outside every reroute as well, on the centre box of a
    rendered link. *)
Lemma processPrimaryButton_plain_hit e c segment :
  shiftKey e = false → altKey e = false →
  ctrlKey e = false → metaKey e = false →
  read_only cfg = false →
  (if reroutesEnabled cfg
   then r ← getRerouteOnPos W (canvasX e) (canvasY e); as_reroute c r
   else None) = None →
  List.find (centre_hit M e) (renderedPaths c) = Some segment →
  processPrimaryButton cfg W M e None c
  = upd_modes (set_over_link_center None)
      (upd_pointer (set_finally (Some Fin_dragging_canvas))
         (upd_pointer (set_onDragStart (Some DS_dragging_canvas))
            (upd_pointer
               (set_onClick (Some (Click_showLinkMenu segment)))
               (set_ctx_lineWidth (connections_width cfg + 7)%float c)))).
Proof.
  intros Hs Ha Hc Hm Hro Hrr Hfind. unfold processPrimaryButton, canvasPress.
  rewrite Hc, Hm, Hro, Ha. cbn [orb andb negb].
  rewrite !andb_false_r. cbn [mbind option_bind]. rewrite Hrr.
  rewrite processLinkSegments_plain by done.
  change (renderedPaths (set_ctx_lineWidth (connections_width cfg + 7)%float c))
    with (renderedPaths c).
  by rewrite Hfind.
Qed.

(** Such a press away from every centre box. *)
Lemma processPrimaryButton_plain_miss e c :
  shiftKey e = false → altKey e = false →
  ctrlKey e = false → metaKey e = false →
  read_only cfg = false →
  (if reroutesEnabled cfg
   then r ← getRerouteOnPos W (canvasX e) (canvasY e); as_reroute c r
   else None) = None →
  List.find (centre_hit M e) (renderedPaths c) = None →
  no_hooks (pointer c) →
  let c' := processPrimaryButton cfg W M e None c in
  (∀ segment, onClick (pointer c') ≠ Some (Click_showLinkMenu segment))
  ∧ ((r ← getGroupOnPos W (canvasX e) (canvasY e); as_group c r) = None →
     allow_dragcanvas cfg = true →
     onClick (pointer c') = Some (Click_processSelect None e)
     ∧ finally (pointer c') = Some Fin_dragging_canvas
     ∧ dragging_canvas (modes c') = true).
Proof.
  intros Hs Ha Hc Hm Hro Hrr Hfind (H1 & H2 & H3 & H4 & H5 & H6) c'.
  unfold c', processPrimaryButton, canvasPress, groupPress.
  rewrite Hc, Hm, Hro, Ha. cbn [orb andb negb].
  rewrite !andb_false_r. cbn [mbind option_bind]. rewrite Hrr.
  rewrite processLinkSegments_plain by done.
  change (renderedPaths (set_ctx_lineWidth (connections_width cfg + 7)%float c))
    with (renderedPaths c).
  rewrite Hfind.
  cbn [andb]. unfold panFallback.
  change (λ r, as_group (set_ctx_lineWidth (ctx_lineWidth c)
                           (set_ctx_lineWidth (connections_width cfg + 7)%float
                              c)) r)
    with (λ r, as_group c r).
  destruct (getGroupOnPos W (canvasX e) (canvasY e) ≫= λ r, as_group c r)
    as [[group g]|].
  - split; [|by intros ?].
    intros segment.
    destruct (group_isInResize W group (canvasX e) (canvasY e)).
    + simpl. rewrite H1. done.
    + destruct (isInRectangle M _ _ _ _ _ _).
      * simpl. done.
      * simpl. rewrite H1, H3, H4. simpl.
        destruct (allow_dragcanvas cfg); simpl; [done|by rewrite H1].
  - simpl. rewrite H1, H3, H4. simpl. split.
    + intros segment. destruct (allow_dragcanvas cfg); simpl;
        [done|by rewrite H1].
    + intros _ ->. done.
Qed.
End LinkPress.

(** C6, as the code has it, for a primary-button press with no modifier key.
    On a read-only canvas the press only starts the canvas pan, on a node or
    off it: [finally] becomes the hook that ends the pan, [dragging_canvas]
    is set, and no hook for a link is installed.  On a canvas that is not
    read-only, for a press outside every node and reroute: the answers of
    [isPointInStroke] do not enter the result; the first rendered link whose
    cached centre has the pointer in the 8 by 8 box round it gets the
    link-menu click action, together with the canvas-drag hooks, and no pan
    has started; when no centre box holds the pointer and no pointer hook
    was installed before, no link-menu action is installed and, with no
    group under the pointer and [allow_dragcanvas] on, the press falls
    through to the canvas pan. *)
Theorem link_press_uses_centre_box
    (cfg : Config) (W : Collaborators) (M : Measure)
    (e : CanvasPointerEvent) (c : LGraphCanvas)
    (Hshift : shiftKey e = false) (Halt : altKey e = false)
    (Hctrl : ctrlKey e = false) (Hmeta : metaKey e = false) :
  (read_only cfg = true →
   ∀ node,
     processPrimaryButton cfg W M e node c
     = upd_modes (set_dragging_canvas true)
         (upd_pointer (set_finally (Some Fin_dragging_canvas)) c))
  ∧ (read_only cfg = false →
     (if reroutesEnabled cfg
      then r ← getRerouteOnPos W (canvasX e) (canvasY e); as_reroute c r
      else None) = None →
     (∀ f, processPrimaryButton cfg (with_isPointInStroke f W) M e None c
           = processPrimaryButton cfg W M e None c)
     ∧ (∀ segment,
          List.find (centre_hit M e) (renderedPaths c) = Some segment →
          let c' := processPrimaryButton cfg W M e None c in
          onClick (pointer c') = Some (Click_showLinkMenu segment)
          ∧ onDragStart (pointer c') = Some DS_dragging_canvas
          ∧ finally (pointer c') = Some Fin_dragging_canvas
          ∧ dragging_canvas (modes c') = dragging_canvas (modes c))
     ∧ (List.find (centre_hit M e) (renderedPaths c) = None →
        no_hooks (pointer c) →
        let c' := processPrimaryButton cfg W M e None c in
        (∀ segment, onClick (pointer c') ≠ Some (Click_showLinkMenu segment))
        ∧ ((r ← getGroupOnPos W (canvasX e) (canvasY e); as_group c r) = None →
           allow_dragcanvas cfg = true →
           onClick (pointer c') = Some (Click_processSelect None e)
           ∧ finally (pointer c') = Some Fin_dragging_canvas
           ∧ dragging_canvas (modes c') = true))).
Proof.
  split.
  { intros Hro node. unfold processPrimaryButton.
    by rewrite Hctrl, Hmeta, Hro. }
  intros Hro Hreroute. split; [|split].
  - intros f. by apply processPrimaryButton_plain_stroke.
  - intros segment Hfind c'. unfold c'.
    by rewrite (processPrimaryButton_plain_hit cfg W M e c segment).
  - intros Hfind Hhooks. by apply processPrimaryButton_plain_miss.
Qed.

Lemma link_press_uses_centre_box_witness :
  let down := example_event_at 200 300 0 false false false in
  let c' := processPrimaryButton example_config example_collaborators measure
              down None example_canvas_with_link in
  onClick (pointer c') = Some (Click_showLinkMenu example_segment)
  ∧ dragging_canvas (modes c') = false.
Proof.
  intros down c'.
  destruct (link_press_uses_centre_box example_config example_collaborators
              measure down example_canvas_with_link
              eq_refl eq_refl eq_refl eq_refl)
    as (_ & Hrw).
  destruct (Hrw eq_refl eq_refl) as (_ & Hhit & _).
  destruct (Hhit example_segment eq_refl) as (H1 & _ & _ & H4).
  exact (conj H1 H4).
Defined.

(** The claim of C6 at a point of the stroke away from the centre: the
    pointer is within the stroke width of the cached path, and the press
    pans the canvas. *)
Lemma link_press_on_stroke_counterexample :
  let down := example_event_at 50 300 0 false false false in
  let c' := processMouseDown example_config example_collaborators measure
              false down example_canvas_with_link in
  isPointInStroke example_collaborators
    (connections_width example_config + 7)%float
    [MoveTo 0 300; LineTo 400 300] (50 * 1)%float (300 * 1)%float = true
  ∧ onClick (pointer c') = Some (Click_processSelect None down)
  ∧ finally (pointer c') = Some Fin_dragging_canvas
  ∧ dragging_canvas (modes c') = true.
Proof. vm_compute. repeat split; reflexivity. Qed.

(** ** C1: cancelling a gesture *)

(** Closes the goals of a block of a press handler: the hooks and flags of
    the result are read off the setters. *)
Ltac press_block Hm Hf Hd :=
  unfold press_done, drag_start_ready, modes_idle in *;
  destruct Hm as (?M1 & ?M2 & ?M3 & ?M4 & ?M5);
  split_state; simpl; rewrite ?Hf, ?Hd; simpl;
  repeat split; intros; eauto; try discriminate.

Lemma guarded_of_idle c : modes_idle (modes c) → guarded c.
Proof.
  intros (H1 & H2 & H3 & H4 & H5). unfold guarded, modes_idle.
  destruct (finally (pointer c)) as [[]|]; auto.
Qed.

Lemma gesture_ok_of_done c : press_done c → gesture_ok c.
Proof. intros [H1 H2]. split; [by apply guarded_of_idle | done]. Qed.

Section PressInvariant.
Context (cfg : Config) (W : Collaborators) (M : Measure).

Lemma processWidgetClick_ok e node widget c :
  press_start c →
  let c' := processWidgetClick e node widget c in
  modes_idle (modes c') ∧ onDragStart (pointer c') = None.
Proof.
  intros (Hm & Hf & Hd) c'. unfold c', processWidgetClick, modes_idle in *.
  destruct Hm as (M1 & M2 & M3 & M4 & M5).
  split_state; auto 6.
Qed.

Lemma nodeInsideClick_ok e node n inCollapse c :
  press_start c → press_done (nodeInsideClick cfg W e node n inCollapse c).
Proof.
  intros Hs. unfold nodeInsideClick.
  destruct (getWidgetOnPos W node (canvasX e) (canvasY e)) as [widget|].
  - destruct (processWidgetClick_ok e node widget c Hs) as [Hm Hd].
    split; [exact Hm|]. unfold drag_start_ready. simpl. by rewrite Hd.
  - destruct Hs as (Hm & Hf & Hd). press_block Hm Hf Hd.
Qed.

Lemma nodeResizeClick_ok node c :
  press_start c → press_done (nodeResizeClick node c).
Proof.
  intros (Hm & Hf & Hd). unfold nodeResizeClick. press_block Hm Hf Hd.
Qed.

Lemma nodeOutputClick_ok e ctrlOrMeta node n i output link_pos c :
  press_start c →
  press_done (nodeOutputClick cfg W e ctrlOrMeta node n i output link_pos c).
Proof.
  intros (Hm & Hf & Hd). unfold nodeOutputClick. press_block Hm Hf Hd.
Qed.

Lemma nodeInputClick_ok e ctrlOrMeta node i input link_pos c :
  press_start c →
  press_done (nodeInputClick cfg W e ctrlOrMeta node i input link_pos c).
Proof.
  intros (Hm & Hf & Hd). unfold nodeInputClick. press_block Hm Hf Hd.
Qed.
Lemma nodeInsideClick_onClick e node n inCollapse c :
  is_Some (onClick (pointer c)) →
  is_Some (onClick (pointer (nodeInsideClick cfg W e node n inCollapse c))).
Proof.
  intros H. unfold nodeInsideClick, processWidgetClick. split_state; eauto.
Qed.

Lemma nodeResizeClick_onClick node c :
  is_Some (onClick (pointer c)) →
  is_Some (onClick (pointer (nodeResizeClick node c))).
Proof. intros H. exact H. Qed.

Lemma nodeOutputClick_onClick e ctrlOrMeta node n i output link_pos c :
  is_Some (onClick (pointer c)) →
  is_Some (onClick (pointer (nodeOutputClick cfg W e ctrlOrMeta node n i
                               output link_pos c))).
Proof. intros H. unfold nodeOutputClick. split_state; eauto. Qed.

Lemma nodeInputClick_onClick e ctrlOrMeta node i input link_pos c :
  is_Some (onClick (pointer c)) →
  is_Some (onClick (pointer (nodeInputClick cfg W e ctrlOrMeta node i input
                               link_pos c))).
Proof. intros H. unfold nodeInputClick. split_state; eauto. Qed.

Lemma processNodeClick_ok e ctrlOrMeta node n c :
  press_start c →
  let c' := processNodeClick cfg W M e ctrlOrMeta node n c in
  press_done c' ∧ is_Some (onClick (pointer c')).
Proof.
  intros (Hm & Hf & Hd) c'. unfold c', processNodeClick.
  set (c0 := if negb (flags_pinned n) then _ else _).
  assert (press_start c0 ∧ is_Some (onClick (pointer c0))) as [Hs0 Hc0].
  { unfold c0, press_start, bringToFront. destruct (negb (flags_pinned n));
      simpl; eauto. }
  clearbody c0.
  assert (press_start (upd_pointer (set_onClick (Some (Click_collapse node))) c0)
          ∧ is_Some (onClick (pointer (upd_pointer
                                         (set_onClick (Some (Click_collapse node)))
                                         c0)))) as [Hs1 Hc1].
  { split; [exact Hs0 | by eexists]. }
  destruct (isPointInCollapse W node (canvasX e) (canvasY e)).
  { split; [by apply nodeInsideClick_ok | by apply nodeInsideClick_onClick]. }
  destruct (negb (flags_collapsed n)).
  2:{ split; [by apply nodeInsideClick_ok | by apply nodeInsideClick_onClick]. }
  destruct (node_resizable n && inResizeCorner W node (canvasX e) (canvasY e)).
  { split; [by apply nodeResizeClick_ok | by apply nodeResizeClick_onClick]. }
  destruct (outputs n ≫= _) as [[[i output] link_pos]|].
  { split; [by apply nodeOutputClick_ok | by apply nodeOutputClick_onClick]. }
  destruct (inputs n ≫= _) as [[[i input] link_pos]|].
  { split; [by apply nodeInputClick_ok | by apply nodeInputClick_onClick]. }
  split; [by apply nodeInsideClick_ok | by apply nodeInsideClick_onClick].
Qed.

Lemma multiSelectPress_ok e node c :
  press_start c → press_done (multiSelectPress e node c).
Proof.
  intros (Hm & Hf & Hd). unfold multiSelectPress. press_block Hm Hf Hd.
Qed.

Lemma clonePress_ok cloned cn c :
  press_start c → press_done (clonePress cfg cloned cn c).
Proof. intros (Hm & Hf & Hd). unfold clonePress. press_block Hm Hf Hd. Qed.

Lemma reroutePress_ok e reroute rr c :
  press_start c → press_done (reroutePress W e reroute rr c).
Proof. intros (Hm & Hf & Hd). unfold reroutePress. press_block Hm Hf Hd. Qed.

Lemma groupPress_ok e group c :
  press_start c → press_done (groupPress cfg W M e group c).
Proof. intros (Hm & Hf & Hd). unfold groupPress. press_block Hm Hf Hd. Qed.

Lemma processLinkSegments_ok e dpi segments c :
  press_start c →
  match processLinkSegments cfg W M e dpi segments c with
  | Returned c' => press_done c'
  | Completed c' => c' = c
  end.
Proof.
  intros (Hm & Hf & Hd).
  induction segments as [|s segments IH]; [done|].
  cbn [processLinkSegments].
  destruct (_pos s) as [centre|]; [|exact IH].
  destruct (_ && _).
  - destruct (shiftKey e && negb (altKey e)).
    { press_block Hm Hf Hd. }
    destruct (reroutesEnabled cfg && altKey e && negb (shiftKey e)); [|exact IH].
    destruct (createReroute W _ s) as [newReroute rr].
    press_block Hm Hf Hd.
  - destruct (isInRectangle M _ _ _ _ _ _); [|exact IH].
    press_block Hm Hf Hd.
Qed.

Lemma panFallback_ok e c : press_done c → gesture_ok (panFallback cfg e c).
Proof.
  intros Hdone. unfold panFallback.
  destruct (_ && _) eqn:Hcond; [|by apply gesture_ok_of_done].
  destruct Hdone as [(M1 & M2 & M3 & M4 & M5) _].
  split; [by repeat split|].
  unfold drag_start_ready. simpl.
  apply andb_true_iff in Hcond as [Hcond _].
  apply andb_true_iff in Hcond as [Hcond _].
  apply andb_true_iff in Hcond as [Hcond _].
  apply negb_true_iff, bool_decide_eq_false in Hcond.
  destruct (onDragStart (pointer c)); [|done].
  exfalso. apply Hcond. by eexists.
Qed.

Lemma canvasPress_ok e c : press_start c → gesture_ok (canvasPress cfg W M e c).
Proof.
  intros Hs. unfold canvasPress.
  destruct (if reroutesEnabled cfg then _ else _) as [[reroute rr]|].
  { by apply gesture_ok_of_done, reroutePress_ok. }
  match goal with
  | |- context [processLinkSegments cfg W M e ?dpi ?segs ?c0] =>
      pose proof (processLinkSegments_ok e dpi segs c0) as Hloop;
      destruct (processLinkSegments cfg W M e dpi segs c0) as [c1|c1]
  end.
  - apply gesture_ok_of_done, Hloop. exact Hs.
  - rewrite Hloop by exact Hs. apply panFallback_ok, groupPress_ok. exact Hs.
Qed.

Lemma processPrimaryButton_ok e node c :
  press_start c → gesture_ok (processPrimaryButton cfg W M e node c).
Proof.
  intros Hs. unfold processPrimaryButton.
  destruct (_ && _).
  { by apply gesture_ok_of_done, multiSelectPress_ok. }
  destruct (read_only cfg).
  { destruct Hs as ((M1 & M2 & M3 & M4 & M5) & Hf & Hd).
    split; [by repeat split|]. unfold drag_start_ready. simpl. by rewrite Hd. }
  destruct (if _ && _ then _ else _) as [[cloned cn]|].
  { by apply gesture_ok_of_done, clonePress_ok. }
  destruct node as [[node n]|]; [|by apply canvasPress_ok].
  destruct (_ || _); [|by apply canvasPress_ok].
  apply panFallback_ok, processNodeClick_ok. exact Hs.
Qed.

Lemma processMiddleButton_ok e node c :
  press_start c → gesture_ok (processMiddleButton cfg W M e node c).
Proof.
  intros (Hm & Hf & Hd). unfold processMiddleButton.
  apply gesture_ok_of_done. press_block Hm Hf Hd.
Qed.
End PressInvariant.

(** ** A gesture that is cancelled *)

Section Cancel.
Context (cfg : Config) (W : Collaborators) (M : Measure).

Lemma pointer_down_start ww e c :
  modes_idle (modes c) → press_start (pointer_down ww e c).
Proof. intros Hm. by split. Qed.

Lemma processMouseDown_ok ww e c :
  isPrimary e = true → modes_idle (modes c) →
  gesture_ok (processMouseDown cfg W M ww e c).
Proof.
  intros He Hm. unfold processMouseDown. rewrite He.
  pose proof (pointer_down_start ww e c Hm) as Hs.
  set (c0 := if set_canvas_dirty_on_mouse_event cfg then _ else _).
  assert (press_start c0) as Hs0.
  { unfold c0. by destruct (set_canvas_dirty_on_mouse_event cfg). }
  assert (∀ c1, press_start c1 → gesture_ok c1) as Hidle.
  { intros c1 (H1 & H2 & H3). apply gesture_ok_of_done. split; [done|].
    intros _. by rewrite H3. }
  clearbody c0. clear Hs.
  destruct (graph c0) as [g|]; [|by apply Hidle].
  destruct (negb _); [by apply Hidle|].
  match goal with
  | |- context [emit (E_call "onMouse") ?c] =>
      set (c1 := emit (E_call "onMouse") c)
  end.
  assert (press_start c1) as Hs1 by exact Hs0.
  clearbody c1.
  destruct (canvas_onMouse W e); [by apply Hidle|].
  assert (∀ c2, gesture_ok c2 →
            gesture_ok (emit (E_call "onMouseDown")
                          (emit E_graph_change
                             (set_last_mouse_dragging true c2)))) as Htail.
  { intros c2 H. exact H. }
  apply Htail.
  destruct (_ && negb _).
  { by apply processPrimaryButton_ok. }
  destruct (bool_decide (button e = 1)).
  { by apply processMiddleButton_ok. }
  destruct (_ && _); [|by apply Hidle].
  destruct (r ← _; _) as [[node n]|]; [|by apply Hidle].
  pose proof (processSelect_modes (multi_select cfg) (Some node) (Some e) true
                c1) as [Hmo Hpo].
  destruct Hs1 as (H1 & H2 & H3).
  apply Hidle.
  assert (press_start (processSelect (multi_select cfg) (Some node) (Some e)
                         true c1)) as Hps.
  { unfold press_start. by rewrite Hmo, Hpo. }
  exact Hps.
Qed.

Lemma startDraggingItems_guarded item sticky c :
  modes_idle (modes c) →
  let c' := startDraggingItems cfg item sticky c in
  guarded c' ∧ pointer c' = set_finally (Some Fin_isDragging) (pointer c).
Proof.
  intros (H1 & H2 & H3 & H4 & H5) c'. unfold c', startDraggingItems.
  match goal with
  | |- context [processSelect ?ms ?i ?ev ?st ?c0] =>
      pose proof (processSelect_modes ms i ev st c0) as [Hmo Hpo];
      set (c1 := processSelect ms i ev st c0) in *
  end.
  unfold guarded. simpl. rewrite Hpo, Hmo. simpl. done.
Qed.

Lemma guarded_ext c c' :
  isDragging (modes c') = isDragging (modes c) →
  dragging_canvas (modes c') = dragging_canvas (modes c) →
  resizingGroup (modes c') = resizingGroup (modes c) →
  resizing_node (modes c') = resizing_node (modes c) →
  dragging_rectangle (modes c') = dragging_rectangle (modes c) →
  finally (pointer c') = finally (pointer c) →
  guarded c → guarded c'.
Proof. unfold guarded, modes_idle. by intros -> -> -> -> -> ->. Qed.

Lemma guarded_dragStarted c :
  guarded c → guarded (upd_pointer (set_dragStarted true) c).
Proof. intros H. exact H. Qed.

Lemma guarded_connecting f c :
  guarded c → guarded (upd_modes (λ m, set_connecting_links (f m) m) c).
Proof. intros H. exact H. Qed.

Lemma run_dragStart_ok h c :
  gesture_ok c → dragStarted (pointer c) = false →
  onDragStart (pointer c) = Some h →
  guarded (upd_pointer (set_dragStarted true) (run_dragStart cfg h c)).
Proof.
  intros [Hg Hr] Hds Hh. specialize (Hr Hds). rewrite Hh in Hr.
  apply guarded_dragStarted.
  destruct h; unfold run_dragStart; cbv beta iota zeta.
  - revert Hg. unfold guarded. cbn [modes pointer upd_modes set_modes].
    rewrite Hr. cbn. tauto.
  - apply startDraggingItems_guarded. exact Hr.
  - unfold set_connecting_output. by apply guarded_connecting.
  - by apply startDraggingItems_guarded.
  - apply startDraggingItems_guarded. exact Hr.
  - revert Hg. unfold guarded. cbn [modes pointer upd_modes set_modes].
    rewrite Hr. unfold modes_idle. cbn. rewrite ?Hr. tauto.
  - revert Hg. unfold guarded. cbn [modes pointer upd_modes set_modes].
    rewrite Hr. unfold modes_idle. cbn. rewrite ?Hr. tauto.
  - revert Hg. unfold guarded. cbn [modes pointer upd_modes set_modes emit].
    rewrite Hr. unfold modes_idle. cbn. rewrite ?Hr. tauto.
  - unfold set_connecting_output.
    destruct (_ && _); by apply guarded_connecting.
  - unfold set_connecting_input. by apply guarded_connecting.
Qed.

Lemma run_drag_state h e c :
  modes (run_drag cfg W h e c) = modes c
  ∧ pointer (run_drag cfg W h e c) = pointer c.
Proof. destruct h; simpl; split_state; done. Qed.

Lemma pointer_move_ok exceeds e c :
  gesture_ok c → gesture_ok (pointer_move cfg W exceeds e c).
Proof.
  intros Hok. unfold pointer_move.
  set (c1 := if negb (dragStarted (pointer c)) && exceeds then _ else _).
  assert (gesture_ok c1) as Hok1.
  { unfold c1. destruct (dragStarted (pointer c)) eqn:Hds; simpl; [done|].
    destruct exceeds; [|done].
    split; [|by intros ?].
    destruct (onDragStart (pointer c)) as [h|] eqn:Hh.
    - by apply run_dragStart_ok.
    - apply Hok. }
  clearbody c1.
  destruct (dragStarted (pointer c1)); [|done].
  destruct (onDrag (pointer c1)) as [h|]; [|done].
  destruct (run_drag_state h e c1) as [Hmo Hpo].
  destruct Hok1 as [Hg Hr].
  unfold gesture_ok, guarded, drag_start_ready. by rewrite Hmo, Hpo.
Qed.

Lemma moves_ok (moves : list (bool * CanvasPointerEvent)) c :
  gesture_ok c →
  gesture_ok (foldl (λ s m, pointer_move cfg W m.1 m.2 s) c moves).
Proof.
  revert c. induction moves as [|m moves IH]; intros c Hok; [done|].
  simpl. by apply IH, pointer_move_ok.
Qed.

Lemma processMouseCancel_idle c c' :
  guarded c → processMouseCancel c = Some c' →
  modes_idle (modes c') ∧ pointer c' = idle_pointer
  ∧ connecting_links (modes c') = connecting_links (modes c).
Proof.
  intros Hg. unfold processMouseCancel, pointer_reset, guarded in *.
  destruct (finally (pointer c)) as [[]|]; simpl in *;
    unfold modes_idle in *; try (intros [= <-]; simpl; tauto).
  destruct (widget_mouse widget); simpl.
  - destruct (eUp (pointer c)); simpl; [|done]. intros [= <-]. simpl. tauto.
  - intros [= <-]. simpl. tauto.
Qed.

(** The only [finally] hook that throws is the one of a widget with a
    legacy [mouse] callback, which reads the position off [pointer.eUp]. *)
Lemma processMouseCancel_throws c :
  processMouseCancel c = None →
  ∃ node widget, finally (pointer c) = Some (Fin_widget node widget)
                 ∧ is_Some (widget_mouse widget)
                 ∧ eUp (pointer c) = None.
Proof.
  unfold processMouseCancel, pointer_reset.
  destruct (finally (pointer c)) as [[]|]; simpl; try done.
  destruct (widget_mouse widget) eqn:Hw; simpl; [|done].
  destruct (eUp (pointer c)) eqn:He; simpl; [done|]. intros _.
  exists node, widget. split; [done|]. split; [by eexists|done].
Qed.
End Cancel.

(** C1 (amended): a gesture is a press of the primary pointer in a state
    where none of [isDragging], [dragging_canvas], [resizingGroup],
    [resizing_node] and [dragging_rectangle] is on, followed by any number of
    pointer moves (each may or may not exceed the drag threshold).  When
    [processMouseCancel] is processed at any point of the gesture, the
    [finally] hook that the gesture installed is run on the way.  The cancel
    throws only when that hook is the one of a widget with a legacy [mouse]
    callback, which reads the null [pointer.eUp].  Otherwise the result is
    the state the hook leaves, with the pointer session reset: none of those
    five flags is on and no hook is left, while [connecting_links], which no
    [finally] hook clears, is what it was before the cancel. *)
Theorem cancel_runs_finally_and_clears_modes (cfg : Config)
    (W : Collaborators) (M : Measure) (within_window : bool)
    (e : CanvasPointerEvent) (moves : list (bool * CanvasPointerEvent))
    (c : LGraphCanvas) :
  isPrimary e = true →
  modes_idle (modes c) →
  let pressed := processMouseDown cfg W M within_window e c in
  let dragged := foldl (λ s m, pointer_move cfg W m.1 m.2 s) pressed moves in
  let cancelled := processMouseCancel dragged in
  (∀ h, finally (pointer dragged) = Some h →
        cancelled
        = (c1 ← run_finally h (upd_pointer (set_finally None) dragged);
           Some (set_pointer idle_pointer c1)))
  ∧ (cancelled = None →
     ∃ node widget,
       finally (pointer dragged) = Some (Fin_widget node widget)
       ∧ is_Some (widget_mouse widget) ∧ eUp (pointer dragged) = None)
  ∧ (∀ c', cancelled = Some c' →
           modes_idle (modes c')
           ∧ no_hooks (pointer c')
           ∧ dragStarted (pointer c') = false
           ∧ connecting_links (modes c') = connecting_links (modes dragged)).
Proof.
  intros He Hm pressed dragged cancelled.
  assert (gesture_ok dragged) as [Hg _].
  { apply moves_ok, processMouseDown_ok; done. }
  split; [|split].
  - intros h Hh. unfold cancelled, processMouseCancel, pointer_reset.
    by rewrite Hh.
  - apply processMouseCancel_throws.
  - intros c' Hc.
    destruct (processMouseCancel_idle dragged c' Hg Hc) as (Hidle & Hp & Hl).
    split; [exact Hidle|]. rewrite Hp. by repeat split.
Qed.

(** A press on the body of node 1 and a move past the threshold start a drag
    of the node: [isDragging] is on and its clean-up is installed.  The cancel
    turns the flag off. *)
Lemma cancel_runs_finally_and_clears_modes_witness :
  let e := example_event_at 30 35 0 false false false in
  let pressed := processMouseDown example_config example_collaborators measure
                   false e example_canvas in
  let dragged := pointer_move example_config example_collaborators true e
                   pressed in
  isDragging (modes dragged) = true
  ∧ finally (pointer dragged) = Some Fin_isDragging
  ∧ ∃ c', processMouseCancel dragged = Some c'
          ∧ modes_idle (modes c') ∧ no_hooks (pointer c').
Proof.
  intros e pressed dragged.
  split; [vm_compute; reflexivity|].
  split; [vm_compute; reflexivity|].
  assert (isPrimary e = true) as He by reflexivity.
  assert (modes_idle (modes example_canvas)) as Hm by (by vm_compute).
  destruct (cancel_runs_finally_and_clears_modes example_config
              example_collaborators measure false e [(true, e)]
              example_canvas He Hm) as (_ & _ & H3).
  destruct (processMouseCancel dragged) as [c'|] eqn:E;
    [|vm_compute in E; discriminate E].
  exists c'. split; [reflexivity|].
  destruct (H3 c') as (H4 & H5 & _).
  - etrans; [|exact E]. vm_compute. reflexivity.
  - split; [exact H4 | exact H5].
Defined.

(** The claim of C1 on a connection drag: a press on the output slot of
    node 1 and a move past the threshold.  The gesture is in progress and
    [connecting_links] is set; the press installs no [finally] hook for it,
    and after the cancel, which leaves no hook, it is still set. *)
Lemma cancel_leaves_connecting_links_counterexample :
  let e := example_event_at 55 20 0 false false false in
  let link := {| cl_node := 1%positive; cl_slot := 0; cl_input := None;
                 cl_output := Some {| out_links := Some [5];
                                      out_type := "number" |};
                 cl_pos := mkPoint 60 25;
                 cl_afterRerouteId := None; cl_direction := None |} in
  let pressed := processMouseDown example_config example_collaborators measure
                   false e example_canvas in
  let dragged := pointer_move example_config example_collaborators true e
                   pressed in
  modes_idle (modes example_canvas)
  ∧ connecting_links (modes dragged) = Some [link]
  ∧ dragStarted (pointer dragged) = true
  ∧ finally (pointer dragged) = None
  ∧ ∃ c', processMouseCancel dragged = Some c'
          ∧ no_hooks (pointer c')
          ∧ connecting_links (modes c') = Some [link].
Proof.
  intros e link pressed dragged.
  split; [by vm_compute|]. split; [vm_compute; reflexivity|].
  split; [vm_compute; reflexivity|]. split; [vm_compute; reflexivity|].
  eexists. split; [vm_compute; reflexivity|].
  split; [by vm_compute|]. vm_compute. reflexivity.
Qed.

(** ** The multi-select rectangle *)

(** C5 (amended): a primary press with ctrl or meta and without alt installs
    the rectangle drag, whose end runs [#handleMultiSelect].  On a canvas
    whose selection set and [selected] flags agree, the release classifies
    the nodes whose bounding rectangle overlaps the rectangle, the groups
    whose bounding rectangle lies wholly inside it and the reroutes whose
    centre point is inside it; with shift the selection becomes its union
    with these items, with alt (and no shift) it loses those of them, and
    with neither it becomes exactly these items.  The flags and the set agree
    afterwards. *)
Theorem multiselect_release_updates_selection (cfg : Config)
    (W : Collaborators) (M : Measure) (down e : CanvasPointerEvent)
    (node : option (Ref * LGraphNode)) (c0 c : LGraphCanvas) (g : LGraph) :
  graph c = Some g →
  selection_consistent c →
  let rect := normaliseDragRect (dragRect (modes c)) in
  let c' := run_dragEnd cfg M DE_handleMultiSelect e c in
  ((ctrlKey down || metaKey down) && negb (altKey down) = true →
   let p := pointer (processPrimaryButton cfg W M down node c0) in
   onDragStart p = Some DS_dragging_rectangle
   ∧ onDragEnd p = Some DE_handleMultiSelect
   ∧ finally p = Some Fin_dragging_rectangle)
  ∧ c' = handleMultiSelect M e c
  ∧ (shiftKey e = true →
     ∀ x, x ∈ selectedItems (sel c')
          ↔ x ∈ selectedItems (sel c) ∨ covered M g (heap c) rect x)
  ∧ (shiftKey e = false → altKey e = true →
     ∀ x, x ∈ selectedItems (sel c')
          ↔ x ∈ selectedItems (sel c) ∧ ¬ covered M g (heap c) rect x)
  ∧ (shiftKey e = false → altKey e = false →
     ∀ x, x ∈ selectedItems (sel c') ↔ covered M g (heap c) rect x)
  ∧ selection_consistent c'.
Proof.
  intros Hg Hcons rect c'.
  destruct (handleMultiSelect_spec M e c g Hg) as (H1 & H2 & H3 & H4).
  split; [|split; [reflexivity|]].
  - intros Hk. unfold processPrimaryButton. rewrite Hk. done.
  - split; [exact H2|]. split; [|split; [exact H4 | by apply H1]].
    intros Hs Ha. by apply H3.
Qed.

(** On the example graph a plain release over the rectangle (0, 0, 100, 100)
    selects what the rectangle covers, node 1 and reroute 4. *)
Lemma multiselect_release_updates_selection_witness :
  let e := example_event 0 false false false in
  let c' := handleMultiSelect measure e example_canvas in
  (∀ x, x ∈ selectedItems (sel c')
        ↔ covered measure example_graph (heap example_canvas)
            (normaliseDragRect (dragRect (modes example_canvas))) x)
  ∧ selection_consistent c'.
Proof.
  intros e c'.
  destruct (multiselect_release_updates_selection example_config
              example_collaborators measure (example_event 0 false false true)
              e None example_canvas example_canvas example_graph eq_refl
              example_canvas_consistent) as (_ & _ & _ & _ & H & Hc).
  split; [exact (H eq_refl eq_refl) | exact Hc].
Defined.

(** The bounding rectangle of group 3, (50, 50, 200, 200), intersects the
    rectangle (0, 0, 100, 100) without lying inside it: a plain release does
    not select the group. *)
Lemma multiselect_group_overlap_counterexample :
  let e := example_event 0 false false false in
  let rect := normaliseDragRect (dragRect (modes example_canvas)) in
  let c' := handleMultiSelect measure e example_canvas in
  3%positive ∈ groups example_graph
  ∧ heap example_canvas !! 3%positive = Some (OGroup example_group)
  ∧ overlapBounding measure rect (_bounding example_group) = true
  ∧ (3%positive ∉ selectedItems (sel c'))
  ∧ item_is_selected c' 3%positive = false.
Proof.
  intros e rect c'.
  split; [by apply list_elem_of_here|].
  split; [by vm_compute|].
  split; [by vm_compute|].
  split; [|by vm_compute].
  unfold c', e. rewrite example_multiselect_plain.
  intros H. apply list_elem_of_In in H. simpl in H.
  destruct H as [H|[H|[]]]; discriminate.
Qed.

(** ** Link rendering *)

Lemma upd_segment_lookup linkSegment f st r :
  segments (upd_segment linkSegment f st) !! r
  = (if bool_decide (linkSegment = Some r) then f else id)
      <$> segments st !! r.
Proof.
  destruct linkSegment as [r'|]; simpl.
  - rewrite lookup_alter. case_bool_decide as H; case_decide as H'.
    + by subst.
    + by inversion H.
    + by subst.
    + by rewrite option_fmap_id.
  - by rewrite option_fmap_id.
Qed.

Lemma upd_segment_ctx linkSegment f st :
  ctx (upd_segment linkSegment f st) = ctx st.
Proof. by destruct linkSegment. Qed.

Section RenderFacts.
Context (cfg : Config) (R : RenderOptions) (M : Measure) (D : Declarations)
  (J : MathEnv).

Lemma flowPoints_segments a b startDir endDir st (indices : list nat) :
  segments (foldl (flowPoint M J a b startDir endDir) st indices)
  = segments st.
Proof.
  revert st. induction indices as [|i indices IH]; intros st; [done|].
  simpl. by rewrite IH.
Qed.

(** The statements after the loop draw, and leave the render caches alone. *)
Lemma renderStrokes_segments a b startDir endDir linkSegment skip_border flow
    linkColour path pos st :
  segments (renderStrokes cfg R M J a b startDir endDir linkSegment
              skip_border flow linkColour path pos st)
  = segments st.
Proof.
  unfold renderStrokes.
  destruct (truthy_number flow); rewrite ?flowPoints_segments;
    destruct linkSegment as [r|]; repeat (split_state; try done).
Qed.

(** With a mode that is none of the three, an iteration returns at once. *)
Lemma renderSubline_unknown a b startDir endDir startControl endControl dist
    linkSegment cached num_sublines i path pos st :
  links_render_mode R ≠ SPLINE_LINK D →
  links_render_mode R ≠ LINEAR_LINK D →
  links_render_mode R ≠ STRAIGHT_LINK D →
  renderSubline R M D J a b startDir endDir startControl endControl dist
    linkSegment cached num_sublines i path pos st
  = Subline_returned
      (set_lTempB (store_point Float32Array b)
         (set_lTempA (store_point Float32Array a) st)).
Proof.
  intros H1 H2 H3. unfold renderSubline.
  apply Z.eqb_neq in H1, H2, H3. by rewrite H1, H2, H3.
Qed.
End RenderFacts.

Lemma linkColourOf_is_Some R link color st :
  is_Some link ∨ is_Some (truthy_colour color) →
  is_Some (linkColourOf R link color st).
Proof.
  intros H. unfold linkColourOf.
  destruct link as [l|]; simpl.
  - destruct (bool_decide _); [by eexists|].
    destruct (truthy_colour color); [by eexists|].
    destruct (truthy_colour (rl_color l)); [by eexists|].
    destruct (truthy_colour (link_type_colors R (rl_type l))); by eexists.
  - destruct H as [[? [=]]|[colour ->]]. by eexists.
Qed.

(** C4 (amended): with a [links_render_mode] that is none of the three modes,
    and a number of sublines that is not negative, [renderLink] returns from
    the first iteration of its loop: the context receives no call, so nothing
    is stroked, and [_pos] and [_centreAngle] of every link and reroute are
    as before.  The cached path is not: the segment rendered holds the new,
    empty path that was assigned to it before the loop.  (The call throws
    when there is neither a link nor a colour.) *)
Theorem unknown_mode_returns_before_drawing (cfg : Config) (R : RenderOptions)
    (M : Measure) (D : Declarations) (J : MathEnv) (a b : Point)
    (link : option RenderedLink) (skip_border : bool) (flow : float)
    (color : option string) (start_dir end_dir : option LinkDirection)
    (startControl endControl : option Point) (reroute : option Ref)
    (num_sublines : option Z) (st : RenderState) :
  links_render_mode R ≠ SPLINE_LINK D →
  links_render_mode R ≠ LINEAR_LINK D →
  links_render_mode R ≠ STRAIGHT_LINK D →
  (0 ≤ default 1 num_sublines)%Z →
  is_Some link ∨ is_Some (truthy_colour color) →
  let linkSegment := match reroute with
                     | Some r => Some r
                     | None => rl_ref <$> link
                     end in
  ∃ st',
    renderLink cfg R M D J a b link skip_border flow color start_dir end_dir
      startControl endControl reroute num_sublines st = Some st'
    ∧ drawn (ctx st') = drawn (ctx st)
    ∧ (∀ r, segments st' !! r
            = (if bool_decide (linkSegment = Some r)
               then set_seg_path (Some []) else id) <$> segments st !! r)
    ∧ (∀ r s', segments st' !! r = Some s' →
               ∃ s, segments st !! r = Some s
                    ∧ _pos s' = _pos s
                    ∧ _centreAngle s' = _centreAngle s).
Proof.
  intros H1 H2 H3 Hn Hcol linkSegment.
  unfold renderLink. fold linkSegment.
  set (st0 := match link with Some _ => _ | None => st end).
  destruct (linkColourOf_is_Some R link color st0 Hcol) as [colour ->].
  cbn [mbind option_bind].
  set (n := if (default 1%Z num_sublines =? 0)%Z then 1%Z
            else default 1%Z num_sublines).
  assert (1 ≤ n)%Z as Hn1.
  { unfold n. destruct (Z.eqb_spec (default 1%Z num_sublines) 0); lia. }
  destruct (Z.to_nat n) as [|k] eqn:Hk; [lia|].
  cbn [seq renderSublines]. rewrite renderSubline_unknown by done.
  eexists. split; [reflexivity|].
  assert (segments st0 = segments st ∧ drawn (ctx st0) = drawn (ctx st))
    as [Hseg0 Hdr0].
  { unfold st0. by destruct link. }
  assert (∀ r, segments
                 (set_lTempB (store_point Float32Array b)
                    (set_lTempA (store_point Float32Array a)
                       (upd_segment linkSegment (set_seg_path (Some []))
                          (if (1 <? n)%Z
                           then upd_ctx (set_lineWidth 0.5)
                                  (upd_ctx (set_lineJoin "round")
                                     (if withBorder R
                                      then upd_ctx
                                             (set_lineWidth
                                                (connections_width cfg + 4))
                                             st0
                                      else st0))
                           else upd_ctx (set_lineJoin "round")
                                  (if withBorder R
                                   then upd_ctx
                                          (set_lineWidth
                                             (connections_width cfg + 4))
                                          st0
                                   else st0))))) !! r
               = (if bool_decide (linkSegment = Some r)
                  then set_seg_path (Some []) else id) <$> segments st !! r)
    as Hsegs.
  { intros r. cbn [segments set_lTempA set_lTempB].
    rewrite upd_segment_lookup. rewrite <- Hseg0.
    by destruct (1 <? n)%Z, (withBorder R). }
  split; [|split; [exact Hsegs|]].
  - cbn [ctx set_lTempA set_lTempB]. rewrite upd_segment_ctx, <- Hdr0.
    by destruct (1 <? n)%Z, (withBorder R).
  - intros r s' Hs'. rewrite Hsegs in Hs'.
    destruct (segments st !! r) as [s|]; [|done].
    exists s. split; [done|].
    simpl in Hs'. injection Hs' as <-. by case_bool_decide.
Qed.

(** Link 5 of the example graph rendered in a mode numbered 99: the context
    receives no call, the centre point stays at (200, 300). *)
Lemma unknown_mode_returns_before_drawing_witness :
  ∃ st',
    renderLink example_config (example_render_options 99) measure
      example_declarations example_math (mkPoint 0 0) (mkPoint 100 0)
      (Some example_rendered_link) false 0 None (Some RIGHT) (Some LEFT)
      None None None None example_render_state = Some st'
    ∧ drawn (ctx st') = []
    ∧ (_pos <$> segments st' !! 5%positive) = Some (Some (mkPoint 200 300)).
Proof.
  destruct (unknown_mode_returns_before_drawing example_config
              (example_render_options 99) measure example_declarations
              example_math (mkPoint 0 0) (mkPoint 100 0)
              (Some example_rendered_link) false 0 None (Some RIGHT)
              (Some LEFT) None None None None example_render_state)
    as (st' & H1 & H2 & H3 & _).
  - discriminate.
  - discriminate.
  - discriminate.
  - simpl. lia.
  - left. by eexists.
  - exists st'. split; [exact H1|]. split; [exact H2|].
    etrans; [exact (f_equal (fmap _pos) (H3 5%positive))|].
    vm_compute. reflexivity.
Defined.

(** The same call replaces the cached path of link 5, the segment from
    (0, 300) to (400, 300), by an empty path; and with a negative number of
    sublines the loop is skipped and the empty path is stroked. *)
Lemma unknown_mode_replaces_path_counterexample :
  (seg_path <$> segments example_render_state !! 5%positive)
  = Some (Some [MoveTo 0 300; LineTo 400 300])
  ∧ (st' ← renderLink example_config (example_render_options 99) measure
             example_declarations example_math (mkPoint 0 0) (mkPoint 100 0)
             (Some example_rendered_link) false 0 None (Some RIGHT)
             (Some LEFT) None None None None example_render_state;
     seg_path <$> segments st' !! 5%positive)
    = Some (Some [])
  ∧ (st' ← renderLink example_config (example_render_options 99) measure
             example_declarations example_math (mkPoint 0 0) (mkPoint 100 0)
             (Some example_rendered_link) false 0 None (Some RIGHT)
             (Some LEFT) None None None (Some (-1)%Z) example_render_state;
     Some (drawn (ctx st')))
    = Some [Op_stroke []; Op_stroke []; Op_beginPath;
            Op_arc 200 300 5 0 (0x1.921fb54442d18p+1 * 2); Op_fill].
Proof. repeat split; vm_compute; reflexivity. Qed.

Section SplineFacts.
Context (cfg : Config) (R : RenderOptions) (M : Measure) (D : Declarations)
  (J : MathEnv).

(** An iteration in spline mode, without explicit control points, for a
    segment that has a [_pos] array. *)
Lemma renderSubline_spline a b startDir endDir dist r num_sublines i path pos
    st s :
  links_render_mode R = SPLINE_LINK D →
  segments st !! r = Some s →
  let offsety :=
    ((float_of_nat i - float_of_Z (num_sublines - 1) * 0.5) * 5)%float in
  let controlA := addSplineOffset Float32Array (store_point Float32Array a)
                    startDir dist 0.25 in
  let controlB := addSplineOffset Float32Array (store_point Float32Array b)
                    endDir dist 0.25 in
  let path' := path ++ [MoveTo (px a) (py a + offsety)%float;
                        BezierCurveTo (px controlA) (py controlA + offsety)%float
                          (px controlB) (py controlB + offsety)%float
                          (px b) (py b + offsety)%float] in
  let centre := store_point (posKind D)
                  (findPointOnCurve M a b controlA controlB 0.5) in
  ∃ st' s',
    renderSubline R M D J a b startDir endDir None None dist (Some r) true
      num_sublines i path pos st = Subline_done path' centre st'
    ∧ segments st' !! r = Some s'
    ∧ seg_path s' = Some path'
    ∧ _pos s' = Some centre.
Proof.
  intros Hmode Hs offsety controlA controlB path' centre.
  unfold renderSubline. rewrite Hmode, Z.eqb_refl.
  unfold path_add, pos_write. cbv beta iota zeta.
  fold offsety. fold (store_point Float32Array a).
  fold (store_point Float32Array b). fold controlA controlB. fold path'.
  fold centre.
  destruct (bool_decide (is_Some (Some r)) && is_arrow (linkMarkerShape R)).
  - eexists _, _. split; [reflexivity|].
    rewrite !upd_segment_lookup. cbn [segments set_lTempA set_lTempB set_lTempC].
    rewrite !upd_segment_lookup. cbn [segments set_lTempA set_lTempB set_lTempC].
    rewrite Hs, bool_decide_eq_true_2 by done. simpl. done.
  - eexists _, _. split; [reflexivity|].
    rewrite !upd_segment_lookup. cbn [segments set_lTempA set_lTempB set_lTempC].
    rewrite Hs, bool_decide_eq_true_2 by done. simpl. done.
Qed.
End SplineFacts.

(** C3: in spline mode, for a link rendered without explicit control points
    (and one subline), the path is the cubic bezier from A to B whose control
    points are the anchors, as held by the scratch arrays, moved along their
    direction (RIGHT and LEFT when none is given) by 0.25 times
    [distance(A, B)]: to the left or to the right on x, up or down on y, and
    not at all for CENTER; the centre point written to [_pos] is
    [findPointOnCurve] at 0.5 on that curve.  With the weighted-sum
    evaluation of the curve, and for A = (0, 0), B = (100, 0), RIGHT and
    LEFT, the x-coordinate of the centre point is 50. *)
Theorem spline_centre_is_bezier_midpoint (cfg : Config) (R : RenderOptions)
    (M : Measure) (D : Declarations) (J : MathEnv) (a b : Point)
    (l : RenderedLink) (skip_border : bool) (flow : float)
    (color : option string) (start_dir end_dir : option LinkDirection)
    (st : RenderState) (s : LinkSegment) (p0 : Point) :
  links_render_mode R = SPLINE_LINK D →
  segments st !! rl_ref l = Some s →
  _pos s = Some p0 →
  let startDir := default RIGHT start_dir in
  let endDir := default LEFT end_dir in
  let dist := distance M a b in
  let controlA := addSplineOffset Float32Array (store_point Float32Array a)
                    startDir (Some dist) 0.25 in
  let controlB := addSplineOffset Float32Array (store_point Float32Array b)
                    endDir (Some dist) 0.25 in
  let centre := store_point (posKind D)
                  (findPointOnCurve M a b controlA controlB 0.5) in
  (∃ st' s',
     renderLink cfg R M D J a b (Some l) skip_border flow color start_dir
       end_dir None None None None st = Some st'
     ∧ segments st' !! rl_ref l = Some s'
     ∧ seg_path s'
       = Some [MoveTo (px a) (py a + 0)%float;
               BezierCurveTo (px controlA) (py controlA + 0)%float
                 (px controlB) (py controlB + 0)%float
                 (px b) (py b + 0)%float]
     ∧ _pos s' = Some centre)
  ∧ ((startDir = LEFT →
      controlA = mkPoint (fround (fround (px a) + dist * - 0.25)%float)
                         (fround (py a)))
     ∧ (startDir = RIGHT →
        controlA = mkPoint (fround (fround (px a) + dist * 0.25)%float)
                           (fround (py a)))
     ∧ (startDir = UP →
        controlA = mkPoint (fround (px a))
                           (fround (fround (py a) + dist * - 0.25)%float))
     ∧ (startDir = DOWN →
        controlA = mkPoint (fround (px a))
                           (fround (fround (py a) + dist * 0.25)%float))
     ∧ (startDir = CENTER →
        controlA = mkPoint (fround (px a)) (fround (py a))))
  ∧ ((endDir = LEFT →
      controlB = mkPoint (fround (fround (px b) + dist * - 0.25)%float)
                         (fround (py b)))
     ∧ (endDir = RIGHT →
        controlB = mkPoint (fround (fround (px b) + dist * 0.25)%float)
                           (fround (py b)))
     ∧ (endDir = UP →
        controlB = mkPoint (fround (px b))
                           (fround (fround (py b) + dist * - 0.25)%float))
     ∧ (endDir = DOWN →
        controlB = mkPoint (fround (px b))
                           (fround (fround (py b) + dist * 0.25)%float))
     ∧ (endDir = CENTER →
        controlB = mkPoint (fround (px b)) (fround (py b))))
  ∧ (M = measure →
     findPointOnCurve M a b controlA controlB 0.5
     = mkPoint (0.125 * px a + 0.375 * px controlA + 0.375 * px controlB
                + 0.125 * px b)%float
               (0.125 * py a + 0.375 * py controlA + 0.375 * py controlB
                + 0.125 * py b)%float)
  ∧ (M = measure → a = mkPoint 0 0 → b = mkPoint 100 0 →
     startDir = RIGHT → endDir = LEFT → px centre = 50%float).
Proof.
  intros Hmode Hs Hp0 startDir endDir dist controlA controlB centre.
  split; [|split; [|split; [|split]]].
  - unfold renderLink.
    set (st0 := set_visible_links _ st).
    destruct (linkColourOf_is_Some R (Some l) color st0) as [colour ->];
      [left; by eexists|].
    cbn [mbind option_bind default from_option id fmap option_fmap
         option_map].
    rewrite Hmode, Z.eqb_refl.
    assert (negb (bool_decide (is_Some (@None Point)))
            || negb (bool_decide (is_Some (@None Point))) = true) as ->
      by reflexivity.
    change (1 =? 0)%Z with false. cbv iota.
    change (1 <? 1)%Z with false. change (Z.to_nat 1) with 1%nat.
    cbn [seq renderSublines andb]. cbv iota.
    fold startDir endDir dist.
    match goal with
    | |- context [renderSubline R M D J a b startDir endDir None None
                    (Some dist) (Some (rl_ref l)) ?cached 1 0 [] ?pos ?st1] =>
        assert (cached = true) as ->;
        [|destruct (renderSubline_spline R M D J a b startDir endDir
                      (Some dist) (rl_ref l) 1 0 [] pos st1
                      (set_seg_path (Some []) s) Hmode)
            as (st' & s' & -> & Hs' & Hpath & Hpos)]
    end.
    + apply bool_decide_eq_true_2.
      rewrite upd_segment_lookup, bool_decide_eq_true_2 by done.
      assert (segments
                (if (1 <? 1)%Z
                 then upd_ctx (set_lineWidth 0.5)
                        (upd_ctx (set_lineJoin "round")
                           (if withBorder R
                            then upd_ctx
                                   (set_lineWidth (connections_width cfg + 4))
                                   st0
                            else st0))
                 else upd_ctx (set_lineJoin "round")
                        (if withBorder R
                         then upd_ctx
                                (set_lineWidth (connections_width cfg + 4))
                                st0
                         else st0)) = segments st) as Hseg.
      { simpl. by destruct (withBorder R). }
      simpl in Hseg |- *. rewrite Hseg, Hs. simpl. rewrite Hp0. by eexists.
    + rewrite upd_segment_lookup, bool_decide_eq_true_2 by done.
      simpl. destruct (withBorder R); simpl; by rewrite Hs.
    + exists (renderStrokes cfg R M J a b startDir endDir (Some (rl_ref l))
                skip_border flow colour
                ([] ++ [MoveTo (px a) (py a + (float_of_nat 0
                                               - float_of_Z (1 - 1) * 0.5) * 5)%float;
                        BezierCurveTo (px controlA)
                          (py controlA + (float_of_nat 0
                                          - float_of_Z (1 - 1) * 0.5) * 5)%float
                          (px controlB)
                          (py controlB + (float_of_nat 0
                                          - float_of_Z (1 - 1) * 0.5) * 5)%float
                          (px b)
                          (py b + (float_of_nat 0
                                   - float_of_Z (1 - 1) * 0.5) * 5)%float])
                centre st'), s'.
      split; [reflexivity|].
      rewrite renderStrokes_segments.
      split; [exact Hs'|]. split; [exact Hpath | exact Hpos].
  - repeat split; intros Hd; unfold controlA; by rewrite Hd.
  - repeat split; intros Hd; unfold controlB; by rewrite Hd.
  - intros ->. reflexivity.
  - intros -> -> -> Hsd Hed. unfold centre, controlA, controlB, dist.
    rewrite Hsd, Hed. destruct (posKind D); vm_compute; reflexivity.
Qed.

(** Link 5 of the example graph rendered as a spline from (0, 0) to (100, 0):
    the control points are (25, 0) and (75, 0), the centre point (50, 0).
    Rendered downwards from (0, 0) to (0, 100), out of the bottom of the one
    node and into the top of the other, the control points are (0, 25) and
    (0, 75), the centre point (0, 50). *)
Lemma spline_centre_is_bezier_midpoint_witness :
  (∃ st' s',
     renderLink example_config (example_render_options 2) measure
       example_declarations example_math (mkPoint 0 0) (mkPoint 100 0)
       (Some example_rendered_link) false 0 None (Some RIGHT) (Some LEFT)
       None None None None example_render_state = Some st'
     ∧ segments st' !! rl_ref example_rendered_link = Some s'
     ∧ seg_path s' = Some [MoveTo 0 0; BezierCurveTo 25 0 75 0 100 0]
     ∧ _pos s' = Some (mkPoint 50 0))
  ∧ (∃ st' s',
       renderLink example_config (example_render_options 2) measure
         example_declarations example_math (mkPoint 0 0) (mkPoint 0 100)
         (Some example_rendered_link) false 0 None (Some DOWN) (Some UP)
         None None None None example_render_state = Some st'
       ∧ segments st' !! rl_ref example_rendered_link = Some s'
       ∧ seg_path s' = Some [MoveTo 0 0; BezierCurveTo 0 25 0 75 0 100]
       ∧ _pos s' = Some (mkPoint 0 50)).
Proof.
  split.
  - destruct (spline_centre_is_bezier_midpoint example_config
                (example_render_options 2) measure example_declarations
                example_math (mkPoint 0 0) (mkPoint 100 0)
                example_rendered_link false 0 None (Some RIGHT) (Some LEFT)
                example_render_state example_segment (mkPoint 200 300)
                eq_refl eq_refl eq_refl)
      as [(st' & s' & H1 & H2 & H3 & H4) _].
    exists st', s'. split; [exact H1|]. split; [exact H2|].
    vm_compute in H3, H4. split; [exact H3 | exact H4].
  - destruct (spline_centre_is_bezier_midpoint example_config
                (example_render_options 2) measure example_declarations
                example_math (mkPoint 0 0) (mkPoint 0 100)
                example_rendered_link false 0 None (Some DOWN) (Some UP)
                example_render_state example_segment (mkPoint 200 300)
                eq_refl eq_refl eq_refl)
      as [(st' & s' & H1 & H2 & H3 & H4) _].
    exists st', s'. split; [exact H1|]. split; [exact H2|].
    vm_compute in H3, H4. split; [exact H3 | exact H4].
Defined.

(** * Further properties of the canvas *)

(** ** Selection *)

Lemma deselectAll_no_graph keep c : graph c = None → deselectAll keep c = c.
Proof. intros H. unfold deselectAll. by rewrite H. Qed.

Lemma highlight_twice_lookup keys1 keys2 c k :
  highlighted_links (sel (highlight keys2 (highlight keys1 c))) !! k
  = if bool_decide (k ∈ keys1 ++ keys2) then Some true
    else highlighted_links (sel c) !! k.
Proof.
  unfold highlight. simpl. rewrite !lookup_foldl_insert.
  destruct (decide (k ∈ keys2)) as [H2|H2].
  - rewrite !bool_decide_eq_true_2; [done| |done].
    apply elem_of_app. by right.
  - rewrite (bool_decide_eq_false_2 _ H2).
    destruct (decide (k ∈ keys1)) as [H1|H1].
    + rewrite !bool_decide_eq_true_2; [done| |done].
      apply elem_of_app. by left.
    + rewrite !bool_decide_eq_false_2; [done| |done].
      by intros [?|?]%elem_of_app.
Qed.

(** What [deselectAll] leaves in the legacy fields. *)
Lemma deselectAll_legacy keep c :
  is_Some (graph c) →
  let c' := deselectAll keep c in
  let kept := k ← keep; heap c !! k in
  current_node (sel c') = None
  ∧ dirty_canvas c' = true
  ∧ heap c' = heap c
  ∧ (∀ k, highlighted_links (sel c') !! k
          = match kept with
            | Some (ONode n) =>
                if bool_decide (k ∈ node_keys n) then Some true else None
            | _ => None
            end)
  ∧ (∀ id r, selected_nodes (sel c') !! id = Some r →
             ∃ k n, keep = Some k ∧ heap c !! k = Some (ONode n)
                    ∧ selected_nodes (sel c) !! node_id n = Some r).
Proof.
  intros [g Hg] c' kept. unfold c', deselectAll. rewrite Hg.
  unfold deselectAll_loop.
  pose proof (deselectAll_loop_spec keep (selectedItems (sel c)) c None) as H.
  simpl in H. destruct (foldl _ _ _) as [c1 was]. simpl in H.
  destruct H as (Hf & Hw & Hh & Hgr & Hs & Hn).
  cbn [setDirty upd_sel sel heap set_sel set_dirty_canvas].
  rewrite Hh. unfold kept.
  destruct keep as [k|]; cbn [mbind option_bind].
  2:{ repeat split; try done; intros id r; simpl; by rewrite lookup_empty. }
  destruct (heap c !! k) as [[n| |]|] eqn:Hk; cbn [mbind option_bind].
  2,3,4: repeat split; try done; intros id r; simpl; by rewrite lookup_empty.
  cbn [selected_nodes set_selectedItems obj_id]. rewrite Hn.
  assert (∀ c2 : LGraphCanvas,
            current_node (sel c2) = None → dirty_canvas c2 = true →
            heap c2 = heap c → highlighted_links (sel c2) = ∅ →
            (∀ id r, selected_nodes (sel c2) !! id = Some r →
                     selected_nodes (sel c) !! node_id n = Some r) →
            current_node
              (sel (emit E_onSelectionChange
                      (highlight (output_keys n)
                         (highlight (input_keys n) c2)))) = None
            ∧ dirty_canvas
                (emit E_onSelectionChange
                   (highlight (output_keys n) (highlight (input_keys n) c2)))
              = true
            ∧ heap (emit E_onSelectionChange
                      (highlight (output_keys n)
                         (highlight (input_keys n) c2))) = heap c
            ∧ (∀ k0, highlighted_links
                       (sel (emit E_onSelectionChange
                               (highlight (output_keys n)
                                  (highlight (input_keys n) c2)))) !! k0
                     = if bool_decide (k0 ∈ node_keys n) then Some true
                       else None)
            ∧ (∀ id r,
                 selected_nodes
                   (sel (emit E_onSelectionChange
                           (highlight (output_keys n)
                              (highlight (input_keys n) c2)))) !! id = Some r →
                 ∃ k0 n0, Some k = Some k0 ∧ heap c !! k0 = Some (ONode n0)
                          ∧ selected_nodes (sel c) !! node_id n0 = Some r))
    as Hfin.
  { intros c2 H1 H2 H3 H4 H5.
    split; [exact H1|]. split; [exact H2|]. split; [exact H3|]. split.
    - intros k0. unfold emit. cbn [sel set_trace].
      rewrite highlight_twice_lookup, H4. by rewrite lookup_empty.
    - intros id r Hl. exists k, n. split; [done|]. split; [done|].
      by apply (H5 id r). }
  match goal with
  | |- context [highlight (input_keys n)
                    (match ?x with Some _ => _ | None => _ end)] =>
      destruct x as [[o oid]|] eqn:Hold
  end.
  - apply Hfin; try done.
    intros id r. simpl. intros Hl.
    apply lookup_insert_Some in Hl as [[_ <-]|[_ Hl]].
    + apply bind_Some in Hold as (o' & Ho' & Hold).
      apply bind_Some in Hold as (oo & Hoo & Hold).
      injection Hold as -> _. exact Ho'.
    + by rewrite lookup_empty in Hl.
  - apply Hfin; done.
Qed.

Lemma list_nil_of_no_elem (l : list Ref) : (∀ x, x ∉ l) → l = [].
Proof. destruct l as [|x l]; [done|]. intros H. destruct (H x). by left. Qed.

(** X1: [deselectAll()] on a canvas without a graph does nothing; with a
    graph it empties [selectedItems], [selected_nodes] and
    [highlighted_links], resets [current_node], marks the canvas dirty and
    clears the [selected] flag of every member of the selection, and of no
    other item. *)
Theorem deselectAll_clears_selection (c : LGraphCanvas) :
  (graph c = None → ∀ keepSelected, deselectAll keepSelected c = c)
  ∧ (is_Some (graph c) →
     let c' := deselectAll None c in
     selectedItems (sel c') = []
     ∧ selected_nodes (sel c') = ∅
     ∧ highlighted_links (sel c') = ∅
     ∧ current_node (sel c') = None
     ∧ dirty_canvas c' = true
     ∧ (∀ x, x ∈ selectedItems (sel c) → item_is_selected c' x = false)
     ∧ (∀ x, x ∉ selectedItems (sel c) →
             item_is_selected c' x = item_is_selected c x)).
Proof.
  split; [intros H k; by apply deselectAll_no_graph|].
  intros Hg. cbv zeta.
  destruct (deselectAll_selection None c) as [Hf Hs].
  { destruct Hg as [g ->]. done. }
  destruct (deselectAll_legacy None c Hg) as (Hc & Hd & _ & Hh & Hn).
  split; [|split; [|split; [|split; [exact Hc|split; [exact Hd|split]]]]].
  - apply list_nil_of_no_elem. intros x Hx. by apply Hs in Hx as [_ ?].
  - apply map_empty. intros id.
    destruct (selected_nodes (sel (deselectAll None c)) !! id) as [r|] eqn:E;
      [|done].
    by destruct (Hn id r E) as (k & n & ? & _).
  - apply map_empty. intros k. by rewrite (Hh k).
  - intros x Hx. rewrite (Hf x). by rewrite bool_decide_eq_true_2.
  - intros x Hx. rewrite (Hf x). rewrite bool_decide_eq_false_2; [done|].
    by intros [? _].
Qed.

Lemma deselectAll_clears_selection_witness :
  let c := select 2%positive (select 1%positive example_canvas) in
  selectedItems (sel c) = [1%positive; 2%positive]
  ∧ selectedItems (sel (deselectAll None c)) = []
  ∧ highlighted_links (sel (deselectAll None c)) = ∅
  ∧ item_is_selected (deselectAll None c) 1%positive = false.
Proof.
  intros c.
  destruct (deselectAll_clears_selection c) as [_ H].
  destruct H as (H1 & _ & H3 & _ & _ & H6 & _); [by eexists|].
  split; [by vm_compute|]. split; [exact H1|]. split; [exact H3|].
  apply H6. by left.
Defined.

(** X2: [deselectAll(keepSelected)] with a graph leaves [keepSelected] in the
    selection when it was there (and does not add it otherwise), leaves its
    [selected] flag as it was and clears the flag of every other member.  The
    links of a node given as [keepSelected] are the highlighted links
    afterwards, whether or not the node was selected; for any other item no
    link is highlighted and [selected_nodes] is empty.  [selected_nodes] holds
    at most what it held for the id of [keepSelected]. *)
Theorem deselectAll_keeps_item (c : LGraphCanvas) (keepSelected : Ref) :
  is_Some (graph c) →
  let c' := deselectAll (Some keepSelected) c in
  (∀ x, x ∈ selectedItems (sel c')
        ↔ x = keepSelected ∧ keepSelected ∈ selectedItems (sel c))
  ∧ item_is_selected c' keepSelected = item_is_selected c keepSelected
  ∧ (∀ x, x ≠ keepSelected → x ∈ selectedItems (sel c) →
          item_is_selected c' x = false)
  ∧ (∀ n, heap c !! keepSelected = Some (ONode n) →
          ∀ k, highlighted_links (sel c') !! k
               = if bool_decide (k ∈ node_keys n) then Some true else None)
  ∧ ((∀ n, heap c !! keepSelected ≠ Some (ONode n)) →
     highlighted_links (sel c') = ∅ ∧ selected_nodes (sel c') = ∅)
  ∧ (∀ id r, selected_nodes (sel c') !! id = Some r →
             ∃ n, heap c !! keepSelected = Some (ONode n)
                  ∧ selected_nodes (sel c) !! node_id n = Some r).
Proof.
  intros Hg. cbv zeta.
  destruct (deselectAll_selection (Some keepSelected) c) as [Hf Hs].
  { destruct Hg as [g ->]. done. }
  destruct (deselectAll_legacy (Some keepSelected) c Hg)
    as (_ & _ & _ & Hh & Hn).
  cbn [mbind option_bind] in Hh.
  assert (∀ id r,
            selected_nodes (sel (deselectAll (Some keepSelected) c)) !! id
            = Some r →
            ∃ n, heap c !! keepSelected = Some (ONode n)
                       ∧ selected_nodes (sel c) !! node_id n = Some r) as Hn'.
  { intros id r E. destruct (Hn id r E) as (k & n & [= <-] & H1 & H2).
    by exists n. }
  split; [|split; [|split; [|split; [|split]]]].
  - intros x. rewrite (Hs x). split.
    + intros [Hx [= ->]]. done.
    + intros [-> Hx]. done.
  - rewrite (Hf keepSelected). rewrite bool_decide_eq_false_2; [done|].
    by intros [_ ?].
  - intros x Hne Hx. rewrite (Hf x). rewrite bool_decide_eq_true_2; [done|].
    split; [done|]. by intros [= ->].
  - intros n Hk k. rewrite (Hh k). by rewrite Hk.
  - intros Hnot. split.
    + apply map_empty. intros k. rewrite (Hh k).
      destruct (heap c !! keepSelected) as [[n| |]|] eqn:E; try done.
      by destruct (Hnot n).
    + apply map_empty. intros id.
      destruct (selected_nodes (sel (deselectAll (Some keepSelected) c))
                  !! id) as [r|] eqn:E; [|done].
      destruct (Hn' id r E) as (n & H1 & _). by destruct (Hnot n).
  - exact Hn'.
Qed.

(** Node 2 is kept while nodes 1 and 2 are selected: link 5, which joins
    them, stays highlighted, and node 1 is no longer selected. *)
Lemma deselectAll_keeps_item_witness :
  let c := select 2%positive (select 1%positive example_canvas) in
  let c' := deselectAll (Some 2%positive) c in
  (2%positive ∈ selectedItems (sel c'))
  ∧ (1%positive ∉ selectedItems (sel c'))
  ∧ item_is_selected c' 1%positive = false
  ∧ highlighted_links (sel c') !! Some 5%Z = Some true.
Proof.
  intros c c'.
  destruct (deselectAll_keeps_item c 2%positive) as (H1 & _ & H3 & H4 & _);
    [by eexists|].
  split; [|split; [|split]].
  - apply H1. split; [done|]. vm_compute. right. left.
  - intros H. by apply H1 in H as [[=] _].
  - apply H3; [done|]. vm_compute. left.
  - rewrite (H4 example_node_b eq_refl). reflexivity.
Defined.

Lemma finish_consistent c :
  selection_consistent c →
  selection_consistent (setDirty true false (emit E_onSelectionChange c)).
Proof. intros H. exact H. Qed.

(** X3: [processSelect] and [selectItems] keep the agreement between the
    [selected] flags and [selectedItems]. *)
Theorem processSelect_selectItems_consistent (c : LGraphCanvas) :
  selection_consistent c →
  (∀ multi_select item e sticky,
     selection_consistent (processSelect multi_select item e sticky c))
  ∧ (∀ items add_to_current_selection,
       selection_consistent (selectItems items add_to_current_selection c)).
Proof.
  intros H. split.
  - intros ms item e sticky. unfold processSelect.
    destruct item as [item|].
    + destruct (negb (item_is_selected c item) || negb (has_item c item)).
      { apply finish_consistent, select_consistent.
        destruct (negb _); [by apply deselectAll_consistent|done]. }
      destruct (_ && negb sticky).
      { by apply finish_consistent, deselect_consistent. }
      destruct (negb sticky); [|done].
      by apply finish_consistent, deselectAll_consistent.
    + apply finish_consistent.
      destruct (_ || ms); [by apply deselectAll_consistent|done].
  - intros items add. unfold selectItems.
    apply finish_consistent.
    apply (foldl_select_spec _ _).
    destruct add; [done|by apply deselectAll_consistent].
Qed.

Lemma processSelect_selectItems_consistent_witness :
  selection_consistent
    (processSelect false (Some 1%positive)
       (Some (example_event 0 true false false)) false example_canvas)
  ∧ selection_consistent (selectItems None false example_canvas).
Proof.
  destruct (processSelect_selectItems_consistent example_canvas
              example_canvas_consistent) as [H1 H2].
  split; [apply H1 | apply H2].
Defined.

(** X4: what a click does to the selection, on a canvas with a graph whose
    flags and selection set agree.  [modify] is "shift, ctrl or meta is held,
    or [multi_select] is on".  An item that is not selected becomes
    selected, alone unless [modify]; a selected item is removed under
    [modify] and otherwise becomes the only selected item; with [sticky] a
    selected item is left alone and nothing at all changes.  A click on no
    item deselects everything, unless a modifier is held while [multi_select]
    is off. *)
Theorem processSelect_click (multi_select : bool) (e : CanvasPointerEvent)
    (c : LGraphCanvas) :
  is_Some (graph c) →
  selection_consistent c →
  let modify := shiftKey e || (metaKey e || ctrlKey e) || multi_select in
  (∀ item sticky,
     item ∉ selectedItems (sel c) →
     ∀ x, x ∈ selectedItems
                (sel (processSelect multi_select (Some item) (Some e) sticky c))
          ↔ x = item ∨ (modify = true ∧ x ∈ selectedItems (sel c)))
  ∧ (∀ item,
       item ∈ selectedItems (sel c) →
       ∀ x, x ∈ selectedItems
                  (sel (processSelect multi_select (Some item) (Some e) false c))
            ↔ if modify then x ≠ item ∧ x ∈ selectedItems (sel c)
              else x = item)
  ∧ (∀ item,
       item ∈ selectedItems (sel c) →
       processSelect multi_select (Some item) (Some e) true c = c)
  ∧ (∀ sticky x,
       x ∈ selectedItems
             (sel (processSelect multi_select None (Some e) sticky c))
       ↔ (shiftKey e || (metaKey e || ctrlKey e)) && negb multi_select = true
         ∧ x ∈ selectedItems (sel c)).
Proof.
  intros Hg Hcons modify.
  assert (graph c ≠ None) as Hg' by (destruct Hg as [g ->]; done).
  assert (∀ item, item ∉ selectedItems (sel c) →
                  negb (item_is_selected c item) || negb (has_item c item)
                  = true) as Hout.
  { intros item Hi. apply orb_true_iff. right.
    apply negb_true_iff. by apply set_has_false. }
  assert (∀ item, item ∈ selectedItems (sel c) →
                  negb (item_is_selected c item) || negb (has_item c item)
                  = false) as Hin.
  { intros item Hi. apply orb_false_iff. split; apply negb_false_iff.
    - by apply (Hcons item).
    - by apply set_has_true. }
  split; [|split; [|split]].
  - intros item sticky Hi x. unfold processSelect. cbn [from_option].
    rewrite (Hout item Hi). fold modify.
    change (selectedItems (sel (setDirty true false
                                  (emit E_onSelectionChange ?c0))))
      with (selectedItems (sel c0)).
    rewrite elem_of_select.
    destruct modify; cbn [negb].
    + intuition congruence.
    + destruct (deselectAll_selection (Some item) c Hg') as [_ Hs].
      rewrite (Hs x). split.
      * intros [->|[_ [= ->]]]; by left.
      * intros [->|[[=] _]]. by left.
  - intros item Hi x. unfold processSelect. cbn [from_option].
    rewrite (Hin item Hi). fold modify.
    destruct modify; cbn [negb andb].
    + change (selectedItems (sel (setDirty true false
                                    (emit E_onSelectionChange ?c0))))
        with (selectedItems (sel c0)).
      apply elem_of_deselect.
    + change (selectedItems (sel (setDirty true false
                                    (emit E_onSelectionChange ?c0))))
        with (selectedItems (sel c0)).
      destruct (deselectAll_selection (Some item) c Hg') as [_ Hs].
      rewrite (Hs x). split.
      * by intros [_ [= ->]].
      * by intros ->.
  - intros item Hi. unfold processSelect. cbn [from_option].
    rewrite (Hin item Hi). by rewrite andb_false_r.
  - intros sticky x. unfold processSelect. cbn [from_option].
    change (selectedItems (sel (setDirty true false
                                  (emit E_onSelectionChange ?c0))))
      with (selectedItems (sel c0)).
    destruct (shiftKey e || (metaKey e || ctrlKey e)), multi_select;
      cbn [negb orb andb].
    all: try (destruct (deselectAll_selection None c Hg') as [_ Hs];
              rewrite (Hs x)).
    all: intuition congruence.
Qed.

(** With node 1 selected, a plain click on node 2 leaves node 2 alone in the
    selection, and a sticky click on node 1 changes nothing. *)
Lemma processSelect_click_witness :
  let c := select 1%positive example_canvas in
  let e := example_event 0 false false false in
  (∀ x, x ∈ selectedItems
              (sel (processSelect false (Some 2%positive) (Some e) false c))
        ↔ x = 2%positive
          ∨ (shiftKey e || (metaKey e || ctrlKey e) || false = true
             ∧ x ∈ selectedItems (sel c)))
  ∧ processSelect false (Some 1%positive) (Some e) true c = c.
Proof.
  intros c e.
  destruct (processSelect_click false e c) as (H1 & _ & H3 & _).
  - by eexists.
  - apply select_consistent, example_canvas_consistent.
  - split.
    + apply H1. vm_compute. intros H. apply list_elem_of_In in H.
      simpl in H. destruct H as [H|[]]. discriminate.
    + apply H3. vm_compute. left.
Defined.

Lemma foldl_select_keeps_flag (l : list Ref) c x :
  item_is_selected c x = true →
  item_is_selected (foldl (λ c item, select item c) c l) x = true.
Proof.
  revert c. induction l as [|j l IH]; intros c Hc; [done|].
  cbn [foldl]. apply IH. rewrite select_item_is_selected.
  by destruct (decide _).
Qed.

Lemma foldl_select_flags (l : list Ref) c x :
  x ∈ l → item_is_selected (foldl (λ c item, select item c) c l) x = true.
Proof.
  revert c. induction l as [|i l IH]; intros c Hx.
  - by apply elem_of_nil in Hx.
  - cbn [foldl]. apply elem_of_cons in Hx as [->|Hx]; [|by apply IH].
    apply foldl_select_keeps_flag, select_is_selected_self.
Qed.

(** X5: [selectItems] on a canvas with a graph: afterwards the selection
    holds the items given, or every node, group and reroute of the graph
    when none is given, and nothing else unless
    [add_to_current_selection], in which case it also holds what it held;
    every item given has its [selected] flag set. *)
Theorem selectItems_selection (items : option (list Ref))
    (add_to_current_selection : bool) (c : LGraphCanvas) (g : LGraph) :
  graph c = Some g →
  let itemsToSelect := default (_nodes g ++ groups g ++ reroutes g) items in
  let c' := selectItems items add_to_current_selection c in
  (∀ x, x ∈ selectedItems (sel c')
        ↔ x ∈ itemsToSelect
          ∨ (add_to_current_selection = true ∧ x ∈ selectedItems (sel c)))
  ∧ (∀ x, x ∈ itemsToSelect → item_is_selected c' x = true)
  ∧ dirty_canvas c' = true.
Proof.
  intros Hg itemsToSelect c'. unfold c', selectItems.
  assert (from_option id (positionableItems c) items = itemsToSelect) as ->.
  { unfold itemsToSelect, positionableItems. rewrite Hg. by destruct items. }
  set (c0 := if add_to_current_selection then c else deselectAll None c).
  assert (∀ x, x ∈ selectedItems (sel c0)
               ↔ add_to_current_selection = true ∧ x ∈ selectedItems (sel c))
    as Hc0.
  { intros x. unfold c0. destruct add_to_current_selection; [tauto|].
    destruct (deselectAll_selection None c) as [_ Hs]; [by rewrite Hg|].
    rewrite (Hs x). intuition congruence. }
  destruct (foldl_select_spec itemsToSelect c0) as (_ & _ & Hs & _).
  split; [|split; [|done]].
  - intros x.
    change (selectedItems (sel (setDirty true false
                                  (emit E_onSelectionChange ?c1))))
      with (selectedItems (sel c1)).
    rewrite (Hs x), (Hc0 x). tauto.
  - intros x Hx.
    change (item_is_selected
              (foldl (λ c item, select item c) c0 itemsToSelect) x = true).
    by apply foldl_select_flags.
Qed.

(** Select-all on the example graph. *)
Lemma selectItems_selection_witness :
  let c' := selectItems None false example_canvas in
  (∀ x, x ∈ selectedItems (sel c')
        ↔ x ∈ [1%positive; 2%positive; 3%positive; 4%positive]
          ∨ (false = true ∧ x ∈ selectedItems (sel example_canvas)))
  ∧ item_is_selected c' 3%positive = true.
Proof.
  intros c'.
  destruct (selectItems_selection None false example_canvas example_graph
              eq_refl) as (H1 & H2 & _).
  split; [exact H1|]. apply H2. vm_compute. right. right. left.
Defined.

(** X6: selecting a node that is not in the selection calls its
    [onSelected] and the canvas's [onNodeSelected], files it in
    [selected_nodes] under its id and marks each of its links (with the key
    [null] for an input without link) as highlighted, leaving the other
    entries as they were; selecting a group or a reroute touches none of
    these. *)
Theorem select_node_effects (c : LGraphCanvas) (item : Ref) :
  item ∉ selectedItems (sel c) →
  let c' := select item c in
  (∀ n, heap c !! item = Some (ONode n) →
        selected_nodes (sel c') = <[node_id n:=item]> (selected_nodes (sel c))
        ∧ (∀ k, highlighted_links (sel c') !! k
                = if bool_decide (k ∈ node_keys n) then Some true
                  else highlighted_links (sel c) !! k)
        ∧ trace c' = trace c ++ [E_onSelected item; E_onNodeSelected item])
  ∧ ((∀ n, heap c !! item ≠ Some (ONode n)) →
     selected_nodes (sel c') = selected_nodes (sel c)
     ∧ highlighted_links (sel c') = highlighted_links (sel c)
     ∧ trace c' = trace c).
Proof.
  intros Hi. cbv zeta.
  assert (item_is_selected c item && has_item c item = false) as Hguard.
  { apply andb_false_iff. right. by apply set_has_false. }
  split.
  - intros n Hn. split; [|split].
    + unfold select. rewrite Hguard. simpl. by rewrite Hn.
    + intros k. rewrite select_highlighted, Hguard, Hn. done.
    + unfold select. rewrite Hguard. simpl. rewrite Hn. simpl.
      by rewrite <- app_assoc.
  - intros Hnot. unfold select. rewrite Hguard. simpl.
    destruct (heap c !! item) as [[n| |]|] eqn:E; try done.
    by destruct (Hnot n).
Qed.

Lemma select_node_effects_witness :
  let c' := select 1%positive example_canvas in
  selected_nodes (sel c') !! 1%Z = Some 1%positive
  ∧ highlighted_links (sel c') !! Some 5%Z = Some true
  ∧ trace c' = [E_onSelected 1%positive; E_onNodeSelected 1%positive].
Proof.
  intros c'.
  destruct (select_node_effects example_canvas 1%positive) as [H _].
  { vm_compute. intros H. by apply elem_of_nil in H. }
  destruct (H example_node_a eq_refl) as (H1 & H2 & H3).
  split; [|split].
  - etrans; [exact (f_equal (λ m, m !! 1%Z) H1)|]. by vm_compute.
  - etrans; [exact (H2 (Some 5%Z))|]. by vm_compute.
  - exact H3.
Defined.

(** ** Drawing order of the nodes *)

Lemma remove_first_perm (r : Ref) (l : list Ref) :
  r ∈ l → l ≡ₚ r :: remove_first r l.
Proof.
  induction l as [|x l IH]; intros H; [by apply elem_of_nil in H|].
  cbn [remove_first]. destruct (decide (x = r)) as [->|Hne]; [done|].
  apply elem_of_cons in H as [->|H]; [done|].
  rewrite (IH H) at 1. apply Permutation_swap.
Qed.

Lemma remove_first_others (r : Ref) (l : list Ref) :
  filter (λ x, x ≠ r) (remove_first r l) = filter (λ x, x ≠ r) l.
Proof.
  induction l as [|x l IH]; [done|]. cbn [remove_first].
  destruct (decide (x = r)) as [->|Hne].
  - by rewrite filter_cons_False by (intros H; by apply H).
  - by rewrite !filter_cons_True, IH by done.
Qed.

Lemma remove_first_notin (r : Ref) (l : list Ref) :
  NoDup l → r ∉ remove_first r l.
Proof.
  induction 1 as [|x l Hx Hl IH]; cbn [remove_first]; [by intros ?%elem_of_nil|].
  destruct (decide (x = r)) as [->|Hne]; [done|].
  intros [?|?]%elem_of_cons; [by apply Hne|by apply IH].
Qed.

(** With the nodes of the graph pairwise distinct, bringing a node to the
    front twice is bringing it once, and so for sending it to the back. *)
Lemma bringToFront_idempotent (node : Ref) (c : LGraphCanvas) (g : LGraph) :
  graph c = Some g → NoDup (_nodes g) →
  bringToFront node (bringToFront node c) = bringToFront node c
  ∧ sendToBack node (sendToBack node c) = sendToBack node c.
Proof.
  intros Hg Hnd.
  assert (∀ l : list Ref, node ∉ l → remove_first node l = l) as Hid.
  { intros l. induction l as [|x l IH]; [done|]. intros Hx.
    apply not_elem_of_cons in Hx as [Hne Hx]. cbn [remove_first].
    rewrite decide_False by done. by rewrite IH. }
  assert (∀ l : list Ref, node ∉ l → remove_first node (l ++ [node]) = l)
    as Hsnoc.
  { intros l. induction l as [|x l IH]; intros Hx; cbn [remove_first app].
    - by rewrite decide_True.
    - apply not_elem_of_cons in Hx as [Hne Hx].
      rewrite decide_False by done. by rewrite IH. }
  pose proof (remove_first_notin node (_nodes g) Hnd) as Hnot.
  unfold bringToFront, sendToBack. rewrite Hg.
  cbn [mbind option_bind graph set_graph].
  destruct (decide (node ∈ _nodes g)) as [Hin|Hin].
  - rewrite !(bool_decide_eq_true_2 (node ∈ _nodes g)) by done.
    cbn [_nodes groups reroutes]. split.
    + rewrite bool_decide_eq_true_2 by (apply elem_of_app; right; by left).
      rewrite Hsnoc by done. done.
    + rewrite bool_decide_eq_true_2 by by left.
      cbn [remove_first]. rewrite decide_True by done. done.
  - rewrite !(bool_decide_eq_false_2 (node ∈ _nodes g)) by done.
    done.
Qed.

Lemma reorder_nodes (node : Ref) (c : LGraphCanvas) (g : LGraph) :
  graph c = Some g →
  ∃ front back,
    graph (bringToFront node c) = Some front
    ∧ graph (sendToBack node c) = Some back
    ∧ _nodes front ≡ₚ _nodes g ∧ _nodes back ≡ₚ _nodes g
    ∧ filter (λ x, x ≠ node) (_nodes front) = filter (λ x, x ≠ node) (_nodes g)
    ∧ filter (λ x, x ≠ node) (_nodes back) = filter (λ x, x ≠ node) (_nodes g)
    ∧ (node ∈ _nodes g →
       last (_nodes front) = Some node ∧ head (_nodes back) = Some node)
    ∧ (node ∉ _nodes g → front = g ∧ back = g)
    ∧ groups front = groups g ∧ reroutes front = reroutes g
    ∧ groups back = groups g ∧ reroutes back = reroutes g.
Proof.
  intros Hg. unfold bringToFront, sendToBack. rewrite Hg.
  cbn [mbind option_bind graph set_graph].
  destruct (decide (node ∈ _nodes g)) as [Hin|Hin].
  - rewrite !bool_decide_eq_true_2 by done.
    eexists _, _. split; [reflexivity|]. split; [reflexivity|].
    cbn [_nodes groups reroutes].
    split; [|split; [|split; [|split; [|split; [|split]]]]].
    + rewrite (remove_first_perm node (_nodes g) Hin) at 2.
      by rewrite Permutation_app_comm.
    + by rewrite <- (remove_first_perm node (_nodes g) Hin).
    + rewrite filter_app, remove_first_others.
      rewrite filter_cons_False by (intros H; by apply H).
      by rewrite filter_nil, app_nil_r.
    + rewrite filter_cons_False by (intros H; by apply H).
      apply remove_first_others.
    + intros _. split; [apply last_snoc|done].
    + done.
    + done.
  - rewrite !bool_decide_eq_false_2 by done.
    exists g, g. repeat split; done.
Qed.

(** X7: [bringToFront] and [sendToBack] only reorder the nodes of the graph:
    the list is a permutation of what it was, the nodes other than the one
    given keep their relative order, and the node given ends up last (drawn
    above all others), respectively first; groups and reroutes are not
    touched, and for a node that is not in the graph nothing changes.  When
    the nodes are pairwise distinct, doing either twice is doing it once. *)
Theorem bringToFront_sendToBack_reorder (node : Ref) (c : LGraphCanvas)
    (g : LGraph) :
  graph c = Some g →
  ∃ front back,
    graph (bringToFront node c) = Some front
    ∧ graph (sendToBack node c) = Some back
    ∧ _nodes front ≡ₚ _nodes g ∧ _nodes back ≡ₚ _nodes g
    ∧ filter (λ x, x ≠ node) (_nodes front) = filter (λ x, x ≠ node) (_nodes g)
    ∧ filter (λ x, x ≠ node) (_nodes back) = filter (λ x, x ≠ node) (_nodes g)
    ∧ (node ∈ _nodes g →
       last (_nodes front) = Some node ∧ head (_nodes back) = Some node)
    ∧ (node ∉ _nodes g → front = g ∧ back = g)
    ∧ groups front = groups g ∧ reroutes front = reroutes g
    ∧ groups back = groups g ∧ reroutes back = reroutes g
    ∧ (NoDup (_nodes g) →
       bringToFront node (bringToFront node c) = bringToFront node c
       ∧ sendToBack node (sendToBack node c) = sendToBack node c).
Proof.
  intros Hg.
  destruct (reorder_nodes node c g Hg)
    as (front & back & H1 & H2 & H3 & H4 & H5 & H6 & H7 & H8 & H9 & H10
        & H11 & H12).
  exists front, back.
  repeat (split; [assumption|]).
  intros Hnd. by apply (bringToFront_idempotent node c g).
Qed.

Lemma bringToFront_sendToBack_reorder_witness :
  (_nodes <$> graph (bringToFront 1%positive example_canvas))
  = Some [2%positive; 1%positive]
  ∧ (_nodes <$> graph (sendToBack 2%positive example_canvas))
    = Some [2%positive; 1%positive].
Proof.
  destruct (bringToFront_sendToBack_reorder 1%positive example_canvas
              example_graph eq_refl)
    as (front & back & H1 & _ & _).
  split; [|by vm_compute].
  rewrite H1. vm_compute in H1. by injection H1 as <-.
Defined.


(** ** Slots under the pointer *)

Section SlotHits.
Context (W : Collaborators) (M : Measure).

Lemma isOverNodeInput_from_spec node n x y i0 (ins : list INodeInputSlot) :
  let r := isOverNodeInput_from W M node (node_horizontal n) x y i0 ins in
  (r = (-1)%Z
   ∧ ∀ k input, ins !! k = Some input →
                input_slot_hit W M node n x y (i0 + k) input = false)
  ∨ (∃ k input,
       r = Z.of_nat (i0 + k) ∧ ins !! k = Some input
       ∧ input_slot_hit W M node n x y (i0 + k) input = true
       ∧ ∀ j input', (j < k)%nat → ins !! j = Some input' →
                     input_slot_hit W M node n x y (i0 + j) input' = false).
Proof.
  revert i0. induction ins as [|input ins IH]; intros i0; cbn zeta.
  - left. split; [done|]. intros k input H. by rewrite lookup_nil in H.
  - cbn [isOverNodeInput_from].
    assert ((if node_horizontal n
             then isInRectangle M x y
                    (px (getConnectionPos W node true (Z.of_nat i0)) - 5)
                    (py (getConnectionPos W node true (Z.of_nat i0)) - 10)
                    10 20
             else isInRectangle M x y
                    (px (getConnectionPos W node true (Z.of_nat i0)) - 10)
                    (py (getConnectionPos W node true (Z.of_nat i0)) - 10)
                    (input_hit_width input) 20)
            = input_slot_hit W M node n x y i0 input) as -> by done.
    destruct (input_slot_hit W M node n x y i0 input) eqn:Hhit.
    + right. exists 0%nat, input. rewrite Nat.add_0_r.
      split; [done|]. split; [done|]. split; [done|]. intros j ? Hj. lia.
    + destruct (IH (S i0)) as [[Hr Hall]|(k & inp & Hr & Hk & Hh & Hbefore)].
      * left. split; [exact Hr|]. intros [|k] inp Hk.
        -- injection Hk as <-. by rewrite Nat.add_0_r.
        -- replace (i0 + S k)%nat with (S i0 + k)%nat by lia.
           by apply Hall.
      * right. exists (S k), inp.
        replace (i0 + S k)%nat with (S i0 + k)%nat by lia.
        split; [exact Hr|]. split; [exact Hk|]. split; [exact Hh|].
        intros [|j] inp' Hj Hl.
        -- injection Hl as <-. by rewrite Nat.add_0_r.
        -- replace (i0 + S j)%nat with (S i0 + j)%nat by lia.
           apply Hbefore; [lia|done].
Qed.

Lemma isOverNodeOutput_from_spec node n x y i0 (outs : list INodeOutputSlot) :
  let r := isOverNodeOutput_from W M node (node_horizontal n) x y i0 outs in
  (r = (-1)%Z
   ∧ ∀ k, (k < length outs)%nat →
          output_slot_hit W M node n x y (i0 + k) = false)
  ∨ (∃ k,
       r = Z.of_nat (i0 + k) ∧ (k < length outs)%nat
       ∧ output_slot_hit W M node n x y (i0 + k) = true
       ∧ ∀ j, (j < k)%nat →
              output_slot_hit W M node n x y (i0 + j) = false).
Proof.
  revert i0. induction outs as [|output outs IH]; intros i0; cbn zeta.
  - left. split; [done|]. intros k H. simpl in H. lia.
  - cbn [isOverNodeOutput_from].
    assert ((if node_horizontal n
             then isInRectangle M x y
                    (px (getConnectionPos W node false (Z.of_nat i0)) - 5)
                    (py (getConnectionPos W node false (Z.of_nat i0)) - 10)
                    10 20
             else isInRectangle M x y
                    (px (getConnectionPos W node false (Z.of_nat i0)) - 10)
                    (py (getConnectionPos W node false (Z.of_nat i0)) - 10)
                    40 20)
            = output_slot_hit W M node n x y i0) as -> by done.
    destruct (output_slot_hit W M node n x y i0) eqn:Hhit.
    + right. exists 0%nat. rewrite Nat.add_0_r.
      split; [done|]. split; [simpl; lia|]. split; [done|]. intros j Hj. lia.
    + destruct (IH (S i0)) as [[Hr Hall]|(k & Hr & Hk & Hh & Hbefore)].
      * left. split; [exact Hr|]. intros [|k] Hk.
        -- by rewrite Nat.add_0_r.
        -- replace (i0 + S k)%nat with (S i0 + k)%nat by lia.
           apply Hall. simpl in Hk. lia.
      * right. exists (S k).
        replace (i0 + S k)%nat with (S i0 + k)%nat by lia.
        split; [exact Hr|]. split; [simpl; lia|]. split; [exact Hh|].
        intros [|j] Hj.
        -- by rewrite Nat.add_0_r.
        -- replace (i0 + S j)%nat with (S i0 + j)%nat by lia.
           apply Hbefore. lia.
Qed.
End SlotHits.

(** X8: [isOverNodeInput] and [isOverNodeOutput] return -1 exactly when no
    slot of the node has the position in its hit box (in particular for a
    node without slots), and otherwise the index of the first slot that
    has. *)
Theorem isOverNode_first_hit (W : Collaborators) (M : Measure) (node : Ref)
    (n : LGraphNode) (x y : float) :
  let ins := default [] (inputs n) in
  let outs := default [] (outputs n) in
  let i := isOverNodeInput W M node n x y in
  let o := isOverNodeOutput W M node n x y in
  (i = (-1)%Z
   ↔ ∀ k input, ins !! k = Some input →
                input_slot_hit W M node n x y k input = false)
  ∧ (∀ k, i = Z.of_nat k →
          (∃ input, ins !! k = Some input
                    ∧ input_slot_hit W M node n x y k input = true)
          ∧ ∀ j input, (j < k)%nat → ins !! j = Some input →
                       input_slot_hit W M node n x y j input = false)
  ∧ (i = (-1)%Z ∨ ∃ k, i = Z.of_nat k ∧ (k < length ins)%nat)
  ∧ (o = (-1)%Z
     ↔ ∀ k, (k < length outs)%nat → output_slot_hit W M node n x y k = false)
  ∧ (∀ k, o = Z.of_nat k →
          (k < length outs)%nat
          ∧ output_slot_hit W M node n x y k = true
          ∧ ∀ j, (j < k)%nat → output_slot_hit W M node n x y j = false)
  ∧ (o = (-1)%Z ∨ ∃ k, o = Z.of_nat k ∧ (k < length outs)%nat).
Proof.
  intros ins outs i o.
  assert (i = isOverNodeInput_from W M node (node_horizontal n) x y 0 ins)
    as Hi.
  { unfold i, ins, isOverNodeInput. by destruct (inputs n). }
  assert (o = isOverNodeOutput_from W M node (node_horizontal n) x y 0 outs)
    as Ho.
  { unfold o, outs, isOverNodeOutput. by destruct (outputs n). }
  pose proof (isOverNodeInput_from_spec W M node n x y 0 ins) as HI.
  pose proof (isOverNodeOutput_from_spec W M node n x y 0 outs) as HO.
  cbn zeta in HI, HO. cbn [Nat.add] in HI, HO.
  rewrite <- Hi in HI. rewrite <- Ho in HO.
  clearbody i o ins outs. clear Hi Ho.
  split; [|split; [|split; [|split; [|split]]]].
  - destruct HI as [[Hr Hall]|(k & inp & Hr & Hk & Hh & Hb)].
    + split; [intros _; exact Hall|done].
    + split; [lia|]. intros Hall. rewrite (Hall k inp Hk) in Hh. done.
  - intros k Hk. destruct HI as [[Hr Hall]|(k' & inp & Hr & Hk' & Hh & Hb)];
      [lia|].
    assert (k' = k) as -> by (simpl in Hr; lia).
    split; [by exists inp|exact Hb].
  - destruct HI as [[Hr Hall]|(k & inp & Hr & Hk & Hh & Hb)]; [by left|].
    right. exists k. split; [exact Hr|]. by apply lookup_lt_Some in Hk.
  - destruct HO as [[Hr Hall]|(k & Hr & Hk & Hh & Hb)].
    + split; [intros _; exact Hall|done].
    + split; [lia|]. intros Hall. rewrite (Hall k Hk) in Hh. done.
  - intros k Hk. destruct HO as [[Hr Hall]|(k' & Hr & Hk' & Hh & Hb)]; [lia|].
    assert (k' = k) as -> by (simpl in Hr; lia). done.
  - destruct HO as [[Hr Hall]|(k & Hr & Hk & Hh & Hb)]; [by left|].
    right. by exists k.
Qed.

(** On node 1 of the example graph the position (62, 25) is on output 0 and
    on no input. *)
Lemma isOverNode_first_hit_witness :
  isOverNodeOutput example_collaborators measure 1%positive example_node_a
    62 25 = 0
  ∧ output_slot_hit example_collaborators measure 1%positive example_node_a
      62 25 0 = true
  ∧ isOverNodeInput example_collaborators measure 1%positive example_node_a
      62 25 = -1.
Proof.
  destruct (isOverNode_first_hit example_collaborators measure 1%positive
              example_node_a 62 25) as (_ & _ & _ & _ & H & _).
  assert (isOverNodeOutput example_collaborators measure 1%positive
            example_node_a 62 25 = Z.of_nat 0) as H0 by (by vm_compute).
  destruct (H 0%nat H0) as (_ & Hhit & _).
  split; [exact H0|]. split; [exact Hhit|]. by vm_compute.
Defined.

(** ** Calls made by a press *)

Section PressTraces.
Context (cfg : Config) (W : Collaborators) (M : Measure).

Ltac ncs_block := split_state; ncs_direct.

Lemma ncs_processWidgetClick e node widget c :
  no_connection_since c (processWidgetClick e node widget c).
Proof. unfold processWidgetClick. ncs_block. Qed.





Lemma ncs_bringToFront node c : no_connection_since c (bringToFront node c).
Proof. by apply ncs_same_trace. Qed.











End PressTraces.
Section HookTraces.
Context (cfg : Config) (W : Collaborators) (M : Measure).



End HookTraces.



(** ** A press on a read-only canvas *)

Section ReadOnly.
Context (cfg : Config) (W : Collaborators) (M : Measure).
Hypothesis Hro : read_only cfg = true.




End ReadOnly.



(** ** Pointer up *)

(** X11: [processMouseUp] ignores the events of a pointer that is not the
    primary one, and every event while the canvas has no graph.  Otherwise
    it throws exactly when [pointer.up] does, and when [pointer.up] returns
    it always leaves [pointer.isDown] and [pointer.isDouble] false and ends
    with [graph.change()]; [connecting_links] is null afterwards when the
    release is a click or comes from button 0, and a release of button 0
    that is not a click also ends the drag of items.  A release of another
    button that is not a click leaves the connecting links as they are. *)
Theorem processMouseUp_resets (cfg : Config) (W : Collaborators) (M : Measure)
    (e : CanvasPointerEvent) (c : LGraphCanvas) :
  let result := processMouseUp cfg W M e c in
  let up := pointer_up cfg W M e c in
  (isPrimary e = false ∨ graph c = None → result = Some c)
  ∧ (isPrimary e = true → is_Some (graph c) →
     (result = None ↔ up = None)
     ∧ ∀ isClick c1, up = Some (isClick, c1) →
       ∃ c', result = Some c'
       ∧ isDown (pointer c') = false
       ∧ isDouble (pointer c') = false
       ∧ (∃ d, trace c' = d ++ [E_graph_change])
       ∧ (isClick = true ∨ button e = 0 → connecting_links (modes c') = None)
       ∧ (isClick = true → dragging_canvas (modes c') = false)
       ∧ (isClick = false → button e = 0 → isDragging (modes c') = false)
       ∧ (isClick = false → button e = 1 →
          dragging_canvas (modes c') = false)
       ∧ (isClick = false → button e ≠ 0 →
          connecting_links (modes c') = connecting_links (modes c1))).
Proof.
  intros result up. unfold result, processMouseUp. split.
  - intros [->|Hg]; [done|]. destruct (negb _); [done|]. by rewrite Hg.
  - intros -> [g ->]. cbn [negb]. fold up. split.
    { destruct up as [[isClick c1]|]; simpl; split; done. }
    intros isClick c1 ->. cbn [mbind option_bind].
    eexists. split; [reflexivity|].
    destruct isClick.
    + split; [done|]. split; [done|]. split; [by eexists|].
      split; [done|]. split; [done|]. repeat split; intros; done.
    + split; [done|]. split; [done|]. split; [by eexists|].
      split; [|split; [done|split; [|split]]].
      * intros [?|Hb]; [done|]. by rewrite bool_decide_eq_true_2.
      * intros _ Hb. rewrite bool_decide_eq_true_2 by done.
        cbn [modes upd_pointer set_pointer emit set_trace upd_modes set_modes
               connecting_links set_connecting_links isDragging].
        match goal with
        | |- context [releaseConnectingLinks cfg W M e ?nd ?c0] =>
            assert (isDragging (modes (releaseConnectingLinks cfg W M e nd c0))
                    = isDragging (modes c0)) as ->
        end; [|done].
        unfold releaseConnectingLinks.
        match goal with
        | |- context [match ?x with Some _ => _ | None => _ end] =>
            destruct x as [[|first others]|]
        end; try done.
        match goal with
        | |- context [match ?x with Some _ => _ | None => _ end] =>
            destruct x as [[node n]|]
        end.
        -- apply (foldl_preserves
                    (λ c2, isDragging (modes c2) = isDragging (modes _))).
           ++ intros c2 l H. rewrite <- H. unfold releaseLinkOverNode.
              split_state; done.
           ++ done.
        -- split_state; done.
      * intros _ Hb. rewrite bool_decide_eq_false_2 by (rewrite Hb; done).
        by rewrite bool_decide_eq_true_2.
      * intros _ Hb. rewrite bool_decide_eq_false_2 by done.
        destruct (bool_decide (button e = 1)); [done|].
        by destruct (bool_decide (button e = 2)).
Qed.

(** ** The link under the pointer *)

Lemma getLinkCentreOnPos_from_find M e (rendered : list LinkSegment) :
  getLinkCentreOnPos_from M e rendered = List.find (centre_hit M e) rendered.
Proof.
  induction rendered as [|s rendered IH]; [done|].
  cbn [getLinkCentreOnPos_from List.find]. unfold centre_hit at 1.
  destruct (_pos s) as [centre|]; [|exact IH].
  by destruct (isInRectangle M _ _ _ _ _ _).
Qed.

(** X12: the link found by [#getLinkCentreOnPos], which decides the link
    tooltip while hovering, is the first rendered segment that has a centre
    point with the pointer in the 8 by 8 box round it; segments without a
    centre point are skipped.  It is also the link whose menu a plain press
    at that position opens: for a primary press with no modifier key outside
    every node and reroute, on a canvas that is not read-only and has no hook
    installed, the click action is [showLinkMenu] of a segment exactly when
    that segment is the one [#getLinkCentreOnPos] returns. *)
Theorem hovered_link_is_pressed_link (cfg : Config) (W : Collaborators)
    (M : Measure) (e : CanvasPointerEvent) (c : LGraphCanvas) :
  (∀ segment,
     getLinkCentreOnPos M e c = Some segment ↔
     ∃ before after centre,
       renderedPaths c = before ++ segment :: after
       ∧ _pos segment = Some centre
       ∧ isInRectangle M (canvasX e) (canvasY e) (px centre - 4)%float
           (py centre - 4)%float 8%float 8%float = true
       ∧ Forall (λ s, centre_hit M e s = false) before)
  ∧ (shiftKey e = false → altKey e = false →
     ctrlKey e = false → metaKey e = false →
     read_only cfg = false →
     (if reroutesEnabled cfg
      then r ← getRerouteOnPos W (canvasX e) (canvasY e); as_reroute c r
      else None) = None →
     no_hooks (pointer c) →
     ∀ segment,
       onClick (pointer (processPrimaryButton cfg W M e None c))
       = Some (Click_showLinkMenu segment)
       ↔ getLinkCentreOnPos M e c = Some segment).
Proof.
  unfold getLinkCentreOnPos. rewrite getLinkCentreOnPos_from_find. split.
  - intros segment. generalize (renderedPaths c). intros l.
    induction l as [|s l IH]; cbn [List.find].
    + split; [done|]. intros (b & a & ce & H & _). by destruct b.
    + destruct (centre_hit M e s) eqn:Hs.
      * split.
        -- intros [= ->]. unfold centre_hit in Hs.
           destruct (_pos segment) as [centre|] eqn:Hp; [|done].
           exists [], l, centre. by repeat split.
        -- intros (b & a & ce & H & Hp & Hin & Hb).
           destruct b as [|s' b].
           ++ by injection H as ->.
           ++ injection H as -> _. apply Forall_cons in Hb as [Hb _].
              by rewrite Hb in Hs.
      * rewrite IH. split.
        -- intros (b & a & ce & -> & Hp & Hin & Hb).
           exists (s :: b), a, ce. repeat split; try done.
           by constructor.
        -- intros (b & a & ce & H & Hp & Hin & Hb).
           destruct b as [|s' b].
           ++ injection H as -> _. unfold centre_hit in Hs.
              rewrite Hp, Hin in Hs. done.
           ++ injection H as -> ->. apply Forall_cons in Hb as [_ Hb].
              by exists b, a, ce.
  - intros Hs Ha Hc Hm Hro Hrr Hh segment.
    destruct (List.find (centre_hit M e) (renderedPaths c)) as [s|] eqn:Hfind.
    + rewrite (processPrimaryButton_plain_hit cfg W M e c s) by done.
      cbn [pointer upd_modes upd_pointer set_pointer set_modes onClick
             set_finally set_onDragStart set_onClick].
      split; [by intros [= ->] | by intros [= ->]].
    + destruct (processPrimaryButton_plain_miss cfg W M e c) as [Hno _];
        try done.
      split; [|done]. intros H. by destruct (Hno segment).
Qed.

(** On the example canvas with link 5 rendered, the pointer at its centre
    (200, 300) finds it, and a plain press there opens its menu. *)
Lemma hovered_link_is_pressed_link_witness :
  let e := example_event_at 200 300 0 false false false in
  getLinkCentreOnPos measure e example_canvas_with_link = Some example_segment
  ∧ onClick (pointer (processPrimaryButton example_config
                        example_collaborators measure e None
                        example_canvas_with_link))
    = Some (Click_showLinkMenu example_segment).
Proof.
  intros e.
  destruct (hovered_link_is_pressed_link example_config example_collaborators
              measure e example_canvas_with_link) as [_ H].
  assert (getLinkCentreOnPos measure e example_canvas_with_link
          = Some example_segment) as Hget by (by vm_compute).
  split; [exact Hget|].
  apply H; try reflexivity; try exact Hget.
  vm_compute. by repeat split.
Defined.

(** ** What rendering a link writes *)

Lemma same_segment_refl cached s : same_segment cached s s.
Proof. by repeat split. Qed.

Lemma same_segment_trans cached s1 s2 s3 :
  same_segment cached s1 s2 → same_segment cached s2 s3 →
  same_segment cached s1 s3.
Proof.
  intros (A1 & A2 & A3 & A4 & A5) (B1 & B2 & B3 & B4 & B5).
  repeat split; try congruence. intros Hc. by rewrite B5, A5.
Qed.

Lemma render_frame_refl ls cached st : render_frame ls cached st st.
Proof.
  split; [done|]. split; [done|]. intros r.
  destruct (segments st !! r); [|done]. split; [apply same_segment_refl|done].
Qed.

Lemma render_frame_trans ls cached st1 st2 st3 :
  render_frame ls cached st1 st2 → render_frame ls cached st2 st3 →
  render_frame ls cached st1 st3.
Proof.
  intros (A1 & A2 & A3) (B1 & B2 & B3).
  split; [congruence|]. split; [congruence|]. intros r.
  specialize (A3 r). specialize (B3 r).
  destruct (segments st1 !! r), (segments st2 !! r), (segments st3 !! r);
    try done.
  destruct A3 as [A3 A4], B3 as [B3 B4].
  split; [by eapply same_segment_trans|].
  intros H. by rewrite (B4 H), (A4 H).
Qed.

Lemma render_frame_same ls cached st st' :
  segments st' = segments st → visible_links st' = visible_links st →
  render_highlighted st' = render_highlighted st →
  render_frame ls cached st st'.
Proof.
  intros H1 H2 H3. split; [done|]. split; [done|]. intros r. rewrite H1.
  destruct (segments st !! r); [|done]. split; [apply same_segment_refl|done].
Qed.

Lemma render_frame_upd_segment ls cached f st0 st :
  (∀ s, same_segment cached s (f s)) →
  render_frame ls cached st0 st →
  render_frame ls cached st0 (upd_segment ls f st).
Proof.
  intros Hf H. eapply render_frame_trans; [exact H|].
  split; [by destruct ls|]. split; [by destruct ls|]. intros r.
  rewrite upd_segment_lookup.
  destruct (segments st !! r) as [s|]; [|done]. simpl.
  case_bool_decide as Hr.
  - split; [apply Hf|done].
  - split; [apply same_segment_refl|done].
Qed.

Lemma render_frame_lTempA ls cached v st0 st :
  render_frame ls cached st0 st → render_frame ls cached st0 (set_lTempA v st).
Proof. intros H. exact H. Qed.

Lemma render_frame_lTempB ls cached v st0 st :
  render_frame ls cached st0 st → render_frame ls cached st0 (set_lTempB v st).
Proof. intros H. exact H. Qed.

Lemma render_frame_lTempC ls cached v st0 st :
  render_frame ls cached st0 st → render_frame ls cached st0 (set_lTempC v st).
Proof. intros H. exact H. Qed.

Lemma render_frame_upd_ctx ls cached f st0 st :
  render_frame ls cached st0 st → render_frame ls cached st0 (upd_ctx f st).
Proof. intros H. exact H. Qed.

Lemma ctx_lTempA v st : ctx (set_lTempA v st) = ctx st.
Proof. done. Qed.
Lemma ctx_lTempB v st : ctx (set_lTempB v st) = ctx st.
Proof. done. Qed.
Lemma ctx_lTempC v st : ctx (set_lTempC v st) = ctx st.
Proof. done. Qed.

(** Closes [render_frame ls cached st st'] for a state [st'] that is [st]
    under writes to the scratch arrays and to the cache of [ls]. *)
Ltac render_frame_steps :=
  repeat first
    [ apply render_frame_upd_segment;
      [intros ?; repeat split; intros; done|]
    | apply render_frame_lTempA
    | apply render_frame_lTempB
    | apply render_frame_lTempC ];
  apply render_frame_refl.

Section RenderFrame.
Context (R : RenderOptions) (M : Measure) (D : Declarations) (J : MathEnv).

(** What an iteration of the loop does to the segments, the list of visible
    links and the context, whichever way it ends. *)
Lemma renderSubline_frame a b startDir endDir startControl endControl dist
    linkSegment cached num_sublines i path pos st :
  let st' :=
    match renderSubline R M D J a b startDir endDir startControl endControl
            dist linkSegment cached num_sublines i path pos st with
    | Subline_returned st' | Subline_done _ _ st' => st'
    end in
  ctx st' = ctx st ∧ render_frame linkSegment cached st st'.
Proof.
  unfold renderSubline, path_add, pos_write. cbv beta iota zeta.
  destruct (_ =? SPLINE_LINK D)%Z; [|destruct (_ =? LINEAR_LINK D)%Z;
                                      [|destruct (_ =? STRAIGHT_LINK D)%Z]].
  4:{ split; [done|]. render_frame_steps. }
  all: destruct cached;
    destruct (bool_decide (is_Some linkSegment) && is_arrow (linkMarkerShape R));
    cbv beta iota zeta.
  all: split;
    [ by rewrite ?upd_segment_ctx, ?ctx_lTempC, ?upd_segment_ctx,
        ?upd_segment_ctx
    | render_frame_steps ].
Qed.
End RenderFrame.

Section RenderFrameLoop.
Context (cfg : Config) (R : RenderOptions) (M : Measure) (D : Declarations)
  (J : MathEnv).

Lemma renderSublines_frame a b startDir endDir startControl endControl dist
    linkSegment cached num_sublines indices path pos st :
  let st' :=
    match renderSublines R M D J a b startDir endDir startControl endControl
            dist linkSegment cached num_sublines indices path pos st with
    | Subline_returned st' | Subline_done _ _ st' => st'
    end in
  ctx st' = ctx st ∧ render_frame linkSegment cached st st'.
Proof.
  revert path pos st.
  induction indices as [|i indices IH]; intros path pos st;
    cbn [renderSublines].
  - split; [done|apply render_frame_refl].
  - pose proof (renderSubline_frame R M D J a b startDir endDir startControl
                  endControl dist linkSegment cached num_sublines i path pos
                  st) as H.
    cbv zeta in H.
    destruct (renderSubline R M D J a b startDir endDir startControl
                endControl dist linkSegment cached num_sublines i path pos st)
      as [st1|path1 pos1 st1].
    + exact H.
    + destruct H as [Hc Hf].
      destruct (IH path1 pos1 st1) as [Hc' Hf'].
      split; [by rewrite Hc', Hc|by eapply render_frame_trans].
Qed.

Lemma flowPoints_rest a b startDir endDir st (indices : list nat) :
  let st' := foldl (flowPoint M J a b startDir endDir) st indices in
  visible_links st' = visible_links st
  ∧ render_highlighted st' = render_highlighted st.
Proof.
  revert st. induction indices as [|i indices IH]; intros st; [done|].
  cbn [foldl]. destruct (IH (flowPoint M J a b startDir endDir st i)) as [H1 H2].
  split; [by rewrite H1|by rewrite H2].
Qed.

Lemma renderStrokes_rest a b startDir endDir linkSegment skip_border flow
    linkColour path pos st :
  let st' := renderStrokes cfg R M J a b startDir endDir linkSegment
               skip_border flow linkColour path pos st in
  visible_links st' = visible_links st
  ∧ render_highlighted st' = render_highlighted st.
Proof.
  unfold renderStrokes. cbv zeta.
  destruct (truthy_number flow).
  - match goal with
    | |- context [foldl ?f ?s ?l] =>
        destruct (flowPoints_rest a b startDir endDir s l) as [-> ->]
    end.
    destruct linkSegment as [r|]; repeat (split_state; try done).
  - destruct linkSegment as [r|]; repeat (split_state; try done).
Qed.
End RenderFrameLoop.

(** X13: a call of [renderLink] that returns adds the link, if there is one,
    to [visible_links] and writes the render cache of one segment at most,
    the reroute given or else the link: no segment is added or removed,
    every other segment is exactly as before, the segment written keeps its
    [id], [parentId] and origin, and a segment without a [_pos] array does
    not get one.  [highlighted_links] is only read. *)
Theorem renderLink_writes_one_segment (cfg : Config) (R : RenderOptions)
    (M : Measure) (D : Declarations) (J : MathEnv) (a b : Point)
    (link : option RenderedLink) (skip_border : bool) (flow : float)
    (color : option string) (start_dir end_dir : option LinkDirection)
    (startControl endControl : option Point) (reroute : option Ref)
    (num_sublines : option Z) (st st' : RenderState) :
  renderLink cfg R M D J a b link skip_border flow color start_dir end_dir
    startControl endControl reroute num_sublines st = Some st' →
  let linkSegment := match reroute with
                     | Some r => Some r
                     | None => rl_ref <$> link
                     end in
  visible_links st'
  = visible_links st ++ match link with Some l => [rl_ref l] | None => [] end
  ∧ render_highlighted st' = render_highlighted st
  ∧ (∀ r, is_Some (segments st' !! r) ↔ is_Some (segments st !! r))
  ∧ (∀ r, linkSegment ≠ Some r → segments st' !! r = segments st !! r)
  ∧ (∀ r s s', segments st !! r = Some s → segments st' !! r = Some s' →
               seg_id s' = seg_id s ∧ seg_parentId s' = seg_parentId s
               ∧ origin_id s' = origin_id s ∧ origin_slot s' = origin_slot s
               ∧ (_pos s = None → _pos s' = None)).
Proof.
  intros Hr linkSegment. unfold renderLink in Hr. fold linkSegment in Hr.
  set (st0 := match link with Some _ => _ | None => st end) in Hr.
  destruct (linkColourOf R link color st0) as [colour|]; [|done].
  cbn [mbind option_bind] in Hr.
  set (n := if (default 1%Z num_sublines =? 0)%Z then 1%Z
            else default 1%Z num_sublines) in Hr.
  set (stp := if (1 <? n)%Z then _ else _) in Hr.
  set (st1 := upd_segment linkSegment (set_seg_path (Some [])) stp) in Hr.
  set (cachedPos := linkSegment ≫= _) in Hr.
  set (cached := bool_decide (is_Some cachedPos)) in Hr.
  assert (segments stp = segments st ∧ visible_links stp
          = visible_links st ++ match link with
                                | Some l => [rl_ref l]
                                | None => []
                                end
          ∧ render_highlighted stp = render_highlighted st)
    as (Hs0 & Hv0 & Hh0).
  { unfold stp, st0. destruct (1 <? n)%Z, (withBorder R), link; simpl;
      rewrite ?app_nil_r; done. }
  assert (render_frame linkSegment cached stp st1) as Hf1.
  { unfold st1. render_frame_steps. }
  assert (render_frame linkSegment cached stp st') as Hf.
  { eapply render_frame_trans; [exact Hf1|].
    match type of Hr with
    | match renderSublines R M D J a b ?sd ?ed ?sc ?ec ?di ?ls ?ca ?nn ?ix ?pa
              ?po ?s0 with _ => _ end = _ =>
        pose proof (renderSublines_frame R M D J a b sd ed sc ec di ls ca nn
                      ix pa po s0) as Hloop;
        cbv zeta in Hloop;
        destruct (renderSublines R M D J a b sd ed sc ec di ls ca nn ix pa po
                    s0) as [st2|path2 pos2 st2]
    end.
    - injection Hr as <-. apply Hloop.
    - injection Hr as <-. destruct Hloop as [_ Hloop].
      eapply render_frame_trans; [exact Hloop|].
      apply render_frame_same.
      + apply renderStrokes_segments.
      + apply renderStrokes_rest.
      + apply renderStrokes_rest. }
  destruct Hf as (Hv & Hh & Hseg). rewrite Hs0 in Hseg.
  split; [by rewrite Hv|]. split; [by rewrite Hh|].
  split; [|split].
  - intros r. specialize (Hseg r).
    destruct (segments st !! r), (segments st' !! r); try done;
      split; first [intros _; by eexists | by intros [? [=]]].
  - intros r Hne. specialize (Hseg r).
    destruct (segments st !! r), (segments st' !! r); try done.
    destruct Hseg as [_ Hseg]. by rewrite (Hseg Hne).
  - intros r s s' E1 E2. specialize (Hseg r). rewrite E1, E2 in Hseg.
    destruct Hseg as [(A1 & A2 & A3 & A4 & A5) Hother].
    split; [done|]. split; [done|]. split; [done|]. split; [done|].
    intros Hnone.
    destruct (decide (linkSegment = Some r)) as [Hls|Hls].
    + rewrite A5; [done|]. unfold cached. apply bool_decide_eq_false_2.
      intros [p Hp]. unfold cachedPos in Hp. rewrite Hls in Hp.
      cbn [mbind option_bind] in Hp. unfold st1 in Hp.
      rewrite upd_segment_lookup, Hs0, E1 in Hp. simpl in Hp.
      rewrite bool_decide_eq_true_2 in Hp by done. cbn in Hp. congruence.
    + by rewrite (Hother Hls).
Qed.

Lemma renderLink_writes_one_segment_witness :
  ∃ st',
    renderLink example_config (example_render_options 2) measure
      example_declarations example_math (mkPoint 0 0) (mkPoint 100 0)
      (Some example_rendered_link) false 0 None (Some RIGHT) (Some LEFT)
      None None None None example_render_state = Some st'
    ∧ visible_links st' = visible_links example_render_state ++ [5%positive]
    ∧ (∀ r, Some 5%positive ≠ Some r →
            segments st' !! r = segments example_render_state !! r).
Proof.
  destruct (renderLink example_config (example_render_options 2) measure
              example_declarations example_math (mkPoint 0 0) (mkPoint 100 0)
              (Some example_rendered_link) false 0 None (Some RIGHT)
              (Some LEFT) None None None None example_render_state)
    as [st'|] eqn:E; [|vm_compute in E; discriminate E].
  destruct (renderLink_writes_one_segment _ _ _ _ _ _ _ _ _ _ _ _ _ _ _ _ _ _
              st' E) as (H1 & _ & _ & H4 & _).
  exists st'. split; [reflexivity|]. split; [exact H1|exact H4].
Defined.

Section RenderStroke.
Context (cfg : Config) (R : RenderOptions) (M : Measure) (D : Declarations)
  (J : MathEnv).

(** In one of the three modes an iteration goes through, and leaves on the
    segment the path it has extended. *)
Lemma renderSubline_done a b startDir endDir startControl endControl dist
    linkSegment cached num_sublines i path pos st :
  links_render_mode R = SPLINE_LINK D ∨ links_render_mode R = LINEAR_LINK D
  ∨ links_render_mode R = STRAIGHT_LINK D →
  ∃ path' pos' st',
    renderSubline R M D J a b startDir endDir startControl endControl dist
      linkSegment cached num_sublines i path pos st
    = Subline_done path' pos' st'
    ∧ ∀ r s', linkSegment = Some r → segments st' !! r = Some s' →
              seg_path s' = Some path'.
Proof.
  intros Hmode. unfold renderSubline, path_add, pos_write.
  cbv beta iota zeta.
  destruct (Z.eqb_spec (links_render_mode R) (SPLINE_LINK D)) as [E1|E1];
    [|destruct (Z.eqb_spec (links_render_mode R) (LINEAR_LINK D)) as [E2|E2];
      [|destruct (Z.eqb_spec (links_render_mode R) (STRAIGHT_LINK D))
          as [E3|E3]]].
  4:{ exfalso. destruct Hmode as [?|[?|?]]; done. }
  all: destruct cached;
    destruct (bool_decide (is_Some linkSegment) && is_arrow (linkMarkerShape R));
    cbv beta iota zeta.
  all: eexists _, _, _; split; [reflexivity|].
  all: intros r s' ->;
    rewrite ?upd_segment_lookup;
    cbn [segments set_lTempA set_lTempB set_lTempC];
    rewrite ?upd_segment_lookup;
    cbn [segments set_lTempA set_lTempB set_lTempC];
    rewrite ?upd_segment_lookup;
    cbn [segments set_lTempA set_lTempB set_lTempC];
    rewrite bool_decide_eq_true_2 by done;
    destruct (segments st !! r) as [s0|]; [|done];
    cbn [fmap option_fmap option_map]; intros [= <-]; reflexivity.
Qed.

Lemma renderSublines_done a b startDir endDir startControl endControl dist
    linkSegment cached num_sublines indices path pos st :
  links_render_mode R = SPLINE_LINK D ∨ links_render_mode R = LINEAR_LINK D
  ∨ links_render_mode R = STRAIGHT_LINK D →
  (∀ r s, linkSegment = Some r → segments st !! r = Some s →
          seg_path s = Some path) →
  ∃ path' pos' st',
    renderSublines R M D J a b startDir endDir startControl endControl dist
      linkSegment cached num_sublines indices path pos st
    = Subline_done path' pos' st'
    ∧ ∀ r s', linkSegment = Some r → segments st' !! r = Some s' →
              seg_path s' = Some path'.
Proof.
  intros Hmode. revert path pos st.
  induction indices as [|i indices IH]; intros path pos st Hinv;
    cbn [renderSublines].
  - by eexists _, _, _.
  - destruct (renderSubline_done a b startDir endDir startControl endControl
                dist linkSegment cached num_sublines i path pos st Hmode)
      as (path1 & pos1 & st1 & -> & H1).
    by apply IH.
Qed.

Lemma flowPoints_drawn a b startDir endDir st (indices : list nat) :
  ∃ ops, drawn (ctx (foldl (flowPoint M J a b startDir endDir) st indices))
         = drawn (ctx st) ++ ops
         ∧ ∀ p, Op_stroke p ∉ ops.
Proof.
  revert st. induction indices as [|i indices IH]; intros st.
  - exists []. split; [by rewrite app_nil_r|]. intros p H.
    by apply elem_of_nil in H.
  - cbn [foldl].
    destruct (IH (flowPoint M J a b startDir endDir st i)) as (ops & -> & Hno).
    eexists (_ ++ ops). split.
    + unfold flowPoint. cbn [ctx drawn draw upd_ctx]. by rewrite <- app_assoc.
    + intros p [H|H]%elem_of_app; [|by apply (Hno p)].
      repeat (apply elem_of_cons in H as [H|H]; [discriminate H|]).
      by apply elem_of_nil in H.
Qed.
End RenderStroke.

Section RenderStroke2.
Context (cfg : Config) (R : RenderOptions) (M : Measure) (D : Declarations)
  (J : MathEnv).

Lemma flowPoints_styles a b startDir endDir st (indices : list nat) :
  let st' := foldl (flowPoint M J a b startDir endDir) st indices in
  lineWidth (ctx st') = lineWidth (ctx st)
  ∧ strokeStyle (ctx st') = strokeStyle (ctx st)
  ∧ fillStyle (ctx st') = fillStyle (ctx st)
  ∧ lineJoin (ctx st') = lineJoin (ctx st).
Proof.
  revert st. induction indices as [|i indices IH]; intros st; [done|].
  cbn [foldl].
  destruct (IH (flowPoint M J a b startDir endDir st i)) as (-> & -> & -> & ->).
  done.
Qed.

(** What the statements after the loop do to the context: they stroke
    [path], once or twice, and no other path, and leave the line width and
    the two styles set for the link. *)
Lemma renderStrokes_drawn a b startDir endDir linkSegment skip_border flow
    linkColour path pos st :
  let st' := renderStrokes cfg R M J a b startDir endDir linkSegment
               skip_border flow linkColour path pos st in
  (∃ ops, drawn (ctx st') = drawn (ctx st) ++ ops
          ∧ Op_stroke path ∈ ops
          ∧ ∀ p, Op_stroke p ∈ ops → p = path)
  ∧ lineWidth (ctx st') = connections_width cfg
  ∧ strokeStyle (ctx st') = linkColour
  ∧ fillStyle (ctx st') = linkColour
  ∧ lineJoin (ctx st') = lineJoin (ctx st).
Proof.
  unfold renderStrokes. cbv zeta.
  match goal with
  | |- context [if truthy_number flow
                then foldl _ (upd_ctx _ ?inner) _ else _] =>
      set (stI := inner)
  end.
  assert ((∃ ops, drawn (ctx stI) = drawn (ctx st) ++ ops
                  ∧ Op_stroke path ∈ ops
                  ∧ ∀ p, Op_stroke p ∈ ops → p = path)
          ∧ lineWidth (ctx stI) = connections_width cfg
          ∧ strokeStyle (ctx stI) = linkColour
          ∧ fillStyle (ctx stI) = linkColour
          ∧ lineJoin (ctx stI) = lineJoin (ctx st)) as HI.
  { unfold stI. clear stI.
    destruct (withBorder R && negb skip_border);
      destruct linkSegment as [r|];
      repeat match goal with
             | |- context [if ?b then _ else _] => destruct b
             | |- context [match linkMarkerShape R with _ => _ end] =>
                 destruct (linkMarkerShape R) as [[]|]
             end;
      (split; [|done]);
      cbn [ctx drawn draw upd_ctx drawArrow set_lineWidth set_strokeStyle
             set_fillStyle];
      rewrite <- ?app_assoc; cbn [app];
      (eexists; split; [reflexivity|]);
      (split; [set_solver|]);
      intros p Hp;
      repeat (apply elem_of_cons in Hp as [Hp|Hp];
              [first [by injection Hp as -> | discriminate Hp]|]);
      by apply elem_of_nil in Hp. }
  clearbody stI.
  destruct HI as ((ops & Hd & Hin & Honly) & H1 & H2 & H3 & H4).
  destruct (truthy_number flow).
  - match goal with
    | |- context [foldl ?f ?s ?l] =>
        destruct (flowPoints_drawn M J a b startDir endDir s l)
          as (ops' & -> & Hno);
        destruct (flowPoints_styles a b startDir endDir s l)
          as (-> & -> & -> & ->)
    end.
    split; [|done].
    exists (ops ++ ops'). cbn [ctx drawn upd_ctx set_fillStyle].
    rewrite Hd, <- app_assoc. split; [done|]. split.
    + apply elem_of_app. by left.
    + intros p [Hp|Hp]%elem_of_app; [by apply Honly|].
      by destruct (Hno p).
  - split; [|done]. by exists ops.
Qed.
End RenderStroke2.

Lemma linkColourOf_visible R link color st v :
  linkColourOf R link color (set_visible_links v st)
  = linkColourOf R link color st.
Proof. done. Qed.

Lemma linkColourOf_None R link color st :
  linkColourOf R link color st = None
  ↔ link = None ∧ truthy_colour color = None.
Proof.
  unfold linkColourOf. destruct link as [l|]; simpl.
  - split; [|by intros [? _]].
    destruct (bool_decide _); [done|].
    destruct (truthy_colour color); [done|].
    destruct (truthy_colour (rl_color l)); [done|].
    by destruct (truthy_colour (link_type_colors R (rl_type l))).
  - destruct (truthy_colour color); [|done]. split; [done|by intros [_ ?]].
Qed.

(** [renderLink] in one of the three modes, for a call that does not
    throw. *)
Lemma renderLink_known_mode (cfg : Config) (R : RenderOptions)
    (M : Measure) (D : Declarations) (J : MathEnv) (a b : Point)
    (link : option RenderedLink) (skip_border : bool) (flow : float)
    (color : option string) (start_dir end_dir : option LinkDirection)
    (startControl endControl : option Point) (reroute : option Ref)
    (num_sublines : option Z) (st : RenderState) (colour : string) :
  links_render_mode R = SPLINE_LINK D ∨ links_render_mode R = LINEAR_LINK D
  ∨ links_render_mode R = STRAIGHT_LINK D →
  linkColourOf R link color st = Some colour →
  let linkSegment := match reroute with
                     | Some r => Some r
                     | None => rl_ref <$> link
                     end in
  ∃ st' path ops,
    renderLink cfg R M D J a b link skip_border flow color start_dir end_dir
      startControl endControl reroute num_sublines st = Some st'
    ∧ drawn (ctx st') = drawn (ctx st) ++ ops
    ∧ Op_stroke path ∈ ops
    ∧ (∀ p, Op_stroke p ∈ ops → p = path)
    ∧ (∀ r s', linkSegment = Some r → segments st' !! r = Some s' →
               seg_path s' = Some path)
    ∧ lineWidth (ctx st') = connections_width cfg
    ∧ lineJoin (ctx st') = "round"
    ∧ strokeStyle (ctx st') = colour
    ∧ fillStyle (ctx st') = colour.
Proof.
  intros Hmode Hcol linkSegment. unfold renderLink. fold linkSegment.
  set (st0 := match link with Some _ => _ | None => st end).
  assert (linkColourOf R link color st0 = Some colour) as ->.
  { unfold st0. by destruct link. }
  cbn [mbind option_bind].
  set (n := if (default 1%Z num_sublines =? 0)%Z then 1%Z
            else default 1%Z num_sublines).
  set (stp := if (1 <? n)%Z then _ else _).
  set (st1 := upd_segment linkSegment (set_seg_path (Some [])) stp).
  assert (drawn (ctx stp) = drawn (ctx st) ∧ lineJoin (ctx stp) = "round")
    as [Hd0 Hj0].
  { unfold stp, st0. by destruct (1 <? n)%Z, (withBorder R), link. }
  match goal with
  | |- context [renderSublines R M D J a b ?sd ?ed ?sc ?ec ?di ?ls ?ca ?nn ?ix
                  ?pa ?po ?s0] =>
      destruct (renderSublines_done R M D J a b sd ed sc ec di ls ca nn ix pa
                  po s0 Hmode) as (path & pos & st2 & Hloop & Hpath);
      [|pose proof (renderSublines_frame R M D J a b sd ed sc ec di ls ca nn
                      ix pa po s0) as Hframe; rewrite Hloop in *]
  end.
  { intros r s Hls. unfold st1. rewrite upd_segment_lookup, Hls.
    rewrite bool_decide_eq_true_2 by done.
    destruct (segments stp !! r); [|done]. by intros [= <-]. }
  cbv zeta in Hframe. destruct Hframe as [Hctx _].
  destruct (renderStrokes_drawn cfg R M J a b (default RIGHT start_dir)
              (default LEFT end_dir) linkSegment skip_border flow colour path
              pos st2)
    as ((ops & Hd & Hin & Honly) & H1 & H2 & H3 & H4).
  eexists _, path, ops. split; [reflexivity|].
  split.
  { rewrite Hd, Hctx. unfold st1. by rewrite upd_segment_ctx, Hd0. }
  split; [exact Hin|]. split; [exact Honly|].
  split.
  { intros r s' Hls. rewrite renderStrokes_segments. by apply Hpath. }
  split; [exact H1|]. split; [|by split].
  rewrite H4, Hctx. unfold st1. by rewrite upd_segment_ctx.
Qed.

(** X14: in spline, linear or straight mode, a call of [renderLink] that
    does not throw strokes the path it has built, once or twice (once more
    for the border), and strokes no other path; the path left in the cache
    of the link or reroute rendered is that same path, so that hit tests on
    the cached path test what was drawn.  Afterwards the context has the line
    width [connections_width], the join "round", and the colour of the link
    as stroke and fill style. *)
Theorem renderLink_strokes_cached_path (cfg : Config) (R : RenderOptions)
    (M : Measure) (D : Declarations) (J : MathEnv) (a b : Point)
    (link : option RenderedLink) (skip_border : bool) (flow : float)
    (color : option string) (start_dir end_dir : option LinkDirection)
    (startControl endControl : option Point) (reroute : option Ref)
    (num_sublines : option Z) (st : RenderState) :
  links_render_mode R = SPLINE_LINK D ∨ links_render_mode R = LINEAR_LINK D
  ∨ links_render_mode R = STRAIGHT_LINK D →
  is_Some link ∨ is_Some (truthy_colour color) →
  let linkSegment := match reroute with
                     | Some r => Some r
                     | None => rl_ref <$> link
                     end in
  ∃ st' path ops,
    renderLink cfg R M D J a b link skip_border flow color start_dir end_dir
      startControl endControl reroute num_sublines st = Some st'
    ∧ drawn (ctx st') = drawn (ctx st) ++ ops
    ∧ Op_stroke path ∈ ops
    ∧ (∀ p, Op_stroke p ∈ ops → p = path)
    ∧ (∀ r s', linkSegment = Some r → segments st' !! r = Some s' →
               seg_path s' = Some path)
    ∧ lineWidth (ctx st') = connections_width cfg
    ∧ lineJoin (ctx st') = "round"
    ∧ Some (strokeStyle (ctx st')) = linkColourOf R link color st
    ∧ Some (fillStyle (ctx st')) = linkColourOf R link color st.
Proof.
  intros Hmode Hlink linkSegment.
  destruct (linkColourOf_is_Some R link color st Hlink) as [colour Hcol].
  destruct (renderLink_known_mode cfg R M D J a b link skip_border flow color
              start_dir end_dir startControl endControl reroute num_sublines
              st colour Hmode Hcol)
    as (st' & path & ops & H1 & H2 & H3 & H4 & H5 & H6 & H7 & H8 & H9).
  exists st', path, ops. rewrite Hcol, H8, H9. by repeat split.
Qed.

Lemma renderLink_strokes_cached_path_witness :
  ∃ st' path ops,
    renderLink example_config (example_render_options 1) measure
      example_declarations example_math (mkPoint 0 0) (mkPoint 100 0)
      (Some example_rendered_link) false 0 None (Some RIGHT) (Some LEFT)
      None None None None example_render_state = Some st'
    ∧ drawn (ctx st') = drawn (ctx example_render_state) ++ ops
    ∧ Op_stroke path ∈ ops
    ∧ (∀ r s', Some 5%positive = Some r → segments st' !! r = Some s' →
               seg_path s' = Some path).
Proof.
  destruct (renderLink_strokes_cached_path example_config
              (example_render_options 1) measure example_declarations
              example_math (mkPoint 0 0) (mkPoint 100 0)
              (Some example_rendered_link) false 0 None (Some RIGHT)
              (Some LEFT) None None None None example_render_state)
    as (st' & path & ops & H1 & H2 & H3 & _ & H5 & _).
  - right. by left.
  - left. by eexists.
  - exists st', path, ops. by repeat split.
Defined.

(** X15: [renderLink] throws exactly when it is given neither a link nor a
    colour.  In one of the three modes, a link that is highlighted is drawn
    in white whatever colour is passed, and a link that is not is drawn in
    the colour passed when there is one. *)
Theorem renderLink_failure_and_colour (cfg : Config) (R : RenderOptions)
    (M : Measure) (D : Declarations) (J : MathEnv) (a b : Point)
    (link : option RenderedLink) (skip_border : bool) (flow : float)
    (color : option string) (start_dir end_dir : option LinkDirection)
    (startControl endControl : option Point) (reroute : option Ref)
    (num_sublines : option Z) (st : RenderState) :
  let result := renderLink cfg R M D J a b link skip_border flow color
                  start_dir end_dir startControl endControl reroute
                  num_sublines st in
  (result = None ↔ link = None ∧ truthy_colour color = None)
  ∧ (links_render_mode R = SPLINE_LINK D ∨ links_render_mode R = LINEAR_LINK D
     ∨ links_render_mode R = STRAIGHT_LINK D →
     (∀ l, link = Some l →
           render_highlighted st !! Some (rl_id l) = Some true →
           strokeStyle ∘ ctx <$> result = Some "#FFF")
     ∧ (∀ colour,
          truthy_colour color = Some colour →
          (∀ l, link = Some l →
                render_highlighted st !! Some (rl_id l) ≠ Some true) →
          strokeStyle ∘ ctx <$> result = Some colour)).
Proof.
  intros result. split.
  - unfold result, renderLink.
    set (st0 := match link with Some _ => _ | None => st end).
    assert (linkColourOf R link color st0 = linkColourOf R link color st)
      as -> by (unfold st0; by destruct link).
    rewrite <- (linkColourOf_None R link color st).
    destruct (linkColourOf R link color st) as [colour|]; [|done].
    cbn [mbind option_bind]. split; [|done].
    by destruct (renderSublines _ _ _ _ _ _ _ _ _ _ _ _ _ _ _ _ _ _).
  - intros Hmode. split.
    + intros l -> Hh.
      assert (linkColourOf R (Some l) color st = Some "#FFF") as Hcol.
      { unfold linkColourOf. by rewrite bool_decide_eq_true_2. }
      destruct (renderLink_known_mode cfg R M D J a b (Some l) skip_border
                  flow color start_dir end_dir startControl endControl reroute
                  num_sublines st "#FFF" Hmode Hcol)
        as (st' & path & ops & H1 & _ & _ & _ & _ & _ & _ & H8 & _).
      unfold result. rewrite H1. simpl. by rewrite H8.
    + intros colour Hc Hnh.
      assert (linkColourOf R link color st = Some colour) as Hcol.
      { unfold linkColourOf. destruct link as [l|].
        - rewrite bool_decide_eq_false_2 by by apply Hnh. by rewrite Hc.
        - by rewrite Hc. }
      destruct (renderLink_known_mode cfg R M D J a b link skip_border
                  flow color start_dir end_dir startControl endControl reroute
                  num_sublines st colour Hmode Hcol)
        as (st' & path & ops & H1 & _ & _ & _ & _ & _ & _ & H8 & _).
      unfold result. rewrite H1. simpl. by rewrite H8.
Qed.

(** ** The straight and the linear mode *)

Section PolylineModes.
Context (cfg : Config) (R : RenderOptions) (M : Measure) (D : Declarations)
  (J : MathEnv).

(** [renderLink] for a link that has a [_pos] array, without reroute and
    with one subline: one iteration of the loop, then the strokes. *)
Lemma renderLink_one_subline a b l skip_border flow color start_dir end_dir
    startControl endControl st s p0 :
  segments st !! rl_ref l = Some s → _pos s = Some p0 →
  ∃ colour st1 dist,
    segments st1 !! rl_ref l = Some (set_seg_path (Some []) s)
    ∧ renderLink cfg R M D J a b (Some l) skip_border flow color start_dir
        end_dir startControl endControl None None st
      = match renderSubline R M D J a b (default RIGHT start_dir)
                (default LEFT end_dir) startControl endControl dist
                (Some (rl_ref l)) true 1 0 [] p0 st1 with
        | Subline_returned st2 => Some st2
        | Subline_done path pos st2 =>
            Some (renderStrokes cfg R M J a b (default RIGHT start_dir)
                    (default LEFT end_dir) (Some (rl_ref l)) skip_border flow
                    colour path pos st2)
        end.
Proof.
  intros Hs Hp0. unfold renderLink.
  set (st0 := set_visible_links _ st).
  destruct (linkColourOf_is_Some R (Some l) color st0) as [colour ->];
    [left; by eexists|].
  cbn [mbind option_bind default from_option id fmap option_fmap option_map].
  change (1 =? 0)%Z with false. cbv iota.
  change (1 <? 1)%Z with false. change (Z.to_nat 1) with 1%nat.
  cbn [seq renderSublines]. cbv iota.
  set (stp := upd_ctx (set_lineJoin "round") _).
  match goal with
  | |- context [upd_segment ?ls ?f stp] => set (st1 := upd_segment ls f stp)
  end.
  assert (segments st1 !! rl_ref l = Some (set_seg_path (Some []) s)) as Hs1.
  { unfold st1. rewrite upd_segment_lookup, bool_decide_eq_true_2 by done.
    assert (segments stp = segments st) as ->.
    { unfold stp, st0. by destruct (withBorder R). }
    by rewrite Hs. }
  cbn [mbind option_bind]. rewrite Hs1.
  cbn [mbind option_bind _pos set_seg_path]. rewrite Hp0.
  cbn [default from_option id].
  assert (bool_decide (is_Some (Some p0)) = true) as ->
    by (apply bool_decide_eq_true_2; by eexists).
  match goal with
  | |- context [renderSubline R M D J a b ?sd ?ed ?sc ?ec ?di ?ls true 1 0 ?pa
                  p0 st1] =>
      exists colour, st1, di; split; [exact Hs1|];
      destruct (renderSubline R M D J a b sd ed sc ec di ls true 1 0 pa p0
                  st1); reflexivity
  end.
Qed.

(** An iteration in straight mode. *)
Lemma renderSubline_straight a b startDir endDir startControl endControl dist
    r num_sublines i path pos st s :
  links_render_mode R ≠ SPLINE_LINK D →
  links_render_mode R ≠ LINEAR_LINK D →
  links_render_mode R = STRAIGHT_LINK D →
  segments st !! r = Some s →
  let innerA :=
    if is_direction startDir RIGHT
    then mkPoint (fround (fround (px a) + 10)%float) (fround (py a))
    else mkPoint (fround (px a)) (fround (fround (py a) + 10)%float) in
  let innerB :=
    if is_direction endDir LEFT
    then mkPoint (fround (fround (px b) - 10)%float) (fround (py b))
    else mkPoint (fround (px b)) (fround (fround (py b) - 10)%float) in
  let midX := ((px innerA + px innerB) * 0.5)%float in
  let path' := path ++ [MoveTo (px a) (py a);
                        LineTo (px innerA) (py innerA);
                        LineTo midX (py innerA);
                        LineTo midX (py innerB);
                        LineTo (px innerB) (py innerB);
                        LineTo (px b) (py b)] in
  let centre := store_point (posKind D)
                  (mkPoint midX ((py innerA + py innerB) * 0.5)%float) in
  ∃ st' s',
    renderSubline R M D J a b startDir endDir startControl endControl dist
      (Some r) true num_sublines i path pos st = Subline_done path' centre st'
    ∧ segments st' !! r = Some s'
    ∧ seg_path s' = Some path'
    ∧ _pos s' = Some centre
    ∧ (is_arrow (linkMarkerShape R) = true →
       _centreAngle s' = Some 0%float
       ∨ _centreAngle s' = Some (PI J * 0.5)%float
       ∨ _centreAngle s' = Some (- (PI J * 0.5))%float)
    ∧ (is_arrow (linkMarkerShape R) = false →
       _centreAngle s' = _centreAngle s).
Proof.
  intros H1 H2 H3 Hs innerA innerB midX path' centre.
  unfold renderSubline, path_add, pos_write.
  apply Z.eqb_neq in H1, H2. apply Z.eqb_eq in H3. rewrite H1, H2, H3.
  cbv beta iota zeta.
  assert ((if is_direction startDir RIGHT
           then {| px := fround (px {| px := fround (px a);
                                       py := fround (py a) |} + 10);
                   py := py {| px := fround (px a); py := fround (py a) |} |}
           else {| px := px {| px := fround (px a); py := fround (py a) |};
                   py := fround (py {| px := fround (px a);
                                       py := fround (py a) |} + 10) |})
          = innerA) as -> by done.
  assert ((if is_direction endDir LEFT
           then {| px := fround (px {| px := fround (px b);
                                       py := fround (py b) |} - 10);
                   py := py {| px := fround (px b); py := fround (py b) |} |}
           else {| px := px {| px := fround (px b); py := fround (py b) |};
                   py := fround (py {| px := fround (px b);
                                       py := fround (py b) |} - 10) |})
          = innerB) as -> by done.
  fold midX. fold path'. fold centre.
  destruct (is_arrow (linkMarkerShape R)); cbn [andb bool_decide].
  - assert (bool_decide (is_Some (Some r)) = true) as ->
      by (apply bool_decide_eq_true_2; by eexists).
    cbn [andb].
    eexists _, _. split; [reflexivity|].
    rewrite !upd_segment_lookup. cbn [segments set_lTempA set_lTempB].
    rewrite Hs, bool_decide_eq_true_2 by done.
    cbn [fmap option_fmap option_map].
    split; [reflexivity|]. split; [done|]. split; [done|].
    split; [|done]. intros _. cbn [_centreAngle set__centreAngle].
    destruct (_ <? 4)%float; [by left|].
    destruct (0 <? _)%float; [right; by left|right; by right].
  - rewrite andb_false_r.
    eexists _, _. split; [reflexivity|].
    rewrite !upd_segment_lookup. cbn [segments set_lTempA set_lTempB].
    rewrite Hs, bool_decide_eq_true_2 by done.
    cbn [fmap option_fmap option_map].
    split; [reflexivity|]. split; [done|]. split; [done|].
    split; [done|]. by intros _.
Qed.

(** An iteration in linear mode. *)
Lemma renderSubline_linear a b startDir endDir startControl endControl dist
    r num_sublines i path pos st s :
  links_render_mode R ≠ SPLINE_LINK D →
  links_render_mode R = LINEAR_LINK D →
  segments st !! r = Some s →
  let offsety :=
    ((float_of_nat i - float_of_Z (num_sublines - 1) * 0.5) * 5)%float in
  let innerA := addStub (store_point Float32Array a) startDir 15 in
  let innerB := addStub (store_point Float32Array b) endDir 15 in
  let path' := path ++ [MoveTo (px a) (py a + offsety)%float;
                        LineTo (px innerA) (py innerA + offsety)%float;
                        LineTo (px innerB) (py innerB + offsety)%float;
                        LineTo (px b) (py b + offsety)%float] in
  let centre := store_point (posKind D)
                  (mkPoint ((px innerA + px innerB) * 0.5)%float
                           ((py innerA + py innerB) * 0.5)%float) in
  ∃ st' s',
    renderSubline R M D J a b startDir endDir startControl endControl dist
      (Some r) true num_sublines i path pos st = Subline_done path' centre st'
    ∧ segments st' !! r = Some s'
    ∧ seg_path s' = Some path'
    ∧ _pos s' = Some centre
    ∧ (is_arrow (linkMarkerShape R) = true →
       _centreAngle s'
       = Some (atan2 J (py innerB - py innerA)%float
                 (px innerB - px innerA)%float))
    ∧ (is_arrow (linkMarkerShape R) = false →
       _centreAngle s' = _centreAngle s).
Proof.
  intros H1 H2 Hs offsety innerA innerB path' centre.
  unfold renderSubline, path_add, pos_write.
  apply Z.eqb_neq in H1. apply Z.eqb_eq in H2. rewrite H1, H2.
  cbv beta iota zeta.
  fold offsety. fold (store_point Float32Array a).
  fold (store_point Float32Array b). fold innerA innerB. fold path'.
  fold centre.
  destruct (is_arrow (linkMarkerShape R)); cbn [andb bool_decide].
  - assert (bool_decide (is_Some (Some r)) = true) as ->
      by (apply bool_decide_eq_true_2; by eexists).
    cbn [andb].
    eexists _, _. split; [reflexivity|].
    rewrite !upd_segment_lookup. cbn [segments set_lTempA set_lTempB].
    rewrite Hs, bool_decide_eq_true_2 by done.
    cbn [fmap option_fmap option_map].
    split; [reflexivity|]. split; [done|]. split; [done|].
    split; [by intros _|done].
  - rewrite andb_false_r.
    eexists _, _. split; [reflexivity|].
    rewrite !upd_segment_lookup. cbn [segments set_lTempA set_lTempB].
    rewrite Hs, bool_decide_eq_true_2 by done.
    cbn [fmap option_fmap option_map].
    split; [reflexivity|]. split; [done|]. split; [done|].
    split; [done|]. by intros _.
Qed.
End PolylineModes.

(** X16: the polyline modes, for a link rendered alone whose segment has a
    [_pos] array.  In linear mode the cached path has four commands: from
    [a] over a stub of 15 units at each end to [b]; the centre point is the
    midpoint of the two stub ends; a stub end is its anchor, as held by the
    scratch array, moved by 15 along the direction of that end: to the left
    or to the right on x, up or down on y, and not at all for CENTER.  In
    straight mode it has six: stubs of 10
    units, joined by one vertical run at the mean of their x coordinates; the
    centre point lies on that run, and with the arrow marker the centre
    angle is 0, PI/2 or -PI/2. *)
Theorem renderLink_polyline_modes (cfg : Config) (R : RenderOptions)
    (M : Measure) (D : Declarations) (J : MathEnv) (a b : Point)
    (l : RenderedLink) (skip_border : bool) (flow : float)
    (color : option string) (start_dir end_dir : option LinkDirection)
    (startControl endControl : option Point) (st : RenderState)
    (s : LinkSegment) (p0 : Point) :
  segments st !! rl_ref l = Some s → _pos s = Some p0 →
  links_render_mode R ≠ SPLINE_LINK D →
  links_render_mode R = LINEAR_LINK D ∨ links_render_mode R = STRAIGHT_LINK D →
  let startDir := default RIGHT start_dir in
  let endDir := default LEFT end_dir in
  let stubA := addStub (store_point Float32Array a) startDir 15 in
  let stubB := addStub (store_point Float32Array b) endDir 15 in
  let innerA :=
    if is_direction startDir RIGHT
    then mkPoint (fround (fround (px a) + 10)%float) (fround (py a))
    else mkPoint (fround (px a)) (fround (fround (py a) + 10)%float) in
  let innerB :=
    if is_direction endDir LEFT
    then mkPoint (fround (fround (px b) - 10)%float) (fround (py b))
    else mkPoint (fround (px b)) (fround (fround (py b) - 10)%float) in
  let midX := ((px innerA + px innerB) * 0.5)%float in
  (∃ st' s',
     renderLink cfg R M D J a b (Some l) skip_border flow color start_dir
       end_dir startControl endControl None None st = Some st'
     ∧ segments st' !! rl_ref l = Some s'
     ∧ (links_render_mode R = LINEAR_LINK D →
        seg_path s' = Some [MoveTo (px a) (py a + 0)%float;
                            LineTo (px stubA) (py stubA + 0)%float;
                            LineTo (px stubB) (py stubB + 0)%float;
                            LineTo (px b) (py b + 0)%float]
        ∧ _pos s' = Some (store_point (posKind D)
                            (mkPoint ((px stubA + px stubB) * 0.5)%float
                                     ((py stubA + py stubB) * 0.5)%float)))
     ∧ (links_render_mode R ≠ LINEAR_LINK D →
        seg_path s' = Some [MoveTo (px a) (py a);
                            LineTo (px innerA) (py innerA);
                            LineTo midX (py innerA);
                            LineTo midX (py innerB);
                            LineTo (px innerB) (py innerB);
                            LineTo (px b) (py b)]
        ∧ _pos s' = Some (store_point (posKind D)
                            (mkPoint midX
                               ((py innerA + py innerB) * 0.5)%float))
        ∧ (is_arrow (linkMarkerShape R) = true →
           _centreAngle s' = Some 0%float
           ∨ _centreAngle s' = Some (PI J * 0.5)%float
           ∨ _centreAngle s' = Some (- (PI J * 0.5))%float)))
  ∧ ((startDir = LEFT →
      stubA = mkPoint (fround (fround (px a) + - 15)%float) (fround (py a)))
     ∧ (startDir = RIGHT →
        stubA = mkPoint (fround (fround (px a) + 15)%float) (fround (py a)))
     ∧ (startDir = UP →
        stubA = mkPoint (fround (px a)) (fround (fround (py a) + - 15)%float))
     ∧ (startDir = DOWN →
        stubA = mkPoint (fround (px a)) (fround (fround (py a) + 15)%float))
     ∧ (startDir = CENTER →
        stubA = mkPoint (fround (px a)) (fround (py a))))
  ∧ ((endDir = LEFT →
      stubB = mkPoint (fround (fround (px b) + - 15)%float) (fround (py b)))
     ∧ (endDir = RIGHT →
        stubB = mkPoint (fround (fround (px b) + 15)%float) (fround (py b)))
     ∧ (endDir = UP →
        stubB = mkPoint (fround (px b)) (fround (fround (py b) + - 15)%float))
     ∧ (endDir = DOWN →
        stubB = mkPoint (fround (px b)) (fround (fround (py b) + 15)%float))
     ∧ (endDir = CENTER →
        stubB = mkPoint (fround (px b)) (fround (py b)))).
Proof.
  intros Hs Hp0 Hns Hmode startDir endDir stubA stubB innerA innerB midX.
  split;
    [|split; repeat split; intros Hd; unfold stubA, stubB; by rewrite Hd].
  destruct (renderLink_one_subline cfg R M D J a b l skip_border flow color
              start_dir end_dir startControl endControl st s p0 Hs Hp0)
    as (colour & st1 & dist & Hs1 & ->).
  fold startDir endDir.
  destruct (decide (links_render_mode R = LINEAR_LINK D)) as [Hlin|Hlin].
  - destruct (renderSubline_linear R M D J a b startDir endDir startControl
                endControl dist (rl_ref l) 1 0 [] p0 st1 _ Hns Hlin Hs1)
      as (st2 & s2 & -> & Hs2 & Hpath & Hpos & _).
    eexists _, s2. split; [reflexivity|].
    rewrite renderStrokes_segments. split; [exact Hs2|].
    split; [|done]. intros _. split; [exact Hpath | exact Hpos].
  - destruct Hmode as [?|Hstr]; [done|].
    destruct (renderSubline_straight R M D J a b startDir endDir startControl
                endControl dist (rl_ref l) 1 0 [] p0 st1 _ Hns Hlin Hstr Hs1)
      as (st2 & s2 & -> & Hs2 & Hpath & Hpos & Harrow & _).
    eexists _, s2. split; [reflexivity|].
    rewrite renderStrokes_segments. split; [exact Hs2|].
    split; [done|]. intros _.
    split; [exact Hpath|]. split; [exact Hpos | exact Harrow].
Qed.

(** Link 5 of the example graph in straight mode from (0, 0) to (100, 40):
    the vertical run is at x = 50, the centre point is (50, 20).  In linear
    mode the stub ends are (15, 0) and (85, 40), with the same centre point;
    from (0, 0) down to (0, 100), leaving downwards and arriving upwards,
    they are (0, 15) and (0, 85), and the centre point is (0, 50). *)
Lemma renderLink_polyline_modes_witness :
  (∃ st' s',
     renderLink example_config (example_render_options 0) measure
       example_declarations example_math (mkPoint 0 0) (mkPoint 100 40)
       (Some example_rendered_link) false 0 None (Some RIGHT) (Some LEFT)
       None None None None example_render_state = Some st'
     ∧ segments st' !! 5%positive = Some s'
     ∧ seg_path s' = Some [MoveTo 0 0; LineTo 10 0; LineTo 50 0; LineTo 50 40;
                           LineTo 90 40; LineTo 100 40]
     ∧ _pos s' = Some (mkPoint 50 20))
  ∧ (∃ st' s',
       renderLink example_config (example_render_options 1) measure
         example_declarations example_math (mkPoint 0 0) (mkPoint 100 40)
         (Some example_rendered_link) false 0 None (Some RIGHT) (Some LEFT)
         None None None None example_render_state = Some st'
       ∧ segments st' !! 5%positive = Some s'
       ∧ seg_path s' = Some [MoveTo 0 0; LineTo 15 0; LineTo 85 40;
                             LineTo 100 40]
       ∧ _pos s' = Some (mkPoint 50 20))
  ∧ (∃ st' s',
       renderLink example_config (example_render_options 1) measure
         example_declarations example_math (mkPoint 0 0) (mkPoint 0 100)
         (Some example_rendered_link) false 0 None (Some DOWN) (Some UP)
         None None None None example_render_state = Some st'
       ∧ segments st' !! 5%positive = Some s'
       ∧ seg_path s' = Some [MoveTo 0 0; LineTo 0 15; LineTo 0 85;
                             LineTo 0 100]
       ∧ _pos s' = Some (mkPoint 0 50)).
Proof.
  split; [|split].
  - destruct (renderLink_polyline_modes example_config
                (example_render_options 0) measure example_declarations
                example_math (mkPoint 0 0) (mkPoint 100 40)
                example_rendered_link false 0 None (Some RIGHT) (Some LEFT)
                None None example_render_state example_segment
                (mkPoint 200 300))
      as [(st' & s' & H1 & H2 & _ & H4) _].
    + reflexivity.
    + reflexivity.
    + discriminate.
    + by right.
    + destruct H4 as (H5 & H6 & _); [discriminate|].
      exists st', s'. split; [exact H1|]. split; [exact H2|].
      split; [exact H5 | exact H6].
  - destruct (renderLink_polyline_modes example_config
                (example_render_options 1) measure example_declarations
                example_math (mkPoint 0 0) (mkPoint 100 40)
                example_rendered_link false 0 None (Some RIGHT) (Some LEFT)
                None None example_render_state example_segment
                (mkPoint 200 300))
      as [(st' & s' & H1 & H2 & H3 & _) _].
    + reflexivity.
    + reflexivity.
    + discriminate.
    + by left.
    + destruct H3 as (H5 & H6); [reflexivity|].
      exists st', s'. split; [exact H1|]. split; [exact H2|].
      vm_compute in H5, H6. split; [exact H5 | exact H6].
  - destruct (renderLink_polyline_modes example_config
                (example_render_options 1) measure example_declarations
                example_math (mkPoint 0 0) (mkPoint 0 100)
                example_rendered_link false 0 None (Some DOWN) (Some UP)
                None None example_render_state example_segment
                (mkPoint 200 300))
      as [(st' & s' & H1 & H2 & H3 & _) _].
    + reflexivity.
    + reflexivity.
    + discriminate.
    + by left.
    + destruct H3 as (H5 & H6); [reflexivity|].
      exists st', s'. split; [exact H1|]. split; [exact H2|].
      vm_compute in H5, H6. split; [exact H5 | exact H6].
Defined.

(** ** File extensions *)

Lemma indexOf_from_range ch s i :
  0 ≤ i →
  indexOf_from ch s i = -1
  ∨ i ≤ indexOf_from ch s i < i + Z.of_nat (String.length s).
Proof.
  revert i. induction s as [|c s IH]; intros i Hi; [by left|].
  cbn [indexOf_from String.length]. destruct (Ascii.eqb c ch).
  - right. lia.
  - destruct (IH (i + 1)) as [->|H]; [lia|by left|right; lia].
Qed.

Lemma indexOf_from_absent ch s i j :
  0 ≤ i → 0 ≤ j → indexOf_from ch s i = -1 → indexOf_from ch s j = -1.
Proof.
  revert i j. induction s as [|c s IH]; intros i j Hi Hj; [done|].
  cbn [indexOf_from]. destruct (Ascii.eqb c ch); [lia|].
  apply IH; lia.
Qed.

Lemma indexOf_from_app ch p s i :
  0 ≤ i → indexOf_from ch p i = -1 →
  indexOf_from ch (p +:+ s) i = indexOf_from ch s (i + Z.of_nat (String.length p)).
Proof.
  revert i. induction p as [|c p IH]; intros i Hi H.
  - simpl. f_equal. lia.
  - change (String c p +:+ s) with (String c (p +:+ s)).
    cbn [indexOf_from String.length] in *.
    destruct (Ascii.eqb c ch); [lia|].
    rewrite IH by (done || lia). f_equal. lia.
Qed.

Lemma indexOf_from_app_absent ch p s i :
  0 ≤ i → indexOf_from ch (p +:+ s) i = -1 →
  indexOf_from ch p i = -1 ∧ indexOf_from ch s i = -1.
Proof.
  revert i. induction p as [|c p IH]; intros i Hi H; [done|].
  change (String c p +:+ s) with (String c (p +:+ s)) in H.
  cbn [indexOf_from] in *.
  destruct (Ascii.eqb c ch); [lia|].
  destruct (IH (i + 1)) as [H1 H2]; [lia|done|].
  split; [done|]. apply (indexOf_from_absent ch s (i + 1)); (done || lia).
Qed.

(** A string in which the character occurs splits at its first occurrence. *)
Lemma indexOf_from_split ch s i :
  0 ≤ i → indexOf_from ch s i ≠ -1 →
  ∃ p r, s = p +:+ String ch r
         ∧ indexOf_from ch p i = -1
         ∧ indexOf_from ch s i = i + Z.of_nat (String.length p).
Proof.
  revert i. induction s as [|c s IH]; intros i Hi H; [done|].
  cbn [indexOf_from] in *. destruct (Ascii.eqb c ch) eqn:E.
  - apply Ascii.eqb_eq in E as ->. exists ""%string, s. simpl.
    split; [done|]. split; [done|]. lia.
  - destruct (IH (i + 1)) as (p & r & -> & Hp & Hidx); [lia|done|].
    exists (String c p), r.
    change (String c p +:+ String ch r) with (String c (p +:+ String ch r)).
    cbn [indexOf_from String.length].
    rewrite E. split; [done|]. split; [done|]. lia.
Qed.

Lemma lastIndexOf_from_app ch p s i found :
  lastIndexOf_from ch (p +:+ s) i found
  = lastIndexOf_from ch s (i + Z.of_nat (String.length p))
      (lastIndexOf_from ch p i found).
Proof.
  revert i found. induction p as [|c p IH]; intros i found.
  - simpl. f_equal. lia.
  - change (String c p +:+ s) with (String c (p +:+ s)).
    cbn [lastIndexOf_from String.length]. rewrite IH.
    f_equal. lia.
Qed.

Lemma lastIndexOf_from_absent ch s i j found :
  0 ≤ j → indexOf_from ch s j = -1 → lastIndexOf_from ch s i found = found.
Proof.
  revert i j found. induction s as [|c s IH]; intros i j found Hj H; [done|].
  cbn [lastIndexOf_from indexOf_from] in *.
  destruct (Ascii.eqb c ch); [lia|]. apply (IH _ (j + 1)); (done || lia).
Qed.

(** A string in which the character occurs splits at its last occurrence. *)
Lemma lastIndexOf_from_split ch s i found :
  0 ≤ i →
  lastIndexOf_from ch s i found = found ∧ indexOf_from ch s i = -1
  ∨ ∃ p r, s = p +:+ String ch r
           ∧ indexOf_from ch r 0 = -1
           ∧ lastIndexOf_from ch s i found = i + Z.of_nat (String.length p).
Proof.
  revert i found. induction s as [|c s IH]; intros i found Hi; [by left|].
  cbn [lastIndexOf_from indexOf_from].
  destruct (IH (i + 1) (if Ascii.eqb c ch then i else found))
    as [[H1 H2]|(p & r & -> & Hr & H)]; [lia| |].
  - destruct (Ascii.eqb c ch) eqn:E.
    + right. apply Ascii.eqb_eq in E as ->. exists ""%string, s.
      split; [done|]. split; [apply (indexOf_from_absent ch s (i + 1)); (done || lia)|].
      rewrite H1. simpl. lia.
    + left. by rewrite H1.
  - right. exists (String c p), r. split; [done|]. split; [done|].
    rewrite H. cbn [String.length]. lia.
Qed.

Lemma substring_prefix p s :
  String.substring 0 (String.length p) (p +:+ s) = p.
Proof. induction p as [|c p IH]; simpl; [by destruct s|by rewrite IH]. Qed.

Lemma substring_whole s : String.substring 0 (String.length s) s = s.
Proof. induction s as [|c s IH]; simpl; [done|by rewrite IH]. Qed.

Lemma substring_suffix p s m :
  String.substring (String.length p) m (p +:+ s) = String.substring 0 m s.
Proof. induction p as [|c p IH]; simpl; done. Qed.

Lemma length_app p s :
  String.length (p +:+ s) = (String.length p + String.length s)%nat.
Proof. induction p as [|c p IH]; simpl; [done|by rewrite IH]. Qed.

Lemma string_app_assoc p q r : (p +:+ q) +:+ r = p +:+ (q +:+ r).
Proof.
  induction p as [|c p IH]; [done|].
  change (String c ((p +:+ q) +:+ r) = String c (p +:+ (q +:+ r))).
  by rewrite IH.
Qed.

Lemma string_app_nil_r p : p +:+ "" = p.
Proof.
  induction p as [|c p IH]; [done|].
  change (String c (p +:+ "") = String c p). by rewrite IH.
Qed.

(** [url.substring(0, n)] where [n] is the length of a prefix *)
Lemma substring_to_prefix p s :
  substring (p +:+ s) 0 (Some (Z.of_nat (String.length p))) = p.
Proof.
  unfold substring. cbn [default from_option id]. rewrite length_app.
  rewrite !Z.max_l, !Z.min_l, Z.max_r by lia.
  rewrite Z.sub_0_r, Nat2Z.id. apply substring_prefix.
Qed.

(** [url.substring(n)] where [n] is the length of a prefix *)
Lemma substring_from_prefix p s :
  substring (p +:+ s) (Z.of_nat (String.length p)) None = s.
Proof.
  unfold substring. cbn [default from_option id]. rewrite length_app.
  rewrite Z.max_l, (Z.max_l (Z.of_nat _) 0), !Z.min_l, Z.max_r by lia.
  rewrite Nat2Z.id.
  replace (Z.to_nat _) with (String.length s) by lia.
  rewrite substring_suffix. apply substring_whole.
Qed.

Lemma toLowerCase_char_idemp c :
  toLowerCase_char (toLowerCase_char c) = toLowerCase_char c.
Proof. by destruct c as [[] [] [] [] [] [] [] []]. Qed.

Lemma toLowerCase_char_eqb c ch :
  ch = "."%char ∨ ch = "?"%char →
  Ascii.eqb (toLowerCase_char c) ch = Ascii.eqb c ch.
Proof.
  intros [->| ->]; by destruct c as [[] [] [] [] [] [] [] []].
Qed.

Lemma toLowerCase_idemp s : toLowerCase (toLowerCase s) = toLowerCase s.
Proof.
  induction s as [|c s IH]; simpl; [done|].
  by rewrite toLowerCase_char_idemp, IH.
Qed.

Lemma indexOf_from_toLowerCase ch s i :
  ch = "."%char ∨ ch = "?"%char →
  indexOf_from ch (toLowerCase s) i = indexOf_from ch s i.
Proof.
  intros Hch. revert i. induction s as [|c s IH]; intros i; simpl; [done|].
  by rewrite toLowerCase_char_eqb, IH.
Qed.

(** What [getFileExtension] computes for a URL cut at its query: the
    lower-cased part behind the last dot. *)
Lemma getFileExtension_no_query u :
  indexOf u "?" = -1 →
  getFileExtension u
  = if lastIndexOf u "." =? -1 then ""%string
    else toLowerCase (substring u (lastIndexOf u "." + 1) None).
Proof. intros H. unfold getFileExtension. by rewrite H. Qed.

Lemma getFileExtension_query p r :
  indexOf p "?" = -1 →
  getFileExtension (p +:+ String "?" r) = getFileExtension p.
Proof.
  intros Hp. unfold getFileExtension at 1.
  assert (indexOf (p +:+ String "?" r) "?" = Z.of_nat (String.length p)) as ->.
  { unfold indexOf. rewrite indexOf_from_app by done. simpl. lia. }
  assert (negb (Z.of_nat (String.length p) =? -1) = true) as ->.
  { apply negb_true_iff, Z.eqb_neq. lia. }
  rewrite substring_to_prefix. by rewrite getFileExtension_no_query.
Qed.

(** X17: for a URL of the form [name.ext] or [name.ext?query], where the
    name has no question mark and the extension neither a dot nor a question
    mark, [getFileExtension] returns the extension in lower case; the query
    and the dots of the name (those of the host, say) do not matter. *)
Theorem getFileExtension_of_url (name ext : string) (query : option string) :
  indexOf name "?" = -1 → indexOf ext "." = -1 → indexOf ext "?" = -1 →
  getFileExtension
    (name +:+ String "." ext
     +:+ match query with Some q => String "?" q | None => "" end)
  = toLowerCase ext.
Proof.
  intros Hn He Hq.
  assert (indexOf (name +:+ String "." ext) "?" = -1) as Hu.
  { unfold indexOf in *. rewrite indexOf_from_app by done. simpl.
    apply (indexOf_from_absent "?" ext 0); (done || lia). }
  assert (getFileExtension (name +:+ String "." ext) = toLowerCase ext) as H.
  { rewrite getFileExtension_no_query by done.
    assert (lastIndexOf (name +:+ String "." ext) "."
            = Z.of_nat (String.length name)) as ->.
    { unfold lastIndexOf. rewrite lastIndexOf_from_app.
      cbn [lastIndexOf_from]. rewrite Ascii.eqb_refl.
      rewrite (lastIndexOf_from_absent "." ext _ 0) by first [exact He|lia].
      lia. }
    destruct (Z.eqb_spec (Z.of_nat (String.length name)) (-1)); [lia|].
    f_equal.
    replace (Z.of_nat (String.length name) + 1)
      with (Z.of_nat (String.length (name +:+ "."))) by (rewrite length_app; simpl; lia).
    change (String "." ext) with ("." +:+ ext).
    rewrite <- string_app_assoc. apply substring_from_prefix. }
  destruct query as [q|].
  - change (String "." ext +:+ String "?" q)
      with ("." +:+ (ext +:+ String "?" q)).
    rewrite <- !string_app_assoc, getFileExtension_query.
    + rewrite string_app_assoc. exact H.
    + rewrite string_app_assoc. exact Hu.
  - by rewrite string_app_nil_r.
Qed.

Lemma getFileExtension_of_url_witness :
  getFileExtension "http://example.com/img/Photo.JPG?size=2.5" = "jpg"%string.
Proof.
  apply (getFileExtension_of_url "http://example.com/img/Photo" "JPG"
           (Some "size=2.5"%string)); reflexivity.
Defined.

Lemma getFileExtension_no_dot u :
  indexOf u "?" = -1 → indexOf u "." = -1 → getFileExtension u = ""%string.
Proof.
  intros Hq Hd. rewrite getFileExtension_no_query by done.
  unfold lastIndexOf.
  by rewrite (lastIndexOf_from_absent "." u _ 0) by first [exact Hd|lia].
Qed.

(** The part before the first question mark is a prefix of any part that a
    question mark follows. *)
Lemma first_question_no_dot p' : ∀ p q r,
  p +:+ String "?" q = p' +:+ String "?" r →
  indexOf p' "?" = -1 → indexOf p "." = -1 → indexOf p' "." = -1.
Proof.
  unfold indexOf.
  induction p' as [|c p' IH]; intros p q r E Hq Hd; [done|].
  cbn [indexOf_from] in Hq. destruct (Ascii.eqb c "?") eqn:Ec; [lia|].
  destruct p as [|c' p].
  - injection E as <- _. by rewrite Ascii.eqb_refl in Ec.
  - injection E as -> E. cbn [indexOf_from] in Hd |- *.
    destruct (Ascii.eqb c "."); [lia|].
    apply (indexOf_from_absent "." p' 0); [lia|lia|].
    apply (IH p q r E).
    + apply (indexOf_from_absent "?" p' (0 + 1)); (done || lia).
    + apply (indexOf_from_absent "." p (0 + 1)); (done || lia).
Qed.

(** X18: whatever the URL, the extension returned has no dot and no question
    mark and is in lower case.  It is empty when the URL has no dot, and
    when its only dots are behind a question mark. *)
Theorem getFileExtension_result (url : string) :
  let ext := getFileExtension url in
  indexOf ext "." = -1 ∧ indexOf ext "?" = -1 ∧ toLowerCase ext = ext
  ∧ (indexOf url "." = -1 → ext = ""%string)
  ∧ (∀ p q, url = p +:+ String "?" q → indexOf p "." = -1 → ext = ""%string).
Proof.
  cbv zeta.
  assert (∀ u, indexOf u "?" = -1 →
               indexOf (getFileExtension u) "." = -1
               ∧ indexOf (getFileExtension u) "?" = -1
               ∧ toLowerCase (getFileExtension u) = getFileExtension u) as Hcut.
  { intros u Hu. rewrite getFileExtension_no_query by done.
    unfold lastIndexOf.
    destruct (lastIndexOf_from_split "." u 0 (-1))
      as [[-> _]|(p & r & -> & Hr & ->)]; [lia|done|].
    destruct (Z.eqb_spec (0 + Z.of_nat (String.length p)) (-1)); [lia|].
    replace (0 + Z.of_nat (String.length p) + 1)
      with (Z.of_nat (String.length (p +:+ ".")))
      by (rewrite length_app; simpl; lia).
    change (String "." r) with ("." +:+ r). rewrite <- string_app_assoc.
    rewrite substring_from_prefix. unfold indexOf.
    rewrite !indexOf_from_toLowerCase, toLowerCase_idemp by tauto.
    split; [done|]. split; [|done].
    unfold indexOf in Hu.
    apply indexOf_from_app_absent in Hu as [_ Hu]; [|done].
    cbn [indexOf_from] in Hu.
    change (Ascii.eqb "." "?") with false in Hu. cbv iota in Hu.
    apply (indexOf_from_absent "?" r (0 + 1)); (done || lia). }
  destruct (Z.eq_dec (indexOf url "?") (-1)) as [Hq|Hq].
  - destruct (Hcut url Hq) as (H1 & H2 & H3).
    split; [done|]. split; [done|]. split; [done|]. split.
    + by apply getFileExtension_no_dot.
    + intros p q -> _. exfalso. unfold indexOf in Hq.
      apply indexOf_from_app_absent in Hq as [_ Hq]; [|done].
      cbn [indexOf_from] in Hq. by rewrite Ascii.eqb_refl in Hq.
  - destruct (indexOf_from_split "?" url 0) as (p' & r & -> & Hp & _);
      [done|done|].
    rewrite getFileExtension_query by done.
    destruct (Hcut p' Hp) as (H1 & H2 & H3).
    split; [done|]. split; [done|]. split; [done|]. split.
    + intros Hd. apply getFileExtension_no_dot; [done|].
      unfold indexOf in Hd. by apply indexOf_from_app_absent in Hd as [Hd _].
    + intros p q E Hd. apply getFileExtension_no_dot; [done|].
      by apply (first_question_no_dot p' p q r).
Qed.

(** ** The space key *)

Section KeyboardFacts.
Context (copyToClipboard : KeyCanvas → KeyCanvas)
  (pasteFromClipboard : bool → KeyCanvas → KeyCanvas)
  (deleteSelected : KeyCanvas → KeyCanvas)
  (for_in : gmap NodeId Ref → list Ref).

Abbreviation run_key :=
  (processKey copyToClipboard pasteFromClipboard deleteSelected for_in).

Lemma emit_hooks_fields name (l : list Ref) c :
  let c' := foldl (λ c node, emit (E_method node name) c) c l in
  graph c' = graph c ∧ modes c' = modes c ∧ pointer c' = pointer c.
Proof.
  revert c. induction l as [|x l IH]; intros c; [done|].
  cbn [foldl]. cbv zeta in *.
  by destruct (IH (emit (E_method x name) c)) as (-> & -> & ->).
Qed.

(** A press of the space key. *)
Lemma processKey_space_down e k :
  is_Some (graph (canvas_of k)) → space_key "keydown" e →
  let k' := (run_key e k).1 in
  (run_key e k).2 = Some false
  ∧ graph (canvas_of k') = graph (canvas_of k)
  ∧ pointer (canvas_of k') = pointer (canvas_of k)
  ∧ readOnly k' = true
  ∧ dragging_canvas (modes (canvas_of k')) = isDown (pointer (canvas_of k))
  ∧ _previously_dragging_canvas k'
    = Some (default (dragging_canvas (modes (canvas_of k)))
              (_previously_dragging_canvas k)).
Proof.
  intros [g Hg] (Ht & Hc & Hl). unfold processKey, processKeyDown.
  cbn [canvas_of set_shiftDown]. rewrite Hg, Ht, Hc.
  rewrite bool_decide_eq_false_2 by done.
  change ("keydown" =? "keydown")%string with true.
  change (32 =? 32) with true. cbv beta iota zeta.
  unfold keyHooks.
  destruct (_previously_dragging_canvas k) as [d|] eqn:Hd;
    cbn [fst snd on_canvas canvas_of readOnly _previously_dragging_canvas
         set_readOnly set__previously_dragging_canvas set_shiftDown];
    rewrite ?Hd;
    cbn [fst snd on_canvas canvas_of readOnly _previously_dragging_canvas
         set_readOnly set__previously_dragging_canvas set_shiftDown emit
         set_trace graph pointer modes default from_option id];
    match goal with
    | |- context [foldl ?f ?c0 ?l] =>
        destruct (emit_hooks_fields "onKeyDown" l c0) as (G & Mo & P)
    end;
    cbv zeta in G, Mo, P; rewrite G, Mo, P; done.
Qed.

(** A release of the space key. *)
Lemma processKey_space_up e k :
  is_Some (graph (canvas_of k)) → space_key "keyup" e →
  let k' := (run_key e k).1 in
  (run_key e k).2 = None
  ∧ readOnly k' = false
  ∧ dragging_canvas (modes (canvas_of k'))
    = default false (_previously_dragging_canvas k)
  ∧ _previously_dragging_canvas k' = None.
Proof.
  intros [g Hg] (Ht & Hc & Hl). unfold processKey.
  cbn [canvas_of set_shiftDown]. rewrite Hg, Ht, Hc.
  rewrite bool_decide_eq_false_2 by done.
  change ("keyup" =? "keydown")%string with false.
  change ("keyup" =? "keyup")%string with true.
  change (32 =? 32) with true. cbv beta iota zeta.
  unfold keyHooks.
  cbn [fst snd on_canvas canvas_of readOnly _previously_dragging_canvas
       set_readOnly set__previously_dragging_canvas set_shiftDown emit
       set_trace graph pointer modes].
  match goal with
  | |- context [foldl ?f ?c0 ?l] =>
      destruct (emit_hooks_fields "onKeyUp" l c0) as (G & Mo & P)
  end.
  cbv zeta in G, Mo, P. rewrite Mo. done.
Qed.

(** A run of presses, as the key repeats while it is held. *)
Lemma processKey_space_held (es : list KeyboardEvent) : ∀ k d,
  is_Some (graph (canvas_of k)) → Forall (space_key "keydown") es →
  _previously_dragging_canvas k = Some d →
  let k' := foldl (λ k e, (run_key e k).1) k es in
  is_Some (graph (canvas_of k'))
  ∧ pointer (canvas_of k') = pointer (canvas_of k)
  ∧ _previously_dragging_canvas k' = Some d.
Proof.
  induction es as [|e es IH]; intros k d Hg Hes Hd; [done|].
  apply Forall_cons in Hes as [He Hes]. cbn [foldl]. cbv zeta.
  destruct (processKey_space_down e k Hg He) as (_ & G & P & _ & _ & Hp).
  cbv zeta in G, P, Hp. rewrite Hd in Hp. cbn in Hp.
  destruct (IH (run_key e k).1 d) as (H1 & H2 & H3);
    [by rewrite G|done|done|].
  cbv zeta in H1, H2, H3. rewrite H2, P in *. done.
Qed.

(** X19: holding the space key.  The first press switches the canvas to
    read-only, sets [dragging_canvas] to whether the pointer is down and is
    answered with [false].  After any number of repeats of the press, the
    release puts [dragging_canvas] back to what it was before the first
    press, whatever the repeats saw, and leaves the canvas writable, also if
    it was read-only before. *)
Theorem space_key_restores_dragging_canvas (k : KeyCanvas)
    (down : KeyboardEvent) (repeats : list KeyboardEvent)
    (up : KeyboardEvent) :
  is_Some (graph (canvas_of k)) →
  _previously_dragging_canvas k = None →
  space_key "keydown" down → Forall (space_key "keydown") repeats →
  space_key "keyup" up →
  let pressed := (run_key down k).1 in
  let held := foldl (λ k e, (run_key e k).1) pressed repeats in
  let released := (run_key up held).1 in
  (run_key down k).2 = Some false
  ∧ readOnly pressed = true
  ∧ dragging_canvas (modes (canvas_of pressed)) = isDown (pointer (canvas_of k))
  ∧ readOnly released = false
  ∧ dragging_canvas (modes (canvas_of released))
    = dragging_canvas (modes (canvas_of k))
  ∧ _previously_dragging_canvas released = None.
Proof.
  intros Hg Hnone Hdown Hrep Hup pressed held released.
  destruct (processKey_space_down down k Hg Hdown)
    as (R & G & P & RO & DC & Hp).
  cbv zeta in G, P, RO, DC, Hp. rewrite Hnone in Hp. cbn in Hp.
  destruct (processKey_space_held repeats pressed _
              ltac:(unfold pressed; by rewrite G) Hrep Hp) as (G' & P' & Hp').
  cbv zeta in G', P', Hp'. fold held in G', P', Hp'.
  destruct (processKey_space_up up held G' Hup) as (_ & RO' & DC' & N').
  cbv zeta in RO', DC', N'. fold released in RO', DC', N'.
  rewrite Hp' in DC'. done.
Qed.
End KeyboardFacts.

(** The space key pressed, repeated once and released on the example
    canvas. *)
Lemma space_key_restores_dragging_canvas_witness :
  let k' :=
    (processKey id (λ _, id) id (λ _, [])
       (example_key "keyup")
       (processKey id (λ _, id) id (λ _, [])
          (example_key "keydown")
          (processKey id (λ _, id) id (λ _, [])
             (example_key "keydown") example_key_canvas).1).1).1 in
  readOnly k' = false
  ∧ dragging_canvas (modes (canvas_of k'))
    = dragging_canvas (modes example_canvas)
  ∧ _previously_dragging_canvas k' = None.
Proof.
  intros k'.
  destruct (space_key_restores_dragging_canvas id (λ _, id) id (λ _, [])
              example_key_canvas (example_key "keydown")
              [example_key "keydown"] (example_key "keyup"))
    as (_ & _ & _ & H4 & H5 & H6).
  - by eexists.
  - reflexivity.
  - by repeat split.
  - repeat constructor; done.
  - by repeat split.
  - split; [exact H4|]. split; [exact H5 | exact H6].
Defined.

(** ** The widget under the cursor *)

Lemma getWidgetAtCursor_from_spec H node x y ws :
  match getWidgetAtCursor_from H node x y ws with
  | Some w =>
      ∃ i, ws !! i = Some w
           ∧ widget_skipped node w = false
           ∧ widget_hit H node x y w = true
           ∧ ∀ j w', (j < i)%nat → ws !! j = Some w' →
                     widget_skipped node w' = true
                     ∨ widget_hit H node x y w' = false
  | None =>
      ∀ w, w ∈ ws →
           widget_skipped node w = true ∨ widget_hit H node x y w = false
  end.
Proof.
  induction ws as [|w0 ws IH]; cbn [getWidgetAtCursor_from].
  - intros w Hw. by apply elem_of_nil in Hw.
  - destruct (widget_skipped node w0) eqn:Es;
      [|destruct (widget_hit H node x y w0) eqn:Eh].
    + destruct (getWidgetAtCursor_from H node x y ws) as [w|].
      * destruct IH as (i & Hi & Hs & Hh & Hb). exists (S i).
        split; [done|]. split; [done|]. split; [done|].
        intros [|j] w' Hj Hw'; [left; by injection Hw' as <-|].
        apply (Hb j); [lia|done].
      * intros w [->|Hw]%elem_of_cons; [by left|by apply IH].
    + exists 0%nat. split; [done|]. split; [done|]. split; [done|].
      intros j w' Hj. lia.
    + destruct (getWidgetAtCursor_from H node x y ws) as [w|].
      * destruct IH as (i & Hi & Hs & Hh & Hb). exists (S i).
        split; [done|]. split; [done|]. split; [done|].
        intros [|j] w' Hj Hw'; [right; by injection Hw' as <-|].
        apply (Hb j); [lia|done].
      * intros w [->|Hw]%elem_of_cons; [by right|by apply IH].
Qed.

(** X20: [getWidgetAtCursor] throws exactly when it is given no node and no
    node is hovered.  Otherwise it returns the first widget of the node that
    is shown and has the cursor in its box, or [null] when there is none: a
    hidden widget, an advanced widget of a node that does not show them and
    a widget that was never drawn are never returned, and neither is any
    widget while the cursor is less than 6 units from the left edge of the
    node.  The cursor is in the box of the widget returned: at most 12 units
    short of its width on x, and between [last_y] and [last_y] plus its
    height on y, where width and height are those of [computeSize] on the
    width of the node when the widget has that method, and otherwise its
    [width], or the width of the node when that is missing or 0, and
    [NODE_WIDGET_HEIGHT]. *)
Theorem getWidgetAtCursor_first_shown_hit (H : float)
    (node_over : option WidgetNode) (graph_mouse : Point)
    (node : option WidgetNode) :
  let result := getWidgetAtCursor H node_over graph_mouse node in
  (result = None ↔ node = None ∧ node_over = None)
  ∧ ∀ n, (match node with Some n => Some n | None => node_over end) = Some n →
    let x := (px graph_mouse - px (widget_node_pos n))%float in
    let y := (py graph_mouse - py (widget_node_pos n))%float in
    let ws := default [] (widgets n) in
    (result = Some None
     ↔ ∀ w, w ∈ ws →
            widget_skipped n w = true ∨ widget_hit H n x y w = false)
    ∧ ∀ w, result = Some (Some w) →
           (∃ i, ws !! i = Some w
                 ∧ ∀ j w', (j < i)%nat → ws !! j = Some w' →
                           widget_skipped n w' = true
                           ∨ widget_hit H n x y w' = false)
           ∧ hidden w = false
           ∧ (advanced w = true → showAdvanced n = true)
           ∧ (∃ ly, last_y w = Some ly ∧ (ly <=? y)%float = true)
           ∧ (6 <=? x)%float = true
           ∧ widget_skipped n w = false
           ∧ widget_hit H n x y w = true
           ∧ (∀ f, computeSize w = Some f →
                   (x <=? (f (px (widget_node_size n))).1 - 12)%float = true
                   ∧ ∃ ly, last_y w = Some ly
                           ∧ (y <=? ly + (f (px (widget_node_size n))).2)%float
                             = true)
           ∧ (computeSize w = None →
              (x <=? match width w with
                     | Some v => if truthy_number v then v
                                 else px (widget_node_size n)
                     | None => px (widget_node_size n)
                     end - 12)%float = true
              ∧ ∃ ly, last_y w = Some ly ∧ (y <=? ly + H)%float = true).
Proof.
  intros result. split.
  - unfold result, getWidgetAtCursor. destruct node, node_over; simpl;
      split; (done || by intros [? ?]).
  - intros n Hn x y ws.
    assert (result = Some (getWidgetAtCursor_from H n x y ws)) as ->.
    { unfold result, getWidgetAtCursor. rewrite Hn. simpl. unfold ws.
      by destruct (widgets n). }
    pose proof (getWidgetAtCursor_from_spec H n x y ws) as Hspec.
    destruct (getWidgetAtCursor_from H n x y ws) as [w|].
    + destruct Hspec as (i & Hi & Hs & Hh & Hb). split.
      * split; [done|]. intros Hall.
        destruct (Hall w) as [E|E]; [by eapply list_elem_of_lookup_2|congruence..].
      * intros w' [= <-]. split; [by exists i|].
        pose proof Hs as Hskip. pose proof Hh as Hhit.
        unfold widget_skipped in Hs.
        apply orb_false_iff in Hs as [Hhid Hadv].
        split; [done|]. split.
        { intros Ha. rewrite Ha in Hadv. simpl in Hadv.
          by apply negb_false_iff in Hadv. }
        unfold widget_hit in Hh.
        destruct (widget_box H n w) as [ww wh] eqn:Ebox.
        destruct (last_y w) as [ly|]; [|done].
        apply andb_true_iff in Hh as [Hh Hy2].
        apply andb_true_iff in Hh as [Hh Hy].
        apply andb_true_iff in Hh as [Hx Hx2].
        split; [by exists ly|]. split; [done|].
        split; [done|]. split; [done|].
        unfold widget_box in Ebox. split.
        { intros f Hf. rewrite Hf in Ebox. rewrite Ebox. cbn [fst snd].
          split; [done|by exists ly]. }
        { intros Hf. rewrite Hf in Ebox. injection Ebox as <- <-.
          split; [done|by exists ly]. }
    + split; [done|]. intros w [=].
Qed.

(** The example node at (100, 100) with the cursor at (150, 140): the first
    widget is hidden, the second, of width 0, is tested with the width of
    the node and returned. *)
Lemma getWidgetAtCursor_first_shown_hit_witness :
  ∃ w, getWidgetAtCursor 20 None (mkPoint 150 140) (Some example_widget_node)
       = Some (Some w)
       ∧ hidden w = false ∧ width w = Some 0%float.
Proof.
  destruct (getWidgetAtCursor_first_shown_hit 20 None (mkPoint 150 140)
              (Some example_widget_node)) as [_ H].
  destruct (H example_widget_node eq_refl) as [_ Hw].
  eexists. split; [reflexivity|].
  split; [|reflexivity].
  by destruct (Hw _ eq_refl) as (_ & Hh & _).
Defined.

(** ** The deprecated entry point of the selection *)

(** X21: [processNodeSelected] on an item, with an event.  While shift, ctrl
    or meta is held or [multi_select] is on, it only ever adds: the
    selection afterwards is the one before plus the item, and no item is
    deselected, not even the item itself when it was selected.  Otherwise,
    on a canvas with a graph, the item becomes the only selected item. *)
Theorem processNodeSelected_only_adds (multi_select : bool) (item : Ref)
    (e : CanvasPointerEvent) (c : LGraphCanvas) :
  let c' := processNodeSelected multi_select (Some item) (Some e) c in
  let held := shiftKey e || metaKey e || ctrlKey e || multi_select in
  (held = true →
   (∀ x, x ∈ selectedItems (sel c') ↔ x = item ∨ x ∈ selectedItems (sel c))
   ∧ (∀ x, item_is_selected c x = true → item_is_selected c' x = true))
  ∧ (held = false → graph c ≠ None →
     ∀ x, x ∈ selectedItems (sel c') ↔ x = item).
Proof.
  intros c' held.
  assert (held = (shiftKey e || (metaKey e || ctrlKey e)) || multi_select)
    as Hheld.
  { unfold held. by destruct (shiftKey e), (metaKey e), (ctrlKey e). }
  unfold c', processNodeSelected, processSelect.
  cbn [from_option]. fold held. rewrite <- Hheld.
  split.
  - intros ->.
    destruct (negb (item_is_selected c item) || negb (has_item c item)) eqn:G.
    + cbn [negb]. split.
      * intros x. apply elem_of_select.
      * intros x Hx.
        change (item_is_selected (select item c) x = true).
        rewrite select_item_is_selected.
        by destruct (decide (x = item)).
    + cbn [negb andb].
      apply orb_false_iff in G as [_ G]. apply negb_false_iff in G.
      apply set_has_true in G.
      split; [|done].
      intros x. split; [by right|by intros [->|]].
  - intros -> Hg. cbn [negb andb].
    destruct (negb (item_is_selected c item) || negb (has_item c item)) eqn:G.
    + intros x.
      change (x ∈ selectedItems (sel (select item (deselectAll (Some item) c)))
              ↔ x = item).
      rewrite elem_of_select.
      destruct (deselectAll_selection (Some item) c Hg) as [_ Hm].
      rewrite Hm. split; [|by left]. intros [->|[_ [= ->]]]; done.
    + apply orb_false_iff in G as [_ G]. apply negb_false_iff in G.
      apply set_has_true in G. intros x.
      change (x ∈ selectedItems (sel (deselectAll (Some item) c)) ↔ x = item).
      destruct (deselectAll_selection (Some item) c Hg) as [_ Hm].
      rewrite Hm. split; [by intros [_ [= ->]]|by intros ->].
Qed.

(** A shift-click on node 2 of the example canvas after node 1 was
    selected: both are selected. *)
Lemma processNodeSelected_only_adds_witness :
  let e := {| canvasX := 0; canvasY := 0; clientX := 0; clientY := 0;
              button := 0; shiftKey := true; altKey := false;
              ctrlKey := false; metaKey := false; isPrimary := true |} in
  let c' := processNodeSelected false (Some 2%positive) (Some e)
              (select 1%positive example_canvas) in
  1%positive ∈ selectedItems (sel c') ∧ 2%positive ∈ selectedItems (sel c').
Proof.
  intros e c'.
  destruct (processNodeSelected_only_adds false 2%positive e
              (select 1%positive example_canvas)) as [H _].
  destruct (H eq_refl) as [Hm _].
  split; apply Hm; [right|by left].
  vm_compute. apply list_elem_of_here.
Defined.
